(* ===== verification/_CoqProject ===== *)
-Q . S2P
Prelude.v
Bytes.v
Wire.v
ProtoDef.v
NetUtil.v
Sha256.v
Hmac.v
Aes.v
AesModes.v
OrderedMap.v
PeerManage.v
TextFile.v
AntiAbuse.v
LicenseMgr.v
CfgFile.v
Packet.v
Handler.v
Fair.v
NatTypeCheck.v
Sockets.v
ProxyWeight.v
NatServer.v
RecvProcess.v
ServerSafety.v
ServerAuth.v
ServerLogin.v
ServerConnect.v
ServerQueries.v
ServerSync.v
ServerLoop.v
StatusServer.v
ServerRun.v
ServerStop.v
P2PProxy.v
RelayRun.v
ServerRelay.v
TunnelCodec.v
Session.v
ReliableLink.v
NatDetect.v
ClientState.v
ClientTunnel.v
P2PClient.v
ClientCrypto.v
ClientInvariant.v
ClientRun.v
ClientLock.v
ClientFaults.v
ClientRelay.v
ClientServer.v
ClientHeartbeat.v
ClientIntroduce.v
ClientRegister.v
ClientIce.v
ClientPunch.v
OldProto.v
OldPeer.v
OldPeerRuns.v
OldPeerMeet.v
DemoPeer.v
