(* ===== verification/Prelude.v ===== *)
(** * A model of the p2p_server NAT-traversal system

    ** The program

    The repository is a system by which two devices behind NATs reach each other.  A
    rendezvous server (src/server/natserver) keeps a registry of devices that
    authenticate and send heartbeats, tells two of them each other's addresses,
    replicates its registry to sibling servers, and answers administration and status
    queries.  A relay server (src/server/proxyserver) carries the tunnel frames of
    devices that cannot reach each other.  A client library (src/client/sdk) talks to
    both: it detects its NAT, logs in, keeps its registration alive, opens connections
    and carries messages over reliable or plain channels, encrypted end to end.  All
    share a wire protocol and a small cryptographic library (src/common).  Beside them
    are a demonstration client over the library (src/client/demo), and an earlier client
    (src/client/peer.cpp) of an earlier protocol (src/server/common).

    ** How it is modelled

    A [w]-bit integer is a [Z] below [2^w] with its wrap-around written out ([u8],
    [u16], [u32], [u64] of Bytes.v); an octet string is a [list Z]; a packed structure
    is a record with a codec, its memory image on a little-endian host (Wire.v).
    Unordered maps are finite maps, with the order of a traversal an argument
    ([ip_iter], [uuid_iter], [table_order]); ordered maps have a sorted traversal
    (OrderedMap.v).  What cannot go on, or is undefined in C++, is a [fault]:
    locking a mutex twice, reading or writing past an object, using a destroyed one
    ([outcome] below).  A handler is a function of the state that may fault and that
    lists its effects in order, in the monad of Handler.v: datagrams and files for the
    server, datagrams, callbacks and ICE calls for the client.  The clock, the random
    device, files and the results of system calls are fields of an environment ([env],
    [world], [setup]) that each operation is given, so that every theorem holds for
    all of them.  The definitions are executable; the witnesses evaluate them.

    Concurrency.  Every method of a component that locks runs as one step.  That this is
    right is shown for the client, whose mutex, sections and accesses without the mutex
    ClientLock.v takes apart.  A program of several threads is a state with the position of each thread in its code, and a
    schedule: a list of turns of its threads, each up to the next call that can wait, and
    of events outside - an arrival, a signal, a call of the application (ServerRun,
    RelayRun, ClientRun).  Invariants hold for all schedules; that a program stops is
    proved for fair ones, in which every round gives every thread a turn, through the
    class [Fair]: a measure that no turn raises and that one thread's turn lessens.  The
    bodies of the turns are in ServerLoop.v, P2PProxy.v and P2PClient.v.
    [ClientLock.client_sections_atomic] turns a schedule of the steps of a client's threads
    into a run of [ClientRun], and [ClientRun.client_serial] that into a sequence of calls
    ([ClientInvariant.call]), as long as no access without the mutex meets a section.  Two sessions over a network are a step
    relation in which any frame ever sent may arrive, any number of times (ReliableLink.v).

    ** The files, and what they model

    - Bytes, NetUtil, TextFile, OrderedMap: machine integers, byte order, C strings,
      decimal text, addresses (common/Util.h), line-based files and the encrypted
      container they may be in, std::map keyed by strings.
    - Wire, ProtoDef, Packet: the codecs and their laws (the class [CodecLaws], through
      which all clients of a structure use it), every structure, constant and message
      number of common/ProtoDef.h, and the 8-octet frame around a payload.
    - Sha256, Hmac, Aes, AesModes: common/Crypto.cpp.
    - PeerManage, AntiAbuse, LicenseMgr, CfgFile, NatTypeCheck: the classes of the same
      names in server/natserver/src.
    - NatServer, RecvProcess, ServerLoop, ProxyWeight: class NatServer: state and
      services, one definition per message of the packet switch, start-up and the turns
      of the threads; the floating-point draw of a relay.
    - StatusServer: server/natserver/src/StatusServer.cpp.
    - ServerRun: run, the threads and main of the server; ServerStop: how they end.
    - P2PProxy: server/proxyserver/src/P2PProxy.cpp; RelayRun: its threads and main.
    - Sockets: how the programs create and close their sockets; class UdpSocket.
    - TunnelCodec, Session, NatDetect: client/sdk/proto/Codec.h, session/Session.h,
      transport/NatDetect.h.
    - ClientState, ClientTunnel, P2PClient: client/sdk/api/P2PClient.h and P2PClient.cpp,
      the random octets of plat/Plat.h; ClientRun: the worker thread, start and stop;
      ClientLock: the mutex, and what goes on without it.
    - DemoPeer: client/demo/peer.cpp.
    - OldProto, OldPeer: server/common/ProtoDef.h and client/peer.cpp.
    - Handler: the monad, and the equations with which proofs step through a handler.
    - Fair: schedules, and why a program that is treated fairly comes to its end.
    The other files are proofs about these; each opens with what it shows.

    ** The theorems

    - The server stays up (ServerSafety, ServerLoop): every datagram but three kinds of
      request is handled without a fault, keeps the invariant, and is answered within
      the packet size; those three can be read past an object, and nothing else goes wrong
      in any interleaving of the threads ([packet_hazard]); when start-up ends and when it hangs; what a configuration file can and cannot set (CfgFile).
    - The programs as processes (ServerRun, ServerStop, RelayRun, ClientRun): what main
      makes of its arguments; in every schedule the invariant holds and the main thread
      goes on only past threads that have returned, unless a worker of the server takes one
      of those three requests; when a request to stop ends the program, and the schedules
      in which it does not.
    - The client's threads (ClientLock): at most one is in a section, and sections are
      atomic, as long as start, stop and the walk over the connections, which do not lock,
      meet none; schedules in which they do.
    - Who is let in (ServerAuth, ServerLogin): over the whole packet switch, only a
      signed login or registry row authenticates, only an admitted heartbeat or a signed
      row registers.  The frame rule behind this is the class [ServerAuth.Frame].
    - What the server does (ServerConnect, ServerQueries, ServerSync): logins,
      heartbeats, introductions, lists, administration, replication and how far it
      travels.  What bounds abuse (AntiAbuse, PeerManage, LicenseMgr).
    - The relay (P2PProxy, ServerRelay): its limit, its tables, forwarding, ageing, and
      what the server knows of it.
    - The client alone: an invariant of every state it can reach (ClientInvariant, whose
      [gives] is the proof rule for all handlers); what a connection, a login and a
      registration that go wrong lead to (ClientFaults, ClientRegister).
    - Sessions (Session, ReliableLink): reliable channels deliver a prefix of what was
      sent, in order and once; what is kept for retransmission, and that one round of it
      completes the transfer; the exception, the first message.
    - Client and servers together: the login (ClientServer), the encrypted heartbeat
      (ClientHeartbeat), the introduction of two clients (ClientIntroduce), their ICE
      descriptions (ClientIce), registration at a relay (ClientRegister), the connection
      they open, directly or through the relay (ClientPunch), a message through client,
      relay and client (ClientRelay), NAT detection behind cones that filter nothing, by
      address, or by address and port (NatDetect), the tunnel keys
      and frames of two clients (ClientCrypto).  These compose the two sides' own
      definitions; what one emits is literally what the other is given, with any octets
      after it in the receive buffer.
    - The earlier client (OldPeerRuns, OldPeerMeet, OldProto): it ends within 40 seconds
      as long as the texts it is sent end, two of them meet, what misleads it, and that the current servers do not answer it.
      What the two clients make of the same arguments (DemoPeer).
    - Cryptography: the incremental hash against a one-shot specification, key derivation
      against RFC 8018, decryption against encryption, refusal of a wrong tag.  Nothing
      is claimed of the strength of the primitives.

    ** Fuel

    The loops over input take fuel equal to the input's length (the hash, the stream and
    counter modes, key derivation) or to the number of bits ([NetUtil.dec_aux],
    [Aes.ginv_loop]); the lemmas that unfold them ([absorbed_update_loop],
    [stream_loop_keystream], [ctr_loop_spec], [pbkdf2_loop_T], [dec_u_step]) show that it
    is enough.  [ClientState.double_while] takes the exponent.  All others are
    structural.

    ** Not modelled

    What the operating system does inside a call: epoll, select, sockets and threads
    appear through their results.  Threads of one process are created in one step.
    Console output (common/Log.h), except what the demonstration client's loop prints.  A
    handler reads the clock once where the source may read it several times.  A thread's
    step under the mutex of the client is one handler, not one memory access.  Callbacks
    that call back into the client run after the handler, not within it.  The ICE library
    (libjuice) is not part of the repository: its calls are events of the client, and its
    callbacks and results are calls and environment.  The failure of a send is not
    modelled, nor is SIGPIPE at the status service.  Two threads of the server do not
    interleave within one handler.  tests/crypto_test.cpp is a test driver.

    ** What comes next

    Interleaving within a handler of the server, lock by lock; callbacks that call the
    client in the middle of a handler; the bounds of the back-off. *)

From stdpp Require Export base numbers list gmap sets sorting.
From Stdlib Require Export ZArith Lia.

#[export] Set Default Goal Selector "!".

Open Scope Z_scope.

(** ** Outcomes

    A C++ operation that finishes has a value; one that cannot finish, or
    whose behaviour the language leaves undefined, has a fault.  [Deadlock] is
    a thread that locks a [std::mutex] it already holds; [OutOfBounds] is a
    read or a write past the end of an object, and [UseAfterFree] an access to one
    that has been destroyed. *)

Inductive fault := Deadlock | OutOfBounds | UseAfterFree.

Inductive outcome (A : Type) :=
| Done (a : A)
| Fault (f : fault).

Arguments Done {A} a.
Arguments Fault {A} f.

#[export] Instance fault_eq_dec : EqDecision fault.
Proof. solve_decision. Defined.

#[export] Instance outcome_ret : MRet outcome := fun A a => Done a.

#[export] Instance outcome_bind : MBind outcome := fun A B k m =>
  match m with Done a => k a | Fault f => Fault f end.

Definition is_done {A} (o : outcome A) : bool :=
  match o with Done _ => true | Fault _ => false end.

(** ** Bytes and lengths *)

Abbreviation bytes := (list Z).

(** A value that one octet holds. *)
Definition byte_ok (b : Z) : Prop := 0 <= b < 256.

Abbreviation bytes_ok := (Forall byte_ok).

#[export] Instance byte_ok_dec b : Decision (byte_ok b).
Proof. unfold byte_ok. apply _. Defined.

(** [size_t] lengths as integers, to compare them with wire values. *)
Definition len {A} (l : list A) : Z := Z.of_nat (length l).

(** [n] elements of [l] from offset [off]. *)
Definition slice {A} (off n : nat) (l : list A) : list A := take n (drop off l).

(** ** Tactics *)

Create HintDb p2p.

(** Splits conjunctions in the context and in the goal. *)
Ltac split_all :=
  repeat match goal with
    | H : _ /\ _ |- _ => destruct H
    | |- _ /\ _ => split
    end.

(** Case analysis on every boolean or decidable test the goal matches on. *)
Ltac case_tests :=
  repeat (case_match || case_decide); simplify_eq/=; auto.

(** Linear arithmetic with the division and remainder of constants. *)
Ltac zdiv := Z.div_mod_to_equations; lia.

(** Decides a closed boolean or equational fact by computation. *)
Ltac by_computation := vm_compute; repeat split; congruence.

(** Decides a closed decidable proposition by computation. *)
Ltac decide_now := apply (bool_decide_unpack _); vm_compute; exact I.

(** Equality of two integers given by bit operations: compares bit by bit. *)
Ltac bit_specs :=
  repeat match goal with
    | |- context [Z.testbit (Z.lxor _ _) _] => rewrite Z.lxor_spec
    | |- context [Z.testbit (Z.land _ _) _] => rewrite Z.land_spec
    | |- context [Z.testbit (Z.lor _ _) _] => rewrite Z.lor_spec
    | |- context [Z.testbit (Z.shiftr _ _) _] => rewrite Z.shiftr_spec by lia
    | |- context [Z.testbit (Z.shiftl _ _) _] => rewrite Z.shiftl_spec by lia
    | |- context [Z.testbit (Z.ones _) _] => rewrite Z.testbit_ones_nonneg by lia
    | |- context [Z.testbit 0 _] => rewrite Z.bits_0
    end.

(** ** Lists *)

Lemma Forall_slice {A} (P : A -> Prop) off n l :
  Forall P l -> Forall P (slice off n l).
Proof. intros H. unfold slice. by apply Forall_take, Forall_drop. Qed.

Lemma length_slice {A} off n (l : list A) :
  (off + n <= length l)%nat -> length (slice off n l) = n.
Proof. intros H. unfold slice. rewrite length_take, length_drop. lia. Qed.

Lemma take_app_exact {A} n (l1 l2 : list A) :
  length l1 = n -> take n (l1 ++ l2) = l1.
Proof. intros <-. by rewrite take_app_length. Qed.

Lemma drop_app_exact {A} n (l1 l2 : list A) :
  length l1 = n -> drop n (l1 ++ l2) = l2.
Proof. intros <-. by rewrite drop_app_length. Qed.

Lemma bytes_ok_replicate n : bytes_ok (replicate n 0).
Proof. apply Forall_replicate. unfold byte_ok. lia. Qed.

#[export] Hint Resolve Forall_slice bytes_ok_replicate : p2p.
#[export] Hint Resolve Forall_take Forall_drop Forall_app_2 : p2p.

(** A property that a fold step keeps holds of the whole fold. *)
Lemma foldl_invariant {A B} (I : A -> Prop) (f : A -> B -> A) l a :
  I a -> (forall a b, b ∈ l -> I a -> I (f a b)) -> I (foldl f a l).
Proof.
  revert a. induction l as [|b l IH]; intros a Ha Hf; [done|].
  simpl. apply IH; [apply Hf; set_solver|].
  intros a' b' Hb. apply Hf. set_solver.
Qed.

(** A filtered sequence keeps its order and its distinctness. *)
Lemma StronglySorted_filter {A} (R : A -> A -> Prop) (P : A -> Prop) `{!forall x, Decision (P x)} l :
  StronglySorted R l -> StronglySorted R (filter P l).
Proof.
  induction 1 as [|x l Hl IH Hx]; [constructor|].
  rewrite filter_cons. destruct (decide (P x)); [|done].
  constructor; [done|]. rewrite Forall_forall in *. intros y [_ Hy]%list_elem_of_filter. by apply Hx.
Qed.

Lemma NoDup_map_filter {A B} (f : A -> B) (P : A -> Prop) `{!forall x, Decision (P x)} l :
  NoDup (map f l) -> NoDup (map f (filter P l)).
Proof.
  induction l as [|x l IH]; [done|]. cbn [map]. rewrite NoDup_cons. intros [Hx Hl].
  rewrite filter_cons. destruct (decide (P x)); [|by apply IH].
  cbn [map]. apply NoDup_cons. split; [|by apply IH].
  rewrite list_elem_of_fmap in Hx |- *. intros (y & E & Hy).
  apply list_elem_of_filter in Hy as [_ Hy]. naive_solver.
Qed.

Lemma filter_disjoint_length {A} (P Q : A -> Prop)
    `{!forall x, Decision (P x), !forall x, Decision (Q x)} l :
  (forall x, P x -> ~ Q x) -> (length (filter P l) + length (filter Q l) <= length l)%nat.
Proof.
  intros HPQ. induction l as [|x l IH]; [done|].
  rewrite !filter_cons. specialize (HPQ x).
  destruct (decide (P x)), (decide (Q x)); simpl; naive_solver lia.
Qed.

(** Bytewise exclusive or; the result has the length of the shorter list. *)
Definition xor_bytes (a b : bytes) : bytes := zip_with Z.lxor a b.

Lemma xor_bytes_involutive a k :
  (length a <= length k)%nat -> xor_bytes (xor_bytes a k) k = a.
Proof.
  unfold xor_bytes. revert k.
  induction a as [|x a IH]; intros [|y k] H; simpl in *; try done; try lia.
  f_equal; [|apply IH; lia].
  by rewrite Z.lxor_assoc, Z.lxor_nilpotent, Z.lxor_0_r.
Qed.

Lemma length_xor_bytes a k :
  length (xor_bytes a k) = Nat.min (length a) (length k).
Proof. apply length_zip_with. Qed.

(** ** Integers as bit strings *)

Lemma testbit_high x n i : 0 <= n -> 0 <= x < 2 ^ n -> n <= i -> Z.testbit x i = false.
Proof.
  intros Hn Hx Hi. rewrite <- (Z.mod_small x (2 ^ n)) by lia.
  by apply Z.mod_pow2_bits_high.
Qed.

(** Disjoint bit fields: the or of a shifted value and a small one is a sum. *)
Lemma lor_shiftl_add a b n :
  0 <= n -> 0 <= b < 2 ^ n -> Z.lor (Z.shiftl a n) b = a * 2 ^ n + b.
Proof.
  intros Hn Hb. rewrite <- Z.shiftl_mul_pow2 by done.
  rewrite Z.add_nocarry_lxor.
  - symmetry. apply Z.bits_inj'. intros i Hi.
    rewrite Z.lor_spec, Z.lxor_spec.
    destruct (decide (i < n)).
    + rewrite Z.shiftl_spec_low by lia. by destruct (Z.testbit b i).
    + rewrite (testbit_high b n) by lia. by rewrite orb_false_r, xorb_false_r.
  - apply Z.bits_inj'. intros i Hi. rewrite Z.land_spec, Z.bits_0.
    destruct (decide (i < n)).
    + by rewrite Z.shiftl_spec_low by lia.
    + by rewrite (testbit_high b n), andb_false_r by lia.
Qed.

Lemma lxor_range n a b :
  0 <= n -> 0 <= a < 2 ^ n -> 0 <= b < 2 ^ n -> 0 <= Z.lxor a b < 2 ^ n.
Proof.
  intros Hn Ha Hb.
  assert (Z.lxor a b = (Z.lxor a b) mod 2 ^ n) as E.
  { apply Z.bits_inj'. intros i Hi. rewrite Z.lxor_spec.
    destruct (decide (i < n)).
    - by rewrite Z.mod_pow2_bits_low, Z.lxor_spec by lia.
    - rewrite Z.mod_pow2_bits_high by lia. by rewrite !(testbit_high _ n) by lia. }
  rewrite E. apply Z.mod_pos_bound. lia.
Qed.

Lemma byte_ok_lxor a b : byte_ok a -> byte_ok b -> byte_ok (Z.lxor a b).
Proof. intros Ha Hb. by apply (lxor_range 8). Qed.

#[export] Hint Resolve byte_ok_lxor : p2p.

Lemma bytes_ok_xor a b : bytes_ok a -> bytes_ok b -> bytes_ok (xor_bytes a b).
Proof.
  unfold xor_bytes. intros Ha. revert b.
  induction Ha; intros [|y b] Hb; simpl; inversion_clear Hb; auto with p2p.
Qed.

#[export] Hint Resolve bytes_ok_xor : p2p.
