(* ===== verification/Bytes.v ===== *)
(** * Machine integers, byte order and C strings

    Fixed-width unsigned integers are [Z] values with an explicit wrap-around.
    The host is little-endian: a packed structure copied with [memcpy] shows the
    bytes of its integers low octet first, and [htons]/[ntohs]/[htonl]/[ntohl]
    swap octets.  C strings in fixed buffers are byte lists cut at the first
    zero octet. *)

From stdpp Require Export strings.
From Stdlib Require Ascii.
From S2P Require Import Prelude.

#[local] Open Scope Z_scope.

(** ** Wrap-around *)

Definition u8 (x : Z) : Z := Z.land x 255.
Definition u16 (x : Z) : Z := Z.land x 65535.
Definition u32 (x : Z) : Z := Z.land x 4294967295.
Definition u64 (x : Z) : Z := Z.land x 18446744073709551615.

(** Two's complement reading of the low 16 and 32 bits. *)
Definition s16 (x : Z) : Z := let y := u16 x in if y <? 32768 then y else y - 65536.
Definition s32 (x : Z) : Z := let y := u32 x in if y <? 2147483648 then y else y - 4294967296.

Definition u16_ok (x : Z) : Prop := 0 <= x < 65536.
Definition u32_ok (x : Z) : Prop := 0 <= x < 4294967296.
Definition u64_ok (x : Z) : Prop := 0 <= x < 18446744073709551616.

(** ** Octet order *)

Fixpoint le_enc (n : nat) (x : Z) : bytes :=
  match n with
  | O => []
  | S n => Z.land x 255 :: le_enc n (Z.shiftr x 8)
  end.

Fixpoint le_dec (l : bytes) : Z :=
  match l with
  | [] => 0
  | b :: l => b + 256 * le_dec l
  end.

Definition be_enc (n : nat) (x : Z) : bytes := rev (le_enc n x).
Definition be_dec (l : bytes) : Z := le_dec (rev l).

(** [htons] and [ntohs] of a little-endian host. *)
Definition htons (x : Z) : Z := u16 (Z.lor (Z.shiftr x 8) (Z.shiftl x 8)).
Abbreviation ntohs := htons.

(** [htonl] and [ntohl] of a little-endian host. *)
Definition htonl (x : Z) : Z := le_dec (rev (le_enc 4 x)).
Abbreviation ntohl := htonl.

(** ** C strings and fixed buffers *)

(** The octets of a string literal, without the terminating zero. *)
Definition bs (s : string) : bytes :=
  map (fun c => Z.of_N (Ascii.N_of_ascii c)) (String.list_ascii_of_string s).
Arguments bs s%_string.

(** The bytes before the first zero octet: [std::string(const char* )]. *)
Fixpoint c_str (l : bytes) : bytes :=
  match l with
  | [] => []
  | b :: l => if b =? 0 then [] else b :: c_str l
  end.

(** [strnlen] then a copy: the string a [n]-byte buffer holds. *)
Definition c_strn (n : nat) (l : bytes) : bytes := c_str (take n l).

(** Pads with zero octets, or cuts, to [n] bytes. *)
Definition pad_to (n : nat) (l : bytes) : bytes := take n (l ++ replicate n 0).

(** A zeroed [size]-byte buffer after [strncpy(buf, s, n)]. *)
Definition strncpy_z (size n : nat) (s : bytes) : bytes := pad_to size (take n (c_str s)).

(** Strict lexicographic order on octets, the order of [std::map<std::string, _>]. *)
Fixpoint bytes_ltb (a b : bytes) : bool :=
  match a, b with
  | _, [] => false
  | [], _ :: _ => true
  | x :: a, y :: b => if x <? y then true else if y <? x then false else bytes_ltb a b
  end.

Definition bytes_le (a b : bytes) : Prop := bytes_ltb b a = false.

#[export] Instance bytes_le_dec a b : Decision (bytes_le a b).
Proof. unfold bytes_le. apply _. Defined.

(** ** Wrap-around is the remainder *)

Lemma u8_mod x : u8 x = x mod 256.
Proof. apply (Z.land_ones x 8). lia. Qed.
Lemma u16_mod x : u16 x = x mod 65536.
Proof. apply (Z.land_ones x 16). lia. Qed.
Lemma u32_mod x : u32 x = x mod 4294967296.
Proof. apply (Z.land_ones x 32). lia. Qed.
Lemma u64_mod x : u64 x = x mod 18446744073709551616.
Proof. apply (Z.land_ones x 64). lia. Qed.

Lemma u8_range x : byte_ok (u8 x).
Proof. rewrite u8_mod. unfold byte_ok. apply Z.mod_pos_bound. lia. Qed.
Lemma u16_range x : u16_ok (u16 x).
Proof. rewrite u16_mod. unfold u16_ok. apply Z.mod_pos_bound. lia. Qed.
Lemma u32_range x : u32_ok (u32 x).
Proof. rewrite u32_mod. unfold u32_ok. apply Z.mod_pos_bound. lia. Qed.

Lemma u8_small x : byte_ok x -> u8 x = x.
Proof. rewrite u8_mod. unfold byte_ok. intros H. by apply Z.mod_small. Qed.
Lemma u16_small x : u16_ok x -> u16 x = x.
Proof. rewrite u16_mod. unfold u16_ok. intros H. by apply Z.mod_small. Qed.
Lemma u32_small x : u32_ok x -> u32 x = x.
Proof. rewrite u32_mod. unfold u32_ok. intros H. by apply Z.mod_small. Qed.

#[export] Hint Resolve u8_range u16_range u32_range : p2p.

(** ** Encodings *)

Lemma land255 x : Z.land x 255 = x mod 256.
Proof. apply u8_mod. Qed.

Lemma shiftr8 x : Z.shiftr x 8 = x / 256.
Proof. by rewrite Z.shiftr_div_pow2 by lia. Qed.

Lemma length_le_enc n x : length (le_enc n x) = n.
Proof. revert x. induction n; intros x; simpl; auto. Qed.

Lemma length_be_enc n x : length (be_enc n x) = n.
Proof. unfold be_enc. by rewrite length_rev, length_le_enc. Qed.

Lemma bytes_ok_le_enc n x : bytes_ok (le_enc n x).
Proof.
  revert x. induction n; intros x; simpl; constructor; [|done].
  apply u8_range.
Qed.

Lemma bytes_ok_rev l : bytes_ok l -> bytes_ok (rev l).
Proof. rewrite !List.Forall_forall. intros H x Hx. apply H. by apply in_rev. Qed.

Lemma bytes_ok_be_enc n x : bytes_ok (be_enc n x).
Proof. apply bytes_ok_rev, bytes_ok_le_enc. Qed.

#[export] Hint Resolve bytes_ok_le_enc bytes_ok_rev bytes_ok_be_enc : p2p.

Lemma pow256_S n : 256 ^ Z.of_nat (S n) = 256 * 256 ^ Z.of_nat n.
Proof. rewrite Nat2Z.inj_succ, Z.pow_succ_r by lia. done. Qed.

Lemma le_dec_enc n x : le_dec (le_enc n x) = x mod 256 ^ Z.of_nat n.
Proof.
  revert x. induction n as [|n IH]; intros x.
  - simpl. by rewrite Z.mod_1_r.
  - simpl le_enc. cbn [le_dec]. rewrite IH, land255, shiftr8, pow256_S.
    rewrite (Z.rem_mul_r x 256) by lia. lia.
Qed.

Lemma le_dec_range l : bytes_ok l -> 0 <= le_dec l < 256 ^ len l.
Proof.
  unfold len. induction 1 as [|b l Hb Hl IH]; [simpl; lia|].
  cbn [length le_dec]. rewrite pow256_S. unfold byte_ok in Hb. nia.
Qed.

Lemma le_enc_dec l : bytes_ok l -> le_enc (length l) (le_dec l) = l.
Proof.
  induction 1 as [|b l Hb Hl IH]; [done|].
  cbn [length le_dec le_enc]. rewrite land255, shiftr8. unfold byte_ok in Hb.
  replace ((b + 256 * le_dec l) mod 256) with b by zdiv.
  replace ((b + 256 * le_dec l) / 256) with (le_dec l) by zdiv.
  by rewrite IH.
Qed.

Lemma le_dec_enc_small n x : 0 <= x < 256 ^ Z.of_nat n -> le_dec (le_enc n x) = x.
Proof. intros H. rewrite le_dec_enc. by apply Z.mod_small. Qed.

Lemma be_dec_enc_small n x : 0 <= x < 256 ^ Z.of_nat n -> be_dec (be_enc n x) = x.
Proof. intros H. unfold be_dec, be_enc. rewrite rev_involutive. by apply le_dec_enc_small. Qed.

Lemma be_enc_dec l : bytes_ok l -> be_enc (length l) (be_dec l) = l.
Proof.
  intros H. unfold be_enc, be_dec.
  rewrite <- (length_rev l), le_enc_dec by auto with p2p. apply rev_involutive.
Qed.

(** [htons] swaps the two octets. *)
Lemma htons_swap x : u16_ok x -> htons x = 256 * (x mod 256) + x / 256.
Proof.
  unfold u16_ok, htons. intros H. rewrite Z.lor_comm, shiftr8.
  rewrite lor_shiftl_add by zdiv. rewrite u16_mod. zdiv.
Qed.

Lemma htons_range x : u16_ok (htons x).
Proof. apply u16_range. Qed.

(** [ntohs] undoes [htons]. *)
Lemma htons_involutive x : u16_ok x -> htons (htons x) = x.
Proof.
  intros H. rewrite (htons_swap (htons x)) by apply htons_range.
  rewrite htons_swap by done. unfold u16_ok in H. zdiv.
Qed.

(** Stored by a little-endian host, [htons x] shows [x] high octet first. *)
Lemma le_enc_htons x : u16_ok x -> le_enc 2 (htons x) = be_enc 2 x.
Proof.
  intros H. rewrite htons_swap by done. unfold u16_ok in H.
  unfold be_enc. cbn [le_enc rev app]. rewrite !land255, !shiftr8.
  f_equal; [zdiv|]. f_equal. zdiv.
Qed.

Lemma htonl_range x : u32_ok (htonl x).
Proof. apply (le_dec_range (rev (le_enc 4 x))). auto with p2p. Qed.

Lemma le_enc_htonl x : le_enc 4 (htonl x) = be_enc 4 x.
Proof. unfold htonl. apply (le_enc_dec (rev (le_enc 4 x))). auto with p2p. Qed.

(** [ntohl] undoes [htonl]. *)
Lemma htonl_involutive x : u32_ok x -> htonl (htonl x) = x.
Proof.
  intros H. unfold htonl at 1. rewrite le_enc_htonl. unfold be_enc.
  rewrite rev_involutive. by apply le_dec_enc_small.
Qed.

#[export] Hint Resolve htons_range htonl_range : p2p.

(** ** C strings *)

Lemma c_str_bytes_ok l : bytes_ok l -> bytes_ok (c_str l).
Proof.
  induction 1 as [|b l Hb Hl IH]; simpl; [constructor|].
  destruct (b =? 0); constructor; auto.
Qed.

(** A byte string without a zero octet. *)
Definition no_nul (l : bytes) : Prop := Forall (fun b => b <> 0) l.

Lemma c_str_no_nul l : no_nul (c_str l).
Proof.
  induction l as [|b l IH]; simpl; [constructor|].
  destruct (Z.eqb_spec b 0); constructor; auto.
Qed.

Lemma c_str_id l : no_nul l -> c_str l = l.
Proof.
  induction 1 as [|b l Hb Hl IH]; simpl; [done|].
  destruct (Z.eqb_spec b 0); [done|]. by rewrite IH.
Qed.

Lemma c_str_app_nul l r : no_nul l -> c_str (l ++ 0 :: r) = l.
Proof.
  induction 1 as [|b l Hb Hl IH]; simpl; [done|].
  destruct (Z.eqb_spec b 0); [done|]. by rewrite IH.
Qed.

Lemma c_str_length l : (length (c_str l) <= length l)%nat.
Proof. induction l as [|b l IH]; simpl; [lia|]. destruct (b =? 0); simpl; lia. Qed.

Lemma no_nul_take n l : no_nul l -> no_nul (take n l).
Proof. apply Forall_take. Qed.

#[export] Hint Resolve c_str_bytes_ok c_str_no_nul no_nul_take : p2p.

Lemma length_pad_to n l : length (pad_to n l) = n.
Proof. unfold pad_to. rewrite length_take, length_app, length_replicate. lia. Qed.

Lemma pad_to_ok n l : bytes_ok l -> bytes_ok (pad_to n l).
Proof. unfold pad_to. auto 6 with p2p. Qed.

Lemma pad_to_short n l :
  (length l <= n)%nat -> pad_to n l = l ++ replicate (n - length l) 0.
Proof.
  intros H. unfold pad_to. rewrite take_app, (take_ge l) by lia.
  f_equal. rewrite take_replicate. f_equal. lia.
Qed.

Lemma length_strncpy_z size n s : length (strncpy_z size n s) = size.
Proof. apply length_pad_to. Qed.

Lemma strncpy_z_ok size n s : bytes_ok s -> bytes_ok (strncpy_z size n s).
Proof. intros H. unfold strncpy_z. apply pad_to_ok. auto with p2p. Qed.

#[export] Hint Resolve pad_to_ok strncpy_z_ok : p2p.

(** Reading back a string that fits in the buffer with its terminator. *)
Lemma c_str_strncpy_z size n s :
  no_nul s -> (length s <= n)%nat -> (n < size)%nat -> c_str (strncpy_z size n s) = s.
Proof.
  intros Hs Hn Hsz. unfold strncpy_z. rewrite (c_str_id s) by done.
  rewrite take_ge by lia. rewrite pad_to_short by lia.
  destruct (size - length s)%nat eqn:E; [lia|]. simpl. by apply c_str_app_nul.
Qed.

(** ** The order on octet strings *)

Lemma bytes_ltb_irrefl a : bytes_ltb a a = false.
Proof. induction a as [|x a IH]; simpl; [done|]. by rewrite Z.ltb_irrefl. Qed.

Lemma bytes_ltb_trans a b c :
  bytes_ltb a b = true -> bytes_ltb b c = true -> bytes_ltb a c = true.
Proof.
  revert b c. induction a as [|x a IH]; intros [|y b] [|z c]; simpl; try done.
  destruct (Z.ltb_spec x y), (Z.ltb_spec y x), (Z.ltb_spec y z), (Z.ltb_spec z y),
    (Z.ltb_spec x z), (Z.ltb_spec z x); try done; try lia. apply IH.
Qed.

Lemma bytes_ltb_total a b :
  bytes_ltb a b = false -> bytes_ltb b a = false -> a = b.
Proof.
  revert b. induction a as [|x a IH]; intros [|y b]; simpl; try done.
  destruct (Z.ltb_spec x y), (Z.ltb_spec y x); try done.
  intros H1 H2. f_equal; [lia|]. by apply IH.
Qed.

Lemma bytes_ltb_asym a b : bytes_ltb a b = true -> bytes_ltb b a = false.
Proof.
  intros H. destruct (bytes_ltb b a) eqn:E; [|done].
  pose proof (bytes_ltb_trans _ _ _ H E) as C. by rewrite bytes_ltb_irrefl in C.
Qed.

#[export] Instance bytes_le_total : Total bytes_le.
Proof.
  intros a b. unfold bytes_le. destruct (bytes_ltb b a) eqn:E; [|by left].
  right. by apply bytes_ltb_asym.
Qed.

#[export] Instance bytes_le_trans : Transitive bytes_le.
Proof.
  intros a b c. unfold bytes_le. intros H1 H2.
  destruct (bytes_ltb c a) eqn:E; [|done].
  destruct (bytes_ltb a b) eqn:E'.
  - by rewrite (bytes_ltb_trans _ _ _ E E') in H2.
  - rewrite (bytes_ltb_total a b) in E by done. congruence.
Qed.

#[export] Instance bytes_le_antisym : AntiSymm (=) bytes_le.
Proof. intros a b H1 H2. by apply bytes_ltb_total. Qed.
