(* ===== verification/Wire.v ===== *)
(** * Packed structures

    A [codec A] is the memory image of a packed structure: its size, the bytes
    [memcpy] writes for a value, the value [memcpy] reads, and when a value fits
    the field widths.  [CodecLaws] states what the server and the client rely on
    when they copy structures into and out of datagrams; every structure of
    [ProtoDef] is an instance by composition of the field codecs. *)

From S2P Require Import Prelude.
From S2P Require Import Bytes.

#[local] Open Scope Z_scope.

Record codec (A : Type) := Codec {
  csize : nat;
  cenc : A -> bytes;
  cdec : bytes -> A;
  cok : A -> Prop
}.

Arguments Codec {A}.
Arguments csize {A}.
Arguments cenc {A}.
Arguments cdec {A}.
Arguments cok {A}.

(** Field codecs: an unsigned integer of [n] octets in host order, a byte array. *)
Definition c_uint (n : nat) : codec Z := {|
  csize := n;
  cenc := le_enc n;
  cdec := fun l => le_dec (take n l);
  cok := fun x => 0 <= x < 256 ^ Z.of_nat n
|}.

Definition c_u8 := c_uint 1.
Definition c_u16 := c_uint 2.
Definition c_u32 := c_uint 4.

Definition c_bytes (n : nat) : codec bytes := {|
  csize := n;
  cenc := fun l => l;
  cdec := take n;
  cok := fun l => length l = n /\ bytes_ok l
|}.

(** Consecutive fields. *)
Definition c_pair {A B} (c : codec A) (d : codec B) : codec (A * B) := {|
  csize := csize c + csize d;
  cenc := fun p => cenc c p.1 ++ cenc d p.2;
  cdec := fun l => (cdec c l, cdec d (drop (csize c) l));
  cok := fun p => cok c p.1 /\ cok d p.2
|}.

Infix "+:+" := c_pair (at level 60, right associativity).

(** [n] consecutive elements: an array member. *)
Fixpoint rep_dec {A} (c : codec A) (n : nat) (l : bytes) : list A :=
  match n with
  | O => []
  | S n => cdec c l :: rep_dec c n (drop (csize c) l)
  end.

Definition c_rep {A} (n : nat) (c : codec A) : codec (list A) := {|
  csize := n * csize c;
  cenc := fun l => concat (map (cenc c) l);
  cdec := rep_dec c n;
  cok := fun l => length l = n /\ Forall (cok c) l
|}.

(** A record read as the tuple of its members. *)
Definition c_iso {A B} (f : A -> B) (g : B -> A) (c : codec B) : codec A := {|
  csize := csize c;
  cenc := fun a => cenc c (f a);
  cdec := fun l => g (cdec c l);
  cok := fun a => cok c (f a)
|}.

(** What a client of a structure may assume of its memory image. *)
Class CodecLaws {A} (c : codec A) : Prop := {
  codec_size a : cok c a -> length (cenc c a) = csize c;
  codec_bytes a : cok c a -> bytes_ok (cenc c a);
  codec_dec_enc a rest : cok c a -> cdec c (cenc c a ++ rest) = a;
  codec_dec_ok l : bytes_ok l -> (csize c <= length l)%nat -> cok c (cdec c l);
  codec_enc_dec l :
    bytes_ok l -> (csize c <= length l)%nat -> cenc c (cdec c l) = take (csize c) l
}.

#[export] Instance c_uint_laws n : CodecLaws (c_uint n).
Proof.
  split; simpl.
  - intros a _. apply length_le_enc.
  - intros a _. apply bytes_ok_le_enc.
  - intros a rest H. rewrite take_app_exact by apply length_le_enc.
    by apply le_dec_enc_small.
  - intros l Hl Hn. pose proof (le_dec_range (take n l) (Forall_take _ _ _ Hl)) as R.
    unfold len in R. by rewrite length_take_le in R.
  - intros l Hl Hn. rewrite <- (length_take_le l n) at 1 by done.
    apply le_enc_dec. by apply Forall_take.
Qed.

#[export] Instance c_bytes_laws n : CodecLaws (c_bytes n).
Proof.
  split; simpl.
  - by intros a [? _].
  - by intros a [_ ?].
  - intros a rest [H _]. by apply take_app_exact.
  - intros l Hl Hn. split; [by apply length_take_le|by apply Forall_take].
  - done.
Qed.

#[export] Instance c_pair_laws {A B} (c : codec A) (d : codec B) :
  CodecLaws c -> CodecLaws d -> CodecLaws (c_pair c d).
Proof.
  intros Hc Hd. split; simpl.
  - intros [a b] [Ha Hb]. rewrite length_app. f_equal; by apply codec_size.
  - intros [a b] [Ha Hb]. apply Forall_app_2; by apply codec_bytes.
  - intros [a b] rest [Ha Hb]. simpl in *. rewrite <- app_assoc.
    rewrite codec_dec_enc, drop_app_exact, codec_dec_enc; auto using codec_size.
  - intros l Hl Hn. split; apply codec_dec_ok; try by apply Forall_drop.
    all: rewrite ?length_drop; try done; lia.
  - intros l Hl Hn. rewrite !codec_enc_dec;
      try (by apply Forall_drop); rewrite ?length_drop; try done; try lia.
    rewrite <- (take_drop (csize c) (take (csize c + csize d) l)).
    rewrite take_take, <- take_drop_commute. do 2 f_equal; lia.
Qed.

#[export] Instance c_iso_laws {A B} (f : A -> B) (g : B -> A) (c : codec B) :
  CodecLaws c -> (forall a, g (f a) = a) -> (forall b, f (g b) = b) ->
  CodecLaws (c_iso f g c).
Proof.
  intros Hc Hgf Hfg. split; simpl; intros.
  - by apply codec_size.
  - by apply codec_bytes.
  - by rewrite codec_dec_enc.
  - rewrite Hfg. by apply codec_dec_ok.
  - rewrite Hfg. by apply codec_enc_dec.
Qed.

#[export] Instance c_rep_laws {A} n (c : codec A) : CodecLaws c -> CodecLaws (c_rep n c).
Proof.
  intros Hc. split; simpl.
  - induction n as [|n IH]; intros [|a l] [Hn Hl]; simpl in *; try done.
    inversion_clear Hl. rewrite length_app, codec_size, IH; auto.
  - intros l [_ Hl]. clear n. induction Hl; simpl; [constructor|].
    apply Forall_app_2; [by apply codec_bytes|done].
  - induction n as [|n IH]; intros [|a l] rest [Hn Hl]; simpl in *; try done.
    inversion_clear Hl. rewrite <- app_assoc, codec_dec_enc, drop_app_exact by auto using codec_size.
    f_equal. apply IH. auto.
  - induction n as [|n IH]; intros l Hl Hn; simpl in *; [by split|].
    destruct (IH (drop (csize c) l)) as [E F];
      [by apply Forall_drop|rewrite length_drop; lia|].
    split; [by rewrite E|]. constructor; [|done]. apply codec_dec_ok; [done|lia].
  - induction n as [|n IH]; intros l Hl Hn; simpl in *; [done|].
    rewrite codec_enc_dec by (done || lia).
    rewrite IH by (try apply Forall_drop; rewrite ?length_drop; done || lia).
    rewrite <- (take_drop (csize c) (take (csize c + n * csize c) l)).
    rewrite take_take, <- take_drop_commute. do 2 f_equal; lia.
Qed.

(** Discharges the laws of a structure declared with [c_iso]. *)
Ltac codec_laws :=
  apply c_iso_laws;
  [ apply _
  | by intros []
  | intros; repeat match goal with p : _ * _ |- _ => destruct p end; done ].

(** The bytes after the structure are left alone. *)
Lemma codec_rest {A} (c : codec A) `{!CodecLaws c} a rest :
  cok c a -> drop (csize c) (cenc c a ++ rest) = rest.
Proof. intros H. apply drop_app_exact. by apply codec_size. Qed.
