(* ===== verification/ProtoDef.v ===== *)
(** * The wire protocol: constants, message numbers and packed structures

    Models [common/ProtoDef.h].  A structure is a record with the source's
    members and a codec; integer members hold the host's reading of the stored
    octets, so a member in network order holds [htons]/[htonl] of its value. *)

From S2P Require Import Prelude.
From S2P Require Import Bytes.
From S2P Require Import Wire.

#[local] Open Scope Z_scope.

(** ** Constants *)

Definition NAT_MAGIC : Z := 22606.
Definition PROTO_VER : Z := 2.
Definition MAX_UUID_LEN : nat := 32.
Definition MAX_IP_LEN : nat := 16.
Definition MAX_PKT : nat := 2048.
Definition MAX_EXTINFO : nat := 1024.
Definition TUNNEL_MAGIC : Z := 20564.
Definition TUNNEL_VER : Z := 1.
Definition MAX_TUNNEL_PAYLOAD : nat := 1200.
Definition TF_RELIABLE : Z := 1.
Definition TF_ENC : Z := 2.
Definition TUNNEL_KEY_PREFIX : bytes := bs "P2P-TUNNEL-KEY:".
Definition SYNC_HOP_MAX : Z := 3.
Definition SYNC_HOP_SNAP : Z := 255.
Definition SYNC_SNAPSHOT_INTERVAL : Z := 30.

(** ** Enumerations *)

Inductive NatType := NAT_UNKNOWN | NAT_FULL_CONE | NAT_PORT_RESTRICTED | NAT_SYMMETRIC.

Definition nat_type (t : NatType) : Z :=
  match t with
  | NAT_UNKNOWN => 0 | NAT_FULL_CONE => 1 | NAT_PORT_RESTRICTED => 2 | NAT_SYMMETRIC => 3
  end.

Inductive TunnelType := TT_DATA | TT_ACK | TT_PING | TT_PONG | TT_CLOSE.

Definition tunnel_type (t : TunnelType) : Z :=
  match t with TT_DATA => 0 | TT_ACK => 1 | TT_PING => 2 | TT_PONG => 3 | TT_CLOSE => 4 end.

Definition tunnel_type_of (x : Z) : option TunnelType :=
  if x =? 0 then Some TT_DATA else
  if x =? 1 then Some TT_ACK else
  if x =? 2 then Some TT_PING else
  if x =? 3 then Some TT_PONG else
  if x =? 4 then Some TT_CLOSE else
  None.

Definition CONNECT_OK : Z := 0.
Definition CONNECT_OFFLINE : Z := 1.
Definition CONNECT_NOT_FOUND : Z := 2.

Definition AUTH_OK : Z := 0.
Definition AUTH_BAD_NONCE : Z := 1.
Definition AUTH_BAD_MAC : Z := 2.
Definition AUTH_BLACKLIST : Z := 3.
Definition AUTH_WHITELIST_REJ : Z := 4.

Inductive MsgId :=
| MSG_HEARTBEAT_REQ
| MSG_HEARTBEAT_RSP
| MSG_SND_EXTINFO_REQ
| MSG_ASK_EXTINFO_REQ
| MSG_ASK_EXTINFO_RSP
| MSG_CONNECT_REQ
| MSG_CONNECT_ACK
| MSG_CONNECT_INVITE
| MSG_GET_DEV_LIST_REQ
| MSG_GET_DEV_LIST_RSP
| MSG_GET_SERVER_LIST_REQ
| MSG_GET_SERVER_LIST_RSP
| MSG_ADD_UID_REQ
| MSG_DELETE_UID_REQ
| MSG_CHECK_UID_REQ
| MSG_SP_ASK_EXTINFO_REQ
| MSG_SP_ASK_EXTINFO_RSP
| MSG_CHECK_UID_RSP
| MSG_NAT_DETECT_REQ
| MSG_NAT_DETECT_RSP
| MSG_AUTH_CHALLENGE_REQ
| MSG_AUTH_CHALLENGE_RSP
| MSG_AUTH_LOGIN_REQ
| MSG_AUTH_LOGIN_RSP
| MSG_ADMIN_STATS_REQ
| MSG_ADMIN_STATS_RSP
| MSG_ADMIN_BLACKLIST_REQ
| MSG_ADMIN_BLACKLIST_RSP
| MSG_ICE_SDP
| MSG_HEARTBEAT_REQ_ENC
| MSG_HEARTBEAT_RSP_ENC
| MSG_SYNC_PEER_ENTRY
| MSG_SYNC_PEER_DEL
| MSG_SYNC_SNAPSHOT_REQ
| MSG_PROXY_REGISTER_REQ
| MSG_PROXY_REGISTER_RSP
| MSG_PROXY_UNREGISTER_REQ
| MSG_PROXY_RELAY_DATA
| MSG_PROXY_PUNCH_HELPER.

Definition msg_id (m : MsgId) : Z :=
  match m with
  | MSG_HEARTBEAT_REQ => 1
  | MSG_HEARTBEAT_RSP => 2
  | MSG_SND_EXTINFO_REQ => 3
  | MSG_ASK_EXTINFO_REQ => 4
  | MSG_ASK_EXTINFO_RSP => 5
  | MSG_CONNECT_REQ => 6
  | MSG_CONNECT_ACK => 7
  | MSG_CONNECT_INVITE => 8
  | MSG_GET_DEV_LIST_REQ => 9
  | MSG_GET_DEV_LIST_RSP => 10
  | MSG_GET_SERVER_LIST_REQ => 11
  | MSG_GET_SERVER_LIST_RSP => 12
  | MSG_ADD_UID_REQ => 13
  | MSG_DELETE_UID_REQ => 14
  | MSG_CHECK_UID_REQ => 15
  | MSG_SP_ASK_EXTINFO_REQ => 16
  | MSG_SP_ASK_EXTINFO_RSP => 17
  | MSG_CHECK_UID_RSP => 18
  | MSG_NAT_DETECT_REQ => 19
  | MSG_NAT_DETECT_RSP => 20
  | MSG_AUTH_CHALLENGE_REQ => 21
  | MSG_AUTH_CHALLENGE_RSP => 22
  | MSG_AUTH_LOGIN_REQ => 23
  | MSG_AUTH_LOGIN_RSP => 24
  | MSG_ADMIN_STATS_REQ => 25
  | MSG_ADMIN_STATS_RSP => 26
  | MSG_ADMIN_BLACKLIST_REQ => 29
  | MSG_ADMIN_BLACKLIST_RSP => 30
  | MSG_ICE_SDP => 31
  | MSG_HEARTBEAT_REQ_ENC => 27
  | MSG_HEARTBEAT_RSP_ENC => 28
  | MSG_SYNC_PEER_ENTRY => 48
  | MSG_SYNC_PEER_DEL => 49
  | MSG_SYNC_SNAPSHOT_REQ => 50
  | MSG_PROXY_REGISTER_REQ => 32
  | MSG_PROXY_REGISTER_RSP => 33
  | MSG_PROXY_UNREGISTER_REQ => 34
  | MSG_PROXY_RELAY_DATA => 35
  | MSG_PROXY_PUNCH_HELPER => 36
  end.

(** The case a [switch] on the octet takes; [None] is the default case. *)
Definition msg_of (x : Z) : option MsgId :=
  if x =? 1 then Some MSG_HEARTBEAT_REQ else
  if x =? 2 then Some MSG_HEARTBEAT_RSP else
  if x =? 3 then Some MSG_SND_EXTINFO_REQ else
  if x =? 4 then Some MSG_ASK_EXTINFO_REQ else
  if x =? 5 then Some MSG_ASK_EXTINFO_RSP else
  if x =? 6 then Some MSG_CONNECT_REQ else
  if x =? 7 then Some MSG_CONNECT_ACK else
  if x =? 8 then Some MSG_CONNECT_INVITE else
  if x =? 9 then Some MSG_GET_DEV_LIST_REQ else
  if x =? 10 then Some MSG_GET_DEV_LIST_RSP else
  if x =? 11 then Some MSG_GET_SERVER_LIST_REQ else
  if x =? 12 then Some MSG_GET_SERVER_LIST_RSP else
  if x =? 13 then Some MSG_ADD_UID_REQ else
  if x =? 14 then Some MSG_DELETE_UID_REQ else
  if x =? 15 then Some MSG_CHECK_UID_REQ else
  if x =? 16 then Some MSG_SP_ASK_EXTINFO_REQ else
  if x =? 17 then Some MSG_SP_ASK_EXTINFO_RSP else
  if x =? 18 then Some MSG_CHECK_UID_RSP else
  if x =? 19 then Some MSG_NAT_DETECT_REQ else
  if x =? 20 then Some MSG_NAT_DETECT_RSP else
  if x =? 21 then Some MSG_AUTH_CHALLENGE_REQ else
  if x =? 22 then Some MSG_AUTH_CHALLENGE_RSP else
  if x =? 23 then Some MSG_AUTH_LOGIN_REQ else
  if x =? 24 then Some MSG_AUTH_LOGIN_RSP else
  if x =? 25 then Some MSG_ADMIN_STATS_REQ else
  if x =? 26 then Some MSG_ADMIN_STATS_RSP else
  if x =? 29 then Some MSG_ADMIN_BLACKLIST_REQ else
  if x =? 30 then Some MSG_ADMIN_BLACKLIST_RSP else
  if x =? 31 then Some MSG_ICE_SDP else
  if x =? 27 then Some MSG_HEARTBEAT_REQ_ENC else
  if x =? 28 then Some MSG_HEARTBEAT_RSP_ENC else
  if x =? 48 then Some MSG_SYNC_PEER_ENTRY else
  if x =? 49 then Some MSG_SYNC_PEER_DEL else
  if x =? 50 then Some MSG_SYNC_SNAPSHOT_REQ else
  if x =? 32 then Some MSG_PROXY_REGISTER_REQ else
  if x =? 33 then Some MSG_PROXY_REGISTER_RSP else
  if x =? 34 then Some MSG_PROXY_UNREGISTER_REQ else
  if x =? 35 then Some MSG_PROXY_RELAY_DATA else
  if x =? 36 then Some MSG_PROXY_PUNCH_HELPER else
  None.

(** ** Structures *)

(** The 8-byte header of every datagram. *)
Record MsgHead := mkMsgHead {
  mh_magic : Z;
  mh_version : Z;
  mh_msg_id : Z;
  mh_length : Z
}.

Definition MsgHead_codec : codec MsgHead := c_iso
  (fun r => (mh_magic r, (mh_version r, (mh_msg_id r, mh_length r))))
  (fun '(x0, (x1, (x2, x3))) => mkMsgHead x0 x1 x2 x3)
  (c_u16 +:+ c_u8 +:+ c_u8 +:+ c_u32).

(** A relay offered to both ends of a connection. *)
Record ProxyCandidate := mkProxyCandidate {
  pc_ip : bytes;
  pc_port : Z
}.

Definition ProxyCandidate_codec : codec ProxyCandidate := c_iso
  (fun r => (pc_ip r, pc_port r))
  (fun '(x0, x1) => mkProxyCandidate x0 x1)
  (c_bytes 16 +:+ c_u16).

(** Heartbeat and registration; the extension bytes follow it. *)
Record UuidReq := mkUuidReq {
  ur_uuid : bytes;
  ur_dev_type : Z;
  ur_nattype : Z;
  ur_lan_port : Z;
  ur_session_pts : Z;
  ur_extlen : Z
}.

Definition UuidReq_codec : codec UuidReq := c_iso
  (fun r => (ur_uuid r, (ur_dev_type r, (ur_nattype r, (ur_lan_port r, (ur_session_pts r, ur_extlen r))))))
  (fun '(x0, (x1, (x2, (x3, (x4, x5))))) => mkUuidReq x0 x1 x2 x3 x4 x5)
  (c_bytes 33 +:+ c_u8 +:+ c_u8 +:+ c_u16 +:+ c_u32 +:+ c_u16).

(** A request that names one uuid. *)
Record ExtInfoReq := mkExtInfoReq {
  eq_uuid : bytes
}.

Definition ExtInfoReq_codec : codec ExtInfoReq := c_iso
  (fun r => eq_uuid r)
  (fun x0 => mkExtInfoReq x0)
  (c_bytes 33).

(** Observed public address and recorded private address. *)
Record ExtInfoRsp := mkExtInfoRsp {
  er_result : Z;
  er_pub_ip : bytes;
  er_pub_port : Z;
  er_lan_ip : bytes;
  er_lan_port : Z;
  er_nat_sock2_port : Z
}.

Definition ExtInfoRsp_codec : codec ExtInfoRsp := c_iso
  (fun r => (er_result r, (er_pub_ip r, (er_pub_port r, (er_lan_ip r, (er_lan_port r, er_nat_sock2_port r))))))
  (fun '(x0, (x1, (x2, (x3, (x4, x5))))) => mkExtInfoRsp x0 x1 x2 x3 x4 x5)
  (c_u8 +:+ c_bytes 16 +:+ c_u16 +:+ c_bytes 16 +:+ c_u16 +:+ c_u16).

(** Request to be introduced to [dst_uuid]. *)
Record ConnectReq := mkConnectReq {
  cr_src_uuid : bytes;
  cr_dst_uuid : bytes
}.

Definition ConnectReq_codec : codec ConnectReq := c_iso
  (fun r => (cr_src_uuid r, cr_dst_uuid r))
  (fun '(x0, x1) => mkConnectReq x0 x1)
  (c_bytes 33 +:+ c_bytes 33).

(** Answer to the initiator. *)
Record ConnectAck := mkConnectAck {
  ca_result : Z;
  ca_dst_uuid : bytes;
  ca_dst_pub_ip : bytes;
  ca_dst_pub_port : Z;
  ca_dst_lan_ip : bytes;
  ca_dst_lan_port : Z;
  ca_dst_nattype : Z;
  ca_proxy_count : Z;
  ca_proxies : list ProxyCandidate
}.

Definition ConnectAck_codec : codec ConnectAck := c_iso
  (fun r => (ca_result r, (ca_dst_uuid r, (ca_dst_pub_ip r, (ca_dst_pub_port r, (ca_dst_lan_ip r, (ca_dst_lan_port r, (ca_dst_nattype r, (ca_proxy_count r, ca_proxies r)))))))))
  (fun '(x0, (x1, (x2, (x3, (x4, (x5, (x6, (x7, x8)))))))) => mkConnectAck x0 x1 x2 x3 x4 x5 x6 x7 x8)
  (c_u8 +:+ c_bytes 33 +:+ c_bytes 16 +:+ c_u16 +:+ c_bytes 16 +:+ c_u16 +:+ c_u8 +:+ c_u8 +:+ c_rep 3 ProxyCandidate_codec).

(** Notice to the target. *)
Record ConnectInvite := mkConnectInvite {
  ci_src_uuid : bytes;
  ci_src_pub_ip : bytes;
  ci_src_pub_port : Z;
  ci_src_lan_ip : bytes;
  ci_src_lan_port : Z;
  ci_src_nattype : Z;
  ci_proxy_count : Z;
  ci_proxies : list ProxyCandidate
}.

Definition ConnectInvite_codec : codec ConnectInvite := c_iso
  (fun r => (ci_src_uuid r, (ci_src_pub_ip r, (ci_src_pub_port r, (ci_src_lan_ip r, (ci_src_lan_port r, (ci_src_nattype r, (ci_proxy_count r, ci_proxies r))))))))
  (fun '(x0, (x1, (x2, (x3, (x4, (x5, (x6, x7))))))) => mkConnectInvite x0 x1 x2 x3 x4 x5 x6 x7)
  (c_bytes 33 +:+ c_bytes 16 +:+ c_u16 +:+ c_bytes 16 +:+ c_u16 +:+ c_u8 +:+ c_u8 +:+ c_rep 3 ProxyCandidate_codec).

(** Page of the device list. *)
Record DevListReq := mkDevListReq {
  dq_start_index : Z;
  dq_want_num : Z
}.

Definition DevListReq_codec : codec DevListReq := c_iso
  (fun r => (dq_start_index r, dq_want_num r))
  (fun '(x0, x1) => mkDevListReq x0 x1)
  (c_u16 +:+ c_u16).

(** Header of a device list answer. *)
Record DevListRsp := mkDevListRsp {
  dr_total : Z;
  dr_count : Z;
  dr_start_index : Z
}.

Definition DevListRsp_codec : codec DevListRsp := c_iso
  (fun r => (dr_total r, (dr_count r, dr_start_index r)))
  (fun '(x0, (x1, x2)) => mkDevListRsp x0 x1 x2)
  (c_u16 +:+ c_u16 +:+ c_u16).

(** One row of a device list answer. *)
Record DevListEntry := mkDevListEntry {
  de_uuid : bytes;
  de_ip : bytes;
  de_port : Z;
  de_dev_type : Z
}.

Definition DevListEntry_codec : codec DevListEntry := c_iso
  (fun r => (de_uuid r, (de_ip r, (de_port r, de_dev_type r))))
  (fun '(x0, (x1, (x2, x3))) => mkDevListEntry x0 x1 x2 x3)
  (c_bytes 33 +:+ c_bytes 16 +:+ c_u16 +:+ c_u8).

(** Header of a server list answer. *)
Record ServerListRsp := mkServerListRsp {
  sl_nat_count : Z;
  sl_proxy_count : Z
}.

Definition ServerListRsp_codec : codec ServerListRsp := c_iso
  (fun r => (sl_nat_count r, sl_proxy_count r))
  (fun '(x0, x1) => mkServerListRsp x0 x1)
  (c_u16 +:+ c_u16).

(** Availability query to a relay. *)
Record ProxyAvailReq := mkProxyAvailReq {
  paq_nat_ip : bytes;
  paq_nat_port : Z
}.

Definition ProxyAvailReq_codec : codec ProxyAvailReq := c_iso
  (fun r => (paq_nat_ip r, paq_nat_port r))
  (fun '(x0, x1) => mkProxyAvailReq x0 x1)
  (c_bytes 16 +:+ c_u16).

(** Availability of a relay. *)
Record ProxyAvailRsp := mkProxyAvailRsp {
  par_available : Z;
  par_used : Z;
  par_max_proxy : Z
}.

Definition ProxyAvailRsp_codec : codec ProxyAvailRsp := c_iso
  (fun r => (par_available r, (par_used r, par_max_proxy r)))
  (fun '(x0, (x1, x2)) => mkProxyAvailRsp x0 x1 x2)
  (c_u8 +:+ c_u16 +:+ c_u16).

(** Relay registration with its tag. *)
Record ProxyRegReq := mkProxyRegReq {
  prq_uuid : bytes;
  prq_hmac : bytes
}.

Definition ProxyRegReq_codec : codec ProxyRegReq := c_iso
  (fun r => (prq_uuid r, prq_hmac r))
  (fun '(x0, x1) => mkProxyRegReq x0 x1)
  (c_bytes 33 +:+ c_bytes 32).

(** Answer to a relay registration. *)
Record ProxyRegRsp := mkProxyRegRsp {
  prr_result : Z;
  prr_pub_ip : bytes;
  prr_pub_port : Z
}.

Definition ProxyRegRsp_codec : codec ProxyRegRsp := c_iso
  (fun r => (prr_result r, (prr_pub_ip r, prr_pub_port r)))
  (fun '(x0, (x1, x2)) => mkProxyRegRsp x0 x1 x2)
  (c_u8 +:+ c_bytes 16 +:+ c_u16).

(** Answer of one of the two probe sockets. *)
Record NatDetectRsp := mkNatDetectRsp {
  nd_server_index : Z;
  nd_server_ip : bytes;
  nd_server_port : Z;
  nd_mapped_ip : bytes;
  nd_mapped_port : Z;
  nd_main_port : Z;
  nd_alt_port : Z
}.

Definition NatDetectRsp_codec : codec NatDetectRsp := c_iso
  (fun r => (nd_server_index r, (nd_server_ip r, (nd_server_port r, (nd_mapped_ip r, (nd_mapped_port r, (nd_main_port r, nd_alt_port r)))))))
  (fun '(x0, (x1, (x2, (x3, (x4, (x5, x6)))))) => mkNatDetectRsp x0 x1 x2 x3 x4 x5 x6)
  (c_u8 +:+ c_bytes 16 +:+ c_u16 +:+ c_bytes 16 +:+ c_u16 +:+ c_u16 +:+ c_u16).

(** Request of a login nonce. *)
Record AuthChallengeReq := mkAuthChallengeReq {
  acq_uuid : bytes
}.

Definition AuthChallengeReq_codec : codec AuthChallengeReq := c_iso
  (fun r => acq_uuid r)
  (fun x0 => mkAuthChallengeReq x0)
  (c_bytes 33).

(** The nonce and its lifetime. *)
Record AuthChallengeRsp := mkAuthChallengeRsp {
  acr_result : Z;
  acr_nonce : bytes;
  acr_nonce_ttl : Z
}.

Definition AuthChallengeRsp_codec : codec AuthChallengeRsp := c_iso
  (fun r => (acr_result r, (acr_nonce r, acr_nonce_ttl r)))
  (fun '(x0, (x1, x2)) => mkAuthChallengeRsp x0 x1 x2)
  (c_u8 +:+ c_bytes 16 +:+ c_u16).

(** Login with the tag of uuid and nonce. *)
Record AuthLoginReq := mkAuthLoginReq {
  alq_uuid : bytes;
  alq_nonce : bytes;
  alq_mac : bytes
}.

Definition AuthLoginReq_codec : codec AuthLoginReq := c_iso
  (fun r => (alq_uuid r, (alq_nonce r, alq_mac r)))
  (fun '(x0, (x1, x2)) => mkAuthLoginReq x0 x1 x2)
  (c_bytes 33 +:+ c_bytes 16 +:+ c_bytes 32).

(** Login result. *)
Record AuthLoginRsp := mkAuthLoginRsp {
  alr_result : Z;
  alr_session_ttl : Z
}.

Definition AuthLoginRsp_codec : codec AuthLoginRsp := c_iso
  (fun r => (alr_result r, alr_session_ttl r))
  (fun '(x0, x1) => mkAuthLoginRsp x0 x1)
  (c_u8 +:+ c_u16).

(** Counters for the administrator. *)
Record AdminStatsRsp := mkAdminStatsRsp {
  as_total_pkts : Z;
  as_peers_online : Z;
  as_devices : Z;
  as_apps : Z;
  as_blacklist_ips : Z;
  as_authed_peers : Z;
  as_proxy_ok : Z;
  as_connect_ok : Z;
  as_connect_fail : Z
}.

Definition AdminStatsRsp_codec : codec AdminStatsRsp := c_iso
  (fun r => (as_total_pkts r, (as_peers_online r, (as_devices r, (as_apps r, (as_blacklist_ips r, (as_authed_peers r, (as_proxy_ok r, (as_connect_ok r, as_connect_fail r)))))))))
  (fun '(x0, (x1, (x2, (x3, (x4, (x5, (x6, (x7, x8)))))))) => mkAdminStatsRsp x0 x1 x2 x3 x4 x5 x6 x7 x8)
  (c_u32 +:+ c_u32 +:+ c_u32 +:+ c_u32 +:+ c_u32 +:+ c_u32 +:+ c_u32 +:+ c_u32 +:+ c_u32).

(** Blacklist operation with its tag. *)
Record AdminBlacklistReq := mkAdminBlacklistReq {
  abq_op : Z;
  abq_key : bytes;
  abq_mac : bytes
}.

Definition AdminBlacklistReq_codec : codec AdminBlacklistReq := c_iso
  (fun r => (abq_op r, (abq_key r, abq_mac r)))
  (fun '(x0, (x1, x2)) => mkAdminBlacklistReq x0 x1 x2)
  (c_u8 +:+ c_bytes 64 +:+ c_bytes 32).

(** One row of a blacklist answer. *)
Record AdminBlacklistEntry := mkAdminBlacklistEntry {
  abe_key : bytes;
  abe_expire : Z
}.

Definition AdminBlacklistEntry_codec : codec AdminBlacklistEntry := c_iso
  (fun r => (abe_key r, abe_expire r))
  (fun '(x0, x1) => mkAdminBlacklistEntry x0 x1)
  (c_bytes 64 +:+ c_u32).

(** Blacklist answer. *)
Record AdminBlacklistRsp := mkAdminBlacklistRsp {
  abr_result : Z;
  abr_ip_count : Z;
  abr_uuid_count : Z;
  abr_entry_count : Z;
  abr_entries : list AdminBlacklistEntry
}.

Definition AdminBlacklistRsp_codec : codec AdminBlacklistRsp := c_iso
  (fun r => (abr_result r, (abr_ip_count r, (abr_uuid_count r, (abr_entry_count r, abr_entries r)))))
  (fun '(x0, (x1, (x2, (x3, x4)))) => mkAdminBlacklistRsp x0 x1 x2 x3 x4)
  (c_u8 +:+ c_u32 +:+ c_u32 +:+ c_u8 +:+ c_rep 28 AdminBlacklistEntry_codec).

(** Clear head of an encrypted heartbeat. *)
Record HeartbeatReqEnc := mkHeartbeatReqEnc {
  hqe_uuid : bytes;
  hqe_iv : bytes
}.

Definition HeartbeatReqEnc_codec : codec HeartbeatReqEnc := c_iso
  (fun r => (hqe_uuid r, hqe_iv r))
  (fun '(x0, x1) => mkHeartbeatReqEnc x0 x1)
  (c_bytes 33 +:+ c_bytes 8).

(** Clear head of an encrypted heartbeat answer. *)
Record HeartbeatRspEnc := mkHeartbeatRspEnc {
  hre_uuid : bytes;
  hre_iv : bytes
}.

Definition HeartbeatRspEnc_codec : codec HeartbeatRspEnc := c_iso
  (fun r => (hre_uuid r, hre_iv r))
  (fun '(x0, x1) => mkHeartbeatRspEnc x0 x1)
  (c_bytes 33 +:+ c_bytes 8).

(** Head of relayed data. *)
Record RelayFrame := mkRelayFrame {
  rf_src_uuid : bytes;
  rf_dst_uuid : bytes
}.

Definition RelayFrame_codec : codec RelayFrame := c_iso
  (fun r => (rf_src_uuid r, rf_dst_uuid r))
  (fun '(x0, x1) => mkRelayFrame x0 x1)
  (c_bytes 33 +:+ c_bytes 33).

(** A registry row sent between servers; the extension bytes follow it. *)
Record SyncPeerEntry := mkSyncPeerEntry {
  sp_uuid : bytes;
  sp_pub_ip : bytes;
  sp_pub_port : Z;
  sp_lan_ip : bytes;
  sp_lan_port : Z;
  sp_dev_type : Z;
  sp_nattype : Z;
  sp_hop : Z;
  sp_reserved : Z;
  sp_hb_time : Z;
  sp_extlen : Z
}.

Definition SyncPeerEntry_codec : codec SyncPeerEntry := c_iso
  (fun r => (sp_uuid r, (sp_pub_ip r, (sp_pub_port r, (sp_lan_ip r, (sp_lan_port r, (sp_dev_type r, (sp_nattype r, (sp_hop r, (sp_reserved r, (sp_hb_time r, sp_extlen r)))))))))))
  (fun '(x0, (x1, (x2, (x3, (x4, (x5, (x6, (x7, (x8, (x9, x10)))))))))) => mkSyncPeerEntry x0 x1 x2 x3 x4 x5 x6 x7 x8 x9 x10)
  (c_bytes 33 +:+ c_bytes 16 +:+ c_u16 +:+ c_bytes 16 +:+ c_u16 +:+ c_u8 +:+ c_u8 +:+ c_u8 +:+ c_u8 +:+ c_u32 +:+ c_u16).

(** Removal of a registry row. *)
Record SyncPeerDel := mkSyncPeerDel {
  sd_uuid : bytes
}.

Definition SyncPeerDel_codec : codec SyncPeerDel := c_iso
  (fun r => sd_uuid r)
  (fun x0 => mkSyncPeerDel x0)
  (c_bytes 33).

(** Request of a full registry copy. *)
Record SyncSnapshotReq := mkSyncSnapshotReq {
  ss_ts : Z
}.

Definition SyncSnapshotReq_codec : codec SyncSnapshotReq := c_iso
  (fun r => ss_ts r)
  (fun x0 => mkSyncSnapshotReq x0)
  (c_u32).

(** Head of a tunnel frame. *)
Record TunnelFrame := mkTunnelFrame {
  tf_magic : Z;
  tf_version : Z;
  tf_type : Z;
  tf_session_id : Z;
  tf_channel_id : Z;
  tf_flags : Z;
  tf_seq : Z;
  tf_ack : Z;
  tf_len : Z
}.

Definition TunnelFrame_codec : codec TunnelFrame := c_iso
  (fun r => (tf_magic r, (tf_version r, (tf_type r, (tf_session_id r, (tf_channel_id r, (tf_flags r, (tf_seq r, (tf_ack r, tf_len r)))))))))
  (fun '(x0, (x1, (x2, (x3, (x4, (x5, (x6, (x7, x8)))))))) => mkTunnelFrame x0 x1 x2 x3 x4 x5 x6 x7 x8)
  (c_u16 +:+ c_u8 +:+ c_u8 +:+ c_u16 +:+ c_u8 +:+ c_u8 +:+ c_u16 +:+ c_u16 +:+ c_u16).

(** The structure of an ICE description message is declared outside the packed
    region: one padding octet aligns [sdp_len], and one follows [sdp[1]], so
    that [sizeof(IceSdpMsg)] is 38 and the text starts at offset 36. *)
Record IceSdpMsg := mkIceSdpMsg {
  ice_uuid : bytes;
  ice_pad : Z;
  ice_sdp_len : Z
}.

Definition IceSdpMsg_codec : codec IceSdpMsg := c_iso
  (fun r => (ice_uuid r, (ice_pad r, ice_sdp_len r)))
  (fun '(x0, (x1, x2)) => mkIceSdpMsg x0 x1 x2)
  (c_bytes 33 +:+ c_u8 +:+ c_u16).

Definition sizeof_IceSdpMsg : nat := 38.

(** ** Laws *)

#[export] Instance MsgHead_laws : CodecLaws MsgHead_codec.
Proof. codec_laws. Qed.

#[export] Instance ProxyCandidate_laws : CodecLaws ProxyCandidate_codec.
Proof. codec_laws. Qed.

#[export] Instance UuidReq_laws : CodecLaws UuidReq_codec.
Proof. codec_laws. Qed.

#[export] Instance ExtInfoReq_laws : CodecLaws ExtInfoReq_codec.
Proof. codec_laws. Qed.

#[export] Instance ExtInfoRsp_laws : CodecLaws ExtInfoRsp_codec.
Proof. codec_laws. Qed.

#[export] Instance ConnectReq_laws : CodecLaws ConnectReq_codec.
Proof. codec_laws. Qed.

#[export] Instance ConnectAck_laws : CodecLaws ConnectAck_codec.
Proof. codec_laws. Qed.

#[export] Instance ConnectInvite_laws : CodecLaws ConnectInvite_codec.
Proof. codec_laws. Qed.

#[export] Instance DevListReq_laws : CodecLaws DevListReq_codec.
Proof. codec_laws. Qed.

#[export] Instance DevListRsp_laws : CodecLaws DevListRsp_codec.
Proof. codec_laws. Qed.

#[export] Instance DevListEntry_laws : CodecLaws DevListEntry_codec.
Proof. codec_laws. Qed.

#[export] Instance ServerListRsp_laws : CodecLaws ServerListRsp_codec.
Proof. codec_laws. Qed.

#[export] Instance ProxyAvailReq_laws : CodecLaws ProxyAvailReq_codec.
Proof. codec_laws. Qed.

#[export] Instance ProxyAvailRsp_laws : CodecLaws ProxyAvailRsp_codec.
Proof. codec_laws. Qed.

#[export] Instance ProxyRegReq_laws : CodecLaws ProxyRegReq_codec.
Proof. codec_laws. Qed.

#[export] Instance ProxyRegRsp_laws : CodecLaws ProxyRegRsp_codec.
Proof. codec_laws. Qed.

#[export] Instance NatDetectRsp_laws : CodecLaws NatDetectRsp_codec.
Proof. codec_laws. Qed.

#[export] Instance AuthChallengeReq_laws : CodecLaws AuthChallengeReq_codec.
Proof. codec_laws. Qed.

#[export] Instance AuthChallengeRsp_laws : CodecLaws AuthChallengeRsp_codec.
Proof. codec_laws. Qed.

#[export] Instance AuthLoginReq_laws : CodecLaws AuthLoginReq_codec.
Proof. codec_laws. Qed.

#[export] Instance AuthLoginRsp_laws : CodecLaws AuthLoginRsp_codec.
Proof. codec_laws. Qed.

#[export] Instance AdminStatsRsp_laws : CodecLaws AdminStatsRsp_codec.
Proof. codec_laws. Qed.

#[export] Instance AdminBlacklistReq_laws : CodecLaws AdminBlacklistReq_codec.
Proof. codec_laws. Qed.

#[export] Instance AdminBlacklistEntry_laws : CodecLaws AdminBlacklistEntry_codec.
Proof. codec_laws. Qed.

#[export] Instance AdminBlacklistRsp_laws : CodecLaws AdminBlacklistRsp_codec.
Proof. codec_laws. Qed.

#[export] Instance HeartbeatReqEnc_laws : CodecLaws HeartbeatReqEnc_codec.
Proof. codec_laws. Qed.

#[export] Instance HeartbeatRspEnc_laws : CodecLaws HeartbeatRspEnc_codec.
Proof. codec_laws. Qed.

#[export] Instance RelayFrame_laws : CodecLaws RelayFrame_codec.
Proof. codec_laws. Qed.

#[export] Instance SyncPeerEntry_laws : CodecLaws SyncPeerEntry_codec.
Proof. codec_laws. Qed.

#[export] Instance SyncPeerDel_laws : CodecLaws SyncPeerDel_codec.
Proof. codec_laws. Qed.

#[export] Instance SyncSnapshotReq_laws : CodecLaws SyncSnapshotReq_codec.
Proof. codec_laws. Qed.

#[export] Instance TunnelFrame_laws : CodecLaws TunnelFrame_codec.
Proof. codec_laws. Qed.

#[export] Instance IceSdpMsg_laws : CodecLaws IceSdpMsg_codec.
Proof. codec_laws. Qed.

Lemma msg_of_id m : msg_of (msg_id m) = Some m.
Proof. by destruct m. Qed.

Lemma msg_of_some x m : msg_of x = Some m -> msg_id m = x.
Proof.
  unfold msg_of. intros H.
  repeat match type of H with
    | (if ?b then _ else _) = _ => destruct (Z.eqb_spec x (ltac:(match b with _ =? ?v => exact v end)))
    end; simplify_eq; done.
Qed.

(** C36: every structure of the protocol is copied into a datagram and back
    without loss: its image has the declared size and consists of octets, reading
    an image gives the value back and leaves the octets after it alone, and
    every image of that size is the image of the value read from it; message
    numbers and message kinds correspond one to one. *)
Theorem protocol_roundtrip :
  CodecLaws MsgHead_codec /\
  CodecLaws ProxyCandidate_codec /\
  CodecLaws UuidReq_codec /\
  CodecLaws ExtInfoReq_codec /\
  CodecLaws ExtInfoRsp_codec /\
  CodecLaws ConnectReq_codec /\
  CodecLaws ConnectAck_codec /\
  CodecLaws ConnectInvite_codec /\
  CodecLaws DevListReq_codec /\
  CodecLaws DevListRsp_codec /\
  CodecLaws DevListEntry_codec /\
  CodecLaws ServerListRsp_codec /\
  CodecLaws ProxyAvailReq_codec /\
  CodecLaws ProxyAvailRsp_codec /\
  CodecLaws ProxyRegReq_codec /\
  CodecLaws ProxyRegRsp_codec /\
  CodecLaws NatDetectRsp_codec /\
  CodecLaws AuthChallengeReq_codec /\
  CodecLaws AuthChallengeRsp_codec /\
  CodecLaws AuthLoginReq_codec /\
  CodecLaws AuthLoginRsp_codec /\
  CodecLaws AdminStatsRsp_codec /\
  CodecLaws AdminBlacklistReq_codec /\
  CodecLaws AdminBlacklistEntry_codec /\
  CodecLaws AdminBlacklistRsp_codec /\
  CodecLaws HeartbeatReqEnc_codec /\
  CodecLaws HeartbeatRspEnc_codec /\
  CodecLaws RelayFrame_codec /\
  CodecLaws SyncPeerEntry_codec /\
  CodecLaws SyncPeerDel_codec /\
  CodecLaws SyncSnapshotReq_codec /\
  CodecLaws TunnelFrame_codec /\
  CodecLaws IceSdpMsg_codec /\
  (forall m, msg_of (msg_id m) = Some m) /\
  (forall x m, msg_of x = Some m -> msg_id m = x) /\
  csize MsgHead_codec = 8%nat.
Proof.
  repeat (split; [typeclasses eauto|]).
  split; [apply msg_of_id|]. split; [apply msg_of_some|done].
Qed.
