(* ===== verification/NetUtil.v ===== *)
(** * Addresses and number text

    Models [common/Util.h] and the parts of the C library that the sources call
    on addresses and decimal text: [inet_ntop], [inet_pton], [snprintf] of
    integers, [atoi] and [atoll] (as glibc implements them).  Socket addresses
    keep their members in network byte order, as [sockaddr_in] does. *)

From S2P Require Import Prelude.
From S2P Require Import Bytes.

#[local] Open Scope Z_scope.

(** ** Decimal text *)

Fixpoint dec_aux (fuel : nat) (n : Z) (acc : bytes) : bytes :=
  match fuel with
  | O => acc
  | S fuel =>
      let acc := 48 + n mod 10 :: acc in
      if n <? 10 then acc else dec_aux fuel (n / 10) acc
  end.

(** ["%u"]; the fuel is the number of bits, more than the number of digits. *)
Definition dec_u (n : Z) : bytes := dec_aux (S (Z.to_nat (Z.log2 n))) n [].

(** ["%lld"] and [std::to_string]. *)
Definition dec_s (n : Z) : bytes := if n <? 0 then 45 :: dec_u (- n) else dec_u n.

Definition is_digit (c : Z) : bool := (48 <=? c) && (c <=? 57).

Definition is_space (c : Z) : bool := (c =? 32) || ((9 <=? c) && (c <=? 13)).

Fixpoint skip_space (l : bytes) : bytes :=
  match l with
  | c :: l' => if is_space c then skip_space l' else l
  | [] => []
  end.

Fixpoint digits_val (acc : Z) (l : bytes) : Z :=
  match l with
  | c :: l => if is_digit c then digits_val (10 * acc + (c - 48)) l else acc
  | [] => acc
  end.

Definition clamp64 (x : Z) : Z :=
  Z.max (- 9223372036854775808) (Z.min x 9223372036854775807).

(** [strtoll(s, nullptr, 10)]. *)
Definition atoll (l : bytes) : Z :=
  match skip_space (c_str l) with
  | c :: l' =>
      if c =? 45 then clamp64 (- digits_val 0 l')
      else if c =? 43 then clamp64 (digits_val 0 l')
      else clamp64 (digits_val 0 (c :: l'))
  | [] => 0
  end.

(** [atoi]: the low 32 bits of [strtol]. *)
Definition atoi (l : bytes) : Z := s32 (atoll l).

(** ** IPv4 text *)

(** [inet_ntop(AF_INET, &a)]: [a] is [s_addr], its octets in memory order. *)
Definition inet_ntop (a : Z) : bytes :=
  match le_enc 4 a with
  | [o0; o1; o2; o3] => dec_u o0 ++ 46 :: dec_u o1 ++ 46 :: dec_u o2 ++ 46 :: dec_u o3
  | _ => []
  end.

Fixpoint pton_aux (l : bytes) (octets : list Z) (cur : option Z) : option (list Z) :=
  match l with
  | [] =>
      match cur with
      | Some c => if (length octets =? 3)%nat then Some (octets ++ [c]) else None
      | None => None
      end
  | ch :: l =>
      if is_digit ch then
        match cur with
        | Some c =>
            if c =? 0 then None
            else if 255 <? c * 10 + (ch - 48) then None
            else pton_aux l octets (Some (c * 10 + (ch - 48)))
        | None => pton_aux l octets (Some (ch - 48))
        end
      else if ch =? 46 then
        match cur with
        | Some c => if (length octets =? 3)%nat then None else pton_aux l (octets ++ [c]) None
        | None => None
        end
      else None
  end.

(** [inet_pton(AF_INET, s, &a)]; [None] when it does not return 1. *)
Definition inet_pton (s : bytes) : option Z := le_dec <$> pton_aux (c_str s) [] None.

(** ** Socket addresses *)

Record sockaddr_in := mkAddr { s_addr : Z; sin_port : Z }.

#[export] Instance sockaddr_eq_dec : EqDecision sockaddr_in.
Proof. solve_decision. Defined.

Definition addr_ok (a : sockaddr_in) : Prop := u32_ok (s_addr a) /\ u16_ok (sin_port a).

(** [memset] to zero, then [sin_family]. *)
Definition addr_zero : sockaddr_in := mkAddr 0 0.

Definition addr_to_str (a : sockaddr_in) : bytes :=
  inet_ntop (s_addr a) ++ 58 :: dec_u (ntohs (sin_port a)).

Definition ip_to_str (addr : Z) : bytes := inet_ntop addr.

Definition addr_to_u64 (a : sockaddr_in) : Z :=
  Z.lor (Z.shiftl (s_addr a) 32) (ntohs (sin_port a)).

Definition u64_to_sockaddr (v : Z) : sockaddr_in :=
  mkAddr (Z.shiftr v 32) (htons (Z.land v 65535)).

Definition sockaddr_eq (a b : sockaddr_in) : bool :=
  (s_addr a =? s_addr b) && (sin_port a =? sin_port b).

(** ** Pseudo-random numbers: one static 64-bit seed *)

Definition rand_u32 (seed : Z) : Z * Z :=
  let seed := u64 (seed * 6364136223846793005 + 1442695040888963407) in
  (Z.shiftr seed 33, seed).

Definition rand_u16 (seed : Z) : Z * Z :=
  let '(r, seed) := rand_u32 seed in (Z.shiftr r 16, seed).

(** ** Decimal text: printing then reading *)

Lemma dec_aux_fuel f f' n acc :
  0 <= n -> n < 2 ^ Z.of_nat f -> n < 2 ^ Z.of_nat f' -> (0 < f)%nat -> (0 < f')%nat ->
  dec_aux f n acc = dec_aux f' n acc.
Proof.
  revert f' n acc. induction f as [|f IH]; intros f' n acc H0 H1 H2 Hf Hf'; [lia|].
  destruct f' as [|f']; [lia|]. cbn [dec_aux].
  destruct (Z.ltb_spec n 10); [done|].
  rewrite Nat2Z.inj_succ, Z.pow_succ_r in H1, H2 by lia.
  apply IH; try zdiv.
  - destruct f; [simpl in H1; lia|lia].
  - destruct f'; [simpl in H2; lia|lia].
Qed.

Lemma dec_aux_app f n acc : dec_aux f n acc = dec_aux f n [] ++ acc.
Proof.
  revert n acc. induction f as [|f IH]; intros n acc; [done|]. cbn [dec_aux].
  destruct (n <? 10); [done|].
  rewrite (IH _ (_ :: acc)), (IH _ [_]), <- app_assoc. done.
Qed.

Lemma dec_u_small n : n < 10 -> dec_u n = [48 + n mod 10].
Proof.
  intros H. unfold dec_u. cbn [dec_aux]. destruct (Z.ltb_spec n 10); [done|lia].
Qed.

Lemma dec_u_step n : 10 <= n -> dec_u n = dec_u (n / 10) ++ [48 + n mod 10].
Proof.
  intros H. unfold dec_u at 1. cbn [dec_aux].
  destruct (Z.ltb_spec n 10); [lia|].
  rewrite dec_aux_app. f_equal. unfold dec_u.
  pose proof (Z.log2_spec n ltac:(lia)) as [L U].
  pose proof (Z.log2_spec (n / 10) ltac:(zdiv)) as [L' U'].
  pose proof (Z.log2_nonneg n). pose proof (Z.log2_nonneg (n / 10)).
  assert (0 < Z.log2 n) by (apply Z.log2_pos; lia).
  rewrite Z.pow_succ_r in U, U' by done.
  apply dec_aux_fuel; rewrite ?Nat2Z.inj_succ, ?Z2Nat.id, ?Z.pow_succ_r by done; try zdiv; lia.
Qed.

(** Induction on the number of decimal digits. *)
Lemma dec_u_ind (P : Z -> Prop) :
  (forall n, 0 <= n < 10 -> P n) -> (forall n, 10 <= n -> P (n / 10) -> P n) ->
  forall n, 0 <= n -> P n.
Proof.
  intros Hs Hl n Hn. revert Hn. revert n. apply (Zlt_0_ind P).
  intros n IH Hn. destruct (Z.lt_ge_cases n 10); [by apply Hs|].
  apply Hl; [done|]. apply IH. zdiv.
Qed.

Lemma dec_u_digits n : 0 <= n -> Forall (fun c => is_digit c = true) (dec_u n).
Proof.
  assert (forall m, is_digit (48 + m mod 10) = true) as D.
  { intros m. pose proof (Z.mod_pos_bound m 10). unfold is_digit. lia. }
  revert n. apply dec_u_ind.
  - intros n H. rewrite dec_u_small by lia. auto.
  - intros n H IH. rewrite dec_u_step by lia. apply Forall_app_2; auto.
Qed.

Lemma dec_u_nonempty n : 0 <= n -> exists c l, dec_u n = c :: l /\ is_digit c = true.
Proof.
  intros H. pose proof (dec_u_digits n H) as F.
  destruct (Z.lt_ge_cases n 10).
  - rewrite dec_u_small in * by done. inversion_clear F. eauto.
  - rewrite dec_u_step in * by done.
    destruct (dec_u (n / 10)); inversion_clear F; simpl; eauto.
Qed.

Lemma dec_u_length n k :
  0 <= n -> n < 10 ^ Z.of_nat k -> (0 < k)%nat -> (length (dec_u n) <= k)%nat.
Proof.
  intros Hn. revert k. revert n Hn. apply (dec_u_ind (fun n => forall k, _ -> _ -> _)).
  - intros n H k _ Hk. rewrite dec_u_small by lia. simpl. lia.
  - intros n H IH k Hlt Hk. rewrite dec_u_step, length_app by lia. simpl.
    destruct k as [|[|k]]; [lia|simpl in Hlt; lia|].
    specialize (IH (S k)).
    rewrite (Nat2Z.inj_succ (S k)), Z.pow_succ_r in Hlt by lia.
    enough (length (dec_u (n / 10)) <= S k)%nat by lia. apply IH; [zdiv|lia].
Qed.

Lemma digits_val_app acc l r :
  Forall (fun c => is_digit c = true) l ->
  digits_val acc (l ++ r) = digits_val (digits_val acc l) r.
Proof.
  intros H. revert acc. induction H as [|c l Hc Hl IH]; intros acc; simpl; [done|].
  rewrite Hc. apply IH.
Qed.

(** Nothing after the digits is a digit. *)
Definition stops (r : bytes) : Prop :=
  match r with c :: _ => is_digit c = false | [] => True end.

Lemma digits_val_stops acc r : stops r -> digits_val acc r = acc.
Proof. destruct r as [|c r]; simpl; [done|]. by intros ->. Qed.

Lemma digits_val_dec_u n : 0 <= n -> digits_val 0 (dec_u n) = n.
Proof.
  revert n. apply dec_u_ind.
  - intros n H. rewrite dec_u_small by lia. simpl.
    replace (is_digit (48 + n mod 10)) with true by (unfold is_digit; zdiv). zdiv.
  - intros n H IH. rewrite dec_u_step by lia.
    rewrite digits_val_app, IH by (apply dec_u_digits; zdiv). simpl.
    replace (is_digit (48 + n mod 10)) with true by (unfold is_digit; zdiv). zdiv.
Qed.

Lemma digit_not_space c : is_digit c = true -> is_space c = false.
Proof. unfold is_digit, is_space. lia. Qed.

Lemma digit_no_nul l : Forall (fun c => is_digit c = true) l -> no_nul l.
Proof. intros H. apply (Forall_impl _ _ _ H). intros c. unfold is_digit. lia. Qed.

(** [atoll] reads back what ["%lld"] prints, up to a byte that is no digit. *)
Lemma atoll_dec_s n r :
  - 9223372036854775808 <= n <= 9223372036854775807 -> no_nul r -> stops r ->
  atoll (dec_s n ++ r) = n.
Proof.
  intros Hn Hr Hs. unfold atoll, dec_s.
  destruct (Z.ltb_spec n 0) as [Hneg|Hpos].
  - pose proof (dec_u_digits (- n) ltac:(lia)) as D.
    rewrite c_str_id.
    2: { simpl. constructor; [done|]. apply Forall_app_2; [by apply digit_no_nul|done]. }
    simpl. rewrite digits_val_app, digits_val_dec_u, digits_val_stops by (done || lia).
    unfold clamp64. lia.
  - pose proof (dec_u_digits n Hpos) as D.
    rewrite c_str_id by (apply Forall_app_2; [by apply digit_no_nul|done]).
    destruct (dec_u_nonempty n Hpos) as (c & l & E & Hc).
    assert (skip_space (dec_u n ++ r) = dec_u n ++ r) as ->.
    { rewrite E. simpl. by rewrite digit_not_space. }
    rewrite E at 1. cbn [app].
    unfold is_digit in Hc.
    destruct (Z.eqb_spec c 45); [lia|]. destruct (Z.eqb_spec c 43); [lia|].
    change (c :: l ++ r) with ((c :: l) ++ r). rewrite <- E.
    rewrite digits_val_app, digits_val_dec_u, digits_val_stops by (done || lia).
    unfold clamp64. lia.
Qed.

(** ** Address text *)

(** Reading one printed octet. *)
Lemma pton_aux_octet o r octets :
  byte_ok o -> pton_aux (dec_u o ++ r) octets None = pton_aux r octets (Some o).
Proof.
  unfold byte_ok. intros H.
  assert (forall m, is_digit (48 + m mod 10) = true) as D.
  { intros m. pose proof (Z.mod_pos_bound m 10). unfold is_digit. lia. }
  destruct (Z.lt_ge_cases o 10).
  { rewrite dec_u_small by done. cbn [app pton_aux]. rewrite D. do 2 f_equal. zdiv. }
  destruct (Z.lt_ge_cases o 100).
  { rewrite dec_u_step, dec_u_small by zdiv. cbn [app pton_aux]. rewrite !D.
    destruct (Z.eqb_spec (48 + o / 10 mod 10 - 48) 0); [zdiv|].
    destruct (Z.ltb_spec 255 ((48 + (o / 10) mod 10 - 48) * 10 + (48 + o mod 10 - 48))); [zdiv|].
    do 2 f_equal. zdiv. }
  rewrite dec_u_step, dec_u_step, dec_u_small by zdiv. cbn [app pton_aux]. rewrite !D.
  destruct (Z.eqb_spec (48 + (o / 10 / 10) mod 10 - 48) 0); [zdiv|].
  match goal with |- context [255 <? ?x] => destruct (Z.ltb_spec 255 x); [zdiv|] end.
  match goal with |- context [?x =? 0] => destruct (Z.eqb_spec x 0); [zdiv|] end.
  match goal with |- context [255 <? ?x] => destruct (Z.ltb_spec 255 x); [zdiv|] end.
  do 2 f_equal. zdiv.
Qed.

Lemma inet_ntop_no_nul a : no_nul (inet_ntop a).
Proof.
  pose proof (bytes_ok_le_enc 4 a) as B. unfold inet_ntop.
  destruct (le_enc 4 a) as [|o0 [|o1 [|o2 [|o3 [|? ?]]]]]; try constructor.
  inversion_clear B as [|? ? B0 B']. inversion_clear B' as [|? ? B1 B''].
  inversion_clear B'' as [|? ? B2 B3']. inversion_clear B3' as [|? ? B3 _].
  unfold byte_ok in *.
  repeat (apply Forall_app_2 || apply Forall_cons_2); try done.
  all: apply digit_no_nul, dec_u_digits; lia.
Qed.

(** [inet_pton] reads back what [inet_ntop] prints. *)
Lemma inet_pton_ntop a : u32_ok a -> inet_pton (inet_ntop a) = Some a.
Proof.
  intros Ha. unfold inet_pton. rewrite c_str_id by apply inet_ntop_no_nul.
  pose proof (bytes_ok_le_enc 4 a) as B. unfold inet_ntop.
  pose proof (le_dec_enc_small 4 a Ha) as E.
  destruct (le_enc 4 a) as [|o0 [|o1 [|o2 [|o3 [|? ?]]]]] eqn:L;
    pose proof (length_le_enc 4 a) as Len; rewrite L in Len; try done.
  inversion_clear B as [|? ? B0 B']. inversion_clear B' as [|? ? B1 B''].
  inversion_clear B'' as [|? ? B2 B3']. inversion_clear B3' as [|? ? B3 _].
  rewrite pton_aux_octet by done. cbn [pton_aux]. simpl (is_digit 46).
  rewrite pton_aux_octet by done. cbn [pton_aux]. simpl (is_digit 46).
  rewrite pton_aux_octet by done. cbn [pton_aux]. simpl (is_digit 46).
  rewrite <- (app_nil_r (dec_u o3)), pton_aux_octet by done.
  simpl. f_equal. exact E.
Qed.

Lemma inet_ntop_inj a b : u32_ok a -> u32_ok b -> inet_ntop a = inet_ntop b -> a = b.
Proof. intros Ha Hb E. apply (f_equal inet_pton) in E. rewrite !inet_pton_ntop in E; congruence. Qed.

(** A printed address fits the 16-byte field with its terminator. *)
Lemma inet_ntop_length a : (length (inet_ntop a) < 16)%nat.
Proof.
  pose proof (bytes_ok_le_enc 4 a) as B. unfold inet_ntop.
  destruct (le_enc 4 a) as [|o0 [|o1 [|o2 [|o3 [|? ?]]]]]; simpl; try lia.
  inversion_clear B as [|? ? B0 B']. inversion_clear B' as [|? ? B1 B''].
  inversion_clear B'' as [|? ? B2 B3']. inversion_clear B3' as [|? ? B3 _].
  unfold byte_ok in *.
  pose proof (dec_u_length o0 3 ltac:(lia) ltac:(lia)).
  pose proof (dec_u_length o1 3 ltac:(lia) ltac:(lia)).
  pose proof (dec_u_length o2 3 ltac:(lia) ltac:(lia)).
  pose proof (dec_u_length o3 3 ltac:(lia) ltac:(lia)).
  rewrite !length_app. simpl. rewrite !length_app. simpl. rewrite !length_app. simpl. lia.
Qed.

(** ** Addresses as 64-bit keys *)

Lemma addr_to_u64_sum a :
  addr_ok a -> addr_to_u64 a = s_addr a * 4294967296 + ntohs (sin_port a).
Proof.
  intros [Ha Hp]. unfold addr_to_u64. apply (lor_shiftl_add _ _ 32); [lia|].
  pose proof (htons_range (sin_port a)) as R. unfold u16_ok in R. lia.
Qed.

Lemma u64_to_sockaddr_addr_to_u64 a : addr_ok a -> u64_to_sockaddr (addr_to_u64 a) = a.
Proof.
  intros H. pose proof H as [Ha Hp]. unfold u64_to_sockaddr.
  rewrite addr_to_u64_sum by done.
  pose proof (htons_range (sin_port a)) as R. unfold u16_ok in R.
  rewrite Z.shiftr_div_pow2 by lia. change (Z.land ?x 65535) with (u16 x). rewrite u16_mod.
  destruct a as [ip port]; simpl in *. f_equal; [zdiv|].
  rewrite <- (htons_involutive port) at 2 by done. f_equal. zdiv.
Qed.

(** Distinct addresses have distinct keys. *)
Lemma addr_to_u64_inj a b :
  addr_ok a -> addr_ok b -> addr_to_u64 a = addr_to_u64 b -> a = b.
Proof.
  intros Ha Hb E. rewrite <- (u64_to_sockaddr_addr_to_u64 a), <- (u64_to_sockaddr_addr_to_u64 b) by done.
  by f_equal.
Qed.

Lemma sockaddr_eq_true a b : sockaddr_eq a b = true <-> a = b.
Proof.
  unfold sockaddr_eq. rewrite andb_true_iff, !Z.eqb_eq.
  destruct a, b; simpl. split; [intros [-> ->]; done|intros [= -> ->]; done].
Qed.

(** Addresses lose nothing on their way: [inet_pton] reads back what
    [ip_to_str] prints, [u64_to_sockaddr] undoes [addr_to_u64], so the text and
    the 64-bit key of an address identify it; [sockaddr_eq] is equality, and
    the text fits the 16-byte fields of the protocol with its terminator. *)
Theorem address_roundtrips (a b : sockaddr_in) (Ha : addr_ok a) (Hb : addr_ok b) :
  inet_pton (ip_to_str (s_addr a)) = Some (s_addr a) /\
  u64_to_sockaddr (addr_to_u64 a) = a /\
  (addr_to_u64 a = addr_to_u64 b -> a = b) /\
  (sockaddr_eq a b = true <-> a = b) /\
  (length (ip_to_str (s_addr a)) < 16)%nat.
Proof.
  split_all.
  - by apply inet_pton_ntop, Ha.
  - by apply u64_to_sockaddr_addr_to_u64.
  - by apply addr_to_u64_inj.
  - by apply sockaddr_eq_true.
  - apply inet_ntop_length.
Qed.

Lemma address_roundtrips_witness :
  addr_ok (mkAddr 16777343 20480) /\ inet_pton (ip_to_str 16777343) = Some 16777343.
Proof.
  assert (addr_ok (mkAddr 16777343 20480)) as H
    by (split; unfold u32_ok, u16_ok; simpl; lia).
  split; [exact H|]. apply (address_roundtrips _ _ H H).
Defined.
