(* ===== verification/Sha256.v ===== *)
(** * SHA-256

    Models [Sha256Ctx] and [sha256] of [common/Crypto.cpp]: the incremental
    context with its 64-byte buffer, and the one-shot functions.  Words are
    [Z] values below 2^32.  The theorems relate the incremental context to a
    specification on whole messages: padding, cutting into blocks, folding the
    compression function. *)

From S2P Require Import Prelude.
From S2P Require Import Bytes.

#[local] Open Scope Z_scope.

Definition SHA256_DIGEST_LEN : nat := 32.

(** ** Compression function *)

Definition K : list Z :=
   [1116352408; 1899447441; 3049323471; 3921009573; 961987163; 1508970993;
    2453635748; 2870763221; 3624381080; 310598401; 607225278; 1426881987;
    1925078388; 2162078206; 2614888103; 3248222580; 3835390401; 4022224774;
    264347078; 604807628; 770255983; 1249150122; 1555081692; 1996064986;
    2554220882; 2821834349; 2952996808; 3210313671; 3336571891; 3584528711;
    113926993; 338241895; 666307205; 773529912; 1294757372; 1396182291;
    1695183700; 1986661051; 2177026350; 2456956037; 2730485921; 2820302411;
    3259730800; 3345764771; 3516065817; 3600352804; 4094571909; 275423344;
    430227734; 506948616; 659060556; 883997877; 958139571; 1322822218;
    1537002063; 1747873779; 1955562222; 2024104815; 2227730452; 2361852424;
    2428436474; 2756734187; 3204031479; 3329325298].

Definition rotr (x n : Z) : Z := Z.lor (Z.shiftr x n) (u32 (Z.shiftl x (32 - n))).

(** Word [i] of a block, high octet first. *)
Definition load_word (p : bytes) (i : nat) : Z :=
  Z.lor (Z.lor (Z.lor (Z.shiftl (p !!! (i * 4)%nat) 24) (Z.shiftl (p !!! (i * 4 + 1)%nat) 16))
               (Z.shiftl (p !!! (i * 4 + 2)%nat) 8))
        (p !!! (i * 4 + 3)%nat).

Definition schedule_step (w : list Z) (i : nat) : list Z :=
  let s0 := Z.lxor (Z.lxor (rotr (w !!! (i - 15)%nat) 7) (rotr (w !!! (i - 15)%nat) 18))
                   (Z.shiftr (w !!! (i - 15)%nat) 3) in
  let s1 := Z.lxor (Z.lxor (rotr (w !!! (i - 2)%nat) 17) (rotr (w !!! (i - 2)%nat) 19))
                   (Z.shiftr (w !!! (i - 2)%nat) 10) in
  w ++ [u32 (w !!! (i - 16)%nat + s0 + w !!! (i - 7)%nat + s1)].

Definition schedule (p : bytes) : list Z :=
  foldl schedule_step (map (load_word p) (seq 0 16)) (seq 16 48).

(** The working variables [a] to [hh]. *)
Record vars := mkVars { va : Z; vb : Z; vc : Z; vd : Z; ve : Z; vf : Z; vg : Z; vh : Z }.

Definition round (w : list Z) (v : vars) (i : nat) : vars :=
  let 'mkVars a b c d e f g hh := v in
  let S1 := Z.lxor (Z.lxor (rotr e 6) (rotr e 11)) (rotr e 25) in
  let ch := Z.lxor (Z.land e f) (Z.land (u32 (Z.lnot e)) g) in
  let t1 := u32 (hh + S1 + ch + K !!! i + w !!! i) in
  let S0 := Z.lxor (Z.lxor (rotr a 2) (rotr a 13)) (rotr a 22) in
  let maj := Z.lxor (Z.lxor (Z.land a b) (Z.land a c)) (Z.land b c) in
  let t2 := u32 (S0 + maj) in
  mkVars (u32 (t1 + t2)) a b c (u32 (d + t1)) e f g.

(** [Sha256Ctx::block]: [h] is the eight chaining words. *)
Definition block (h : vars) (p : bytes) : vars :=
  let w := schedule p in
  let v := foldl (round w) h (seq 0 64) in
  mkVars (u32 (va h + va v)) (u32 (vb h + vb v)) (u32 (vc h + vc v)) (u32 (vd h + vd v))
         (u32 (ve h + ve v)) (u32 (vf h + vf v)) (u32 (vg h + vg v)) (u32 (vh h + vh v)).

(** ** The incremental context *)

(** [c_buf] holds the [buflen] octets of [buf] in use. *)
Record Sha256Ctx := mkCtx { c_h : vars; c_total : Z; c_buf : bytes }.

Definition init_h : vars :=
  mkVars 1779033703 3144134277 1013904242 2773480762 1359893119 2600822924 528734635 1541459225.

Definition ctx_init : Sha256Ctx := mkCtx init_h 0 [].

(** The [while (len > 0)] loop of [update]; every turn consumes an octet, so
    [length data] turns are enough. *)
Fixpoint update_loop (fuel : nat) (c : Sha256Ctx) (data : bytes) : Sha256Ctx :=
  match fuel, data with
  | S fuel, _ :: _ =>
      let tk := Nat.min (64 - length (c_buf c)) (length data) in
      let buf := c_buf c ++ take tk data in
      let c := if (length buf =? 64)%nat then mkCtx (block (c_h c) buf) (c_total c) []
               else mkCtx (c_h c) (c_total c) buf in
      update_loop fuel c (drop tk data)
  | _, _ => c
  end.

Definition update (c : Sha256Ctx) (data : bytes) : Sha256Ctx :=
  update_loop (length data) (mkCtx (c_h c) (u64 (c_total c + len data)) (c_buf c)) data.

(** [while (buflen != 56) update(&zero, 1)]; 64 turns reach 56 from anywhere. *)
Fixpoint pad_loop (fuel : nat) (c : Sha256Ctx) : Sha256Ctx :=
  match fuel with
  | O => c
  | S fuel => if (length (c_buf c) =? 56)%nat then c else pad_loop fuel (update c [0])
  end.

Definition store_word (x : Z) : bytes :=
  [u8 (Z.shiftr x 24); u8 (Z.shiftr x 16); u8 (Z.shiftr x 8); u8 x].

Definition store_digest (h : vars) : bytes :=
  store_word (va h) ++ store_word (vb h) ++ store_word (vc h) ++ store_word (vd h) ++
  store_word (ve h) ++ store_word (vf h) ++ store_word (vg h) ++ store_word (vh h).

Definition final (c : Sha256Ctx) : bytes :=
  let bits := u64 (c_total c * 8) in
  let c := pad_loop 64 (update c [128]) in
  let lenb := map (fun i => u8 (Z.shiftr bits (56 - Z.of_nat i * 8))) (seq 0 8) in
  store_digest (c_h (update c lenb)).

Definition sha256 (data : bytes) : bytes := final (update ctx_init data).

Definition hexdig : bytes := bs "0123456789abcdef".

Definition sha256_hex (data : bytes) : bytes :=
  concat (map (fun d => [hexdig !!! Z.to_nat (Z.shiftr d 4); hexdig !!! Z.to_nat (Z.land d 15)])
              (sha256 data)).

(** ** Specification on whole messages *)

(** Cuts [n] leading 64-byte blocks. *)
Fixpoint blocks (n : nat) (m : bytes) : list bytes :=
  match n with
  | O => []
  | S n => take 64 m :: blocks n (drop 64 m)
  end.

Definition compress_all (m : bytes) : vars :=
  foldl block init_h (blocks (length m / 64) m).

(** A one bit, the fewest zeros that leave eight octets of the last block, the
    length in bits. *)
Definition padding (m : bytes) : bytes :=
  128 :: replicate ((119 - length m mod 64) mod 64) 0 ++ be_enc 8 (u64 (u64 (len m) * 8)).

Definition sha256_spec (m : bytes) : bytes := store_digest (compress_all (m ++ padding m)).

(** ** The context implements the specification *)

Lemma blocks_app n p r : length p = (n * 64)%nat -> blocks n (p ++ r) = blocks n p.
Proof.
  revert p. induction n as [|n IH]; intros p H; simpl; [done|].
  rewrite take_app_le by lia. rewrite drop_app_le by lia.
  f_equal. apply IH. rewrite length_drop. lia.
Qed.

Lemma blocks_snoc n p b :
  length p = (n * 64)%nat -> length b = 64%nat -> blocks (S n) (p ++ b) = blocks n p ++ [b].
Proof.
  revert p. induction n as [|n IH]; intros p H Hb.
  - destruct p; [|done]. simpl. by rewrite take_ge by lia.
  - change (blocks (S (S n)) (p ++ b)) with (take 64 (p ++ b) :: blocks (S n) (drop 64 (p ++ b))).
    rewrite take_app_le, drop_app_le, IH by (rewrite ?length_drop; lia). done.
Qed.

(** The context after absorbing [m]: whole blocks folded into the chaining
    words, the rest buffered. *)
Definition absorbed (c : Sha256Ctx) (m : bytes) : Prop :=
  exists n p, m = p ++ c_buf c /\ length p = (n * 64)%nat /\ (length (c_buf c) < 64)%nat /\
              c_h c = foldl block init_h (blocks n p).

Lemma absorbed_init : absorbed ctx_init [].
Proof. exists 0%nat, []. simpl. split_all; try done; lia. Qed.

(** One turn of the loop: at most the room in the buffer is taken. *)
Lemma absorbed_turn c m d :
  absorbed c m -> (length (c_buf c) + length d <= 64)%nat ->
  absorbed (if (length (c_buf c ++ d) =? 64)%nat then mkCtx (block (c_h c) (c_buf c ++ d)) (c_total c) []
            else mkCtx (c_h c) (c_total c) (c_buf c ++ d)) (m ++ d).
Proof.
  intros (n & p & -> & Hp & Hb & Hh) Hd. rewrite length_app.
  destruct (Nat.eqb_spec (length (c_buf c) + length d) 64).
  - exists (S n), (p ++ c_buf c ++ d). cbn [c_buf c_h].
    rewrite !length_app, app_nil_r, <- app_assoc. split_all; [done|lia|simpl; lia|].
    rewrite blocks_snoc by (rewrite ?length_app; lia). by rewrite foldl_app, <- Hh.
  - exists n, p. simpl. rewrite length_app, app_assoc. split_all; try done. lia.
Qed.

Lemma absorbed_update_loop fuel c m d :
  absorbed c m -> (length d <= fuel)%nat -> absorbed (update_loop fuel c d) (m ++ d).
Proof.
  revert c m d. induction fuel as [|fuel IH]; intros c m d Hc Hf; simpl.
  { destruct d; simpl in Hf; [by rewrite app_nil_r|lia]. }
  destruct d as [|x d]; [by rewrite app_nil_r|].
  assert (length (c_buf c) < 64)%nat as Hb by (destruct Hc as (?&?&?&?&?&?); done).
  set (tk := Nat.min _ _).
  replace (m ++ x :: d) with ((m ++ take tk (x :: d)) ++ drop tk (x :: d))
    by (by rewrite <- app_assoc, take_drop).
  apply IH.
  - apply absorbed_turn; [done|]. rewrite length_take. lia.
  - rewrite length_drop. unfold tk. cbn [length] in *. lia.
Qed.

Lemma update_loop_total fuel c d : c_total (update_loop fuel c d) = c_total c.
Proof.
  revert c d. induction fuel as [|fuel IH]; intros c [|x d]; try done.
  simpl. rewrite IH. by destruct (_ =? _)%nat.
Qed.

(** [update] appends to the absorbed message. *)
Lemma absorbed_update c m d : absorbed c m -> absorbed (update c d) (m ++ d).
Proof. intros H. unfold update. by apply absorbed_update_loop. Qed.

Lemma update_total c d : c_total (update c d) = u64 (c_total c + len d).
Proof. unfold update. by rewrite update_loop_total. Qed.

Lemma absorbed_buf_length c m : absorbed c m -> length (c_buf c) = (length m mod 64)%nat.
Proof.
  intros (n & p & -> & Hp & Hb & _). rewrite length_app, Hp.
  rewrite Nat.add_comm, Nat.Div0.mod_add. symmetry. by apply Nat.mod_small.
Qed.

Lemma absorbed_whole c m : absorbed c m -> (length m mod 64 = 0)%nat -> c_h c = compress_all m.
Proof.
  intros H Hm. pose proof (absorbed_buf_length c m H) as Hb.
  destruct H as (n & p & -> & Hp & _ & Hh).
  rewrite Hm in Hb. destruct (c_buf c); [|done]. rewrite app_nil_r in *.
  unfold compress_all. rewrite Hp, Nat.div_mul by done. done.
Qed.

(** How many zero octets the padding loop adds to [n] octets. *)
Definition zeros (n : nat) : nat := (120 - n mod 64) mod 64.

Lemma zeros_lt n : (zeros n < 64)%nat.
Proof. by apply Nat.mod_upper_bound. Qed.

Lemma zeros_cases n :
  zeros n = (if n mod 64 <=? 56 then 56 - n mod 64 else 120 - n mod 64)%nat.
Proof.
  unfold zeros. pose proof (Nat.mod_upper_bound n 64 ltac:(lia)) as B.
  destruct (Nat.leb_spec (n mod 64) 56).
  - replace (120 - n mod 64)%nat with (56 - n mod 64 + 1 * 64)%nat by lia.
    rewrite Nat.Div0.mod_add. apply Nat.mod_small. lia.
  - apply Nat.mod_small. lia.
Qed.

Lemma mod64_succ n :
  ((n + 1) mod 64 = if n mod 64 =? 63 then 0 else S (n mod 64))%nat.
Proof.
  pose proof (Nat.mod_upper_bound n 64 ltac:(lia)) as B.
  rewrite <- Nat.Div0.add_mod_idemp_l. destruct (Nat.eqb_spec (n mod 64) 63) as [->|]; [done|].
  rewrite Nat.mod_small; lia.
Qed.

Lemma zeros_succ n : (n mod 64 <> 56 -> zeros n = S (zeros (n + 1)))%nat.
Proof.
  intros H. rewrite !zeros_cases, mod64_succ.
  pose proof (Nat.mod_upper_bound n 64 ltac:(lia)) as B.
  destruct (Nat.eqb_spec (n mod 64) 63) as [->|]; [done|].
  destruct (Nat.leb_spec (n mod 64) 56), (Nat.leb_spec (S (n mod 64)) 56); lia.
Qed.

Lemma zeros_fill n : ((n + zeros n) mod 64 = 56)%nat.
Proof.
  rewrite zeros_cases, <- Nat.Div0.add_mod_idemp_l.
  pose proof (Nat.mod_upper_bound n 64 ltac:(lia)) as B.
  destruct (Nat.leb_spec (n mod 64) 56).
  - by replace (n mod 64 + (56 - n mod 64))%nat with 56%nat by lia.
  - by replace (n mod 64 + (120 - n mod 64))%nat with 120%nat by lia.
Qed.

(** The zero loop reaches 56 octets, adding the fewest zeros. *)
Lemma absorbed_pad_loop fuel c m :
  absorbed c m -> (zeros (length m) <= fuel)%nat ->
  absorbed (pad_loop fuel c) (m ++ replicate (zeros (length m)) 0).
Proof.
  revert c m. induction fuel as [|fuel IH]; intros c m Hc Hf.
  { replace (zeros (length m)) with 0%nat by lia. simpl. by rewrite app_nil_r. }
  cbn [pad_loop]. rewrite (absorbed_buf_length c m Hc).
  destruct (Nat.eqb_spec (length m mod 64) 56) as [E|E].
  { replace (zeros (length m)) with 0%nat by (rewrite zeros_cases, E; done).
    simpl. by rewrite app_nil_r. }
  pose proof (absorbed_update c m [0] Hc) as Hu.
  rewrite zeros_succ in Hf |- * by done. simpl replicate.
  specialize (IH _ _ Hu). rewrite length_app in IH. simpl in IH.
  rewrite <- app_assoc in IH. apply IH. lia.
Qed.

(** The eight length octets are the big-endian bit count. *)
Lemma shift_octets x :
  map (fun i => u8 (Z.shiftr x (56 - Z.of_nat i * 8))) (seq 0 8) = be_enc 8 x.
Proof.
  unfold be_enc. cbn [le_enc rev app seq map]. rewrite !Z.shiftr_shiftr by lia.
  reflexivity.
Qed.

Lemma padding_zeros (n : nat) : ((119 - n mod 64) mod 64)%nat = zeros (n + 1).
Proof.
  rewrite zeros_cases, mod64_succ. pose proof (Nat.mod_upper_bound n 64 ltac:(lia)) as B.
  destruct (Nat.eqb_spec (n mod 64) 63) as [->|]; [done|].
  destruct (Nat.leb_spec (S (n mod 64)) 56).
  - replace (119 - n mod 64)%nat with (55 - n mod 64 + 1 * 64)%nat by lia.
    rewrite Nat.Div0.mod_add, Nat.mod_small by lia. lia.
  - rewrite Nat.mod_small by lia. lia.
Qed.

Lemma padded_length m : (length (m ++ padding m) mod 64 = 0)%nat.
Proof.
  unfold padding. rewrite padding_zeros, length_app. cbn [length].
  rewrite length_app, length_replicate, length_be_enc.
  replace (length m + S (zeros (length m + 1) + 8))%nat
    with ((length m + 1 + zeros (length m + 1)) + 8)%nat by lia.
  by rewrite <- Nat.Div0.add_mod_idemp_l, zeros_fill.
Qed.

Lemma final_absorbed c m :
  absorbed c m -> c_total c = u64 (len m) -> final c = sha256_spec m.
Proof.
  intros Hc Ht. unfold final, sha256_spec. f_equal. rewrite shift_octets.
  pose proof (absorbed_update c m [128] Hc) as H1.
  pose proof (absorbed_pad_loop 64 _ _ H1) as H2.
  specialize (H2 ltac:(pose proof (zeros_lt (length (m ++ [128]))); lia)).
  pose proof (absorbed_update _ _ (be_enc 8 (u64 (c_total c * 8))) H2) as H3.
  replace (((m ++ [128]) ++ _) ++ _) with (m ++ padding m) in H3.
  - rewrite (absorbed_whole _ _ H3); [done|apply padded_length].
  - rewrite Ht, length_app. unfold padding. rewrite padding_zeros. by rewrite <- !app_assoc.
Qed.

Lemma u64_add_idem a b : u64 (u64 a + b) = u64 (a + b).
Proof. rewrite !u64_mod. by rewrite Z.add_mod_idemp_l by lia. Qed.

(** Feeding a message in pieces absorbs their concatenation. *)
Lemma absorbed_foldl ds c m :
  absorbed c m -> c_total c = u64 (len m) ->
  absorbed (foldl update c ds) (m ++ concat ds) /\
  c_total (foldl update c ds) = u64 (len (m ++ concat ds)).
Proof.
  revert c m. induction ds as [|d ds IH]; intros c m Hc Ht; simpl.
  { by rewrite app_nil_r. }
  rewrite app_assoc. apply IH; [by apply absorbed_update|].
  rewrite update_total, Ht, u64_add_idem. f_equal. unfold len. rewrite length_app. lia.
Qed.

Lemma foldl_update_spec ds : final (foldl update ctx_init ds) = sha256_spec (concat ds).
Proof.
  destruct (absorbed_foldl ds ctx_init [] absorbed_init eq_refl) as [H Ht].
  by apply final_absorbed.
Qed.

Lemma sha256_is_spec m : sha256 m = sha256_spec m.
Proof. pose proof (foldl_update_spec [m]) as H. simpl in H. by rewrite app_nil_r in H. Qed.

(** ** The digest *)

Lemma store_word_ok x : bytes_ok (store_word x).
Proof. unfold store_word. auto 6 with p2p. Qed.

Lemma store_digest_ok h : bytes_ok (store_digest h).
Proof. unfold store_digest. repeat (apply Forall_app_2 || apply store_word_ok). Qed.

Lemma length_sha256 m : length (sha256 m) = SHA256_DIGEST_LEN.
Proof. done. Qed.

Lemma sha256_ok m : bytes_ok (sha256 m).
Proof. apply store_digest_ok. Qed.

#[export] Hint Resolve sha256_ok : p2p.

(** C37: hashing a message in any number of [update] calls, then [final], gives
    the SHA-256 of the concatenation as the whole-message specification defines
    it (padding to a multiple of 64 octets, big-endian bit count, one
    compression per block); the one-shot [sha256] is the case of one call. *)
Theorem sha256_streaming (ds : list bytes) :
  final (foldl update ctx_init ds) = sha256_spec (concat ds) /\
  sha256 (concat ds) = final (foldl update ctx_init ds) /\
  (length (concat ds ++ padding (concat ds)) mod 64 = 0)%nat.
Proof.
  split; [apply foldl_update_spec|]. split; [by rewrite sha256_is_spec, foldl_update_spec|].
  apply padded_length.
Qed.

(** The published vectors for the empty message, ["abc"] and two blocks. *)
Lemma sha256_vectors :
  sha256_hex [] = bs "e3b0c44298fc1c149afbf4c8996fb92427ae41e4649b934ca495991b7852b855" /\
  sha256_hex (bs "abc") = bs "ba7816bf8f01cfea414140de5dae2223b00361a396177a9cb410ff61f20015ad" /\
  sha256_hex (bs "abcdbcdecdefdefgefghfghighijhijkijkljklmklmnlmnomnopnopq") =
    bs "248d6a61d20638b8e5c026930c3e6039a33ce45964ff2167f6ecedd419db06c1".
Proof. by_computation. Qed.
