(* ===== verification/Hmac.v ===== *)
(** * HMAC-SHA256, the stream cipher and key derivation

    Models [hmac_sha256], [p2p_stream_xor] and [pbkdf2_hmac_sha256] of
    [common/Crypto.cpp].  The loops write their output piece by piece; the
    theorems give it as a whole. *)

From S2P Require Import Prelude.
From S2P Require Import Bytes.
From S2P Require Import Sha256.

#[local] Open Scope Z_scope.

(** ** HMAC *)

(** The 64-byte key block: a long key is hashed, a short one padded with zeros. *)
Definition key_block (key : bytes) : bytes :=
  if (64 <? length key)%nat then pad_to 64 (sha256 key) else pad_to 64 key.

Definition hmac_sha256 (key msg : bytes) : bytes :=
  let k := key_block key in
  let ipad := map (Z.lxor 54) k in
  let opad := map (Z.lxor 92) k in
  let ih := final (update (update ctx_init ipad) msg) in
  final (update (update ctx_init opad) ih).

(** RFC 2104 on whole messages. *)
Definition hmac_spec (key msg : bytes) : bytes :=
  let k := pad_to 64 (if (64 <? length key)%nat then sha256_spec key else key) in
  sha256_spec (map (Z.lxor 92) k ++ sha256_spec (map (Z.lxor 54) k ++ msg)).

Lemma final_two a b : final (update (update ctx_init a) b) = sha256_spec (a ++ b).
Proof. pose proof (foldl_update_spec [a; b]) as H. simpl in H. by rewrite app_nil_r in H. Qed.

Lemma hmac_is_spec key msg : hmac_sha256 key msg = hmac_spec key msg.
Proof.
  unfold hmac_sha256, hmac_spec, key_block. rewrite !final_two, (sha256_is_spec key).
  by destruct (64 <? length key)%nat.
Qed.

Lemma length_hmac key msg : length (hmac_sha256 key msg) = SHA256_DIGEST_LEN.
Proof. done. Qed.

Lemma hmac_ok key msg : bytes_ok (hmac_sha256 key msg).
Proof. apply store_digest_ok. Qed.

#[export] Hint Resolve hmac_ok : p2p.

(** [hmac_sha256] is HMAC (RFC 2104) over SHA-256: keys longer than the
    64-byte block are hashed first, shorter ones padded with zeros, and the
    digest is the outer hash of the inner one. *)
Theorem hmac_rfc2104 (key msg : bytes) :
  hmac_sha256 key msg = hmac_spec key msg /\ length (hmac_sha256 key msg) = 32%nat.
Proof. split; [apply hmac_is_spec|apply length_hmac]. Qed.

(** RFC 4231, test case 2. *)
Lemma hmac_vector :
  hmac_sha256 (bs "Jefe") (bs "what do ya want for nothing?") =
    [91; 220; 193; 70; 191; 96; 117; 78; 106; 4; 36; 38; 8; 149; 117; 199;
     90; 0; 63; 8; 157; 39; 57; 131; 157; 236; 88; 185; 100; 236; 56; 67].
Proof. by_computation. Qed.

(** ** The stream cipher of the heartbeat *)

(** The [while (off < len)] loop; [data] is what is left from [off] on and
    every turn consumes an octet. *)
Fixpoint stream_loop (fuel : nat) (secret prf : bytes) (off : nat) (data : bytes) : bytes :=
  match fuel, data with
  | S fuel, _ :: _ =>
      let key := hmac_sha256 secret (prf ++ [u8 (Z.of_nat (off / 32))]) in
      let n := Nat.min (length data) 32 in
      xor_bytes (take n data) key ++ stream_loop fuel secret prf (off + n) (drop n data)
  | _, _ => []
  end.

(** [uuid] points to a buffer of at least 33 octets, [iv] to one of 8. *)
Definition p2p_stream_xor (secret uuid iv data : bytes) : bytes :=
  stream_loop (length data) secret (take 33 uuid ++ take 8 iv) 0 data.

(** The keystream octet at a position. *)
Definition keystream (secret prf : bytes) (i : nat) : Z :=
  hmac_sha256 secret (prf ++ [u8 (Z.of_nat (i / 32))]) !!! (i mod 32)%nat.

Definition keystream_from (secret prf : bytes) (off n : nat) : bytes :=
  map (keystream secret prf) (seq off n).

Lemma keystream_from_app secret prf off a b :
  keystream_from secret prf off (a + b) =
  keystream_from secret prf off a ++ keystream_from secret prf (off + a) b.
Proof. unfold keystream_from. by rewrite seq_app, map_app. Qed.

(** A block of the keystream is a prefix of one HMAC output. *)
Lemma keystream_block secret prf q n :
  (n <= 32)%nat ->
  keystream_from secret prf (q * 32) n =
  take n (hmac_sha256 secret (prf ++ [u8 (Z.of_nat q)])).
Proof.
  intros Hn. apply list_eq. intros i. unfold keystream_from.
  rewrite list_lookup_fmap. destruct (decide (i < n)%nat) as [Hi|Hi].
  - rewrite lookup_seq_lt by done. rewrite lookup_take_lt by done. simpl.
    unfold keystream. rewrite Nat.add_comm, Nat.div_add, Nat.div_small by lia.
    rewrite Nat.Div0.mod_add, Nat.mod_small by lia. simpl.
    symmetry. apply list_lookup_lookup_total_lt. rewrite length_hmac.
    unfold SHA256_DIGEST_LEN. lia.
  - rewrite lookup_seq_ge by lia. by rewrite lookup_take_ge by lia.
Qed.

Lemma xor_bytes_app a b c d :
  length a = length c -> xor_bytes (a ++ b) (c ++ d) = xor_bytes a c ++ xor_bytes b d.
Proof. intros H. by apply zip_with_app. Qed.

Lemma xor_bytes_take a k : xor_bytes a k = xor_bytes a (take (length a) k).
Proof.
  unfold xor_bytes. revert k. induction a as [|x a IH]; intros [|y k]; simpl; try done.
  by rewrite IH.
Qed.

Lemma stream_loop_keystream fuel secret prf q data :
  (length data <= fuel)%nat ->
  stream_loop fuel secret prf (q * 32) data =
  xor_bytes data (keystream_from secret prf (q * 32) (length data)).
Proof.
  revert q data. induction fuel as [|fuel IH]; intros q data Hf.
  { destruct data; simpl in *; [done|lia]. }
  destruct data as [|x data]; [done|]. cbn [stream_loop].
  set (d := x :: data) in *. set (n := Nat.min (length d) 32).
  rewrite Nat.div_mul by done.
  assert (length d = n + length (drop n d))%nat as Hl
    by (rewrite length_drop; unfold n; lia).
  rewrite Hl, keystream_from_app, keystream_block by (unfold n; lia).
  rewrite <- (take_drop n d) at 3.
  rewrite xor_bytes_app by (rewrite !length_take, length_hmac; unfold SHA256_DIGEST_LEN; lia).
  f_equal.
  - rewrite xor_bytes_take. f_equal. rewrite length_take. f_equal. lia.
  - destruct (decide (32 <= length d)%nat).
    + replace (q * 32 + n)%nat with (S q * 32)%nat by (unfold n; lia).
      apply IH. rewrite length_drop. unfold n, d in *. simpl in *. lia.
    + rewrite drop_ge by (unfold n; lia). by destruct fuel.
Qed.

Lemma stream_xor_keystream secret uuid iv data :
  p2p_stream_xor secret uuid iv data =
  xor_bytes data (keystream_from secret (take 33 uuid ++ take 8 iv) 0 (length data)).
Proof. apply (stream_loop_keystream _ _ _ 0). done. Qed.

Lemma length_keystream_from secret prf off n : length (keystream_from secret prf off n) = n.
Proof. unfold keystream_from. by rewrite length_map, length_seq. Qed.

Lemma length_stream_xor secret uuid iv data :
  length (p2p_stream_xor secret uuid iv data) = length data.
Proof. rewrite stream_xor_keystream, length_xor_bytes, length_keystream_from. lia. Qed.

Lemma stream_xor_involutive secret uuid iv data :
  p2p_stream_xor secret uuid iv (p2p_stream_xor secret uuid iv data) = data.
Proof.
  rewrite (stream_xor_keystream _ _ _ (p2p_stream_xor _ _ _ _)), length_stream_xor.
  rewrite stream_xor_keystream. apply xor_bytes_involutive. by rewrite length_keystream_from.
Qed.

Lemma lxor_range_total l : bytes_ok l -> forall i, byte_ok (l !!! i).
Proof.
  intros H i. destruct (decide (i < length l)%nat) as [Hi|Hi].
  - apply (Forall_lookup_1 _ _ i _ H). by apply list_lookup_lookup_total_lt.
  - rewrite list_lookup_total_alt, lookup_ge_None_2 by lia. simpl. unfold byte_ok. lia.
Qed.

Lemma stream_xor_ok secret uuid iv data :
  bytes_ok data -> bytes_ok (p2p_stream_xor secret uuid iv data).
Proof.
  intros H. rewrite stream_xor_keystream. apply bytes_ok_xor; [done|].
  unfold keystream_from. apply Forall_fmap, Forall_true. intros i.
  apply lxor_range_total. apply hmac_ok.
Qed.

#[export] Hint Resolve stream_xor_ok : p2p.

(** [p2p_stream_xor] xors the octet at position [i] with octet [i mod 32] of
    [HMAC(secret, uuid || iv || i / 32)], so it is its own inverse and keeps the
    length; the block number is one octet, so the keystream repeats after 8192
    octets. *)
Theorem stream_xor_correct (secret uuid iv data : bytes) :
  p2p_stream_xor secret uuid iv (p2p_stream_xor secret uuid iv data) = data /\
  (forall i x, data !! i = Some x ->
     p2p_stream_xor secret uuid iv data !! i =
       Some (Z.lxor x (keystream secret (take 33 uuid ++ take 8 iv) i))) /\
  (forall prf i, keystream secret prf (i + 256 * 32) = keystream secret prf i).
Proof.
  split_all.
  - apply stream_xor_involutive.
  - intros i x Hx. rewrite stream_xor_keystream.
    unfold xor_bytes. rewrite lookup_zip_with, Hx. simpl.
    apply lookup_lt_Some in Hx as Hi. unfold keystream_from.
    rewrite list_lookup_fmap, lookup_seq_lt by done. done.
  - intros prf i. unfold keystream.
    rewrite Nat.Div0.mod_add, Nat.div_add by done.
    replace (u8 (Z.of_nat (i / 32 + 256))) with (u8 (Z.of_nat (i / 32))); [done|].
    rewrite !u8_mod, Nat2Z.inj_add. change (Z.of_nat 256) with (1 * 256).
    by rewrite Z.mod_add by lia.
Qed.

Lemma stream_xor_correct_witness :
  p2p_stream_xor (bs "key") (bs "device") [1] (bs "hi") !! 0%nat =
    Some (Z.lxor 104 (keystream (bs "key") (bs "device" ++ [1]) 0)).
Proof. apply (stream_xor_correct (bs "key") (bs "device") [1] (bs "hi")). reflexivity. Defined.

(** ** Key derivation *)

(** [for (i = 1; i < iterations; i++)]: the next [u] is folded into the block. *)
Fixpoint pbkdf2_rounds (k : nat) (pw u acc : bytes) : bytes :=
  match k with
  | O => acc
  | S k => let u := hmac_sha256 pw u in pbkdf2_rounds k pw u (xor_bytes acc u)
  end.

(** The [while (off < out_len)] loop; [left] octets are still to be written. *)
Fixpoint pbkdf2_loop (fuel : nat) (pw salt : bytes) (iterations block : Z) (left : nat) : bytes :=
  match fuel, left with
  | S fuel, S _ =>
      let u := hmac_sha256 pw (salt ++ [u8 (Z.shiftr block 24); u8 (Z.shiftr block 16);
                                        u8 (Z.shiftr block 8); u8 block]) in
      let n := Nat.min left 32 in
      pbkdf2_rounds (Z.to_nat (iterations - 1)) pw u (take n u) ++
      pbkdf2_loop fuel pw salt iterations (u32 (block + 1)) (left - n)
  | _, _ => []
  end.

Definition pbkdf2_hmac_sha256 (pw salt : bytes) (iterations : Z) (out_len : nat) : bytes :=
  let iterations := if iterations =? 0 then 1 else iterations in
  if (60 <? length salt)%nat then replicate out_len 0
  else pbkdf2_loop out_len pw salt iterations 1 out_len.

(** RFC 8018: [T_i] is the exclusive or of the chain [U_1 .. U_c]. *)
Fixpoint U (pw salt : bytes) (i : Z) (j : nat) : bytes :=
  match j with
  | O => hmac_sha256 pw (salt ++ be_enc 4 i)
  | S j => hmac_sha256 pw (U pw salt i j)
  end.

Fixpoint T (pw salt : bytes) (c : nat) (i : Z) : bytes :=
  match c with
  | O => U pw salt i 0
  | S c => xor_bytes (T pw salt c i) (U pw salt i (S c))
  end.

(** [c] is the iteration count less one. *)
Definition derived (pw salt : bytes) (c n : nat) (first : Z) (blocks : nat) : bytes :=
  take n (concat (map (fun k => T pw salt c (first + Z.of_nat k)) (seq 0 blocks))).

Lemma U_length pw salt i j : length (U pw salt i j) = 32%nat.
Proof. by destruct j. Qed.

Lemma T_length pw salt c i : length (T pw salt c i) = 32%nat.
Proof.
  induction c as [|c IH]; [done|]. cbn [T]. by rewrite length_xor_bytes, IH, U_length.
Qed.

Lemma take_xor n a b : take n (xor_bytes a b) = xor_bytes (take n a) b.
Proof.
  unfold xor_bytes. revert a b. induction n as [|n IH]; intros [|x a] [|y b]; simpl; try done.
  by rewrite IH.
Qed.

Lemma pbkdf2_rounds_T k j n pw salt i :
  pbkdf2_rounds k pw (U pw salt i j) (take n (T pw salt j i)) = take n (T pw salt (k + j) i).
Proof.
  revert j. induction k as [|k IH]; intros j; [done|].
  cbn [pbkdf2_rounds]. change (hmac_sha256 pw (U pw salt i j)) with (U pw salt i (S j)).
  rewrite <- take_xor. change (xor_bytes (T pw salt j i) (U pw salt i (S j))) with (T pw salt (S j) i).
  rewrite IH. do 2 f_equal. lia.
Qed.

Lemma derived_S pw salt c n first blocks :
  derived pw salt c n first (S blocks) =
  take (Nat.min n 32) (T pw salt c first) ++
  derived pw salt c (n - Nat.min n 32) (first + 1) blocks.
Proof.
  unfold derived. rewrite <- cons_seq, <- fmap_S_seq. cbn [map concat].
  rewrite Z.add_0_r, take_app, T_length. f_equal.
  - destruct (decide (n <= 32)%nat) as [Hn|Hn].
    + f_equal. lia.
    + rewrite !take_ge by (rewrite ?T_length; lia). done.
  - f_equal; [lia|]. f_equal. rewrite map_map.
    apply map_ext. intros k. f_equal. lia.
Qed.

Lemma u32_octets b :
  [u8 (Z.shiftr b 24); u8 (Z.shiftr b 16); u8 (Z.shiftr b 8); u8 b] = be_enc 4 b.
Proof. unfold be_enc. cbn [le_enc rev app]. by rewrite !Z.shiftr_shiftr by lia. Qed.

Lemma pbkdf2_loop_T fuel pw salt it block left :
  (left <= fuel)%nat -> 1 <= it -> 0 <= block -> block + Z.of_nat left < 4294967296 ->
  pbkdf2_loop fuel pw salt it block left =
  derived pw salt (Z.to_nat (it - 1)) left block ((left + 31) / 32).
Proof.
  revert block left. induction fuel as [|fuel IH]; intros block left Hf Hit Hb Hw.
  { by replace left with 0%nat by lia. }
  destruct left as [|l]; [done|]. cbn [pbkdf2_loop]. set (left := S l) in *.
  rewrite u32_octets. change (hmac_sha256 pw (salt ++ be_enc 4 block)) with (U pw salt block 0).
  change (U pw salt block 0) with (T pw salt 0 block) at 2.
  rewrite pbkdf2_rounds_T, Nat.add_0_r, u32_small by (unfold u32_ok, left in *; lia).
  assert ((left + 31) / 32 = S ((left - Nat.min left 32 + 31) / 32))%nat as E.
  { destruct (decide (left <= 32)%nat).
    - replace (left - Nat.min left 32 + 31)%nat with 31%nat by lia.
      replace (left + 31)%nat with (l + 1 * 32)%nat by (unfold left; lia).
      rewrite Nat.div_add, Nat.div_small by (unfold left in *; lia). done.
    - replace (left + 31)%nat with (left - Nat.min left 32 + 31 + 1 * 32)%nat by lia.
      rewrite Nat.div_add by done. lia. }
  rewrite E, derived_S. f_equal. apply IH; unfold left in *; lia.
Qed.

(** [pbkdf2_hmac_sha256] is PBKDF2 (RFC 8018) for salts of at most 60
    octets: octet block [i] is the exclusive or of the HMAC chain started at
    [salt || i], the blocks are concatenated and cut to the requested length,
    and 0 iterations count as 1.  A longer salt gives zero octets. *)
Theorem pbkdf2_rfc8018 (pw salt : bytes) (iterations : Z) (out_len : nat)
    (Hit : 0 <= iterations) (Hlen : Z.of_nat out_len < 4294967295) :
  pbkdf2_hmac_sha256 pw salt iterations out_len =
    if (60 <? length salt)%nat then replicate out_len 0
    else derived pw salt (Z.to_nat (Z.max iterations 1 - 1)) out_len 1 ((out_len + 31) / 32).
Proof.
  unfold pbkdf2_hmac_sha256. destruct (60 <? length salt)%nat; [done|].
  rewrite pbkdf2_loop_T by (repeat case_match; lia).
  do 2 f_equal. destruct (Z.eqb_spec iterations 0); lia.
Qed.

Lemma pbkdf2_rfc8018_witness :
  0 <= 2 /\ Z.of_nat 40 < 4294967295 /\
  pbkdf2_hmac_sha256 (bs "pw") (bs "salt") 2 40 = derived (bs "pw") (bs "salt") 1 40 1 2.
Proof. split_all; [lia|lia|]. apply (pbkdf2_rfc8018 (bs "pw") (bs "salt") 2 40); lia. Defined.
