(* ===== verification/Aes.v ===== *)
(** * AES-256

    Models the arithmetic, the tables, the key schedule and the two block
    transforms of [common/Crypto.cpp].  A state is the list of its 16 octets.
    The tables the program builds at start-up are built the same way here, and
    kept evaluated.  The theorem is that decryption inverts encryption. *)

From S2P Require Import Prelude.
From S2P Require Import Bytes.

#[local] Open Scope Z_scope.

Definition AES_ROUNDS : nat := 14.
Definition AES_RK_WORDS : nat := 60.

(** ** GF(2^8) *)

(** One doubling: shift left, reduce when the high bit falls out. *)
Definition xtime (a : Z) : Z :=
  let hi := Z.land a 128 in
  let a := u8 (Z.shiftl a 1) in
  if hi =? 0 then a else Z.lxor a 27.

Fixpoint gmul_loop (n : nat) (r a b : Z) : Z :=
  match n with
  | O => r
  | S n => gmul_loop n (if Z.odd b then Z.lxor r a else r) (xtime a) (Z.shiftr b 1)
  end.

Definition gmul (a b : Z) : Z := gmul_loop 8 0 a b.

(** [while (e)]: square and multiply; [e] starts at 254, so 8 turns empty it. *)
Fixpoint ginv_loop (fuel : nat) (res base e : Z) : Z :=
  match fuel with
  | O => res
  | S fuel =>
      if e =? 0 then res
      else ginv_loop fuel (if Z.odd e then gmul res base else res) (gmul base base) (Z.shiftr e 1)
  end.

Definition ginv (a : Z) : Z := ginv_loop 8 1 a 254.

Definition rotl8 (x n : Z) : Z := u8 (Z.lor (Z.shiftl x n) (Z.shiftr x (8 - n))).

(** ** Tables *)

Definition sbox_entry (i : Z) : Z :=
  let x := if i =? 0 then 0 else ginv i in
  Z.lxor (Z.lxor (Z.lxor (Z.lxor (Z.lxor x (rotl8 x 1)) (rotl8 x 2)) (rotl8 x 3)) (rotl8 x 4)) 99.

Definition octets : list Z := map Z.of_nat (seq 0 256).

(** The loop of the constructor of [AesTables]; [inv_sbox[s] = i] is a list update. *)
Definition build_sbox : list Z := map sbox_entry octets.
Definition build_inv_sbox : list Z :=
  foldl (fun t i => <[Z.to_nat (sbox_entry i) := i]> t) (replicate 256 0) octets.
Definition build_mul (c : Z) : list Z := map (fun i => gmul i c) octets.

Definition sbox : list Z := Eval vm_compute in build_sbox.
Definition inv_sbox : list Z := Eval vm_compute in build_inv_sbox.
Definition mul2 : list Z := Eval vm_compute in build_mul 2.
Definition mul3 : list Z := Eval vm_compute in build_mul 3.
Definition mul9 : list Z := Eval vm_compute in build_mul 9.
Definition mul11 : list Z := Eval vm_compute in build_mul 11.
Definition mul13 : list Z := Eval vm_compute in build_mul 13.
Definition mul14 : list Z := Eval vm_compute in build_mul 14.

(** Indexing a table with an octet. *)
Definition at8 (t : list Z) (x : Z) : Z := t !!! Z.to_nat x.

(** ** Key schedule *)

Definition RCON : list Z := [0; 1; 2; 4; 8; 16; 32; 64; 128; 27; 54].

Definition rk_byte (rk : list Z) (i : nat) : Z :=
  u8 (Z.shiftr (rk !!! (i / 4)%nat) (24 - 8 * Z.of_nat (i mod 4))).

(** Substitutes each octet of a word. *)
Definition sub_word (t : Z) : Z :=
  Z.lor (Z.lor (Z.lor (Z.shiftl (at8 sbox (Z.land (Z.shiftr t 24) 255)) 24)
                      (Z.shiftl (at8 sbox (Z.land (Z.shiftr t 16) 255)) 16))
               (Z.shiftl (at8 sbox (Z.land (Z.shiftr t 8) 255)) 8))
        (at8 sbox (Z.land t 255)).

Definition key_word (key : bytes) (i : nat) : Z :=
  Z.lor (Z.lor (Z.lor (Z.shiftl (key !!! (i * 4)%nat) 24) (Z.shiftl (key !!! (i * 4 + 1)%nat) 16))
               (Z.shiftl (key !!! (i * 4 + 2)%nat) 8))
        (key !!! (i * 4 + 3)%nat).

Definition expand_step (rk : list Z) (i : nat) : list Z :=
  let t := rk !!! (i - 1)%nat in
  let t :=
    if (i mod 8 =? 0)%nat then
      let rot := u32 (Z.lor (Z.shiftl t 8) (Z.shiftr t 24)) in
      Z.lxor (sub_word rot) (Z.shiftl (RCON !!! (i / 8)%nat) 24)
    else if (i mod 8 =? 4)%nat then sub_word t
    else t in
  rk ++ [Z.lxor (rk !!! (i - 8)%nat) t].

Definition aes256_expand_key (key : bytes) : list Z :=
  foldl expand_step (map (key_word key) (seq 0 8)) (seq 8 (AES_RK_WORDS - 8)).

(** ** Block transforms *)

Definition add_round_key (rk : list Z) (round : nat) (st : bytes) : bytes :=
  xor_bytes st (map (rk_byte rk) (seq (16 * round) 16)).

Definition sub_bytes (st : bytes) : bytes := map (at8 sbox) st.
Definition inv_sub_bytes (st : bytes) : bytes := map (at8 inv_sbox) st.

Definition shift_rows (st : bytes) : bytes :=
  map (fun i => st !!! i) [0; 5; 10; 15; 4; 9; 14; 3; 8; 13; 2; 7; 12; 1; 6; 11]%nat.

Definition inv_shift_rows (st : bytes) : bytes :=
  map (fun i => st !!! i) [0; 13; 10; 7; 4; 1; 14; 11; 8; 5; 2; 15; 12; 9; 6; 3]%nat.

Definition mix_column (a0 a1 a2 a3 : Z) : bytes :=
  [Z.lxor (Z.lxor (Z.lxor (at8 mul2 a0) (at8 mul3 a1)) a2) a3;
   Z.lxor (Z.lxor (Z.lxor a0 (at8 mul2 a1)) (at8 mul3 a2)) a3;
   Z.lxor (Z.lxor (Z.lxor a0 a1) (at8 mul2 a2)) (at8 mul3 a3);
   Z.lxor (Z.lxor (Z.lxor (at8 mul3 a0) a1) a2) (at8 mul2 a3)].

Definition inv_mix_column (a0 a1 a2 a3 : Z) : bytes :=
  [Z.lxor (Z.lxor (Z.lxor (at8 mul14 a0) (at8 mul11 a1)) (at8 mul13 a2)) (at8 mul9 a3);
   Z.lxor (Z.lxor (Z.lxor (at8 mul9 a0) (at8 mul14 a1)) (at8 mul11 a2)) (at8 mul13 a3);
   Z.lxor (Z.lxor (Z.lxor (at8 mul13 a0) (at8 mul9 a1)) (at8 mul14 a2)) (at8 mul11 a3);
   Z.lxor (Z.lxor (Z.lxor (at8 mul11 a0) (at8 mul13 a1)) (at8 mul9 a2)) (at8 mul14 a3)].

Definition on_columns (f : Z -> Z -> Z -> Z -> bytes) (t : bytes) : bytes :=
  concat (map (fun c => f (t !!! (4 * c)%nat) (t !!! (4 * c + 1)%nat)
                          (t !!! (4 * c + 2)%nat) (t !!! (4 * c + 3)%nat)) (seq 0 4)).

Definition mix_columns : bytes -> bytes := on_columns mix_column.
Definition inv_mix_columns : bytes -> bytes := on_columns inv_mix_column.

Definition encrypt_round (rk : list Z) (st : bytes) (round : nat) : bytes :=
  add_round_key rk round (mix_columns (shift_rows (sub_bytes st))).

Definition aes256_encrypt_block (rk : list Z) (input : bytes) : bytes :=
  let st := add_round_key rk 0 input in
  let st := foldl (encrypt_round rk) st (seq 1 (AES_ROUNDS - 1)) in
  add_round_key rk AES_ROUNDS (shift_rows (sub_bytes st)).

Definition decrypt_round (rk : list Z) (st : bytes) (round : nat) : bytes :=
  inv_mix_columns (add_round_key rk round (inv_sub_bytes (inv_shift_rows st))).

Definition aes256_decrypt_block (rk : list Z) (input : bytes) : bytes :=
  let st := add_round_key rk AES_ROUNDS input in
  let st := foldl (decrypt_round rk) st (rev (seq 1 (AES_ROUNDS - 1))) in
  add_round_key rk 0 (inv_sub_bytes (inv_shift_rows st)).

(** ** Facts about octets by enumeration *)

Lemma octet_in x : byte_ok x -> x ∈ octets.
Proof.
  unfold byte_ok. intros H. apply list_elem_of_fmap. exists (Z.to_nat x).
  split; [lia|]. apply elem_of_seq. lia.
Qed.

(** A decidable property of octets holds when it does on all 256 of them. *)
Lemma octet_forall (P : Z -> bool) : forallb P octets = true -> forall x, byte_ok x -> P x = true.
Proof. rewrite List.forallb_forall. intros H x Hx. by apply H, list_elem_of_In, octet_in. Qed.

Lemma at8_map f x : byte_ok x -> at8 (map f octets) x = f x.
Proof.
  unfold byte_ok. intros H. unfold at8, octets. rewrite map_map.
  apply list_lookup_total_correct. rewrite list_lookup_fmap, lookup_seq_lt by lia.
  simpl. f_equal. f_equal. lia.
Qed.

Lemma table_ok t : forallb (fun x => (0 <=? x) && (x <? 256)) t = true -> forall x, byte_ok (at8 t x).
Proof.
  rewrite List.forallb_forall. intros H x. unfold at8.
  destruct (decide (Z.to_nat x < length t)%nat) as [Hx|Hx].
  - apply list_lookup_lookup_total_lt, list_elem_of_lookup_2, list_elem_of_In, H in Hx.
    unfold byte_ok. lia.
  - rewrite list_lookup_total_alt, lookup_ge_None_2 by lia. by unfold byte_ok.
Qed.

Lemma sbox_ok x : byte_ok (at8 sbox x).
Proof. by apply table_ok. Qed.

Lemma inv_sbox_sbox x : byte_ok x -> at8 inv_sbox (at8 sbox x) = x.
Proof.
  intros H. apply Z.eqb_eq.
  apply (octet_forall (fun x => at8 inv_sbox (at8 sbox x) =? x)); [by vm_compute|done].
Qed.

Lemma sbox_build : sbox = build_sbox /\ inv_sbox = build_inv_sbox.
Proof. by_computation. Qed.

Lemma mul_build :
  mul2 = build_mul 2 /\ mul3 = build_mul 3 /\ mul9 = build_mul 9 /\
  mul11 = build_mul 11 /\ mul13 = build_mul 13 /\ mul14 = build_mul 14.
Proof. by_computation. Qed.

(** ** Multiplication is linear *)

Lemma xtime_alt a :
  xtime a = Z.lxor (u8 (Z.shiftl a 1)) (if Z.testbit a 7 then 27 else 0).
Proof.
  unfold xtime. replace (Z.land a 128 =? 0) with (negb (Z.testbit a 7)).
  - destruct (Z.testbit a 7); simpl; [done|]. by rewrite Z.lxor_0_r.
  - change 128 with (2 ^ 7). destruct (Z.testbit a 7) eqn:E; simpl; symmetry.
    + apply Z.eqb_neq. intros C. apply (f_equal (fun z => Z.testbit z 7)) in C.
      by rewrite Z.land_spec, E, Z.pow2_bits_true, Z.bits_0 in C.
    + apply Z.eqb_eq. apply Z.bits_inj'. intros i Hi. rewrite Z.land_spec, Z.bits_0.
      destruct (decide (i = 7)) as [->|]; [by rewrite E|].
      by rewrite Z.pow2_bits_false, andb_false_r by lia.
Qed.

Lemma u8_lxor a b : u8 (Z.lxor a b) = Z.lxor (u8 a) (u8 b).
Proof.
  apply Z.bits_inj'. intros i Hi. unfold u8. bit_specs.
  by destruct (Z.testbit a i), (Z.testbit b i), (Z.testbit 255 i).
Qed.

Lemma lxor_swap a b c d : Z.lxor (Z.lxor a b) (Z.lxor c d) = Z.lxor (Z.lxor a c) (Z.lxor b d).
Proof. rewrite !Z.lxor_assoc. f_equal. rewrite <- !Z.lxor_assoc. f_equal. apply Z.lxor_comm. Qed.

Lemma xtime_lxor a b : xtime (Z.lxor a b) = Z.lxor (xtime a) (xtime b).
Proof.
  rewrite !xtime_alt, Z.shiftl_lxor, u8_lxor, Z.lxor_spec, lxor_swap. f_equal.
  by destruct (Z.testbit a 7), (Z.testbit b 7).
Qed.

Lemma gmul_loop_lxor n r r' a a' b :
  gmul_loop n (Z.lxor r r') (Z.lxor a a') b = Z.lxor (gmul_loop n r a b) (gmul_loop n r' a' b).
Proof.
  revert r r' a a' b. induction n as [|n IH]; intros r r' a a' b; simpl; [done|].
  rewrite xtime_lxor, <- IH. destruct (Z.odd b); [|done]. by rewrite lxor_swap.
Qed.

Lemma gmul_lxor a a' b : gmul (Z.lxor a a') b = Z.lxor (gmul a b) (gmul a' b).
Proof. apply (gmul_loop_lxor 8 0 0). Qed.

Lemma xtime_ok a : byte_ok (xtime a).
Proof.
  rewrite xtime_alt. apply byte_ok_lxor; [apply u8_range|].
  unfold byte_ok. destruct (Z.testbit a 7); lia.
Qed.

Lemma gmul_loop_ok n r a b : byte_ok r -> byte_ok a -> byte_ok (gmul_loop n r a b).
Proof.
  revert r a b. induction n as [|n IH]; intros r a b Hr Ha; simpl; [done|].
  apply IH; [|apply xtime_ok]. destruct (Z.odd b); auto with p2p.
Qed.

Lemma gmul_ok a b : byte_ok a -> byte_ok (gmul a b).
Proof. intros H. by apply gmul_loop_ok. Qed.

#[export] Hint Resolve sbox_ok gmul_ok : p2p.

(** ** The four layers are inverted *)

Lemma at8_mul c t x : t = build_mul c -> byte_ok x -> at8 t x = gmul x c.
Proof. intros -> H. by apply (at8_map (fun i => gmul i c)). Qed.

(** Four-term sums, and how sums of sums regroup. *)
Definition sum4 (a b c d : Z) : Z := Z.lxor (Z.lxor (Z.lxor a b) c) d.

Lemma sum4_lxor a b c d a' b' c' d' :
  Z.lxor (sum4 a b c d) (sum4 a' b' c' d') =
  sum4 (Z.lxor a a') (Z.lxor b b') (Z.lxor c c') (Z.lxor d d').
Proof. unfold sum4. by rewrite (lxor_swap _ d), (lxor_swap _ c), (lxor_swap a b). Qed.

Lemma gather a0 a1 a2 a3 b0 b1 b2 b3 c0 c1 c2 c3 d0 d1 d2 d3 :
  sum4 (sum4 a0 a1 a2 a3) (sum4 b0 b1 b2 b3) (sum4 c0 c1 c2 c3) (sum4 d0 d1 d2 d3) =
  sum4 (sum4 a0 b0 c0 d0) (sum4 a1 b1 c1 d1) (sum4 a2 b2 c2 d2) (sum4 a3 b3 c3 d3).
Proof. unfold sum4 at 1. by rewrite !sum4_lxor. Qed.

Lemma gmul_sum4 a b c d k :
  gmul (sum4 a b c d) k = sum4 (gmul a k) (gmul b k) (gmul c k) (gmul d k).
Proof. unfold sum4. by rewrite !gmul_lxor. Qed.

(** The product of the two coefficient matrices is the identity. *)
Lemma mix_coefficients a : byte_ok a ->
  sum4 (gmul (gmul a 2) 14) (gmul a 11) (gmul a 13) (gmul (gmul a 3) 9) = a /\
  sum4 (gmul (gmul a 2) 9) (gmul a 14) (gmul a 11) (gmul (gmul a 3) 13) = 0 /\
  sum4 (gmul (gmul a 2) 13) (gmul a 9) (gmul a 14) (gmul (gmul a 3) 11) = 0 /\
  sum4 (gmul (gmul a 2) 11) (gmul a 13) (gmul a 9) (gmul (gmul a 3) 14) = 0 /\
  sum4 (gmul (gmul a 3) 14) (gmul (gmul a 2) 11) (gmul a 13) (gmul a 9) = 0 /\
  sum4 (gmul (gmul a 3) 9) (gmul (gmul a 2) 14) (gmul a 11) (gmul a 13) = a /\
  sum4 (gmul (gmul a 3) 13) (gmul (gmul a 2) 9) (gmul a 14) (gmul a 11) = 0 /\
  sum4 (gmul (gmul a 3) 11) (gmul (gmul a 2) 13) (gmul a 9) (gmul a 14) = 0 /\
  sum4 (gmul a 14) (gmul (gmul a 3) 11) (gmul (gmul a 2) 13) (gmul a 9) = 0 /\
  sum4 (gmul a 9) (gmul (gmul a 3) 14) (gmul (gmul a 2) 11) (gmul a 13) = 0 /\
  sum4 (gmul a 13) (gmul (gmul a 3) 9) (gmul (gmul a 2) 14) (gmul a 11) = a /\
  sum4 (gmul a 11) (gmul (gmul a 3) 13) (gmul (gmul a 2) 9) (gmul a 14) = 0 /\
  sum4 (gmul a 14) (gmul a 11) (gmul (gmul a 3) 13) (gmul (gmul a 2) 9) = 0 /\
  sum4 (gmul a 9) (gmul a 14) (gmul (gmul a 3) 11) (gmul (gmul a 2) 13) = 0 /\
  sum4 (gmul a 13) (gmul a 9) (gmul (gmul a 3) 14) (gmul (gmul a 2) 11) = 0 /\
  sum4 (gmul a 11) (gmul a 13) (gmul (gmul a 3) 9) (gmul (gmul a 2) 14) = a.
Proof.
  intros H. rewrite <- !Z.eqb_eq, <- !andb_true_iff.
  revert a H. apply (octet_forall (fun a => _)). by vm_compute.
Qed.

Lemma mix_column_sums a0 a1 a2 a3 :
  byte_ok a0 -> byte_ok a1 -> byte_ok a2 -> byte_ok a3 ->
  mix_column a0 a1 a2 a3 =
  [sum4 (gmul a0 2) (gmul a1 3) a2 a3; sum4 a0 (gmul a1 2) (gmul a2 3) a3;
   sum4 a0 a1 (gmul a2 2) (gmul a3 3); sum4 (gmul a0 3) a1 a2 (gmul a3 2)].
Proof.
  intros H0 H1 H2 H3. destruct mul_build as (M2 & M3 & _).
  unfold mix_column. by rewrite !(at8_mul 2 mul2), !(at8_mul 3 mul3).
Qed.

Lemma inv_mix_column_sums a0 a1 a2 a3 :
  byte_ok a0 -> byte_ok a1 -> byte_ok a2 -> byte_ok a3 ->
  inv_mix_column a0 a1 a2 a3 =
  [sum4 (gmul a0 14) (gmul a1 11) (gmul a2 13) (gmul a3 9);
   sum4 (gmul a0 9) (gmul a1 14) (gmul a2 11) (gmul a3 13);
   sum4 (gmul a0 13) (gmul a1 9) (gmul a2 14) (gmul a3 11);
   sum4 (gmul a0 11) (gmul a1 13) (gmul a2 9) (gmul a3 14)].
Proof.
  intros H0 H1 H2 H3. destruct mul_build as (_ & _ & M9 & M11 & M13 & M14).
  unfold inv_mix_column.
  by rewrite !(at8_mul 9 mul9), !(at8_mul 11 mul11), !(at8_mul 13 mul13), !(at8_mul 14 mul14).
Qed.

Lemma sum4_ok a b c d : byte_ok a -> byte_ok b -> byte_ok c -> byte_ok d -> byte_ok (sum4 a b c d).
Proof. intros. unfold sum4. auto with p2p. Qed.

#[export] Hint Resolve sum4_ok : p2p.

Lemma sum4_id a b c d : b = 0 -> c = 0 -> d = 0 -> sum4 a b c d = a.
Proof. intros -> -> ->. unfold sum4. by rewrite !Z.lxor_0_r. Qed.

Lemma inv_mix_mix_column a0 a1 a2 a3 :
  byte_ok a0 -> byte_ok a1 -> byte_ok a2 -> byte_ok a3 ->
  inv_mix_column (mix_column a0 a1 a2 a3 !!! 0%nat) (mix_column a0 a1 a2 a3 !!! 1%nat)
    (mix_column a0 a1 a2 a3 !!! 2%nat) (mix_column a0 a1 a2 a3 !!! 3%nat) = [a0; a1; a2; a3].
Proof.
  intros H0 H1 H2 H3. rewrite mix_column_sums by done.
  cbn -[gmul sum4 inv_mix_column].
  rewrite inv_mix_column_sums by auto 8 with p2p. rewrite !gmul_sum4.
  pose proof (mix_coefficients _ H0) as C0. pose proof (mix_coefficients _ H1) as C1.
  pose proof (mix_coefficients _ H2) as C2. pose proof (mix_coefficients _ H3) as C3.
  split_all.
  repeat apply (f_equal2 cons); [..|done]; rewrite gather.
  all: repeat match goal with H : sum4 _ _ _ _ = _ |- _ => rewrite ?H; clear H end.
  all: unfold sum4; by rewrite ?Z.lxor_0_r, ?Z.lxor_0_l.
Qed.

(** ** States *)

(** A state: sixteen octets. *)
Definition state_ok (st : bytes) : Prop := length st = 16%nat /\ bytes_ok st.

(** Cuts the first octet off a state of known length. *)
Ltac uncons st :=
  lazymatch goal with
  | Hl : length st = S _, Hb : bytes_ok st |- _ =>
      let x := fresh "x" in
      let st' := fresh "st" in
      let Hx := fresh "Hx" in
      let Hb' := fresh "Hb" in
      destruct st as [|x st']; [discriminate Hl|];
      apply Forall_cons in Hb as [Hx Hb']; apply (eq_add_S (length st')) in Hl;
      try uncons st'
  end.

(** Names the sixteen octets of a state. *)
Ltac name_state st H :=
  let Hl := fresh "Hl" in
  let Hb := fresh "Hb" in
  destruct H as [Hl Hb]; uncons st; apply nil_length_inv in Hl; subst.

Lemma rk_bytes_ok rk round : bytes_ok (map (rk_byte rk) (seq (16 * round) 16)).
Proof. apply Forall_fmap, Forall_true. intros i. apply u8_range. Qed.

Lemma add_round_key_ok rk r st : state_ok st -> state_ok (add_round_key rk r st).
Proof.
  intros [Hl Hb]. split.
  - unfold add_round_key. by rewrite length_xor_bytes, length_map, length_seq, Hl.
  - apply bytes_ok_xor; [done|apply rk_bytes_ok].
Qed.

Lemma add_round_key_twice rk r st :
  state_ok st -> add_round_key rk r (add_round_key rk r st) = st.
Proof.
  intros [Hl _]. apply xor_bytes_involutive. by rewrite length_map, length_seq, Hl.
Qed.

Lemma sub_bytes_ok st : state_ok st -> state_ok (sub_bytes st).
Proof.
  intros [Hl Hb]. split; [unfold sub_bytes; by rewrite length_map|].
  apply Forall_fmap, Forall_true. intros x. apply sbox_ok.
Qed.

Lemma inv_sub_sub_bytes st : state_ok st -> inv_sub_bytes (sub_bytes st) = st.
Proof.
  intros [_ Hb]. unfold inv_sub_bytes, sub_bytes. rewrite map_map.
  induction Hb as [|x st Hx Hb IH]; [done|]. cbn [map]. by rewrite inv_sbox_sbox, IH.
Qed.

Lemma shift_rows_ok st : state_ok st -> state_ok (shift_rows st).
Proof.
  intros [Hl Hb]. split; [done|]. apply Forall_fmap, Forall_forall.
  intros i Hi. apply (Forall_lookup_1 _ _ i _ Hb), list_lookup_lookup_total_lt.
  rewrite Hl. revert i Hi. apply Forall_forall. repeat constructor.
Qed.

Lemma inv_shift_shift_rows st : state_ok st -> inv_shift_rows (shift_rows st) = st.
Proof. intros H. by name_state st H. Qed.

Lemma mix_column_ok a0 a1 a2 a3 :
  byte_ok a0 -> byte_ok a1 -> byte_ok a2 -> byte_ok a3 -> bytes_ok (mix_column a0 a1 a2 a3).
Proof.
  intros. rewrite mix_column_sums by done.
  repeat constructor; apply sum4_ok; auto with p2p.
Qed.

Lemma on_columns_16 f a0 a1 a2 a3 a4 a5 a6 a7 a8 a9 a10 a11 a12 a13 a14 a15 :
  on_columns f [a0; a1; a2; a3; a4; a5; a6; a7; a8; a9; a10; a11; a12; a13; a14; a15] =
  f a0 a1 a2 a3 ++ f a4 a5 a6 a7 ++ f a8 a9 a10 a11 ++ f a12 a13 a14 a15.
Proof. unfold on_columns. cbn. by rewrite app_nil_r. Qed.

Lemma mix_columns_ok st : state_ok st -> state_ok (mix_columns st).
Proof.
  intros H. name_state st H. unfold mix_columns. rewrite on_columns_16.
  split; [done|]. repeat apply Forall_app_2; by apply mix_column_ok.
Qed.

Lemma on_columns_app f l r :
  length l = 4%nat -> length r = 12%nat ->
  on_columns f (l ++ r) =
  f (l !!! 0%nat) (l !!! 1%nat) (l !!! 2%nat) (l !!! 3%nat) ++
  concat (map (fun c => f (r !!! (4 * c)%nat) (r !!! (4 * c + 1)%nat)
                          (r !!! (4 * c + 2)%nat) (r !!! (4 * c + 3)%nat)) (seq 0 3)).
Proof.
  intros Hl Hr. do 4 (destruct l as [|? l]; [done|]). by destruct l.
Qed.

Lemma inv_mix_mix_columns st : state_ok st -> inv_mix_columns (mix_columns st) = st.
Proof.
  intros H. name_state st H. unfold mix_columns, inv_mix_columns. rewrite on_columns_16.
  rewrite on_columns_app by done. rewrite inv_mix_mix_column by done.
  transitivity ([x; x0; x1; x2] ++ [x3; x4; x5; x6] ++ [x7; x8; x9; x10] ++ [x11; x12; x13; x14] ++ []);
    [|done].
  f_equal. cbn [seq map concat].
  f_equal; [by apply inv_mix_mix_column|].
  f_equal; [by apply inv_mix_mix_column|].
  f_equal. by apply inv_mix_mix_column.
Qed.

Lemma encrypt_round_ok rk st r : state_ok st -> state_ok (encrypt_round rk st r).
Proof. intros H. by apply add_round_key_ok, mix_columns_ok, shift_rows_ok, sub_bytes_ok. Qed.

(** One round of decryption undoes one round of encryption, seen from the
    substituted and shifted state. *)
Lemma decrypt_encrypt_round rk st r :
  state_ok st ->
  decrypt_round rk (shift_rows (sub_bytes (encrypt_round rk st r))) r =
  shift_rows (sub_bytes st).
Proof.
  intros H. unfold decrypt_round, encrypt_round.
  set (m := shift_rows (sub_bytes st)).
  assert (state_ok m) as Hm by by apply shift_rows_ok, sub_bytes_ok.
  pose proof (mix_columns_ok _ Hm) as Hmm. pose proof (add_round_key_ok rk r _ Hmm) as Ha.
  rewrite inv_shift_shift_rows by by apply sub_bytes_ok.
  rewrite inv_sub_sub_bytes, add_round_key_twice, inv_mix_mix_columns by done. done.
Qed.

Lemma decrypt_encrypt_rounds rk rounds st :
  state_ok st ->
  foldl (decrypt_round rk) (shift_rows (sub_bytes (foldl (encrypt_round rk) st rounds))) (rev rounds)
  = shift_rows (sub_bytes st) /\ state_ok (foldl (encrypt_round rk) st rounds).
Proof.
  revert st. induction rounds as [|r rounds IH]; intros st H; [done|].
  simpl. destruct (IH _ (encrypt_round_ok rk st r H)) as [E O].
  split; [|done]. rewrite foldl_app, E. simpl. by apply decrypt_encrypt_round.
Qed.

Lemma decrypt_encrypt_block rk st :
  state_ok st -> aes256_decrypt_block rk (aes256_encrypt_block rk st) = st.
Proof.
  intros H. unfold aes256_decrypt_block, aes256_encrypt_block.
  pose proof (add_round_key_ok rk 0 _ H) as H0.
  destruct (decrypt_encrypt_rounds rk (seq 1 (AES_ROUNDS - 1)) _ H0) as [E O].
  rewrite add_round_key_twice by by apply shift_rows_ok, sub_bytes_ok.
  rewrite E, inv_shift_shift_rows, inv_sub_sub_bytes by (done || by apply sub_bytes_ok).
  by apply add_round_key_twice.
Qed.

Lemma encrypt_block_ok rk st : state_ok st -> state_ok (aes256_encrypt_block rk st).
Proof.
  intros H. apply add_round_key_ok, shift_rows_ok, sub_bytes_ok.
  by apply decrypt_encrypt_rounds, add_round_key_ok.
Qed.

(** ** The inverse in the field *)

(** The exponentiation finds the inverse of every non-zero octet. *)
Lemma ginv_inverse a : byte_ok a -> a <> 0 -> gmul a (ginv a) = 1.
Proof.
  intros H Ha. apply Z.eqb_neq in Ha.
  pose proof (octet_forall (fun a => (a =? 0) || (gmul a (ginv a) =? 1)) ltac:(by vm_compute) a H) as E.
  cbv beta in E. rewrite Ha, orb_false_l in E. apply Z.eqb_eq. exact E.
Qed.

(** C35: for every key schedule and every 16-octet block,
    [aes256_decrypt_block] inverts [aes256_encrypt_block]; the tables built at
    start-up (S-box by field inversion and affine map, its inverse by
    assignment, six multiplication tables) are what makes it so. *)
Theorem aes256_roundtrip (key st : bytes) (Hst : state_ok st) :
  aes256_decrypt_block (aes256_expand_key key) (aes256_encrypt_block (aes256_expand_key key) st) = st /\
  state_ok (aes256_encrypt_block (aes256_expand_key key) st) /\
  sbox = build_sbox /\ inv_sbox = build_inv_sbox.
Proof.
  split; [exact (decrypt_encrypt_block _ _ Hst)|].
  split; [exact (encrypt_block_ok _ _ Hst)|exact sbox_build].
Qed.

(** FIPS-197, appendix C.3. *)
Lemma aes256_vector :
  aes256_encrypt_block (aes256_expand_key (map Z.of_nat (seq 0 32)))
    (map (fun i => 17 * Z.of_nat i) (seq 0 16)) =
  [142; 162; 183; 202; 81; 103; 69; 191; 234; 252; 73; 144; 75; 73; 96; 137].
Proof. by_computation. Qed.

Lemma aes256_roundtrip_witness :
  state_ok (replicate 16 7) /\
  aes256_decrypt_block (aes256_expand_key [])
    (aes256_encrypt_block (aes256_expand_key []) (replicate 16 7)) = replicate 16 7.
Proof.
  assert (state_ok (replicate 16 7)) as H by (split; [reflexivity|repeat constructor; discriminate]).
  split; [exact H|apply (aes256_roundtrip [] _ H)].
Defined.
