(* ===== verification/AesModes.v ===== *)
(** * Modes of operation and the encryptors

    Models the CBC mode with PKCS7 padding, the CTR mode, the authenticated
    encryption and the [Encryptor] classes of [common/Crypto.cpp].  A function
    that returns [-1] has the value [None]; an output buffer enters through its
    capacity. *)

From S2P Require Import Prelude.
From S2P Require Import Bytes.
From S2P Require Import Sha256.
From S2P Require Import Hmac.
From S2P Require Import Aes.

#[local] Open Scope Z_scope.

Definition AES_BLOCK : nat := 16.

(** ** CBC with PKCS7 padding *)

(** The plain octets of the block at [blk], the padding value past the end. *)
Definition cbc_plain (input : bytes) (pad blk : nat) : bytes :=
  map (fun i => let idx := (blk + i)%nat in
                if (idx <? length input)%nat then input !!! idx else u8 (Z.of_nat pad))
      (seq 0 AES_BLOCK).

Fixpoint cbc_encrypt_loop (n : nat) (rk : list Z) (prev input : bytes) (pad blk : nat) : bytes :=
  match n with
  | O => []
  | S n =>
      let cipher := aes256_encrypt_block rk (xor_bytes (cbc_plain input pad blk) prev) in
      cipher ++ cbc_encrypt_loop n rk cipher input pad (blk + AES_BLOCK)
  end.

Definition aes256_cbc_encrypt (key iv input : bytes) (out_cap : nat) : option bytes :=
  let rk := aes256_expand_key key in
  let pad := (AES_BLOCK - length input mod AES_BLOCK)%nat in
  let total := (length input + pad)%nat in
  if (out_cap <? total)%nat then None
  else Some (cbc_encrypt_loop (total / AES_BLOCK) rk (take 16 iv) input pad 0).

Fixpoint cbc_decrypt_loop (n : nat) (rk : list Z) (prev input : bytes) : bytes :=
  match n with
  | O => []
  | S n =>
      let cipher := take AES_BLOCK input in
      xor_bytes (aes256_decrypt_block rk cipher) prev ++
      cbc_decrypt_loop n rk cipher (drop AES_BLOCK input)
  end.

(** What is left of [out] once its padding is checked. *)
Definition pkcs7_strip (out : bytes) : option bytes :=
  let pad := out !!! (length out - 1)%nat in
  if (pad =? 0) || (Z.of_nat AES_BLOCK <? pad) then None
  else if forallb (fun b => b =? pad) (drop (length out - Z.to_nat pad) out)
       then Some (take (length out - Z.to_nat pad) out) else None.

Definition aes256_cbc_decrypt (key iv input : bytes) (out_cap : nat) : option bytes :=
  if (length input =? 0)%nat || negb (length input mod AES_BLOCK =? 0)%nat
     || (out_cap <? length input)%nat then None
  else
    let rk := aes256_expand_key key in
    pkcs7_strip (cbc_decrypt_loop (length input / AES_BLOCK) rk (take 16 iv) input).

(** ** CTR *)

(** The [while (off < len)] loop, [input] being what is left. *)
Fixpoint ctr_loop (fuel : nat) (rk : list Z) (ctr : bytes) (counter : Z) (input : bytes) : bytes :=
  match fuel, input with
  | S fuel, _ :: _ =>
      let ks := aes256_encrypt_block rk ctr in
      let n := Nat.min (length input) AES_BLOCK in
      let counter := u32 (counter + 1) in
      let ctr := take 12 ctr ++ [u8 (Z.shiftr counter 24); u8 (Z.shiftr counter 16);
                                 u8 (Z.shiftr counter 8); u8 counter] in
      xor_bytes (take n input) ks ++ ctr_loop fuel rk ctr counter (drop n input)
  | _, _ => []
  end.

Definition aes256_ctr_xor (key nonce input : bytes) : bytes :=
  ctr_loop (length input) (aes256_expand_key key) (take 12 nonce ++ replicate 4 0) 0 input.

(** ** Authenticated encryption *)

Definition aead_mac (key nonce text : bytes) : bytes :=
  let mac_key := hmac_sha256 (take 32 key) (bs "aead-mac") in
  hmac_sha256 mac_key (take 12 nonce ++ text).

(** Ciphertext and tag. *)
Definition p2p_aead_encrypt (key nonce input : bytes) (out_cap : nat) : option (bytes * bytes) :=
  if (out_cap <? length input)%nat then None
  else
    let out := aes256_ctr_xor key nonce input in
    if 4096 <? len input then None
    else Some (out, take 16 (aead_mac key nonce out)).

(** [diff |= mac[i] ^ tag[i]] over the sixteen octets. *)
Definition tag_diff (mac tag : bytes) : Z :=
  foldl (fun d i => Z.lor d (Z.lxor (mac !!! i) (tag !!! i))) 0 (seq 0 16).

Definition p2p_aead_decrypt (key nonce input : bytes) (out_cap : nat) (tag : bytes) : option bytes :=
  if (out_cap <? length input)%nat then None
  else if 4096 <? len input then None
  else if negb (tag_diff (aead_mac key nonce input) tag =? 0) then None
  else Some (aes256_ctr_xor key nonce input).

(** ** Encryptors *)

Inductive EncryptionAlgorithm := Xor | Aes256Ctr.

(** [XorEncryptor] with [key_], [uuid_], [iv_]; [AesCtrEncryptor] with [key_]. *)
Inductive Encryptor :=
| XorEncryptor (key uuid iv : bytes)
| AesCtrEncryptor (key : bytes).

Definition algorithm (e : Encryptor) : EncryptionAlgorithm :=
  match e with XorEncryptor _ _ _ => Xor | AesCtrEncryptor _ => Aes256Ctr end.

(** [uninit] is what the member [iv_] held before the constructor ran. *)
Definition create_encryptor (alg : EncryptionAlgorithm) (key : bytes) (uuid iv : option bytes)
    (uninit : bytes) : Encryptor :=
  match alg with
  | Xor => XorEncryptor (take 32 key) (from_option c_str [] uuid) (from_option (take 8) uninit iv)
  | Aes256Ctr => AesCtrEncryptor (take 32 key)
  end.

(** [uuid_.c_str()] points to the string and one zero octet; the cipher copies
    33 octets from there. *)
Definition xor_apply (key uuid iv input : bytes) (out_cap : nat) : outcome (option bytes) :=
  if (out_cap <? length input)%nat then Done None
  else if (length uuid + 1 <? 33)%nat then Fault OutOfBounds
  else Done (Some (p2p_stream_xor key (uuid ++ [0]) iv input)).

(** [nonce] is what [p2p_random_bytes] delivers; [out_cap - 28] is a [size_t]. *)
Definition encrypt (e : Encryptor) (nonce input : bytes) (out_cap : nat) : outcome (option bytes) :=
  match e with
  | XorEncryptor key uuid iv => xor_apply key uuid iv input out_cap
  | AesCtrEncryptor key =>
      if u64 (Z.of_nat out_cap - 28) <? len input then Done None
      else if (out_cap <? 28)%nat then Fault OutOfBounds
      else match p2p_aead_encrypt key nonce input (out_cap - 12) with
           | None => Done None
           | Some (c, tag) => Done (Some (take 12 nonce ++ c ++ tag))
           end
  end.

Definition decrypt (e : Encryptor) (input : bytes) (out_cap : nat) : outcome (option bytes) :=
  match e with
  | XorEncryptor key uuid iv => xor_apply key uuid iv input out_cap
  | AesCtrEncryptor key =>
      if (length input <=? 28)%nat then Done None
      else
        let cipher_len := (length input - 28)%nat in
        Done (p2p_aead_decrypt key (take 12 input) (slice 12 cipher_len input) out_cap
                (drop (12 + cipher_len) input))
  end.

(** [p2p_random_bytes]: [dev] is what reading [/dev/urandom] gave, [None] when it
    could not be opened; a short read leaves zeros. *)
Definition p2p_random_bytes (dev : option bytes) (n : nat) : bytes :=
  match dev with
  | Some l => if (length l <? n)%nat then replicate n 0 else take n l
  | None => replicate n 0
  end.

(** ** CBC *)

Definition pad_len (input : bytes) : nat := (AES_BLOCK - length input mod AES_BLOCK)%nat.

Lemma pad_len_range input : (1 <= pad_len input <= 16)%nat.
Proof.
  unfold pad_len, AES_BLOCK. pose proof (Nat.mod_upper_bound (length input) 16). lia.
Qed.

Definition padded (input : bytes) : bytes :=
  input ++ replicate (pad_len input) (Z.of_nat (pad_len input)).

Lemma length_padded input :
  length (padded input) = ((length input / 16 + 1) * 16)%nat.
Proof.
  unfold padded, pad_len, AES_BLOCK. rewrite length_app, length_replicate.
  pose proof (Nat.div_mod_eq (length input) 16).
  pose proof (Nat.mod_upper_bound (length input) 16). lia.
Qed.

Lemma cbc_plain_padded input k :
  (k < length input / 16 + 1)%nat ->
  cbc_plain input (pad_len input) (k * 16) = take 16 (drop (k * 16) (padded input)).
Proof.
  intros Hk. pose proof (length_padded input) as L. pose proof (pad_len_range input) as P.
  apply list_eq. intros i. unfold cbc_plain.
  rewrite list_lookup_fmap. destruct (decide (i < 16)%nat) as [Hi|Hi].
  2:{ rewrite lookup_seq_ge by (unfold AES_BLOCK; lia). by rewrite lookup_take_ge by lia. }
  rewrite lookup_seq_lt, lookup_take_lt, lookup_drop by (unfold AES_BLOCK; lia). simpl.
  unfold padded in *. rewrite length_app, length_replicate in L.
  destruct (Nat.ltb_spec (k * 16 + i) (length input)) as [Hlt|Hge].
  - rewrite lookup_app_l by done. symmetry. by apply list_lookup_lookup_total_lt.
  - rewrite lookup_app_r, lookup_replicate_2 by lia.
    rewrite u8_small by (unfold byte_ok; lia). done.
Qed.

Lemma cbc_decrypt_encrypt_loop n rk prev input k :
  bytes_ok input -> state_ok prev -> (k + n = length input / 16 + 1)%nat ->
  cbc_decrypt_loop n rk prev (cbc_encrypt_loop n rk prev input (pad_len input) (k * 16)) =
  drop (k * 16) (padded input) /\
  length (cbc_encrypt_loop n rk prev input (pad_len input) (k * 16)) = (n * 16)%nat.
Proof.
  intros Hb. revert k prev. induction n as [|n IH]; intros k prev Hprev Hk.
  { split; [|done]. simpl. symmetry. apply drop_ge. rewrite length_padded. lia. }
  cbn [cbc_encrypt_loop cbc_decrypt_loop].
  set (p := cbc_plain _ _ _). set (c := aes256_encrypt_block rk _).
  assert (p = take 16 (drop (k * 16) (padded input))) as Ep by (apply cbc_plain_padded; lia).
  assert (state_ok p) as Hp.
  { rewrite Ep. split.
    - rewrite length_take, length_drop, length_padded. lia.
    - apply Forall_take, Forall_drop, Forall_app_2; [done|].
      apply Forall_replicate. pose proof (pad_len_range input). unfold byte_ok. lia. }
  assert (state_ok (xor_bytes p prev)) as Hx.
  { destruct Hp as [Lp Bp], Hprev as [Lq Bq]. split; [by rewrite length_xor_bytes, Lp, Lq|].
    by apply bytes_ok_xor. }
  pose proof (encrypt_block_ok rk _ Hx) as Hc. fold c in Hc.
  replace (k * 16 + AES_BLOCK)%nat with (S k * 16)%nat by (unfold AES_BLOCK; lia).
  rewrite take_app_exact, drop_app_exact by apply Hc.
  destruct (IH (S k) c Hc ltac:(lia)) as [E L]. split.
  - rewrite E. unfold c. rewrite decrypt_encrypt_block by done.
    rewrite xor_bytes_involutive by (by rewrite (proj1 Hp), (proj1 Hprev)).
    rewrite Ep. rewrite <- (take_drop 16 (drop (k * 16) (padded input))) at 2.
    f_equal. rewrite drop_drop. f_equal. lia.
  - rewrite length_app, L, (proj1 Hc). lia.
Qed.

Lemma pkcs7_strip_padded input : bytes_ok input -> pkcs7_strip (padded input) = Some input.
Proof.
  intros Hb. pose proof (pad_len_range input) as P. unfold pkcs7_strip.
  assert (padded input !!! (length (padded input) - 1)%nat = Z.of_nat (pad_len input)) as ->.
  { apply list_lookup_total_correct. unfold padded.
    rewrite length_app, length_replicate, lookup_app_r, lookup_replicate_2 by lia. done. }
  destruct (Z.eqb_spec (Z.of_nat (pad_len input)) 0); [lia|].
  destruct (Z.ltb_spec (Z.of_nat AES_BLOCK) (Z.of_nat (pad_len input))); [unfold AES_BLOCK in *; lia|].
  simpl. rewrite Nat2Z.id. unfold padded. rewrite length_app, length_replicate.
  replace (length input + pad_len input - pad_len input)%nat with (length input) by lia.
  rewrite drop_app_length, take_app_length.
  replace (forallb _ _) with true; [done|]. symmetry. apply List.forallb_forall.
  intros x Hx. apply list_elem_of_In, elem_of_replicate in Hx as [-> _]. lia.
Qed.

Lemma cbc_encrypt_some key iv input cap :
  (length input + pad_len input <= cap)%nat ->
  aes256_cbc_encrypt key iv input cap =
  Some (cbc_encrypt_loop (length input / 16 + 1) (aes256_expand_key key) (take 16 iv) input
          (pad_len input) 0).
Proof.
  intros H. unfold aes256_cbc_encrypt. fold (pad_len input).
  destruct (Nat.ltb_spec cap (length input + pad_len input)); [lia|].
  do 2 f_equal. pose proof (length_padded input) as L. unfold padded in L.
  rewrite length_app, length_replicate in L. rewrite L.
  unfold AES_BLOCK. by rewrite Nat.div_mul.
Qed.

Lemma cbc_roundtrip key iv input cap cap' :
  bytes_ok input -> state_ok iv ->
  (length input + pad_len input <= cap)%nat -> (length input + pad_len input <= cap')%nat ->
  exists out, aes256_cbc_encrypt key iv input cap = Some out /\
    length out = (length input + pad_len input)%nat /\
    aes256_cbc_decrypt key iv out cap' = Some input.
Proof.
  intros Hb Hiv Hc Hc'. rewrite cbc_encrypt_some by done.
  eexists. split; [done|]. rewrite (take_ge iv) by (destruct Hiv; lia).
  destruct (cbc_decrypt_encrypt_loop (length input / 16 + 1) (aes256_expand_key key) iv input 0)
    as [E L]; try done.
  change (0 * 16)%nat with 0%nat in *. rewrite drop_0 in E. rewrite L.
  pose proof (length_padded input) as Lp. unfold padded in Lp.
  rewrite length_app, length_replicate in Lp. split; [lia|].
  unfold aes256_cbc_decrypt. rewrite L, (take_ge iv) by (destruct Hiv; lia).
  unfold AES_BLOCK. rewrite Nat.Div0.mod_mul, Nat.div_mul by done.
  destruct (Nat.eqb_spec ((length input / 16 + 1) * 16) 0); [lia|].
  destruct (Nat.ltb_spec cap' ((length input / 16 + 1) * 16)); [lia|].
  cbn [orb negb Nat.eqb]. rewrite E. by apply pkcs7_strip_padded.
Qed.

Lemma pkcs7_strip_some out m :
  bytes_ok out -> pkcs7_strip out = Some m ->
  exists pad, (1 <= pad <= 16)%nat /\ m = take (length out - pad) out /\
    Forall (fun b => b = Z.of_nat pad) (drop (length out - pad) out).
Proof.
  intros Hb. unfold pkcs7_strip. set (pad := out !!! _).
  pose proof (lxor_range_total out Hb (length out - 1)%nat) as R. fold pad in R.
  unfold byte_ok in R.
  destruct (Z.eqb_spec pad 0); [done|]. destruct (Z.ltb_spec (Z.of_nat AES_BLOCK) pad); [done|].
  unfold AES_BLOCK in *.
  cbn [orb]. destruct (forallb _ _) eqn:F; [|done]. intros [= <-].
  exists (Z.to_nat pad). split_all; [lia|lia|done|].
  rewrite List.forallb_forall in F. apply Forall_forall. intros b Hin.
  apply list_elem_of_In, F in Hin. lia.
Qed.

(** CBC with PKCS7 is a round trip: with enough room, encryption succeeds,
    gives the next multiple of 16 octets (at least one octet of padding), and
    decryption under the same key and vector gives the input back.  Decryption
    rejects every input whose length is not a positive multiple of 16 or over
    the capacity. *)
Theorem cbc_pkcs7_roundtrip (key iv input : bytes) (cap : nat)
    (Hin : bytes_ok input) (Hiv : state_ok iv) (Hcap : (length input + pad_len input <= cap)%nat) :
  (exists out, aes256_cbc_encrypt key iv input cap = Some out /\
     length out = (length input + pad_len input)%nat /\ (length out mod 16 = 0)%nat /\
     aes256_cbc_decrypt key iv out cap = Some input) /\
  (forall bad n, (length bad mod 16 <> 0)%nat \/ bad = [] \/ (n < length bad)%nat ->
     aes256_cbc_decrypt key iv bad n = None).
Proof.
  split.
  - destruct (cbc_roundtrip key iv input cap cap Hin Hiv Hcap Hcap) as (out & E & L & D).
    exists out. split_all; try done. rewrite L.
    pose proof (length_padded input) as Lp. unfold padded in Lp.
    rewrite length_app, length_replicate in Lp. rewrite Lp. apply Nat.Div0.mod_mul.
  - intros bad n H. unfold aes256_cbc_decrypt, AES_BLOCK.
    destruct (Nat.eqb_spec (length bad) 0) as [E|E]; [done|].
    destruct (Nat.eqb_spec (length bad mod 16) 0) as [E'|E']; [|done].
    destruct (Nat.ltb_spec n (length bad)) as [E''|E'']; [done|].
    destruct H as [H|[->|H]]; simpl in *; lia.
Qed.

Lemma cbc_pkcs7_roundtrip_witness :
  bytes_ok [1; 2; 3] /\ state_ok (replicate 16 9) /\
  exists out, aes256_cbc_encrypt [] (replicate 16 9) [1; 2; 3] 16 = Some out /\
    aes256_cbc_decrypt [] (replicate 16 9) out 16 = Some [1; 2; 3].
Proof.
  assert (bytes_ok [1; 2; 3]) as H by (repeat constructor; discriminate).
  assert (state_ok (replicate 16 9)) as Hiv by (split; [reflexivity|repeat constructor; discriminate]).
  split; [exact H|]. split; [exact Hiv|].
  destruct (cbc_pkcs7_roundtrip [] (replicate 16 9) [1; 2; 3] 16 H Hiv) as [(out & E & _ & _ & D) _].
  - vm_compute. repeat constructor.
  - exists out. split; [exact E|exact D].
Defined.

(** ** CTR and authenticated encryption *)

Lemma length_encrypt_block rk st : length st = 16%nat -> length (aes256_encrypt_block rk st) = 16%nat.
Proof. done. Qed.

Definition next_ctr (ctr : bytes) (counter : Z) : bytes :=
  take 12 ctr ++ [u8 (Z.shiftr counter 24); u8 (Z.shiftr counter 16);
                  u8 (Z.shiftr counter 8); u8 counter].

(** One turn of the loop. *)
Lemma ctr_loop_S fuel rk ctr counter l :
  l <> [] ->
  ctr_loop (S fuel) rk ctr counter l =
  xor_bytes (take (Nat.min (length l) AES_BLOCK) l) (aes256_encrypt_block rk ctr) ++
  ctr_loop fuel rk (next_ctr ctr (u32 (counter + 1))) (u32 (counter + 1))
    (drop (Nat.min (length l) AES_BLOCK) l).
Proof. by destruct l. Qed.

Lemma ctr_loop_spec fuel rk ctr counter input :
  (length input <= fuel)%nat -> (length ctr = 16)%nat ->
  length (ctr_loop fuel rk ctr counter input) = length input /\
  ctr_loop fuel rk ctr counter (ctr_loop fuel rk ctr counter input) = input.
Proof.
  revert ctr counter input. induction fuel as [|fuel IH]; intros ctr counter input Hf Hc.
  { destruct input; [done|simpl in Hf; lia]. }
  destruct (decide (input = [])) as [->|Hne]; [done|].
  rewrite !(ctr_loop_S fuel rk ctr counter input) by done.
  set (n := Nat.min (length input) AES_BLOCK).
  set (ks := aes256_encrypt_block rk ctr).
  set (ctr' := next_ctr ctr (u32 (counter + 1))). set (counter' := u32 (counter + 1)).
  assert (0 < length input)%nat as Hp by (destruct input; [done|simpl; lia]).
  assert (1 <= n <= 16 /\ n <= length input)%nat as Hn by (unfold n, AES_BLOCK; lia).
  assert (length (drop n input) <= fuel)%nat as Hd by (rewrite length_drop; lia).
  destruct (IH ctr' counter' (drop n input) Hd) as [L E].
  { unfold ctr', next_ctr. by rewrite length_app, length_take, Hc. }
  assert (length ks = 16%nat) as Hks by by apply length_encrypt_block.
  assert (length (xor_bytes (take n input) ks) = n) as Lx.
  { rewrite length_xor_bytes, length_take. lia. }
  set (out := xor_bytes _ _ ++ _).
  assert (length out = length input) as Lo.
  { unfold out. rewrite length_app, Lx, L, length_drop. lia. }
  split; [done|]. rewrite ctr_loop_S by (intros ->; simpl in Lo; lia).
  rewrite Lo. fold n. fold ctr' counter' ks.
  unfold out. rewrite take_app_exact, drop_app_exact by done.
  rewrite E, xor_bytes_involutive, take_drop; [done|].
  rewrite length_take. lia.
Qed.

Lemma ctr_xor_spec key nonce input :
  length nonce = 12%nat ->
  length (aes256_ctr_xor key nonce input) = length input /\
  aes256_ctr_xor key nonce (aes256_ctr_xor key nonce input) = input.
Proof.
  intros Hn. unfold aes256_ctr_xor.
  destruct (ctr_loop_spec (length input) (aes256_expand_key key)
              (take 12 nonce ++ replicate 4 0) 0 input) as [L E]; [done| |by rewrite L].
  rewrite length_app, length_take, length_replicate. lia.
Qed.

Lemma lor_zero a b : Z.lor a b = 0 <-> a = 0 /\ b = 0.
Proof. apply Z.lor_eq_0_iff. Qed.

Lemma tag_diff_zero mac tag :
  tag_diff mac tag = 0 <-> forall i, (i < 16)%nat -> mac !!! i = tag !!! i.
Proof.
  unfold tag_diff.
  assert (forall l d, foldl (fun d i => Z.lor d (Z.lxor (mac !!! i) (tag !!! i))) d l = 0 <->
            d = 0 /\ Forall (fun i => mac !!! i = tag !!! i) l) as H.
  { induction l as [|i l IH]; intros d; simpl.
    - split; [by intros ->|by intros [-> _]].
    - rewrite IH, Forall_cons, lor_zero, Z.lxor_eq_0_iff. tauto. }
  rewrite H, Forall_forall. split.
  - intros [_ F] i Hi. apply F, elem_of_seq. lia.
  - intros F. split; [done|]. intros i Hi%elem_of_seq. apply F. lia.
Qed.

Lemma take_eq_lookup (a b : bytes) n :
  (n <= length a)%nat -> (n <= length b)%nat ->
  (forall i, (i < n)%nat -> a !!! i = b !!! i) -> take n a = take n b.
Proof.
  intros Ha Hb H. apply list_eq. intros i. destruct (decide (i < n)%nat).
  - rewrite !lookup_take_lt by done.
    rewrite !list_lookup_lookup_total_lt by lia. by rewrite H.
  - by rewrite !lookup_take_ge by lia.
Qed.

Lemma aead_roundtrip key nonce input cap :
  length nonce = 12%nat -> (length input <= 4096)%nat -> (length input <= cap)%nat ->
  exists c tag, p2p_aead_encrypt key nonce input cap = Some (c, tag) /\
     length c = length input /\ length tag = 16%nat /\ p2p_aead_decrypt key nonce c cap tag = Some input.
Proof.
  intros Hnonce Hin Hcap. destruct (ctr_xor_spec key nonce input Hnonce) as [L E].
  exists (aes256_ctr_xor key nonce input), (take 16 (aead_mac key nonce (aes256_ctr_xor key nonce input))).
  unfold p2p_aead_encrypt, p2p_aead_decrypt, len. rewrite L.
  destruct (Nat.ltb_spec cap (length input)); [lia|].
  destruct (Z.ltb_spec 4096 (Z.of_nat (length input))); [lia|].
  split_all; try done.
  replace (tag_diff _ _) with 0; [by rewrite E|]. symmetry. apply tag_diff_zero. intros i Hi.
  by rewrite list_lookup_total_alt, (list_lookup_total_alt (take _ _)), lookup_take_lt.
Qed.

Lemma aead_refuses key nonce c cap tag :
  length tag = 16%nat -> tag <> take 16 (aead_mac key nonce c) -> p2p_aead_decrypt key nonce c cap tag = None.
Proof.
  intros Ht Hne. unfold p2p_aead_decrypt.
  destruct (cap <? length c)%nat; [done|]. destruct (4096 <? len c); [done|].
  destruct (Z.eqb_spec (tag_diff (aead_mac key nonce c) tag) 0) as [E|E]; [|done].
  destruct Hne. rewrite tag_diff_zero in E. symmetry.
  rewrite <- (take_ge tag 16) by lia. apply take_eq_lookup; [simpl; lia|lia|done].
Qed.

(** C34: authenticated encryption is a round trip, and decryption accepts a
    ciphertext exactly when the first 16 octets of the MAC over nonce and
    ciphertext equal the tag: on any other tag nothing is decrypted. *)
Theorem aead_authentic (key nonce input : bytes) (cap : nat)
    (Hnonce : length nonce = 12%nat) (Hin : (length input <= 4096)%nat) (Hcap : (length input <= cap)%nat) :
  (exists c tag, p2p_aead_encrypt key nonce input cap = Some (c, tag) /\
     length c = length input /\ length tag = 16%nat /\
     p2p_aead_decrypt key nonce c cap tag = Some input) /\
  (forall c tag, length tag = 16%nat -> tag <> take 16 (aead_mac key nonce c) ->
     p2p_aead_decrypt key nonce c cap tag = None) /\
  (forall c tag, (4096 < length c)%nat -> p2p_aead_decrypt key nonce c cap tag = None).
Proof.
  split_all.
  - by apply aead_roundtrip.
  - intros c tag. apply aead_refuses.
  - intros c tag Hc. unfold p2p_aead_decrypt, len.
    destruct (cap <? length c)%nat; [done|]. destruct (Z.ltb_spec 4096 (Z.of_nat (length c))); [done|lia].
Qed.

Lemma aead_authentic_witness :
  length (replicate 12 5) = 12%nat /\
  exists c tag, p2p_aead_encrypt [] (replicate 12 5) [1; 2; 3] 3 = Some (c, tag) /\
    p2p_aead_decrypt [] (replicate 12 5) c 3 tag = Some [1; 2; 3].
Proof.
  split; [reflexivity|].
  destruct (aead_authentic [] (replicate 12 5) [1; 2; 3] 3 eq_refl) as [(c & tag & E & _ & _ & D) _].
  - simpl. lia.
  - simpl. lia.
  - exists c, tag. split; [exact E|exact D].
Defined.

(** ** Encryptors *)

(** The message of [AesCtrEncryptor] travels with its nonce and tag. *)
Lemma aes_ctr_encryptor_roundtrip key nonce input cap :
  length nonce = 12%nat -> (0 < length input <= 4096)%nat -> (length input + 28 <= cap)%nat ->
  Z.of_nat cap < 18446744073709551616 ->
  exists out, encrypt (AesCtrEncryptor key) nonce input cap = Done (Some out) /\
    length out = (length input + 28)%nat /\
    decrypt (AesCtrEncryptor key) out cap = Done (Some input).
Proof.
  intros Hn Hin Hcap Hw.
  destruct (aead_authentic key nonce input (cap - 12) Hn) as [(c & tag & E & Lc & Lt & D) _]; [lia..|].
  exists (take 12 nonce ++ c ++ tag). rewrite (take_ge nonce) by lia. unfold encrypt, decrypt.
  rewrite E, (take_ge nonce) by lia. rewrite u64_mod, Z.mod_small by lia.
  assert (length (nonce ++ c ++ tag) = length input + 28)%nat as L by (rewrite !length_app; lia).
  destruct (Z.ltb_spec (Z.of_nat cap - 28) (len input)); [unfold len in *; lia|].
  destruct (Nat.ltb_spec cap 28); [lia|]. split_all; try done.
  rewrite L. destruct (Nat.leb_spec (length input + 28) 28); [lia|].
  replace (length input + 28 - 28)%nat with (length c) by lia.
  unfold slice. rewrite (take_app_exact 12), (drop_app_exact 12) by done.
  rewrite take_app_length, (app_assoc nonce), (drop_app_exact (12 + length c))
    by (rewrite length_app; lia).
  f_equal. unfold p2p_aead_decrypt in *.
  destruct (Nat.ltb_spec cap (length c)); [lia|].
  destruct (Nat.ltb_spec (cap - 12) (length c)); [lia|]. done.
Qed.
