(* ===== verification/OrderedMap.v ===== *)
(** * [std::map<std::string, A>] and [std::set<std::string>]

    Finite maps with octet-string keys, traversed in key order.  [ordered m] is
    the sequence an iterator over the map visits. *)

From S2P Require Import Prelude.
From S2P Require Import Bytes.

#[local] Open Scope Z_scope.

Section Ordered.
Context {A : Type}.
Implicit Types m : gmap bytes A.

Definition key_le (p q : bytes * A) : Prop := bytes_le p.1 q.1.

#[export] Instance key_le_dec p q : Decision (key_le p q).
Proof. unfold key_le. apply _. Defined.

#[export] Instance key_le_total : Total key_le.
Proof. intros p q. apply (total bytes_le). Qed.

#[export] Instance key_le_trans : Transitive key_le.
Proof. intros p q r. apply (transitivity (R := bytes_le)). Qed.

Definition ordered m : list (bytes * A) := merge_sort key_le (map_to_list m).

Lemma ordered_perm m : ordered m ≡ₚ map_to_list m.
Proof. apply merge_sort_Permutation. Qed.

Lemma elem_of_ordered m k x : (k, x) ∈ ordered m <-> m !! k = Some x.
Proof. rewrite ordered_perm. apply elem_of_map_to_list. Qed.

Lemma length_ordered m : length (ordered m) = size m.
Proof. rewrite ordered_perm. apply length_map_to_list. Qed.

Lemma NoDup_ordered_keys m : NoDup (map fst (ordered m)).
Proof. rewrite ordered_perm. apply NoDup_fst_map_to_list. Qed.

Lemma ordered_sorted m : StronglySorted key_le (ordered m).
Proof. apply StronglySorted_merge_sort; apply _. Qed.

Lemma ordered_keys_sorted m : StronglySorted bytes_le (map fst (ordered m)).
Proof. by apply (StronglySorted_fmap fst key_le bytes_le), ordered_sorted. Qed.

Lemma ordered_empty : ordered ∅ = [].
Proof. unfold ordered. by rewrite map_to_list_empty. Qed.

End Ordered.

(** Counting entries: the number an iteration over the map adds up. *)
Definition count_if {A} (f : A -> bool) (m : gmap bytes A) : nat :=
  length (filter (fun p => f p.2 = true) (ordered m)).

Lemma count_if_perm {A} (f : A -> bool) (m : gmap bytes A) :
  count_if f m = size (filter (fun p => f p.2 = true) m).
Proof.
  unfold count_if. rewrite (ordered_perm m), map_filter_alt, <- length_map_to_list.
  rewrite map_to_list_to_map; [done|]. apply (NoDup_map_filter fst), NoDup_fst_map_to_list.
Qed.

(** The keys of a set of strings, in order. *)
Definition ordered_set (s : gset bytes) : list bytes := merge_sort bytes_le (elements s).

Lemma elem_of_ordered_set s k : k ∈ ordered_set s <-> k ∈ s.
Proof. unfold ordered_set. by rewrite merge_sort_Permutation, elem_of_elements. Qed.

Lemma NoDup_ordered_set s : NoDup (ordered_set s).
Proof. unfold ordered_set. rewrite merge_sort_Permutation. apply NoDup_elements. Qed.

Lemma ordered_set_empty : ordered_set ∅ = [].
Proof. unfold ordered_set. by rewrite elements_empty. Qed.
