(* ===== verification/PeerManage.v ===== *)
(** * Online peers

    Models [PeerManager] of [server/natserver/src/PeerManage.cpp]: the table of
    online peers and the table of authentication sessions.  Every method runs
    under the mutex, so each is one step; [now] is the time it reads. *)

From S2P Require Import Prelude.
From S2P Require Import Bytes.
From S2P Require Import ProtoDef.
From S2P Require Import NetUtil.
From S2P Require Import OrderedMap.

#[local] Open Scope Z_scope.

(** A [Peer]; times are seconds, [extlen] the low 16 bits of the length. *)
Record Peer := mkPeer {
  p_uuid : bytes;
  p_pub_addr : sockaddr_in;
  p_lan_addr : sockaddr_in;
  p_dev_type : Z;
  p_nattype : Z;
  p_last_heartbeat : Z;
  p_register_time : Z;
  p_auth_expire : Z;
  p_extlen : Z;
  p_extinfo : bytes
}.

Module PeerManager.

Record t := mk { peers_ : gmap bytes Peer; auth_sessions_ : gmap bytes Z }.

Definition empty : t := mk ∅ ∅.

Definition uuid_valid (uuid : bytes) : bool :=
  negb (length uuid =? 0)%nat && (length uuid <=? MAX_UUID_LEN)%nat.

(** The extension is replaced unless it is too long. *)
Definition take_extinfo (old new : bytes) : bytes :=
  if (length new <=? MAX_EXTINFO)%nat then new else old.

Definition upsert (now : Z) (s : t) (uuid : bytes) (pub lan : sockaddr_in)
    (dev_type nattype : Z) (extinfo : bytes) : bool * t :=
  if negb (uuid_valid uuid) then (false, s)
  else
    let p :=
      match peers_ s !! uuid with
      | None =>
          let ext := take_extinfo [] extinfo in
          mkPeer uuid pub lan dev_type nattype now now 0 (u16 (len ext)) ext
      | Some p =>
          let ext := take_extinfo (p_extinfo p) extinfo in
          mkPeer (p_uuid p) pub lan dev_type nattype now (p_register_time p) (p_auth_expire p)
            (u16 (len ext)) ext
      end in
    (true, mk (<[uuid := p]> (peers_ s)) (auth_sessions_ s)).

Definition upsert_synced (s : t) (uuid : bytes) (pub lan : sockaddr_in)
    (dev_type nattype : Z) (extinfo : bytes) (hb_time : Z) : bool * t :=
  if negb (uuid_valid uuid) then (false, s)
  else
    let p :=
      match peers_ s !! uuid with
      | None =>
          let ext := take_extinfo [] extinfo in
          mkPeer uuid pub lan dev_type nattype hb_time hb_time (hb_time + 3600) (u16 (len ext)) ext
      | Some p =>
          let ext := take_extinfo (p_extinfo p) extinfo in
          mkPeer (p_uuid p) pub lan dev_type nattype hb_time (p_register_time p) (hb_time + 3600)
            (u16 (len ext)) ext
      end in
    (true, mk (<[uuid := p]> (peers_ s)) (auth_sessions_ s)).

Definition remove (s : t) (uuid : bytes) : bool * t :=
  (bool_decide (is_Some (peers_ s !! uuid)), mk (delete uuid (peers_ s)) (auth_sessions_ s)).

Definition exists_ (s : t) (uuid : bytes) : bool := bool_decide (is_Some (peers_ s !! uuid)).

Definition get (s : t) (uuid : bytes) : option Peer := peers_ s !! uuid.

Definition with_auth_expire (expire : Z) (p : Peer) : Peer :=
  mkPeer (p_uuid p) (p_pub_addr p) (p_lan_addr p) (p_dev_type p) (p_nattype p)
    (p_last_heartbeat p) (p_register_time p) expire (p_extlen p) (p_extinfo p).

Definition set_auth_expire (s : t) (uuid : bytes) (expire : Z) : t :=
  mk (alter (with_auth_expire expire) uuid (peers_ s)) (<[uuid := expire]> (auth_sessions_ s)).

Definition authed (now : Z) (s : t) (uuid : bytes) : bool :=
  match auth_sessions_ s !! uuid with
  | Some e => if now <? e then true
              else match peers_ s !! uuid with Some p => now <? p_auth_expire p | None => false end
  | None => match peers_ s !! uuid with Some p => now <? p_auth_expire p | None => false end
  end.

Definition cleanup_auth_sessions (now : Z) (s : t) : t :=
  mk (peers_ s) (filter (fun kv => ~ (kv.2 <= now)) (auth_sessions_ s)).

Definition size_ (s : t) : nat := size (peers_ s).
Definition device_count (s : t) : nat := count_if (fun p => p_dev_type p =? 1) (peers_ s).
Definition client_count (s : t) : nat := count_if (fun p => p_dev_type p =? 2) (peers_ s).
Definition authed_count (now : Z) (s : t) : nat :=
  count_if (fun p => now <? p_auth_expire p) (peers_ s).

Definition timed_out (now timeout_sec : Z) (p : Peer) : Prop := timeout_sec < now - p_last_heartbeat p.

#[export] Instance timed_out_dec now tm p : Decision (timed_out now tm p).
Proof. unfold timed_out. apply _. Defined.

Definition cleanup_timeout (now timeout_sec : Z) (s : t) : t :=
  mk (filter (fun kv => ~ timed_out now timeout_sec kv.2) (peers_ s)) (auth_sessions_ s).

(** The removed keys, in the order of the traversal. *)
Definition cleanup_timeout_and_collect (now timeout_sec : Z) (s : t) : list bytes * t :=
  (map fst (filter (fun kv => timed_out now timeout_sec kv.2) (ordered (peers_ s))),
   cleanup_timeout now timeout_sec s).

Definition snapshot (s : t) : list Peer := map snd (ordered (peers_ s)).

Definition clear (s : t) : t := mk ∅ (auth_sessions_ s).

(** ** Well-formed tables *)

(** A record sits under its own identifier, of 1 to 32 octets, with an extension
    of at most 1024 octets whose length is recorded. *)
Definition peer_wf (uuid : bytes) (p : Peer) : Prop :=
  p_uuid p = uuid /\ uuid_valid uuid = true /\
  (length (p_extinfo p) <= MAX_EXTINFO)%nat /\ p_extlen p = len (p_extinfo p).

Definition wf (s : t) : Prop := map_Forall peer_wf (peers_ s).

(** The steps that change the tables. *)
Inductive step : t -> t -> Prop :=
| step_upsert s now uuid pub lan dt nt ext :
    step s (upsert now s uuid pub lan dt nt ext).2
| step_upsert_synced s uuid pub lan dt nt ext hb :
    step s (upsert_synced s uuid pub lan dt nt ext hb).2
| step_remove s uuid : step s (remove s uuid).2
| step_set_auth s uuid e : step s (set_auth_expire s uuid e)
| step_cleanup_auth s now : step s (cleanup_auth_sessions now s)
| step_cleanup s now tm : step s (cleanup_timeout now tm s)
| step_collect s now tm : step s (cleanup_timeout_and_collect now tm s).2
| step_clear s : step s (clear s).

Lemma take_extinfo_wf old new :
  (length old <= MAX_EXTINFO)%nat ->
  (length (take_extinfo old new) <= MAX_EXTINFO)%nat /\
  u16 (len (take_extinfo old new)) = len (take_extinfo old new).
Proof.
  intros H. assert (length (take_extinfo old new) <= MAX_EXTINFO)%nat as L.
  { unfold take_extinfo. destruct (Nat.leb_spec (length new) MAX_EXTINFO); lia. }
  split; [done|]. apply u16_small. unfold u16_ok, len, MAX_EXTINFO in *. lia.
Qed.

Lemma wf_insert s uuid p :
  wf s -> peer_wf uuid p -> wf (mk (<[uuid := p]> (peers_ s)) (auth_sessions_ s)).
Proof. intros Hs Hp. by apply map_Forall_insert_2. Qed.

Lemma wf_filter (P : bytes * Peer -> Prop) `{!forall kv, Decision (P kv)} s ss :
  wf s -> wf (mk (filter P (peers_ s)) ss).
Proof.
  intros Hs uuid p Hp. apply map_lookup_filter_Some in Hp as [Hp _]. by apply Hs.
Qed.

Lemma old_extinfo s uuid p : wf s -> peers_ s !! uuid = Some p -> (length (p_extinfo p) <= MAX_EXTINFO)%nat.
Proof. intros H Hp. apply (H uuid p Hp). Qed.

Lemma upsert_wf now s uuid pub lan dt nt ext : wf s -> wf (upsert now s uuid pub lan dt nt ext).2.
Proof.
  intros H. unfold upsert. destruct (uuid_valid uuid) eqn:V; [|done]. simpl.
  apply wf_insert; [done|]. destruct (peers_ s !! uuid) as [p|] eqn:E.
  - destruct (take_extinfo_wf (p_extinfo p) ext) as [L W]; [by eapply old_extinfo|].
    unfold peer_wf. split_all; try done. by apply (H uuid p E).
  - destruct (take_extinfo_wf [] ext) as [L W]; [simpl; lia|].
    unfold peer_wf. by split_all.
Qed.

Lemma upsert_synced_wf s uuid pub lan dt nt ext hb :
  wf s -> wf (upsert_synced s uuid pub lan dt nt ext hb).2.
Proof.
  intros H. unfold upsert_synced. destruct (uuid_valid uuid) eqn:V; [|done]. simpl.
  apply wf_insert; [done|]. destruct (peers_ s !! uuid) as [p|] eqn:E.
  - destruct (take_extinfo_wf (p_extinfo p) ext) as [L W]; [by eapply old_extinfo|].
    unfold peer_wf. split_all; try done. by apply (H uuid p E).
  - destruct (take_extinfo_wf [] ext) as [L W]; [simpl; lia|].
    unfold peer_wf. by split_all.
Qed.

Lemma set_auth_expire_wf s uuid e : wf s -> wf (set_auth_expire s uuid e).
Proof.
  intros H k p Hp. simpl in Hp. rewrite lookup_alter_Some in Hp.
  destruct Hp as [(-> & q & Hq & ->)|[_ Hp]]; [|by apply H].
  apply (H _ _ Hq).
Qed.

Lemma wf_empty : wf empty.
Proof. apply map_Forall_empty. Qed.

Lemma step_wf s s' : step s s' -> wf s -> wf s'.
Proof.
  intros Hs H. destruct Hs; simpl.
  - by apply upsert_wf.
  - by apply upsert_synced_wf.
  - by apply map_Forall_delete.
  - by apply set_auth_expire_wf.
  - done.
  - by apply wf_filter.
  - by apply wf_filter.
  - apply map_Forall_empty.
Qed.

#[export] Hint Resolve upsert_wf upsert_synced_wf set_auth_expire_wf wf_empty : p2p.

(** C40: from an empty table, whatever sequence of operations runs, every record
    of the peer table sits under its own identifier of 1 to 32 octets and its
    extension has at most 1024 octets and the recorded length. *)
Theorem peers_well_formed (s : t) (Hs : rtc step empty s) : wf s.
Proof.
  revert Hs. apply (rtc_ind_r wf); [apply wf_empty|]. intros x y _ Hxy Hx. by apply (step_wf x).
Qed.

Lemma peers_well_formed_witness :
  rtc step empty (upsert 5 empty (bs "dev") addr_zero addr_zero 1 0 []).2 /\
  wf (upsert 5 empty (bs "dev") addr_zero addr_zero 1 0 []).2.
Proof.
  assert (rtc step empty (upsert 5 empty (bs "dev") addr_zero addr_zero 1 0 []).2) as H
    by (eapply rtc_l; [apply step_upsert|apply rtc_refl]).
  split; [exact H|]. apply (peers_well_formed _ H).
Defined.

(** ** What the operations do *)

Lemma get_upsert_ne now s uuid pub lan dt nt ext k :
  k <> uuid -> get (upsert now s uuid pub lan dt nt ext).2 k = get s k.
Proof.
  intros H. unfold get, upsert. destruct (uuid_valid uuid); [|done].
  simpl. by rewrite lookup_insert_ne.
Qed.

Lemma get_upsert_eq now s uuid pub lan dt nt ext :
  uuid_valid uuid = true ->
  exists p, get (upsert now s uuid pub lan dt nt ext).2 uuid = Some p /\
    p_pub_addr p = pub /\ p_lan_addr p = lan /\ p_dev_type p = dt /\ p_nattype p = nt /\
    p_last_heartbeat p = now.
Proof.
  intros V. unfold get, upsert. rewrite V. simpl. rewrite lookup_insert_eq.
  destruct (peers_ s !! uuid) as [p|] eqn:E; eexists; done.
Qed.

(** A heartbeat registers: [upsert] refuses exactly the identifiers that are
    empty or over 32 octets and then changes nothing; otherwise the record of
    the identifier shows the new addresses, types and heartbeat time, a first
    registration is unauthenticated and dated now, a repeated one keeps its
    registration time and authentication, an over-long extension leaves the old
    one, and no other peer and no session changes. *)
Theorem upsert_registers (now : Z) (s : t) (uuid : bytes) (pub lan : sockaddr_in) (dt nt : Z) (ext : bytes) :
  let r := upsert now s uuid pub lan dt nt ext in
  (r.1 = false <-> uuid = [] \/ (32 < length uuid)%nat) /\
  (r.1 = false -> r.2 = s) /\
  auth_sessions_ r.2 = auth_sessions_ s /\
  (forall k, k <> uuid -> get r.2 k = get s k) /\
  (r.1 = true -> exists p, get r.2 uuid = Some p /\
     p_pub_addr p = pub /\ p_lan_addr p = lan /\ p_dev_type p = dt /\ p_nattype p = nt /\
     p_last_heartbeat p = now /\
     (get s uuid = None -> p_uuid p = uuid /\ p_register_time p = now /\ p_auth_expire p = 0) /\
     (forall q, get s uuid = Some q ->
        p_register_time p = p_register_time q /\ p_auth_expire p = p_auth_expire q) /\
     ((length ext <= 1024)%nat -> p_extinfo p = ext) /\
     (forall q, get s uuid = Some q -> (1024 < length ext)%nat -> p_extinfo p = p_extinfo q)).
Proof.
  intros r. subst r.
  assert (uuid_valid uuid = false <-> uuid = [] \/ (32 < length uuid)%nat) as V.
  { unfold uuid_valid, MAX_UUID_LEN. destruct uuid as [|x uuid]; simpl length.
    - simpl. naive_solver.
    - destruct (Nat.leb_spec (S (length uuid)) 32); simpl; [|naive_solver].
      split; [done|]. intros [?|?]; [done|lia]. }
  unfold upsert, get. destruct (uuid_valid uuid) eqn:E; simpl.
  2:{ rewrite <- V. split_all; done. }
  rewrite <- V. split_all; try done.
  { intros k Hk. by rewrite lookup_insert_ne. }
  intros _. rewrite lookup_insert_eq. eexists. split; [done|].
  unfold take_extinfo, MAX_EXTINFO.
  destruct (peers_ s !! uuid) as [q|] eqn:Eq; simpl; split_all; try done.
  - by intros ? [= ->].
  - intros H. by destruct (Nat.leb_spec (length ext) 1024); [|lia].
  - intros ? [= ->] H. by destruct (Nat.leb_spec (length ext) 1024); [lia|].
  - intros H. by destruct (Nat.leb_spec (length ext) 1024); [|lia].
Qed.

Lemma authed_spec now s uuid :
  authed now s uuid = true <->
  (exists e, auth_sessions_ s !! uuid = Some e /\ now < e) \/
  (exists p, peers_ s !! uuid = Some p /\ now < p_auth_expire p).
Proof.
  unfold authed. destruct (auth_sessions_ s !! uuid) as [e|], (peers_ s !! uuid) as [p|];
    repeat match goal with |- context [?a <? ?b] => destruct (Z.ltb_spec a b) end; naive_solver lia.
Qed.

(** A login is remembered until it expires: after [set_auth_expire] an
    identifier is authenticated exactly before the given time, whether or not
    it is registered, other identifiers are unaffected; purging expired
    sessions at some time changes no answer from that time on; and registering
    never authenticates anyone. *)
Theorem auth_sessions_correct (s : t) (uuid : bytes) (e : Z) :
  (forall now, authed now (set_auth_expire s uuid e) uuid = (now <? e)) /\
  (forall now k, k <> uuid -> authed now (set_auth_expire s uuid e) k = authed now s k) /\
  (forall now now' k, now <= now' -> authed now' (cleanup_auth_sessions now s) k = authed now' s k) /\
  (forall now t0 k pub lan dt nt ext, 0 <= now ->
     authed now (upsert t0 s k pub lan dt nt ext).2 k = authed now s k).
Proof.
  split_all.
  - intros now. unfold authed. simpl. rewrite lookup_insert_eq.
    destruct (Z.ltb_spec now e); [done|]. rewrite lookup_alter_eq.
    destruct (peers_ s !! uuid); simpl; [|done]. by destruct (Z.ltb_spec now e); [lia|].
  - intros now k Hk. unfold authed. simpl. by rewrite lookup_insert_ne, lookup_alter_ne.
  - intros now now' k Hn. apply Bool.eq_true_iff_eq. rewrite !authed_spec. simpl.
    setoid_rewrite map_lookup_filter_Some. simpl. naive_solver lia.
  - intros now t0 k pub lan dt nt ext Hn. unfold upsert. destruct (uuid_valid k); [|done]. simpl.
    unfold authed. simpl. rewrite lookup_insert_eq.
    destruct (peers_ s !! k) as [p|] eqn:E; simpl; [done|].
    by destruct (Z.ltb_spec now 0); [lia|].
Qed.

Lemma auth_sessions_correct_witness :
  authed 7 (cleanup_auth_sessions 5 (set_auth_expire empty (bs "a") 9)) (bs "a") = true.
Proof.
  rewrite (proj1 (proj2 (proj2 (auth_sessions_correct (set_auth_expire empty (bs "a") 9) (bs "a") 9))) 5 7)
    by lia.
  apply (auth_sessions_correct empty (bs "a") 9).
Defined.

(** The timeout sweep removes exactly the peers silent for more than the
    timeout and returns their identifiers, each once and in key order; the
    others keep their records, and the three counters never exceed the number
    of peers. *)
Theorem cleanup_collects (now tm : Z) (s : t) :
  let r := cleanup_timeout_and_collect now tm s in
  (forall k, k ∈ r.1 <-> exists p, get s k = Some p /\ tm < now - p_last_heartbeat p) /\
  NoDup r.1 /\ StronglySorted bytes_le r.1 /\
  (forall k, k ∈ r.1 -> get r.2 k = None) /\
  (forall k, k ∉ r.1 -> get r.2 k = get s k) /\
  auth_sessions_ r.2 = auth_sessions_ s /\
  (device_count s + client_count s <= size_ s)%nat.
Proof.
  intros r. subst r. simpl.
  assert (forall k, k ∈ map fst (filter (fun kv => timed_out now tm kv.2) (ordered (peers_ s))) <->
            exists p, peers_ s !! k = Some p /\ timed_out now tm p) as M.
  { intros k. rewrite list_elem_of_fmap. split.
    - intros ([k' p] & -> & Hin). apply list_elem_of_filter in Hin as [Ht Hin].
      exists p. split; [by apply elem_of_ordered|done].
    - intros (p & Hp & Ht). exists (k, p). split; [done|].
      apply list_elem_of_filter. split; [done|by apply elem_of_ordered]. }
  split_all.
  - apply M.
  - apply NoDup_map_filter, NoDup_ordered_keys.
  - apply (StronglySorted_fmap fst key_le bytes_le), StronglySorted_filter, ordered_sorted. done.
  - intros k (p & Hp & Ht)%M. unfold get. simpl.
    apply map_lookup_filter_None. right. intros q Hq. simpl. naive_solver.
  - intros k Hk. unfold get. simpl. rewrite map_lookup_filter.
    destruct (peers_ s !! k) as [p|] eqn:E; [|done]. simpl.
    rewrite option_guard_True; [done|]. intros Ht. apply Hk, M. by exists p.
  - done.
  - unfold device_count, client_count, size_, count_if. rewrite <- (length_ordered (peers_ s)).
    apply filter_disjoint_length. intros [k p]. simpl. lia.
Qed.

End PeerManager.
