(* ===== verification/TextFile.v ===== *)
(** * Text and file formats shared by the license and the blacklist

    Splitting a file into lines as both parsers do, and the encrypted container:
    magic, version, iteration count, salt, vector, ciphertext. *)

From S2P Require Import Prelude.
From S2P Require Import Bytes.
From S2P Require Import Hmac.
From S2P Require Import Aes.
From S2P Require Import AesModes.

#[local] Open Scope Z_scope.

(** ** Lines *)

(** The pieces between newlines; nothing after a final newline.  [cur] is the
    piece read so far. *)
Fixpoint split_lines_from (cur l : bytes) : list bytes :=
  match l with
  | [] => match cur with [] => [] | _ => [cur] end
  | c :: l => if c =? 10 then cur :: split_lines_from [] l else split_lines_from (cur ++ [c]) l
  end.

Definition split_lines (l : bytes) : list bytes := split_lines_from [] l.

(** [if (!line.empty() && line.back() == '\r') line.pop_back()]. *)
Definition strip_cr (line : bytes) : bytes :=
  match last line with
  | Some c => if c =? 13 then removelast line else line
  | None => line
  end.

(** [line.empty() || line[0] == '#']. *)
Definition skip_line (line : bytes) : bool :=
  match line with
  | [] => true
  | c :: _ => c =? 35
  end.

(** [s.find(c)] on a suffix: what precedes the first [c] and what follows it. *)
Fixpoint cut_at (c : Z) (l : bytes) : option (bytes * bytes) :=
  match l with
  | [] => None
  | x :: l =>
      if x =? c then Some ([], l)
      else match cut_at c l with Some (a, b) => Some (x :: a, b) | None => None end
  end.

(** [line.rfind(p, 0) == 0], with what follows the prefix. *)
Fixpoint after_prefix (p l : bytes) : option bytes :=
  match p, l with
  | [], _ => Some l
  | x :: p, y :: l => if x =? y then after_prefix p l else None
  | _ :: _, [] => None
  end.

(** ** The encrypted container *)

Definition PBKDF2_ITER : Z := 10000.
Definition SALT_LEN : nat := 16.
Definition IV_LEN : nat := 16.

(** Offset of the ciphertext: magic, version, iterations, salt, vector. *)
Definition head_len : nat := 9 + SALT_LEN + IV_LEN.

Definition is_encrypted (magic raw : bytes) : bool :=
  (4 <=? length raw)%nat && bool_decide (take 4 raw = magic).

(** What [plain.substr(sizeof(HEADER) - 1, plen)] gives after decryption: [plain]
    holds the whole decrypted buffer and one zero octet, padding included. *)
Definition open_container (header pass raw : bytes) : option bytes :=
  if (length raw <? head_len + 16)%nat then None
  else if (length pass =? 0)%nat then None
  else
    let iter := be_dec (slice 5 4 raw) in
    let salt := slice 9 SALT_LEN raw in
    let iv := slice (9 + SALT_LEN) IV_LEN raw in
    let cipher := drop head_len raw in
    let key := pbkdf2_hmac_sha256 pass salt (if iter =? 0 then PBKDF2_ITER else iter) 32 in
    match aes256_cbc_decrypt key iv cipher (length cipher + 1) with
    | None => None
    | Some text =>
        if (length text <? length header)%nat || negb (bool_decide (take (length header) text = header))
        then None
        else
          let buffer :=
            cbc_decrypt_loop (length cipher / 16) (aes256_expand_key key) (take 16 iv) cipher ++ [0] in
          Some (take (length text) (drop (length header) buffer))
    end.

Definition seal_container (magic pass salt iv plain : bytes) : option bytes :=
  let key := pbkdf2_hmac_sha256 pass salt PBKDF2_ITER 32 in
  match aes256_cbc_encrypt key iv plain (length plain + 16) with
  | None => None
  | Some cipher =>
      Some (magic ++ [1] ++ [u8 (Z.shiftr PBKDF2_ITER 24); u8 (Z.shiftr PBKDF2_ITER 16);
                             u8 (Z.shiftr PBKDF2_ITER 8); u8 PBKDF2_ITER] ++ salt ++ iv ++ cipher)
  end.

(** ** Lines *)

Lemma split_lines_from_cons cur line rest :
  10 ∉ line -> split_lines_from cur (line ++ 10 :: rest) = (cur ++ line) :: split_lines_from [] rest.
Proof.
  revert cur. induction line as [|c line IH]; intros cur H; simpl; [by rewrite app_nil_r|].
  destruct (Z.eqb_spec c 10); [set_solver|]. rewrite IH by set_solver. by rewrite <- app_assoc.
Qed.

(** A line without newline, ended by one, is split off. *)
Lemma split_lines_cons line rest :
  10 ∉ line -> split_lines (line ++ 10 :: rest) = line :: split_lines rest.
Proof. apply split_lines_from_cons. Qed.

Lemma split_lines_concat ls rest :
  Forall (fun l => 10 ∉ l) ls ->
  split_lines (concat (map (fun l => l ++ [10]) ls) ++ rest) = ls ++ split_lines rest.
Proof.
  induction 1 as [|l ls Hl _ IH]; [done|]. cbn [map concat].
  rewrite <- !app_assoc. simpl. by rewrite split_lines_cons, IH.
Qed.

Lemma split_lines_from_octets P cur l :
  Forall P cur -> Forall P l -> Forall (Forall P) (split_lines_from cur l).
Proof.
  revert cur. induction l as [|c l IH]; intros cur Hc Hl; simpl.
  { destruct cur as [|x cur]; [constructor|]. constructor; [done|constructor]. }
  apply Forall_cons in Hl as [Hx Hl]. destruct (c =? 10).
  - constructor; [done|]. by apply IH.
  - apply IH; [|done]. apply Forall_app_2; [done|by constructor].
Qed.

Lemma split_lines_octets P l : Forall P l -> Forall (Forall P) (split_lines l).
Proof. intros H. by apply split_lines_from_octets. Qed.

Lemma cut_at_first c a b : c ∉ a -> cut_at c (a ++ c :: b) = Some (a, b).
Proof.
  induction a as [|x a IH]; intros H; simpl; [by rewrite Z.eqb_refl|].
  destruct (Z.eqb_spec x c); [set_solver|]. by rewrite IH by set_solver.
Qed.

Lemma after_prefix_app p l : after_prefix p (p ++ l) = Some l.
Proof. induction p as [|x p IH]; simpl; [done|]. by rewrite Z.eqb_refl. Qed.

Lemma after_prefix_first x p y l : x <> y -> after_prefix (x :: p) (y :: l) = None.
Proof. intros H. simpl. by destruct (Z.eqb_spec x y). Qed.

Lemma strip_cr_id line : last line <> Some 13 -> strip_cr line = line.
Proof.
  unfold strip_cr. destruct (last line) as [c|]; [|done].
  intros H. by destruct (Z.eqb_spec c 13) as [->|].
Qed.

(** ** Sealing and opening *)

(** The garbage that opening leaves after the text: the padding and a zero. *)
Definition trailer (plain : bytes) : bytes :=
  replicate (pad_len plain) (Z.of_nat (pad_len plain)) ++ [0].

Lemma pbkdf2_iter_octets :
  [u8 (Z.shiftr PBKDF2_ITER 24); u8 (Z.shiftr PBKDF2_ITER 16);
   u8 (Z.shiftr PBKDF2_ITER 8); u8 PBKDF2_ITER] = [0; 0; 39; 16].
Proof. reflexivity. Qed.

Lemma cbc_buffer key iv plain :
  bytes_ok plain -> state_ok iv ->
  exists cipher, aes256_cbc_encrypt key iv plain (length plain + 16) = Some cipher /\
    (16 <= length cipher)%nat /\
    aes256_cbc_decrypt key iv cipher (length cipher + 1) = Some plain /\
    cbc_decrypt_loop (length cipher / 16) (aes256_expand_key key) (take 16 iv) cipher = padded plain.
Proof.
  intros Hb Hiv. pose proof (pad_len_range plain) as P.
  assert (length plain + pad_len plain <= length plain + 16)%nat as Hc by lia.
  destruct (cbc_roundtrip key iv plain _ (length plain + pad_len plain + 1) Hb Hiv Hc) as (c & E & L & D); [lia|].
  exists c. rewrite L. split_all; [done| |done|].
  { pose proof (length_padded plain) as Lp. unfold padded in Lp.
    rewrite length_app, length_replicate in Lp. lia. }
  rewrite cbc_encrypt_some in E by done. injection E as <-.
  pose proof (length_padded plain) as Lp. unfold padded in Lp.
  rewrite length_app, length_replicate in Lp. rewrite Lp, Nat.div_mul by done.
  rewrite !(take_ge iv) by (destruct Hiv; lia).
  destruct (cbc_decrypt_encrypt_loop (length plain / 16 + 1) (aes256_expand_key key) iv plain 0 Hb Hiv)
    as [E _]; [lia|]. exact E.
Qed.

(** Opening what was sealed with the same pass word gives the text without its
    header, and as many octets of the trailer as the header had. *)
Lemma open_seal magic header pass salt iv body :
  length magic = 4%nat -> length salt = 16%nat -> state_ok iv -> pass <> [] ->
  bytes_ok header -> bytes_ok body ->
  exists raw, seal_container magic pass salt iv (header ++ body) = Some raw /\
    is_encrypted magic raw = true /\
    open_container header pass raw =
      Some (body ++ take (length header) (trailer (header ++ body))).
Proof.
  intros Hm Hs Hiv Hp Hh Hb. unfold seal_container.
  set (key := pbkdf2_hmac_sha256 pass salt PBKDF2_ITER 32).
  destruct (cbc_buffer key iv (header ++ body)) as (c & E & Lc & D & B); [by apply Forall_app_2|done|].
  rewrite E. eexists. split; [done|].
  rewrite pbkdf2_iter_octets.
  set (raw := magic ++ _).
  assert (raw = magic ++ [1; 0; 0; 39; 16] ++ salt ++ iv ++ c) as Er by done.
  assert (length iv = 16)%nat as Hl by apply Hiv.
  split.
  { unfold is_encrypted. rewrite Er, !length_app. simpl. rewrite take_app_exact by done.
    rewrite bool_decide_true by done. destruct magic as [|? [|? [|? [|? []]]]]; done. }
  unfold open_container.
  assert (length raw = 41 + length c)%nat as Lr by (rewrite Er, !length_app; simpl; lia).
  rewrite Lr. unfold head_len, SALT_LEN, IV_LEN.
  destruct (Nat.ltb_spec (41 + length c) (9 + 16 + 16 + 16)); [lia|].
  destruct (Nat.eqb_spec (length pass) 0) as [Z0|_]; [by apply nil_length_inv in Z0|].
  destruct magic as [|m0 [|m1 [|m2 [|m3 []]]]]; try done.
  assert (slice 5 4 raw = [0; 0; 39; 16]) as -> by done.
  assert (slice 9 16 raw = salt) as ->.
  { rewrite Er. unfold slice. cbn [app drop]. by apply take_app_exact. }
  assert (slice (9 + 16) 16 raw = iv) as ->.
  { rewrite Er. unfold slice. cbn [Nat.add app]. change (drop 25 (m0 :: m1 :: m2 :: m3 :: 1 :: 0 :: 0 :: 39 :: 16 :: salt ++ iv ++ c)) with (drop 16 (salt ++ iv ++ c)).
    rewrite drop_app_exact by done. by apply take_app_exact. }
  assert (drop (9 + 16 + 16) raw = c) as ->.
  { rewrite Er. change (drop (9 + 16 + 16) _) with (drop (16 + 16) (salt ++ iv ++ c)).
    rewrite app_assoc. apply drop_app_exact. rewrite length_app. lia. }
  change (be_dec [0; 0; 39; 16]) with PBKDF2_ITER. cbn [Z.eqb PBKDF2_ITER].
  fold PBKDF2_ITER. fold key. rewrite D.
  destruct (Nat.ltb_spec (length (header ++ body)) (length header)) as [Hlt|_];
    [rewrite length_app in Hlt; lia|].
  rewrite take_app_length, bool_decide_true by done. cbn [orb negb].
  rewrite B. unfold padded, trailer. rewrite <- !app_assoc, drop_app_length.
  do 2 f_equal. rewrite length_app, take_app. f_equal; [by rewrite take_ge by lia|].
  f_equal. lia.
Qed.

Lemma length_trailer plain : length (trailer plain) = S (pad_len plain).
Proof. unfold trailer. rewrite length_app, length_replicate. simpl. lia. Qed.
