(* ===== verification/AntiAbuse.v ===== *)
(** * Flood detection and blacklists

    Models [AntiAbuse] of [server/natserver/src/AntiAbuse.cpp].  Addresses are
    [s_addr] values, times seconds.  [ip_iter] and [uuid_iter] are the orders in
    which the two [unordered_map]s are traversed. *)

From S2P Require Import Prelude.
From S2P Require Import Bytes.
From S2P Require Import NetUtil.
From S2P Require Import Aes.
From S2P Require Import AesModes.
From S2P Require Import TextFile.

#[local] Open Scope Z_scope.

Module AntiAbuse.

Record t := mk {
  flood_threshold_ : Z;
  blacklist_sec_ : Z;
  flood_ : gmap Z (list Z);
  ip_black_ : gmap Z Z;
  uuid_black_ : gmap bytes Z;
  path_ : bytes;
  pass_ : bytes;
  dirty_ : bool;
  dropped_flood_ : Z
}.

Definition empty : t := mk 200 60 ∅ ∅ ∅ [] [] false 0.

Definition configure (s : t) (flood_threshold blacklist_sec : Z) : t :=
  mk flood_threshold blacklist_sec (flood_ s) (ip_black_ s) (uuid_black_ s) (path_ s) (pass_ s)
    (dirty_ s) (dropped_flood_ s).

Definition set_path (s : t) (path : bytes) : t :=
  mk (flood_threshold_ s) (blacklist_sec_ s) (flood_ s) (ip_black_ s) (uuid_black_ s) path (pass_ s)
    (dirty_ s) (dropped_flood_ s).

Definition set_password (s : t) (pass : bytes) : t :=
  mk (flood_threshold_ s) (blacklist_sec_ s) (flood_ s) (ip_black_ s) (uuid_black_ s) (path_ s) pass
    (dirty_ s) (dropped_flood_ s).

Definition needs_save (s : t) : bool := dirty_ s.

Definition with_dirty (d : bool) (s : t) : t :=
  mk (flood_threshold_ s) (blacklist_sec_ s) (flood_ s) (ip_black_ s) (uuid_black_ s) (path_ s)
    (pass_ s) d (dropped_flood_ s).

Definition reset_dirty (s : t) : t := with_dirty false s.

(** Both blacklists replaced, the change recorded. *)
Definition with_black (ipb : gmap Z Z) (uu : gmap bytes Z) (s : t) : t :=
  mk (flood_threshold_ s) (blacklist_sec_ s) (flood_ s) ipb uu (path_ s) (pass_ s) true
    (dropped_flood_ s).

(** ** Persistence *)

Definition BL_MAGIC : bytes := bs "P2PB".
Definition BL_PLAIN_HEADER : bytes := bs "#P2P-BLACKLIST-v1" ++ [10].

(** One line of the file. *)
Definition parse_entry (m : gmap Z Z * gmap bytes Z) (line : bytes) : gmap Z Z * gmap bytes Z :=
  if skip_line line then m
  else
    let line := strip_cr line in
    match after_prefix (bs "IP ") line with
    | Some rest =>
        match cut_at 32 rest with
        | Some (ip, e) =>
            match inet_pton ip with
            | Some ip => (<[ip := atoll e]> m.1, m.2)
            | None => m
            end
        | None => m
        end
    | None =>
        match after_prefix (bs "UUID ") line with
        | Some rest =>
            match cut_at 32 rest with
            | Some (uuid, e) => (m.1, <[uuid := atoll e]> m.2)
            | None => m
            end
        | None => m
        end
    end.

Definition parse_entries (m : gmap Z Z * gmap bytes Z) (content : bytes) : gmap Z Z * gmap bytes Z :=
  foldl parse_entry m (split_lines content).

(** [file] is what reading [path_] gives, [None] when it cannot be opened. *)
Definition load (s : t) (file : option bytes) : bool * t :=
  match file with
  | None => (false, s)
  | Some raw =>
      if (length raw =? 0)%nat then (false, s)
      else if is_encrypted BL_MAGIC raw then
        match open_container BL_PLAIN_HEADER (pass_ s) raw with
        | None => (false, s)
        | Some text => let '(ipb, uu) := parse_entries (ip_black_ s, uuid_black_ s) text in
                       (true, with_black ipb uu s)
        end
      else let '(ipb, uu) := parse_entries (ip_black_ s, uuid_black_ s) raw in
           (true, with_black ipb uu s)
  end.

Definition ip_line (kv : Z * Z) : bytes := bs "IP " ++ ip_to_str kv.1 ++ 32 :: dec_s kv.2.
Definition uuid_line (kv : bytes * Z) : bytes := bs "UUID " ++ kv.1 ++ 32 :: dec_s kv.2.

Section Save.
Context (ip_iter : gmap Z Z -> list (Z * Z)) (uuid_iter : gmap bytes Z -> list (bytes * Z)).

Definition plain_lines (now : Z) (s : t) : list bytes :=
  map ip_line (filter (fun kv => ~ (kv.2 <= now)) (ip_iter (ip_black_ s))) ++
  map uuid_line (filter (fun kv => ~ (kv.2 <= now)) (uuid_iter (uuid_black_ s))).

Definition plain_text (now : Z) (s : t) : bytes :=
  BL_PLAIN_HEADER ++ concat (map (fun l => l ++ [10]) (plain_lines now s)).

(** The result and, when the file was opened, its new content.  [writable] is
    whether it can be opened, [salt] and [iv] what [p2p_random_bytes] gives. *)
Definition save (now : Z) (writable : bool) (salt iv : bytes) (s : t) : bool * option bytes :=
  if (length (path_ s) =? 0)%nat || negb (dirty_ s) then (false, None)
  else if negb writable then (false, None)
  else if (length (pass_ s) =? 0)%nat then (true, Some (plain_text now s))
  else match seal_container BL_MAGIC (pass_ s) salt iv (plain_text now s) with
       | Some raw => (true, Some raw)
       | None => (false, Some [])
       end.

End Save.

(** ** Flood detection *)

(** [while (!dq.empty() && now - dq.front() >= 1) dq.pop_front()]. *)
Fixpoint pop_old (now : Z) (dq : list Z) : list Z :=
  match dq with
  | x :: dq' => if 1 <=? now - x then pop_old now dq' else dq
  | [] => []
  end.

Definition check_flood (now ip : Z) (s : t) : bool * t :=
  if bool_decide (is_Some (ip_black_ s !! ip)) then (true, s)
  else
    let dq := pop_old now (default [] (flood_ s !! ip)) ++ [now] in
    if flood_threshold_ s <? len dq then
      (true, mk (flood_threshold_ s) (blacklist_sec_ s) (<[ip := []]> (flood_ s))
               (<[ip := now + blacklist_sec_ s]> (ip_black_ s)) (uuid_black_ s) (path_ s) (pass_ s)
               true (u64 (dropped_flood_ s + flood_threshold_ s)))
    else
      (false, mk (flood_threshold_ s) (blacklist_sec_ s) (<[ip := dq]> (flood_ s)) (ip_black_ s)
               (uuid_black_ s) (path_ s) (pass_ s) (dirty_ s) (dropped_flood_ s)).

(** ** Blacklists *)

Definition is_ip_blacklisted_ip (now ip : Z) (s : t) : bool * t :=
  match ip_black_ s !! ip with
  | None => (false, s)
  | Some e => if e <? now then (false, with_black (delete ip (ip_black_ s)) (uuid_black_ s) s)
              else (true, s)
  end.

Definition is_ip_blacklisted (now : Z) (from : sockaddr_in) (s : t) : bool * t :=
  is_ip_blacklisted_ip now (s_addr from) s.

Definition is_uuid_blacklisted (now : Z) (uuid : bytes) (s : t) : bool * t :=
  if (length uuid =? 0)%nat then (false, s)
  else
    match uuid_black_ s !! uuid with
    | None => (false, s)
    | Some e => if e <? now then (false, with_black (ip_black_ s) (delete uuid (uuid_black_ s)) s)
                else (true, s)
    end.

Definition blacklist_ip (now ip : Z) (s : t) : t :=
  with_black (<[ip := now + blacklist_sec_ s]> (ip_black_ s)) (uuid_black_ s) s.

Definition blacklist_uuid (now : Z) (uuid : bytes) (s : t) : t :=
  with_black (ip_black_ s) (<[uuid := now + blacklist_sec_ s]> (uuid_black_ s)) s.

Definition unblacklist_ip (ip : Z) (s : t) : t :=
  if bool_decide (is_Some (ip_black_ s !! ip)) then
    with_black (delete ip (ip_black_ s)) (uuid_black_ s) s
  else s.

Definition unblacklist_uuid (uuid : bytes) (s : t) : t :=
  if bool_decide (is_Some (uuid_black_ s !! uuid)) then
    with_black (ip_black_ s) (delete uuid (uuid_black_ s)) s
  else s.

Definition ip_blacklist_size (s : t) : nat := size (ip_black_ s).
Definition uuid_blacklist_size (s : t) : nat := size (uuid_black_ s).

(** The snapshot of the address list is keyed by the printed address. *)
Definition ip_blacklist_snapshot (s : t) : gmap bytes Z :=
  foldl (fun m kv => <[ip_to_str kv.1 := kv.2]> m) ∅ (map_to_list (ip_black_ s)).

Definition uuid_blacklist_snapshot (s : t) : gmap bytes Z := uuid_black_ s.

Definition sweep (now : Z) (s : t) : t :=
  let ipb := filter (fun kv => ~ (kv.2 < now)) (ip_black_ s) in
  let uu := filter (fun kv => ~ (kv.2 < now)) (uuid_black_ s) in
  let d := dirty_ s || negb (size ipb =? size (ip_black_ s))%nat
           || negb (size uu =? size (uuid_black_ s))%nat in
  mk (flood_threshold_ s) (blacklist_sec_ s) (flood_ s) ipb uu (path_ s) (pass_ s) d (dropped_flood_ s).

(** ** Answers *)

(** What the two tests answer, as a function of the tables. *)
Definition ip_blocked (now ip : Z) (s : t) : Prop :=
  exists e, ip_black_ s !! ip = Some e /\ now <= e.

Definition uuid_blocked (now : Z) (uuid : bytes) (s : t) : Prop :=
  uuid <> [] /\ exists e, uuid_black_ s !! uuid = Some e /\ now <= e.

#[export] Instance ip_blocked_dec now ip s : Decision (ip_blocked now ip s).
Proof.
  unfold ip_blocked. destruct (ip_black_ s !! ip) as [e|]; [|right; naive_solver].
  destruct (decide (now <= e)); [left|right]; naive_solver.
Defined.

Lemma is_ip_blacklisted_ip_true now ip s :
  (is_ip_blacklisted_ip now ip s).1 = true <-> ip_blocked now ip s.
Proof.
  unfold is_ip_blacklisted_ip, ip_blocked. destruct (ip_black_ s !! ip) as [e|]; [|naive_solver].
  destruct (Z.ltb_spec e now); naive_solver lia.
Qed.

Lemma is_uuid_blacklisted_true now uuid s :
  (is_uuid_blacklisted now uuid s).1 = true <-> uuid_blocked now uuid s.
Proof.
  unfold is_uuid_blacklisted, uuid_blocked. destruct uuid as [|x uuid]; [naive_solver|]. simpl.
  destruct (uuid_black_ s !! (x :: uuid)) as [e|]; [|naive_solver].
  destruct (Z.ltb_spec e now); naive_solver lia.
Qed.

Lemma is_ip_blacklisted_keeps now ip s ip' now' :
  now <= now' -> ip_blocked now' ip' (is_ip_blacklisted_ip now ip s).2 <-> ip_blocked now' ip' s.
Proof.
  intros Hn. unfold is_ip_blacklisted_ip, ip_blocked.
  destruct (ip_black_ s !! ip) as [e|] eqn:E; [|done].
  destruct (Z.ltb_spec e now); [|done]. simpl. setoid_rewrite lookup_delete_Some. naive_solver lia.
Qed.

Lemma is_uuid_blacklisted_keeps now uuid s uuid' now' :
  now <= now' -> uuid_blocked now' uuid' (is_uuid_blacklisted now uuid s).2 <-> uuid_blocked now' uuid' s.
Proof.
  intros Hn. unfold is_uuid_blacklisted, uuid_blocked.
  destruct (length uuid =? 0)%nat; [done|].
  destruct (uuid_black_ s !! uuid) as [e|] eqn:E; [|done].
  destruct (Z.ltb_spec e now); [|done]. simpl. setoid_rewrite lookup_delete_Some. naive_solver lia.
Qed.

(** The blacklists answer by expiry time: an address or a non-empty
    identifier is blocked exactly up to and including its expiry second;
    listing blocks it for [blacklist_sec_] seconds from now, unlisting frees it,
    and neither purging on a query nor the sweep changes an answer from then
    on. *)
Theorem blacklist_answers (now now' : Z) (ip : Z) (uuid : bytes) (s : t)
    (Hn : now <= now') (Hu : uuid <> []) :
  ((is_ip_blacklisted_ip now' ip (blacklist_ip now ip s)).1 = true <-> now' <= now + blacklist_sec_ s) /\
  ((is_uuid_blacklisted now' uuid (blacklist_uuid now uuid s)).1 = true <-> now' <= now + blacklist_sec_ s) /\
  (is_ip_blacklisted_ip now' ip (unblacklist_ip ip s)).1 = false /\
  (is_uuid_blacklisted now' uuid (unblacklist_uuid uuid s)).1 = false /\
  (forall ip', (is_ip_blacklisted_ip now' ip' (sweep now s)).1 = (is_ip_blacklisted_ip now' ip' s).1) /\
  (forall u', (is_uuid_blacklisted now' u' (sweep now s)).1 = (is_uuid_blacklisted now' u' s).1) /\
  (forall ip', (is_ip_blacklisted_ip now' ip' (is_ip_blacklisted_ip now ip s).2).1 =
     (is_ip_blacklisted_ip now' ip' s).1) /\
  (forall u', (is_uuid_blacklisted now' u' (is_uuid_blacklisted now uuid s).2).1 =
     (is_uuid_blacklisted now' u' s).1).
Proof.
  split_all.
  - rewrite is_ip_blacklisted_ip_true. unfold ip_blocked. simpl. rewrite lookup_insert_eq. naive_solver.
  - rewrite is_uuid_blacklisted_true. unfold uuid_blocked. simpl. rewrite lookup_insert_eq. naive_solver.
  - apply not_true_iff_false. rewrite is_ip_blacklisted_ip_true. unfold ip_blocked, unblacklist_ip.
    case_bool_decide as E; simpl; [rewrite lookup_delete_eq|]; naive_solver.
  - apply not_true_iff_false. rewrite is_uuid_blacklisted_true. unfold uuid_blocked, unblacklist_uuid.
    case_bool_decide as E; simpl; [rewrite lookup_delete_eq|]; naive_solver.
  - intros ip'. apply Bool.eq_true_iff_eq. rewrite !is_ip_blacklisted_ip_true. unfold ip_blocked. simpl.
    setoid_rewrite map_lookup_filter_Some. naive_solver lia.
  - intros u'. apply Bool.eq_true_iff_eq. rewrite !is_uuid_blacklisted_true. unfold uuid_blocked. simpl.
    setoid_rewrite map_lookup_filter_Some. naive_solver lia.
  - intros ip'. apply Bool.eq_true_iff_eq. rewrite !is_ip_blacklisted_ip_true.
    by apply is_ip_blacklisted_keeps.
  - intros u'. apply Bool.eq_true_iff_eq. rewrite !is_uuid_blacklisted_true.
    by apply is_uuid_blacklisted_keeps.
Qed.

Lemma blacklist_answers_witness :
  (is_uuid_blacklisted 65 (bs "dev") (blacklist_uuid 5 (bs "dev") empty)).1 = true.
Proof. apply (blacklist_answers 5 65 0 (bs "dev") empty); [lia|discriminate|simpl; lia]. Defined.

(** ** At most [flood_threshold_] packets a second *)

(** The receive thread's filter: the blacklist, then the flood test. *)
Definition admit_packet (now : Z) (from : sockaddr_in) (s : t) : bool * t :=
  let '(black, s) := is_ip_blacklisted now from s in
  if black then (false, s)
  else let '(flood, s) := check_flood now (s_addr from) s in (negb flood, s).

(** How many of a sequence of arrivals from [ip] at second [tm] are let through. *)
Fixpoint admitted (tm ip : Z) (arrivals : list (Z * sockaddr_in)) (s : t) : nat :=
  match arrivals with
  | [] => 0
  | (now, from) :: rest =>
      let '(ok, s') := admit_packet now from s in
      (if ok && (now =? tm) && (s_addr from =? ip)%Z then 1 else 0) + admitted tm ip rest s'
  end.

(** [k] packets of [ip] were let through in second [tm]: they are still in the
    queue, or the address is blocked. *)
Definition flood_inv (tm ip : Z) (k : Z) (s : t) : Prop :=
  0 <= blacklist_sec_ s /\ k <= flood_threshold_ s /\
  (ip_blocked tm ip s \/ k <= Z.of_nat (count_occ Z.eq_dec (default [] (flood_ s !! ip)) tm)).

Lemma pop_old_count tm dq : count_occ Z.eq_dec (pop_old tm dq) tm = count_occ Z.eq_dec dq tm.
Proof.
  induction dq as [|x dq IH]; [done|]. cbn [pop_old].
  destruct (Z.leb_spec 1 (tm - x)); [|done]. rewrite IH, count_occ_cons_neq by lia. done.
Qed.

Lemma count_occ_length_le x l : (count_occ Z.eq_dec l x <= length l)%nat.
Proof. apply count_occ_bound. Qed.

Lemma admit_packet_config now from s :
  flood_threshold_ (admit_packet now from s).2 = flood_threshold_ s /\
  blacklist_sec_ (admit_packet now from s).2 = blacklist_sec_ s.
Proof.
  unfold admit_packet, is_ip_blacklisted, is_ip_blacklisted_ip, check_flood.
  destruct (ip_black_ s !! s_addr from) as [e|] eqn:E; [destruct (e <? now); [|done]|].
  all: simpl; case_bool_decide; [done|]; by destruct (_ <? len _).
Qed.

(** What the filter does with a packet from an address that is not blocked. *)
Lemma admit_packet_open now from s :
  ~ ip_blocked now (s_addr from) s ->
  let dq := pop_old now (default [] (flood_ s !! s_addr from)) ++ [now] in
  let r := admit_packet now from s in
  if flood_threshold_ s <? len dq then
    r.1 = false /\ ip_black_ r.2 !! s_addr from = Some (now + blacklist_sec_ s)
  else r.1 = true /\ flood_ r.2 !! s_addr from = Some dq.
Proof.
  unfold admit_packet, is_ip_blacklisted, is_ip_blacklisted_ip, ip_blocked, check_flood.
  intros H. cbv zeta. destruct (ip_black_ s !! s_addr from) as [e|] eqn:E.
  - destruct (Z.ltb_spec e now); [|naive_solver]. simpl. rewrite lookup_delete_eq.
    rewrite bool_decide_false by (by intros [? ?]).
    destruct (_ <? len _); simpl; by rewrite lookup_insert_eq.
  - rewrite E, bool_decide_false by (by intros [? ?]).
    destruct (_ <? len _); simpl; by rewrite lookup_insert_eq.
Qed.

Lemma admit_packet_blocked now from s :
  ip_blocked now (s_addr from) s -> admit_packet now from s = (false, s).
Proof.
  intros (e & E & He). unfold admit_packet, is_ip_blacklisted, is_ip_blacklisted_ip. rewrite E.
  by destruct (Z.ltb_spec e now); [lia|].
Qed.

(** A packet touches the entries of its own address only. *)
Lemma admit_packet_other now from s ip :
  s_addr from <> ip ->
  ip_black_ (admit_packet now from s).2 !! ip = ip_black_ s !! ip /\
  flood_ (admit_packet now from s).2 !! ip = flood_ s !! ip.
Proof.
  intros H. unfold admit_packet, is_ip_blacklisted, is_ip_blacklisted_ip, check_flood.
  destruct (ip_black_ s !! s_addr from) as [e|] eqn:E; [destruct (e <? now); [|done]|].
  all: simpl; case_bool_decide; simpl; [by rewrite ?lookup_delete_ne|].
  all: destruct (_ <? len _); simpl; by rewrite ?lookup_insert_ne, ?lookup_delete_ne.
Qed.

Lemma admit_packet_inv tm from ip k s :
  flood_inv tm ip k s ->
  let r := admit_packet tm from s in
  flood_inv tm ip (k + (if r.1 && Z.eqb (s_addr from) ip then 1 else 0)) r.2.
Proof.
  intros (Hb & Ht & Hi) r. destruct (admit_packet_config tm from s) as [Ct Cb].
  unfold flood_inv. fold r in Ct, Cb. rewrite Ct, Cb. split; [done|].
  destruct (Z.eqb_spec (s_addr from) ip) as [<-|Hne].
  - destruct Hi as [Hi|Hi].
    { subst r. rewrite admit_packet_blocked by done. simpl. split; [lia|by left]. }
    destruct (decide (ip_blocked tm (s_addr from) s)) as [Hbl|Hop].
    { subst r. rewrite admit_packet_blocked by done. simpl. split; [lia|by left]. }
    pose proof (admit_packet_open tm from s Hop) as O. cbv zeta in O. fold r in O.
    set (dq := pop_old tm _ ++ [tm]) in *.
    assert (Z.of_nat (count_occ Z.eq_dec dq tm) =
            Z.of_nat (count_occ Z.eq_dec (default [] (flood_ s !! s_addr from)) tm) + 1) as Cd.
    { unfold dq. rewrite count_occ_app, pop_old_count. simpl. destruct (Z.eq_dec tm tm); [lia|done]. }
    destruct (Z.ltb_spec (flood_threshold_ s) (len dq)); destruct O as [-> O]; simpl.
    + split; [lia|]. left. eexists. split; [done|lia].
    + pose proof (count_occ_length_le tm dq). unfold len in *.
      split; [lia|]. right. rewrite O. simpl. lia.
  - rewrite andb_false_r, Z.add_0_r. split; [done|].
    destruct (admit_packet_other tm from s ip Hne) as [E1 E2]. fold r in E1, E2.
    unfold ip_blocked. by rewrite E1, E2.
Qed.

Lemma admitted_after tm ip arrivals s :
  Forall (fun a => tm < a.1) arrivals -> admitted tm ip arrivals s = 0%nat.
Proof.
  intros H. revert s. induction H as [|[now from] l Hx Hl IH]; intros s; [done|]. simpl in *.
  destruct (admit_packet now from s) as [ok s']. rewrite IH.
  destruct (Z.eqb_spec now tm); [lia|]. by rewrite andb_false_r.
Qed.

Lemma admitted_from tm ip k arrivals s :
  StronglySorted (fun a b => a.1 <= b.1) arrivals -> Forall (fun a => tm <= a.1) arrivals ->
  flood_inv tm ip k s -> k + Z.of_nat (admitted tm ip arrivals s) <= flood_threshold_ s.
Proof.
  intros Hs. revert k s. induction Hs as [|[now from] l Hs IH Hle]; intros k s Hf Hi; simpl.
  { destruct Hi as (_ & ? & _). lia. }
  apply Forall_cons in Hf as [Hn Hf]. simpl in Hn.
  destruct (decide (now = tm)) as [->|Hne].
  - pose proof (admit_packet_inv tm from ip k s Hi) as Hi'. cbv zeta in Hi'.
    destruct (admit_packet_config tm from s) as [Ct _].
    destruct (admit_packet tm from s) as [ok s']. simpl in *.
    specialize (IH _ _ Hf Hi'). rewrite Z.eqb_refl, andb_true_r. rewrite Ct in IH.
    destruct (ok && (s_addr from =? ip)); lia.
  - destruct (admit_packet now from s) as [ok s'].
    destruct (Z.eqb_spec now tm); [done|]. rewrite andb_false_r. simpl.
    rewrite admitted_after; [destruct Hi as (_ & ? & _); lia|].
    eapply Forall_impl; [exact Hle|]. intros [n' f']. simpl. lia.
Qed.

(** C32: the flood limit holds: over any sequence of arrivals in time order, at
    most [flood_threshold_] packets of one address are let through in any one
    second, whatever the state was before and whoever else sends. *)
Theorem flood_bound (tm ip : Z) (arrivals : list (Z * sockaddr_in)) (s : t)
    (Hs : StronglySorted (fun a b => a.1 <= b.1) arrivals)
    (Ht : 0 <= flood_threshold_ s) (Hb : 0 <= blacklist_sec_ s) :
  Z.of_nat (admitted tm ip arrivals s) <= flood_threshold_ s.
Proof.
  revert s Ht Hb. induction Hs as [|[now from] l Hs IH Hle]; intros s Ht Hb; [simpl; lia|].
  destruct (decide (now < tm)) as [Hlt|Hge].
  - simpl. destruct (admit_packet_config now from s) as [Ct Cb].
    destruct (admit_packet now from s) as [ok s']. simpl in *.
    destruct (Z.eqb_spec now tm); [lia|]. rewrite andb_false_r. simpl.
    rewrite <- Ct. apply IH; lia.
  - apply (admitted_from tm ip 0 ((now, from) :: l)).
    + by constructor.
    + constructor; [simpl; lia|]. eapply Forall_impl; [exact Hle|]. intros [n' f']. simpl. lia.
    + unfold flood_inv. split_all; [done|done|]. right. lia.
Qed.

Lemma flood_bound_witness :
  Z.of_nat (admitted 5 7 (replicate 9 (5, mkAddr 7 0)) (configure empty 3 60)) <= 3.
Proof.
  apply (flood_bound 5 7 _ (configure empty 3 60)); [|simpl; lia|simpl; lia].
  repeat constructor; simpl; lia.
Defined.

(** ** Saving and loading *)

(** What a line can carry: a 64-bit time, an identifier without the two
    characters that delimit the fields. *)
Definition time_ok (e : Z) : Prop := - 9223372036854775808 <= e <= 9223372036854775807.

Definition uuid_ok (uuid : bytes) : Prop := bytes_ok uuid /\ (32 ∉ uuid) /\ (10 ∉ uuid).

Definition savable (s : t) : Prop :=
  map_Forall (fun ip e => u32_ok ip /\ time_ok e) (ip_black_ s) /\
  map_Forall (fun uuid e => uuid_ok uuid /\ time_ok e) (uuid_black_ s).

(** Entries still in force. *)
Definition in_force {K} `{Countable K} (now : Z) (m : gmap K Z) : gmap K Z :=
  filter (fun kv => ~ (kv.2 <= now)) m.

(** The characters of printed numbers and addresses. *)
Definition num_char (c : Z) : Prop := c = 45 \/ c = 46 \/ is_digit c = true.

Lemma dec_u_num n : 0 <= n -> Forall num_char (dec_u n).
Proof. intros H. eapply Forall_impl; [by apply dec_u_digits|]. unfold num_char. tauto. Qed.

Lemma dec_s_num n : Forall num_char (dec_s n).
Proof.
  unfold dec_s. destruct (Z.ltb_spec n 0); [|apply dec_u_num; lia].
  constructor; [by left|]. apply dec_u_num. lia.
Qed.

Lemma inet_ntop_num a : Forall num_char (inet_ntop a).
Proof.
  pose proof (bytes_ok_le_enc 4 a) as B. unfold inet_ntop.
  destruct (le_enc 4 a) as [|o0 [|o1 [|o2 [|o3 [|? ?]]]]]; try constructor.
  repeat match goal with H : Forall _ (_ :: _) |- _ => apply Forall_cons in H as [? H] end.
  unfold byte_ok in *.
  repeat (apply Forall_app_2 || apply Forall_cons_2); try (apply dec_u_num; lia).
  all: unfold num_char; tauto.
Qed.

Lemma num_not c l : ~ num_char c -> Forall num_char l -> c ∉ l.
Proof. intros Hc Hl Hin. rewrite Forall_forall in Hl. naive_solver. Qed.

Lemma num_char_not c : c = 32 \/ c = 10 \/ c = 13 -> ~ num_char c.
Proof. unfold num_char, is_digit. lia. Qed.

Lemma dec_s_nonempty n : exists c l, dec_s n = l ++ [c] /\ num_char c.
Proof.
  pose proof (dec_s_num n) as H. assert (dec_s n <> []) as Hne.
  { unfold dec_s. destruct (Z.ltb_spec n 0); [done|].
    destruct (dec_u_nonempty n ltac:(lia)) as (c & l & E' & _). by rewrite E'. }
  destruct (List.exists_last Hne) as (l & c & E). exists c, l. split; [done|].
  rewrite E in H. apply Forall_app in H as [_ H]. by inversion H.
Qed.

Lemma strip_cr_line p n : strip_cr (p ++ dec_s n) = p ++ dec_s n.
Proof.
  apply strip_cr_id. destruct (dec_s_nonempty n) as (c & l & -> & Hc).
  rewrite app_assoc, last_snoc. intros [= ->]. apply (num_char_not 13) in Hc; tauto.
Qed.

Lemma strip_cr_entry p k n : strip_cr (p ++ k ++ 32 :: dec_s n) = p ++ k ++ 32 :: dec_s n.
Proof.
  replace (p ++ k ++ 32 :: dec_s n) with ((p ++ k ++ [32]) ++ dec_s n)
    by (by rewrite <- !app_assoc).
  apply strip_cr_line.
Qed.

Lemma atoll_line e : time_ok e -> atoll (dec_s e) = e.
Proof. intros H. rewrite <- (app_nil_r (dec_s e)). by apply atoll_dec_s; [|constructor|]. Qed.

Lemma parse_ip_line m ip e :
  u32_ok ip -> time_ok e -> parse_entry m (ip_line (ip, e)) = (<[ip := e]> m.1, m.2).
Proof.
  intros Hip He. unfold parse_entry, ip_line. cbn [fst snd].
  replace (skip_line _) with false by done.
  rewrite strip_cr_entry, after_prefix_app, cut_at_first.
  - unfold ip_to_str. by rewrite inet_pton_ntop, atoll_line.
  - eapply num_not; [apply num_char_not; by left|apply inet_ntop_num].
Qed.

Lemma parse_uuid_line m uuid e :
  uuid_ok uuid -> time_ok e -> parse_entry m (uuid_line (uuid, e)) = (m.1, <[uuid := e]> m.2).
Proof.
  intros (_ & Hs & _) He. unfold parse_entry, uuid_line. cbn [fst snd].
  replace (skip_line _) with false by done.
  rewrite strip_cr_entry, after_prefix_app.
  replace (after_prefix (bs "IP ") _) with (@None bytes) by done.
  by rewrite cut_at_first, atoll_line.
Qed.

(** A line of control characters is no entry. *)
Lemma parse_low_line m line : Forall (fun c => c <= 16) line -> parse_entry m line = m.
Proof.
  intros H. unfold parse_entry. destruct (skip_line line); [done|].
  assert (Forall (fun c => c <= 16) (strip_cr line)) as Hs.
  { unfold strip_cr. destruct (last line) as [c|]; [|done]. destruct (c =? 13); [|done].
    clear - H. induction H as [|x l Hx Hl IH]; [constructor|].
    destruct l; [constructor|]. by constructor. }
  destruct Hs as [|c l Hc Hl]; [done|].
  change (bs "IP ") with [73; 80; 32]. change (bs "UUID ") with [85; 85; 73; 68; 32].
  by rewrite !after_prefix_first by lia.
Qed.

Definition put {K} `{Countable K} (m : gmap K Z) (kv : K * Z) : gmap K Z := <[kv.1 := kv.2]> m.

Lemma parse_ip_lines l m :
  Forall (fun kv => u32_ok kv.1 /\ time_ok kv.2) l ->
  foldl parse_entry m (map ip_line l) = (foldl put m.1 l, m.2).
Proof.
  intros H. revert m. induction H as [|[ip e] l [Hi He] _ IH]; intros m; simpl; [by destruct m|].
  by rewrite parse_ip_line, IH.
Qed.

Lemma parse_uuid_lines l m :
  Forall (fun kv => uuid_ok kv.1 /\ time_ok kv.2) l ->
  foldl parse_entry m (map uuid_line l) = (m.1, foldl put m.2 l).
Proof.
  intros H. revert m. induction H as [|[u e] l [Hi He] _ IH]; intros m; simpl; [by destruct m|].
  by rewrite parse_uuid_line, IH.
Qed.

Lemma foldl_put {K} `{Countable K} (l : list (K * Z)) (m : gmap K Z) :
  NoDup l.*1 -> foldl put m l = list_to_map l ∪ m.
Proof.
  revert m. induction l as [|[k e] l IH]; intros m Hl; simpl; [by rewrite map_empty_union|].
  apply NoDup_cons in Hl as [Hk Hl]. rewrite IH by done. unfold put. simpl.
  rewrite <- insert_union_r by by apply not_elem_of_list_to_map_1. by rewrite insert_union_l.
Qed.

(** Folding the entries of a filtered traversal rebuilds the filtered map. *)
Lemma foldl_put_iter {K} `{Countable K} now (iter : list (K * Z)) (m : gmap K Z) :
  iter ≡ₚ map_to_list m ->
  foldl put ∅ (filter (fun kv => ~ (kv.2 <= now)) iter) = in_force now m.
Proof.
  intros P. assert (NoDup (filter (fun kv => ~ (kv.2 <= now)) iter).*1) as N.
  { rewrite P. apply (NoDup_map_filter fst), NoDup_fst_map_to_list. }
  rewrite foldl_put, map_union_empty by done. unfold in_force. rewrite map_filter_alt.
  apply list_to_map_proper; [done|]. by rewrite P.
Qed.

Section SaveLoad.
Context (ip_iter : gmap Z Z -> list (Z * Z)) (uuid_iter : gmap bytes Z -> list (bytes * Z)).
Context (ip_iter_perm : forall m, ip_iter m ≡ₚ map_to_list m).
Context (uuid_iter_perm : forall m, uuid_iter m ≡ₚ map_to_list m).

Lemma iter_forall {K} `{Countable K} (P : K -> Z -> Prop) now (iter : list (K * Z)) (m : gmap K Z) :
  iter ≡ₚ map_to_list m -> map_Forall P m ->
  Forall (fun kv => P kv.1 kv.2) (filter (fun kv => ~ (kv.2 <= now)) iter).
Proof.
  intros Hp Hm. rewrite Hp. apply Forall_forall. intros [k e] [_ Hin]%list_elem_of_filter.
  apply elem_of_map_to_list in Hin. by apply Hm.
Qed.

Lemma plain_lines_no_newline now s :
  savable s -> Forall (fun l => 10 ∉ l) (plain_lines ip_iter uuid_iter now s).
Proof.
  intros [Hi Hu]. unfold plain_lines. apply Forall_app_2; apply Forall_fmap.
  - eapply Forall_impl; [eapply iter_forall; [apply ip_iter_perm|exact Hi]|].
    intros [ip e] _. unfold compose, ip_line. cbn [fst snd].
    assert (10 ∉ ip_to_str ip) by (eapply num_not; [apply num_char_not; tauto|apply inet_ntop_num]).
    assert (10 ∉ dec_s e) by (eapply num_not; [apply num_char_not; tauto|apply dec_s_num]).
    rewrite !not_elem_of_app, not_elem_of_cons. split_all; try done. by vm_compute; set_solver.
  - eapply Forall_impl; [eapply iter_forall; [apply uuid_iter_perm|exact Hu]|].
    intros [u e] [(_ & _ & Hn) _]. unfold compose, uuid_line. cbn [fst snd].
    assert (10 ∉ dec_s e) by (eapply num_not; [apply num_char_not; tauto|apply dec_s_num]).
    rewrite !not_elem_of_app, not_elem_of_cons. split_all; try done. by vm_compute; set_solver.
Qed.

(** Parsing the lines, followed by text of control characters. *)
Lemma parse_plain_lines now s rest :
  savable s -> Forall (fun c => c <= 16) rest ->
  parse_entries (∅, ∅) (concat (map (fun l => l ++ [10]) (plain_lines ip_iter uuid_iter now s)) ++ rest) =
  (in_force now (ip_black_ s), in_force now (uuid_black_ s)).
Proof.
  intros Hs Hr. unfold parse_entries.
  rewrite split_lines_concat by by apply plain_lines_no_newline.
  unfold plain_lines. rewrite !foldl_app. destruct Hs as [Hi Hu].
  rewrite parse_ip_lines by (eapply (iter_forall (fun ip e => u32_ok ip /\ time_ok e)); [apply ip_iter_perm|exact Hi]).
  rewrite parse_uuid_lines by (eapply (iter_forall (fun u e => uuid_ok u /\ time_ok e)); [apply uuid_iter_perm|exact Hu]).
  cbn [fst snd].
  rewrite (foldl_put_iter now _ (ip_black_ s)) by apply ip_iter_perm.
  rewrite (foldl_put_iter now _ (uuid_black_ s)) by apply uuid_iter_perm.
  apply (split_lines_octets _ rest) in Hr. induction Hr as [|l ls Hl _ IH]; [done|].
  simpl. by rewrite parse_low_line.
Qed.

Lemma split_header rest :
  split_lines (BL_PLAIN_HEADER ++ rest) = bs "#P2P-BLACKLIST-v1" :: split_lines rest.
Proof.
  unfold BL_PLAIN_HEADER. rewrite <- app_assoc. apply split_lines_cons.
  decide_now.
Qed.

Lemma plain_text_ok now s : savable s -> bytes_ok (concat (map (fun l => l ++ [10]) (plain_lines ip_iter uuid_iter now s))).
Proof.
  intros [_ Hu]. apply Forall_concat, Forall_fmap, Forall_forall. intros l Hl.
  unfold compose. apply Forall_app_2; [|by repeat constructor].
  assert (forall k, Forall num_char k -> bytes_ok k) as Hnum.
  { intros k Hk. eapply Forall_impl; [exact Hk|]. unfold num_char, byte_ok, is_digit. lia. }
  unfold plain_lines in Hl. apply elem_of_app in Hl as [Hl|Hl]; apply list_elem_of_fmap in Hl as ([k e] & -> & Hin).
  - unfold ip_line. cbn [fst snd].
    apply Forall_app_2; [decide_now|]. apply Forall_app_2; [apply Hnum, inet_ntop_num|].
    apply Forall_cons_2; [done|]. apply Hnum, dec_s_num.
  - apply list_elem_of_filter in Hin as [_ Hin]. rewrite uuid_iter_perm in Hin.
    apply elem_of_map_to_list, Hu in Hin as [(Hb & _) _]. unfold uuid_line. cbn [fst snd].
    apply Forall_app_2; [decide_now|]. apply Forall_app_2; [done|].
    apply Forall_cons_2; [done|]. apply Hnum, dec_s_num.
Qed.

(** C33: a saved blacklist survives a restart, if no identifier in it holds a space or a
    line feed.  Nothing enforces that - the management interface takes any identifier, and
    [newline_injection] shows what such an entry becomes -; with it, and with 64-bit expiry
    times, when there is a path and a change to write and the file can be written, [save]
    succeeds, and an instance with empty lists and the same pass word that loads the file has
    exactly the entries still in force at the time of the save, with their expiry times;
    this holds for the plain format and for the encrypted one, whose padding is parsed as
    a line of its own. *)
Theorem save_load_roundtrip (now : Z) (salt iv : bytes) (s s0 : t)
    (Hs : savable s) (Hpath : path_ s <> []) (Hdirty : dirty_ s = true)
    (Hsalt : length salt = 16%nat) (Hiv : state_ok iv)
    (Hpass : pass_ s0 = pass_ s) (Hi0 : ip_black_ s0 = ∅) (Hu0 : uuid_black_ s0 = ∅) :
  exists raw s1, save ip_iter uuid_iter now true salt iv s = (true, Some raw) /\
    load s0 (Some raw) = (true, s1) /\
    ip_black_ s1 = in_force now (ip_black_ s) /\ uuid_black_ s1 = in_force now (uuid_black_ s).
Proof.
  pose proof (parse_plain_lines now s) as P. unfold parse_entries in P.
  unfold save. destruct (Nat.eqb_spec (length (path_ s)) 0) as [E|_]; [by apply nil_length_inv in E|].
  rewrite Hdirty. cbn [orb negb].
  destruct (Nat.eqb_spec (length (pass_ s)) 0) as [E|Hne].
  - eexists _, _. split; [done|]. unfold load, plain_text.
    replace (length _ =? 0)%nat with false by done.
    replace (is_encrypted _ _) with false by done.
    rewrite Hi0, Hu0. unfold parse_entries. rewrite split_header. cbn [foldl].
    replace (parse_entry _ _) with (∅ : gmap Z Z, ∅ : gmap bytes Z) by done.
    rewrite <- (app_nil_r (concat _)), P by done. done.
  - destruct (open_seal BL_MAGIC BL_PLAIN_HEADER (pass_ s) salt iv
                (concat (map (fun l => l ++ [10]) (plain_lines ip_iter uuid_iter now s))))
      as (raw & Es & Ee & Eo); try done.
    { intros E. apply Hne. by rewrite E. }
    { decide_now. }
    { by apply plain_text_ok. }
    fold (plain_text ip_iter uuid_iter now s) in Es. rewrite Es.
    eexists raw, _. split; [done|]. unfold load. rewrite Ee, Hpass, Eo.
    replace (length raw =? 0)%nat with false.
    2:{ symmetry. apply Nat.eqb_neq. intros E. apply nil_length_inv in E as ->. done. }
    rewrite Hi0, Hu0. unfold parse_entries. rewrite P; [done|done|].
    apply Forall_take. unfold trailer. apply Forall_app_2; [|by repeat constructor].
    apply Forall_replicate. pose proof (pad_len_range (BL_PLAIN_HEADER ++
      concat (map (fun l => l ++ [10]) (plain_lines ip_iter uuid_iter now s)))). lia.
Qed.

End SaveLoad.

Definition sample : t :=
  set_path (blacklist_uuid 5 (bs "dev") (blacklist_ip 5 16777343 empty)) (bs "f").

Lemma save_load_roundtrip_witness :
  savable sample /\
  exists raw s1, save map_to_list map_to_list 6 true (replicate 16 1) (replicate 16 2) sample = (true, Some raw) /\
    load empty (Some raw) = (true, s1) /\ ip_black_ s1 = {[16777343 := 65]}.
Proof.
  assert (savable sample) as Hs.
  { split; apply map_Forall_insert_2; try apply map_Forall_empty.
    - unfold u32_ok, time_ok. simpl. lia.
    - unfold uuid_ok, time_ok. split; [|simpl; lia].
      split; [repeat constructor; discriminate|].
      split; decide_now. }
  split; [exact Hs|].
  assert (state_ok (replicate 16 2)) as Hiv by (split; [reflexivity|repeat constructor; discriminate]).
  destruct (save_load_roundtrip map_to_list map_to_list (fun m => Permutation_refl _)
              (fun m => Permutation_refl _) 6 (replicate 16 1) (replicate 16 2) sample empty Hs
              ltac:(discriminate) eq_refl eq_refl Hiv eq_refl eq_refl eq_refl)
    as (raw & s1 & E1 & E2 & E3 & _).
  exists raw, s1. split; [exact E1|]. split; [exact E2|]. rewrite E3. reflexivity.
Defined.

(** An identifier that holds a newline, which the management interface accepts,
    is written as two lines: reloading the file lists an address nobody listed. *)
Lemma newline_injection :
  let s := set_path (blacklist_uuid 5 (bs "x" ++ 10 :: bs "IP 1.2.3.4") empty) (bs "f") in
  exists raw, save map_to_list map_to_list 6 true [] [] s = (true, Some raw) /\
    ip_black_ s = ∅ /\ ip_black_ (load empty (Some raw)).2 = {[67305985 := 65]}.
Proof. eexists. split; [vm_compute; reflexivity|]. by split. Qed.

End AntiAbuse.
