(* ===== verification/LicenseMgr.v ===== *)
(** * The white list

    Models [LicenseMgr] of [server/natserver/src/LicenseMgr.cpp], with its mutex:
    [mu_] tells whether the running thread holds it, and locking it again is a
    [Deadlock]. *)

From S2P Require Import Prelude.
From S2P Require Import Bytes.
From S2P Require Import Hmac.
From S2P Require Import Aes.
From S2P Require Import AesModes.
From S2P Require Import OrderedMap.
From S2P Require Import TextFile.

#[local] Open Scope Z_scope.

Module LicenseMgr.

Record t := mk { path_ : bytes; pass_ : bytes; uuids_ : gset bytes; mu_ : bool }.

Definition empty : t := mk [] [] ∅ false.

(** [std::lock_guard]. *)
Definition lock (s : t) : outcome t :=
  if mu_ s then Fault Deadlock else Done (mk (path_ s) (pass_ s) (uuids_ s) true).

Definition unlock (s : t) : t := mk (path_ s) (pass_ s) (uuids_ s) false.

Definition with_uuids (u : gset bytes) (s : t) : t := mk (path_ s) (pass_ s) u (mu_ s).

Definition set_path (s : t) (path : bytes) : outcome t :=
  s ← lock s; Done (unlock (mk path (pass_ s) (uuids_ s) (mu_ s))).

Definition set_password (s : t) (pass : bytes) : outcome t :=
  s ← lock s; Done (unlock (mk (path_ s) pass (uuids_ s) (mu_ s))).

Definition ENC_MAGIC : bytes := bs "P2PL".
Definition PLAIN_HEADER : bytes := bs "#P2P-LICENSE-v1" ++ [10].

Definition parse_uuid (out : gset bytes) (line : bytes) : gset bytes :=
  if skip_line line then out
  else
    let line := strip_cr line in
    if (length line =? 0)%nat then out else {[line]} ∪ out.

Definition parse_uuids (out : gset bytes) (content : bytes) : gset bytes :=
  foldl parse_uuid out (split_lines content).

Definition count (s : t) : outcome (nat * t) :=
  s ← lock s; Done (size (uuids_ s), unlock s).

(** The set read from a file, [None] where the parser gives up. *)
Definition read_uuids (pass raw : bytes) : option (gset bytes) :=
  if is_encrypted ENC_MAGIC raw then
    match open_container PLAIN_HEADER pass raw with
    | None => None
    | Some text => Some (parse_uuids ∅ text)
    end
  else Some (parse_uuids ∅ raw).

(** [file] is what reading [path] gives.  The log line of the two successful
    ends calls [count] while the lock is held. *)
Definition load (s : t) (path : bytes) (file : option bytes) : outcome (bool * t) :=
  match file with
  | None => Done (false, s)
  | Some raw =>
      s ← lock s;
      let s := mk path (pass_ s) (uuids_ s) (mu_ s) in
      match read_uuids (pass_ s) raw with
      | None => Done (false, unlock s)
      | Some u =>
          let s := with_uuids u s in
          '(_, s) ← count s;
          Done (true, unlock s)
      end
  end.

Definition plain_text (s : t) : bytes :=
  PLAIN_HEADER ++ concat (map (fun u => u ++ [10]) (ordered_set (uuids_ s))).

Definition save (writable : bool) (salt iv : bytes) (s : t) : outcome (bool * option bytes * t) :=
  s ← lock s;
  if (length (path_ s) =? 0)%nat then Done (false, None, unlock s)
  else if negb writable then Done (false, None, unlock s)
  else if (length (pass_ s) =? 0)%nat then Done (true, Some (plain_text s), unlock s)
  else match seal_container ENC_MAGIC (pass_ s) salt iv (plain_text s) with
       | Some raw => Done (true, Some raw, unlock s)
       | None => Done (false, Some [], unlock s)
       end.

Definition add (s : t) (uuid : bytes) : outcome (bool * t) :=
  if (length uuid =? 0)%nat then Done (false, s)
  else
    s ← lock s;
    Done (negb (bool_decide (uuid ∈ uuids_ s)), unlock (with_uuids ({[uuid]} ∪ uuids_ s) s)).

Definition remove (s : t) (uuid : bytes) : outcome (bool * t) :=
  s ← lock s;
  Done (bool_decide (uuid ∈ uuids_ s), unlock (with_uuids (uuids_ s ∖ {[uuid]}) s)).

Definition exists_ (s : t) (uuid : bytes) : outcome (bool * t) :=
  s ← lock s; Done (bool_decide (uuid ∈ uuids_ s), unlock s).

Definition list_ (s : t) : outcome (list bytes * t) :=
  s ← lock s; Done (ordered_set (uuids_ s), unlock s).

Definition allowed (s : t) (uuid : bytes) : outcome (bool * t) :=
  s ← lock s;
  Done (bool_decide (uuids_ s = ∅) || bool_decide (uuid ∈ uuids_ s), unlock s).

(** ** The operations other than [load] *)

Lemma lock_free s : mu_ s = false -> lock s = Done (mk (path_ s) (pass_ s) (uuids_ s) true).
Proof. unfold lock. by intros ->. Qed.

Lemma unlocked_eta s : mu_ s = false -> mk (path_ s) (pass_ s) (uuids_ s) false = s.
Proof. destruct s. simpl. by intros ->. Qed.

Lemma allowed_done s uuid :
  mu_ s = false -> allowed s uuid = Done (bool_decide (uuids_ s = ∅) || bool_decide (uuid ∈ uuids_ s), s).
Proof.
  intros H. unfold allowed. rewrite lock_free by done. simpl.
  unfold unlock. simpl. by rewrite unlocked_eta.
Qed.

Lemma exists_done s uuid : mu_ s = false -> exists_ s uuid = Done (bool_decide (uuid ∈ uuids_ s), s).
Proof.
  intros H. unfold exists_. rewrite lock_free by done. simpl.
  unfold unlock. simpl. by rewrite unlocked_eta.
Qed.

Lemma remove_done s uuid :
  mu_ s = false ->
  remove s uuid = Done (bool_decide (uuid ∈ uuids_ s), mk (path_ s) (pass_ s) (uuids_ s ∖ {[uuid]}) false).
Proof. intros H. unfold remove. by rewrite lock_free. Qed.

Lemma save_done w salt iv s :
  mu_ s = false -> exists ok content, save w salt iv s = Done (ok, content, s).
Proof.
  intros H. unfold save. rewrite lock_free by done. simpl. unfold unlock. simpl.
  rewrite unlocked_eta by done.
  destruct (length (path_ s) =? 0)%nat; [by do 2 eexists|].
  destruct w; [|by do 2 eexists].
  destruct (length (pass_ s) =? 0)%nat; [by do 2 eexists|]. simpl.
  destruct (seal_container _ _ _ _ _); by do 2 eexists.
Qed.

(** With the lock free, every operation but a successful [load] terminates
    and frees it: an empty white list allows every identifier, a non-empty one
    exactly its members; adding and removing do what they say and report
    whether they changed anything; the empty identifier cannot be added. *)
Theorem license_gate (s : t) (u v : bytes) (Hmu : mu_ s = false) :
  allowed s v = Done (bool_decide (uuids_ s = ∅ \/ v ∈ uuids_ s), s) /\
  exists_ s v = Done (bool_decide (v ∈ uuids_ s), s) /\
  (u = [] -> add s u = Done (false, s)) /\
  (u <> [] -> exists s', add s u = Done (negb (bool_decide (u ∈ uuids_ s)), s') /\ mu_ s' = false /\
     allowed s' v = Done (bool_decide (v = u \/ v ∈ uuids_ s), s')) /\
  (exists s', remove s u = Done (bool_decide (u ∈ uuids_ s), s') /\ mu_ s' = false /\
     exists_ s' v = Done (bool_decide (v <> u /\ v ∈ uuids_ s), s')).
Proof.
  split_all.
  - rewrite allowed_done by done. do 2 f_equal.
    apply Bool.eq_true_iff_eq. rewrite orb_true_iff, !bool_decide_eq_true. done.
  - by apply exists_done.
  - by intros ->.
  - intros Hu. unfold add. destruct (Nat.eqb_spec (length u) 0) as [E|_]; [by apply nil_length_inv in E|].
    rewrite lock_free by done. simpl. eexists. split; [done|]. split; [done|].
    rewrite allowed_done by done. simpl. do 2 f_equal.
    rewrite (bool_decide_false ({[u]} ∪ uuids_ s = ∅)) by set_solver. simpl.
    apply bool_decide_ext. set_solver.
  - eexists. split; [by apply remove_done|]. split; [done|].
    rewrite exists_done by done. do 2 f_equal. apply bool_decide_ext. simpl. set_solver.
Qed.

Lemma license_gate_witness : allowed empty (bs "any") = Done (true, empty).
Proof. apply (license_gate empty [] (bs "any") eq_refl). Defined.

(** ** Loading *)

(** [load] never succeeds: when the file cannot be opened or read it says
    so, and as soon as it parses, in either format, the log line re-locks the
    mutex the thread holds. *)
Theorem load_deadlocks (s : t) (path raw : bytes) (Hmu : mu_ s = false) :
  load s path None = Done (false, s) /\
  (read_uuids (pass_ s) raw = None ->
     load s path (Some raw) = Done (false, mk path (pass_ s) (uuids_ s) false)) /\
  (is_Some (read_uuids (pass_ s) raw) -> load s path (Some raw) = Fault Deadlock) /\
  (is_encrypted ENC_MAGIC raw = false -> load s path (Some raw) = Fault Deadlock).
Proof.
  unfold load. rewrite lock_free by done. simpl. split_all.
  - done.
  - by intros ->.
  - by intros [u ->].
  - intros H. unfold read_uuids. by rewrite H.
Qed.

Lemma load_deadlocks_witness : load empty (bs "f") (Some (bs "dev1")) = Fault Deadlock.
Proof. apply (load_deadlocks empty (bs "f") (bs "dev1") eq_refl). reflexivity. Defined.

(** Identifiers that survive a text file with one identifier a line. *)
Definition line_ok (u : bytes) : Prop :=
  bytes_ok u /\ (10 ∉ u) /\ last u <> Some 13 /\ skip_line u = false.

Lemma parse_uuid_ok u out : line_ok u -> parse_uuid out u = {[u]} ∪ out.
Proof.
  intros (_ & _ & Hl & Hs). unfold parse_uuid. rewrite Hs, strip_cr_id by done. by destruct u.
Qed.

Lemma parse_uuids_lines us out :
  Forall line_ok us -> foldl parse_uuid out us = list_to_set us ∪ out.
Proof.
  intros H. revert out. induction H as [|u us Hu _ IH]; intros out; simpl; [set_solver|].
  rewrite parse_uuid_ok, IH by done. set_solver.
Qed.

Lemma parse_uuid_grows out line : out ⊆ parse_uuid out line.
Proof. unfold parse_uuid. destruct (skip_line line); [done|]. case_match; set_solver. Qed.

Lemma parse_uuids_grow lines out : out ⊆ foldl parse_uuid out lines.
Proof.
  revert out. induction lines as [|l lines IH]; intros out; simpl; [done|].
  etransitivity; [apply parse_uuid_grows|apply IH].
Qed.

(** The last piece of a text that does not end in a newline. *)
Lemma split_lines_snoc cur l c :
  c <> 10 ->
  exists ls g, split_lines_from cur (l ++ [c]) = ls ++ [g ++ [c]] /\
    (forall P : Z -> Prop, Forall P cur -> Forall P l -> Forall P g).
Proof.
  intros Hc. revert cur. induction l as [|x l IH]; intros cur; simpl.
  { destruct (Z.eqb_spec c 10); [done|]. exists [], cur. split; [by destruct cur|]. by intros P H _. }
  destruct (x =? 10).
  - destruct (IH []) as (ls & g & -> & Hg). exists (cur :: ls), g. split; [done|].
    intros P Hcur [_ Hl]%Forall_cons. by apply Hg; [constructor|].
  - destruct (IH (cur ++ [x])) as (ls & g & -> & Hg). exists ls, g. split; [done|].
    intros P Hcur [Hx Hl]%Forall_cons. apply Hg; [|done]. apply Forall_app_2; [done|by constructor].
Qed.

(** The cipher padding, cut to the length of the header, ends in a zero octet or
    in 16: its last piece is taken for an identifier. *)
Lemma trailer_end plain :
  exists l c, take 16 (trailer plain) = l ++ [c] /\ Forall (fun x => x <= 16) l /\ (c = 0 \/ c = 16).
Proof.
  pose proof (pad_len_range plain) as P. unfold trailer.
  destruct (decide (pad_len plain = 16%nat)) as [->|Hne].
  - exists (replicate 15 16), 16. split; [done|]. split; [|by right]. by repeat constructor.
  - exists (replicate (pad_len plain) (Z.of_nat (pad_len plain))), 0.
    rewrite take_ge by (rewrite length_app, length_replicate; simpl; lia).
    split; [done|]. split; [|by left]. apply Forall_replicate. lia.
Qed.

Lemma parse_trailer out plain :
  exists g, g <> [] /\ Forall (fun x => x <= 16) g /\
    g ∈ foldl parse_uuid out (split_lines (take 16 (trailer plain))).
Proof.
  destruct (trailer_end plain) as (l & c & -> & Hl & Hc).
  destruct (split_lines_snoc [] l c ltac:(lia)) as (ls & g & E & Hg).
  exists (g ++ [c]). split; [by destruct g|].
  assert (Forall (fun x => x <= 16) (g ++ [c])) as Hlow.
  { apply Forall_app_2; [apply Hg; [constructor|done]|constructor; [lia|constructor]]. }
  split; [done|]. unfold split_lines. rewrite E, foldl_app. simpl.
  unfold parse_uuid at 1. replace (skip_line (g ++ [c])) with false.
  - rewrite strip_cr_id by (rewrite last_snoc; intros [=]; lia).
    destruct (Nat.eqb_spec (length (g ++ [c])) 0) as [E0|_]; [by rewrite length_app in E0; simpl in E0; lia|].
    set_solver.
  - destruct g as [|x g]; simpl in *; apply Forall_cons in Hlow as [Hx _]; symmetry; apply Z.eqb_neq; lia.
Qed.

Lemma license_text_ok s :
  (forall u, u ∈ uuids_ s -> line_ok u) ->
  bytes_ok (concat (map (fun u => u ++ [10]) (ordered_set (uuids_ s)))) /\
  Forall line_ok (ordered_set (uuids_ s)).
Proof.
  intros H. assert (Forall line_ok (ordered_set (uuids_ s))) as Hl.
  { apply Forall_forall. intros u Hu. apply H. by apply elem_of_ordered_set. }
  split; [|done]. apply Forall_concat, Forall_fmap. eapply Forall_impl; [exact Hl|].
  intros u (Hb & _). apply Forall_app_2; [done|by repeat constructor].
Qed.

Lemma license_split_header rest :
  split_lines (PLAIN_HEADER ++ rest) = bs "#P2P-LICENSE-v1" :: split_lines rest.
Proof. unfold PLAIN_HEADER. rewrite <- app_assoc. apply split_lines_cons. decide_now. Qed.

Lemma parse_saved us rest :
  Forall line_ok us ->
  parse_uuids ∅ (concat (map (fun u => u ++ [10]) us) ++ rest) =
  foldl parse_uuid (list_to_set us) (split_lines rest).
Proof.
  intros H. unfold parse_uuids. rewrite split_lines_concat.
  - rewrite foldl_app, (parse_uuids_lines us) by done. by rewrite union_empty_r_L.
  - eapply Forall_impl; [exact H|]. by intros u (_ & ? & _).
Qed.

Lemma list_to_ordered_set (s : gset bytes) : list_to_set (ordered_set s) = s.
Proof. apply set_eq. intros x. rewrite elem_of_list_to_set. apply elem_of_ordered_set. Qed.

(** What [load] parses back from a saved white list: from the plain format
    exactly the saved identifiers; from the encrypted format also an identifier
    of control characters, made of the cipher padding, so that an empty list,
    which allows everyone, comes back as a list that allows no real device. *)
Theorem license_reload (s : t) (salt iv : bytes)
    (Hmu : mu_ s = false) (Hpath : path_ s <> []) (Hu : forall u, u ∈ uuids_ s -> line_ok u)
    (Hsalt : length salt = 16%nat) (Hiv : state_ok iv) :
  exists raw, save true salt iv s = Done (true, Some raw, s) /\
    (pass_ s = [] -> read_uuids [] raw = Some (uuids_ s)) /\
    (pass_ s <> [] -> exists u g, read_uuids (pass_ s) raw = Some u /\ uuids_ s ⊆ u /\
       g ∈ u /\ g <> [] /\ Forall (fun x => x <= 16) g).
Proof.
  destruct (license_text_ok s Hu) as [Hb Hl]. unfold save. rewrite lock_free by done. simpl.
  unfold unlock. simpl. rewrite unlocked_eta by done.
  destruct (Nat.eqb_spec (length (path_ s)) 0) as [E|_]; [by apply nil_length_inv in E|].
  destruct (Nat.eqb_spec (length (pass_ s)) 0) as [E|Hne].
  - apply nil_length_inv in E. eexists. split; [done|]. split; [|done]. intros _.
    unfold read_uuids. replace (is_encrypted _ _) with false by done. f_equal.
    unfold parse_uuids, plain_text. simpl uuids_. rewrite license_split_header. cbn [foldl].
    replace (parse_uuid ∅ (bs "#P2P-LICENSE-v1")) with (∅ : gset bytes) by done.
    pose proof (parse_saved (ordered_set (uuids_ s)) [] Hl) as P. unfold parse_uuids in P.
    rewrite app_nil_r in P. rewrite P. simpl. apply list_to_ordered_set.
  - destruct (open_seal ENC_MAGIC PLAIN_HEADER (pass_ s) salt iv
                (concat (map (fun u => u ++ [10]) (ordered_set (uuids_ s)))))
      as (raw & Es & Ee & Eo); try done.
    { intros E. apply Hne. by rewrite E. }
    { decide_now. }
    unfold plain_text. simpl uuids_. rewrite Es. eexists. split; [done|]. split; [intros E; by rewrite E in Hne|].
    intros _. unfold read_uuids. rewrite Ee, Eo, parse_saved by done.
    change (length PLAIN_HEADER) with 16%nat.
    destruct (parse_trailer (list_to_set (ordered_set (uuids_ s)))
                (PLAIN_HEADER ++ concat (map (fun u => u ++ [10]) (ordered_set (uuids_ s)))))
      as (g & Hne' & Hlow & Hg).
    eexists _, g. split; [done|]. split; [|done].
    rewrite <- (list_to_ordered_set (uuids_ s)) at 1. apply parse_uuids_grow.
Qed.

Lemma license_reload_witness :
  exists raw, save true [] [] (mk (bs "f") [] {[bs "dev1"]} false) = Done (true, Some raw, mk (bs "f") [] {[bs "dev1"]} false) /\
    read_uuids [] raw = Some {[bs "dev1"]}.
Proof.
  assert (state_ok (replicate 16 2)) as Hiv by (split; [reflexivity|repeat constructor; discriminate]).
  destruct (license_reload (mk (bs "f") [] {[bs "dev1"]} false) (replicate 16 1) (replicate 16 2)
              eq_refl ltac:(discriminate)) as (raw & E & H & _).
  - intros u Hu. simpl in Hu. apply elem_of_singleton in Hu as ->.
    split; [repeat constructor; discriminate|]. split; [decide_now|]. split; [discriminate|reflexivity].
  - reflexivity.
  - exact Hiv.
  - exists raw. split; [exact E|]. apply H. reflexivity.
Defined.

End LicenseMgr.
