(* ===== verification/CfgFile.v ===== *)
(** * Configuration

    Models [server/natserver/src/CfgFile.cpp] and [CfgFile.h]: the configuration
    record, the parser of [P2pServers.cfg], first load and hot reload.  A file is
    its content, [None] when it cannot be opened. *)

From S2P Require Import Prelude.
From S2P Require Import Bytes.
From S2P Require Import NetUtil.
From S2P Require Import TextFile.

#[local] Open Scope Z_scope.

(** ** The record and its setters *)

Record CfgData := mkCfg {
  nat_ips : list bytes;
  proxy_ips : list bytes;
  auth_secret : bytes;
  enable_auth : bool;
  enable_license : bool;
  allowed_uuids : list bytes;
  license_file : bytes;
  license_pass : bytes;
  sync_enabled : bool;
  sync_addrs : list bytes;
  sync_auth_secret : bytes;
  admin_secret : bytes;
  blacklist_file : bytes;
  blacklist_pass : bytes;
  proc_workers : Z;
  recv_threads : Z;
  flood_pkt_threshold : Z;
  blacklist_seconds : Z;
  nat_sock2_port : Z;
  cfg_path : bytes;
  loaded : bool
}.

Definition cfg_default : CfgData :=
  mkCfg [] [] [] false false [] [] [] false [] [] [] [] [] 4 2 200 60 0 [] false.

Definition set_nat_ips (x : list bytes) (c : CfgData) : CfgData :=
  mkCfg x (proxy_ips c) (auth_secret c) (enable_auth c) (enable_license c) (allowed_uuids c)
    (license_file c) (license_pass c) (sync_enabled c) (sync_addrs c) (sync_auth_secret c)
    (admin_secret c) (blacklist_file c) (blacklist_pass c) (proc_workers c) (recv_threads c)
    (flood_pkt_threshold c) (blacklist_seconds c) (nat_sock2_port c) (cfg_path c) (loaded c).

Definition set_proxy_ips (x : list bytes) (c : CfgData) : CfgData :=
  mkCfg (nat_ips c) x (auth_secret c) (enable_auth c) (enable_license c) (allowed_uuids c)
    (license_file c) (license_pass c) (sync_enabled c) (sync_addrs c) (sync_auth_secret c)
    (admin_secret c) (blacklist_file c) (blacklist_pass c) (proc_workers c) (recv_threads c)
    (flood_pkt_threshold c) (blacklist_seconds c) (nat_sock2_port c) (cfg_path c) (loaded c).

Definition set_auth_secret (x : bytes) (c : CfgData) : CfgData :=
  mkCfg (nat_ips c) (proxy_ips c) x (enable_auth c) (enable_license c) (allowed_uuids c)
    (license_file c) (license_pass c) (sync_enabled c) (sync_addrs c) (sync_auth_secret c)
    (admin_secret c) (blacklist_file c) (blacklist_pass c) (proc_workers c) (recv_threads c)
    (flood_pkt_threshold c) (blacklist_seconds c) (nat_sock2_port c) (cfg_path c) (loaded c).

Definition set_enable_auth (x : bool) (c : CfgData) : CfgData :=
  mkCfg (nat_ips c) (proxy_ips c) (auth_secret c) x (enable_license c) (allowed_uuids c)
    (license_file c) (license_pass c) (sync_enabled c) (sync_addrs c) (sync_auth_secret c)
    (admin_secret c) (blacklist_file c) (blacklist_pass c) (proc_workers c) (recv_threads c)
    (flood_pkt_threshold c) (blacklist_seconds c) (nat_sock2_port c) (cfg_path c) (loaded c).

Definition set_enable_license (x : bool) (c : CfgData) : CfgData :=
  mkCfg (nat_ips c) (proxy_ips c) (auth_secret c) (enable_auth c) x (allowed_uuids c)
    (license_file c) (license_pass c) (sync_enabled c) (sync_addrs c) (sync_auth_secret c)
    (admin_secret c) (blacklist_file c) (blacklist_pass c) (proc_workers c) (recv_threads c)
    (flood_pkt_threshold c) (blacklist_seconds c) (nat_sock2_port c) (cfg_path c) (loaded c).

Definition set_allowed_uuids (x : list bytes) (c : CfgData) : CfgData :=
  mkCfg (nat_ips c) (proxy_ips c) (auth_secret c) (enable_auth c) (enable_license c) x
    (license_file c) (license_pass c) (sync_enabled c) (sync_addrs c) (sync_auth_secret c)
    (admin_secret c) (blacklist_file c) (blacklist_pass c) (proc_workers c) (recv_threads c)
    (flood_pkt_threshold c) (blacklist_seconds c) (nat_sock2_port c) (cfg_path c) (loaded c).

Definition set_license_file (x : bytes) (c : CfgData) : CfgData :=
  mkCfg (nat_ips c) (proxy_ips c) (auth_secret c) (enable_auth c) (enable_license c)
    (allowed_uuids c) x (license_pass c) (sync_enabled c) (sync_addrs c) (sync_auth_secret c)
    (admin_secret c) (blacklist_file c) (blacklist_pass c) (proc_workers c) (recv_threads c)
    (flood_pkt_threshold c) (blacklist_seconds c) (nat_sock2_port c) (cfg_path c) (loaded c).

Definition set_license_pass (x : bytes) (c : CfgData) : CfgData :=
  mkCfg (nat_ips c) (proxy_ips c) (auth_secret c) (enable_auth c) (enable_license c)
    (allowed_uuids c) (license_file c) x (sync_enabled c) (sync_addrs c) (sync_auth_secret c)
    (admin_secret c) (blacklist_file c) (blacklist_pass c) (proc_workers c) (recv_threads c)
    (flood_pkt_threshold c) (blacklist_seconds c) (nat_sock2_port c) (cfg_path c) (loaded c).

Definition set_sync_enabled (x : bool) (c : CfgData) : CfgData :=
  mkCfg (nat_ips c) (proxy_ips c) (auth_secret c) (enable_auth c) (enable_license c)
    (allowed_uuids c) (license_file c) (license_pass c) x (sync_addrs c) (sync_auth_secret c)
    (admin_secret c) (blacklist_file c) (blacklist_pass c) (proc_workers c) (recv_threads c)
    (flood_pkt_threshold c) (blacklist_seconds c) (nat_sock2_port c) (cfg_path c) (loaded c).

Definition set_sync_addrs (x : list bytes) (c : CfgData) : CfgData :=
  mkCfg (nat_ips c) (proxy_ips c) (auth_secret c) (enable_auth c) (enable_license c)
    (allowed_uuids c) (license_file c) (license_pass c) (sync_enabled c) x (sync_auth_secret c)
    (admin_secret c) (blacklist_file c) (blacklist_pass c) (proc_workers c) (recv_threads c)
    (flood_pkt_threshold c) (blacklist_seconds c) (nat_sock2_port c) (cfg_path c) (loaded c).

Definition set_sync_auth_secret (x : bytes) (c : CfgData) : CfgData :=
  mkCfg (nat_ips c) (proxy_ips c) (auth_secret c) (enable_auth c) (enable_license c)
    (allowed_uuids c) (license_file c) (license_pass c) (sync_enabled c) (sync_addrs c) x
    (admin_secret c) (blacklist_file c) (blacklist_pass c) (proc_workers c) (recv_threads c)
    (flood_pkt_threshold c) (blacklist_seconds c) (nat_sock2_port c) (cfg_path c) (loaded c).

Definition set_admin_secret (x : bytes) (c : CfgData) : CfgData :=
  mkCfg (nat_ips c) (proxy_ips c) (auth_secret c) (enable_auth c) (enable_license c)
    (allowed_uuids c) (license_file c) (license_pass c) (sync_enabled c) (sync_addrs c)
    (sync_auth_secret c) x (blacklist_file c) (blacklist_pass c) (proc_workers c)
    (recv_threads c) (flood_pkt_threshold c) (blacklist_seconds c) (nat_sock2_port c)
    (cfg_path c) (loaded c).

Definition set_blacklist_file (x : bytes) (c : CfgData) : CfgData :=
  mkCfg (nat_ips c) (proxy_ips c) (auth_secret c) (enable_auth c) (enable_license c)
    (allowed_uuids c) (license_file c) (license_pass c) (sync_enabled c) (sync_addrs c)
    (sync_auth_secret c) (admin_secret c) x (blacklist_pass c) (proc_workers c) (recv_threads c)
    (flood_pkt_threshold c) (blacklist_seconds c) (nat_sock2_port c) (cfg_path c) (loaded c).

Definition set_blacklist_pass (x : bytes) (c : CfgData) : CfgData :=
  mkCfg (nat_ips c) (proxy_ips c) (auth_secret c) (enable_auth c) (enable_license c)
    (allowed_uuids c) (license_file c) (license_pass c) (sync_enabled c) (sync_addrs c)
    (sync_auth_secret c) (admin_secret c) (blacklist_file c) x (proc_workers c) (recv_threads c)
    (flood_pkt_threshold c) (blacklist_seconds c) (nat_sock2_port c) (cfg_path c) (loaded c).

Definition set_proc_workers (x : Z) (c : CfgData) : CfgData :=
  mkCfg (nat_ips c) (proxy_ips c) (auth_secret c) (enable_auth c) (enable_license c)
    (allowed_uuids c) (license_file c) (license_pass c) (sync_enabled c) (sync_addrs c)
    (sync_auth_secret c) (admin_secret c) (blacklist_file c) (blacklist_pass c) x
    (recv_threads c) (flood_pkt_threshold c) (blacklist_seconds c) (nat_sock2_port c)
    (cfg_path c) (loaded c).

Definition set_recv_threads (x : Z) (c : CfgData) : CfgData :=
  mkCfg (nat_ips c) (proxy_ips c) (auth_secret c) (enable_auth c) (enable_license c)
    (allowed_uuids c) (license_file c) (license_pass c) (sync_enabled c) (sync_addrs c)
    (sync_auth_secret c) (admin_secret c) (blacklist_file c) (blacklist_pass c) (proc_workers c)
    x (flood_pkt_threshold c) (blacklist_seconds c) (nat_sock2_port c) (cfg_path c) (loaded c).

Definition set_flood_pkt_threshold (x : Z) (c : CfgData) : CfgData :=
  mkCfg (nat_ips c) (proxy_ips c) (auth_secret c) (enable_auth c) (enable_license c)
    (allowed_uuids c) (license_file c) (license_pass c) (sync_enabled c) (sync_addrs c)
    (sync_auth_secret c) (admin_secret c) (blacklist_file c) (blacklist_pass c) (proc_workers c)
    (recv_threads c) x (blacklist_seconds c) (nat_sock2_port c) (cfg_path c) (loaded c).

Definition set_blacklist_seconds (x : Z) (c : CfgData) : CfgData :=
  mkCfg (nat_ips c) (proxy_ips c) (auth_secret c) (enable_auth c) (enable_license c)
    (allowed_uuids c) (license_file c) (license_pass c) (sync_enabled c) (sync_addrs c)
    (sync_auth_secret c) (admin_secret c) (blacklist_file c) (blacklist_pass c) (proc_workers c)
    (recv_threads c) (flood_pkt_threshold c) x (nat_sock2_port c) (cfg_path c) (loaded c).

Definition set_nat_sock2_port (x : Z) (c : CfgData) : CfgData :=
  mkCfg (nat_ips c) (proxy_ips c) (auth_secret c) (enable_auth c) (enable_license c)
    (allowed_uuids c) (license_file c) (license_pass c) (sync_enabled c) (sync_addrs c)
    (sync_auth_secret c) (admin_secret c) (blacklist_file c) (blacklist_pass c) (proc_workers c)
    (recv_threads c) (flood_pkt_threshold c) (blacklist_seconds c) x (cfg_path c) (loaded c).

Definition set_cfg_path (x : bytes) (c : CfgData) : CfgData :=
  mkCfg (nat_ips c) (proxy_ips c) (auth_secret c) (enable_auth c) (enable_license c)
    (allowed_uuids c) (license_file c) (license_pass c) (sync_enabled c) (sync_addrs c)
    (sync_auth_secret c) (admin_secret c) (blacklist_file c) (blacklist_pass c) (proc_workers c)
    (recv_threads c) (flood_pkt_threshold c) (blacklist_seconds c) (nat_sock2_port c) x
    (loaded c).

Definition set_loaded (x : bool) (c : CfgData) : CfgData :=
  mkCfg (nat_ips c) (proxy_ips c) (auth_secret c) (enable_auth c) (enable_license c)
    (allowed_uuids c) (license_file c) (license_pass c) (sync_enabled c) (sync_addrs c)
    (sync_auth_secret c) (admin_secret c) (blacklist_file c) (blacklist_pass c) (proc_workers c)
    (recv_threads c) (flood_pkt_threshold c) (blacklist_seconds c) (nat_sock2_port c)
    (cfg_path c) x.

Definition uuid_allowed (c : CfgData) (uuid : bytes) : bool :=
  if negb (enable_license c) || (length (allowed_uuids c) =? 0)%nat then true
  else bool_decide (uuid ∈ allowed_uuids c).

Definition auth_enabled (c : CfgData) : bool := enable_auth c && negb (length (auth_secret c) =? 0)%nat.

(** ** Parsing *)

Definition trim_char (c : Z) : bool := (c =? 32) || (c =? 9) || (c =? 13) || (c =? 10).

Fixpoint trim_front (l : bytes) : bytes :=
  match l with
  | c :: l' => if trim_char c then trim_front l' else l
  | [] => []
  end.

Definition trim (l : bytes) : bytes := trim_front (rev (trim_front (rev l))).

(** The loop of [valid_ip]: digits and value of the current segment, dots seen. *)
Fixpoint valid_ip_loop (l : bytes) (seg num dots : Z) : bool :=
  match l with
  | [] => (dots =? 3) && (0 <? seg)
  | c :: l =>
      if c =? 46 then valid_ip_loop l 0 0 (dots + 1)
      else if is_digit c then
        let num := num * 10 + (c - 48) in
        if 255 <? num then false
        else if 3 <? seg + 1 then false
        else valid_ip_loop l (seg + 1) num dots
      else false
  end.

Definition valid_ip (ip : bytes) : bool :=
  if (length ip =? 0)%nat || (15 <? length ip)%nat then false else valid_ip_loop ip 0 0 0.

(** The address part of ["ip[:port]"] when it is valid; both callers ignore the
    port. *)
Definition split_ip_port (input : bytes) : option bytes :=
  let ip := trim input in
  let ip := match cut_at 58 ip with Some (a, _) => trim a | None => ip end in
  if valid_ip ip then Some ip else None.

Definition is_true (val : bytes) : bool :=
  bool_decide (val = bs "1") || bool_decide (val = bs "true") || bool_decide (val = bs "yes").

(** The non-empty pieces between commas. *)
Fixpoint split_commas (cur val : bytes) : list bytes :=
  match val with
  | [] => match cur with [] => [] | _ => [cur] end
  | c :: val =>
      if c =? 44 then match cur with [] => split_commas [] val | _ => cur :: split_commas [] val end
      else split_commas (cur ++ [c]) val
  end.

Definition parse_value (out : CfgData) (key val : bytes) : CfgData :=
  if bool_decide (is_Some (after_prefix (bs "NatServer") key)) then
    match split_ip_port val with
    | Some ip => set_nat_ips (nat_ips out ++ [ip]) out
    | None => out
    end
  else if bool_decide (is_Some (after_prefix (bs "Proxy") key)) then
    match split_ip_port val with
    | Some ip => set_proxy_ips (proxy_ips out ++ [ip]) out
    | None => out
    end
  else if bool_decide (key = bs "AuthSecret") then set_auth_secret val out
  else if bool_decide (key = bs "EnableAuth") then set_enable_auth (is_true val) out
  else if bool_decide (key = bs "EnableLicense") then set_enable_license (is_true val) out
  else if bool_decide (key = bs "LicenseFile") then set_license_file val out
  else if bool_decide (key = bs "LicensePass") then set_license_pass val out
  else if bool_decide (key = bs "AllowedUuids") || bool_decide (key = bs "WhitelistUuids") then
    let out := set_allowed_uuids (split_commas [] val) out in
    if bool_decide (key = bs "WhitelistUuids") then set_enable_license true out else out
  else if bool_decide (key = bs "ProcWorkers") then
    let n := atoi val in if (1 <=? n) && (n <=? 64) then set_proc_workers n out else out
  else if bool_decide (key = bs "RecvThreads") then
    let n := atoi val in if (1 <=? n) && (n <=? 16) then set_recv_threads n out else out
  else if bool_decide (key = bs "FloodPktThreshold") then
    let n := u32 (atoi val) in if 1 <=? n then set_flood_pkt_threshold n out else out
  else if bool_decide (key = bs "BlacklistSeconds") then
    let n := u32 (atoi val) in if 1 <=? n then set_blacklist_seconds n out else out
  else if bool_decide (key = bs "NatSock2Port") then
    let n := u16 (atoi val) in if 0 <? n then set_nat_sock2_port n out else out
  else if bool_decide (key = bs "SyncPeers") then set_sync_enabled (is_true val) out
  else if bool_decide (key = bs "SyncAddrs") then set_sync_addrs (split_commas [] val) out
  else if bool_decide (key = bs "SyncAuthSecret") then set_sync_auth_secret val out
  else if bool_decide (key = bs "AdminSecret") then set_admin_secret val out
  else if bool_decide (key = bs "BlacklistFile") then set_blacklist_file val out
  else if bool_decide (key = bs "BlacklistPass") then set_blacklist_pass val out
  else out.

(** [fgets(line, 512, fp)]: up to a newline, included, or 511 octets.  [room] is
    how many octets the buffer still takes. *)
Fixpoint fgets_lines (room : nat) (cur l : bytes) : list bytes :=
  match l with
  | [] => match cur with [] => [] | _ => [cur] end
  | c :: l =>
      if c =? 10 then (cur ++ [c]) :: fgets_lines 510 [] l
      else match room with
           | O => (cur ++ [c]) :: fgets_lines 510 [] l
           | S room => fgets_lines room (cur ++ [c]) l
           end
  end.

(** One turn of the loop of [parse_file]. *)
Definition parse_line (fresh : CfgData) (line : bytes) : CfgData :=
  let s := trim (c_str line) in
  if skip_line s then fresh
  else
    match cut_at 61 s with
    | None => fresh
    | Some (key, val) =>
        let key := trim key in
        let val := trim val in
        if (length key =? 0)%nat then fresh else parse_value fresh key val
    end.

Definition localhost : bytes := bs "127.0.0.1".

Definition or_localhost (l : list bytes) : list bytes := match l with [] => [localhost] | _ => l end.

Definition parse_file (path : bytes) (file : option bytes) : option CfgData :=
  match file with
  | None => None
  | Some content =>
      let fresh := foldl parse_line (set_cfg_path path cfg_default) (fgets_lines 510 [] content) in
      let fresh := set_nat_ips (or_localhost (nat_ips fresh)) fresh in
      let fresh := set_proxy_ips (or_localhost (proxy_ips fresh)) fresh in
      Some (set_loaded true fresh)
  end.

Definition load_server_set (out : CfgData) (path : bytes) (file : option bytes) : bool * CfgData :=
  match parse_file path file with
  | Some c => (true, c)
  | None => (false, set_cfg_path path (set_proxy_ips [localhost] (set_nat_ips [localhost] out)))
  end.

(** [mt] is the modification time [stat] reports, 0 when it fails; the result
    also has the new value of [last_mtime]. *)
Definition reload_if_changed (out : CfgData) (path : bytes) (mt : Z) (file : option bytes)
    (last_mtime : Z) : bool * CfgData * Z :=
  if (mt =? 0) || (mt =? last_mtime) then (false, out, last_mtime)
  else
    match parse_file path file with
    | Some c => (true, c, mt)
    | None => (false, out, mt)
    end.

Definition first_nat_ip (c : CfgData) : bytes := match nat_ips c with [] => localhost | ip :: _ => ip end.
Definition first_proxy_ip (c : CfgData) : bytes := match proxy_ips c with [] => localhost | ip :: _ => ip end.

(** ** Whatever the file holds *)

(** The ranges the server relies on when it starts threads and binds sockets. *)
Definition cfg_ranges (c : CfgData) : Prop :=
  1 <= proc_workers c <= 64 /\ 1 <= recv_threads c <= 16 /\
  1 <= flood_pkt_threshold c < 4294967296 /\ 1 <= blacklist_seconds c < 4294967296 /\
  0 <= nat_sock2_port c < 65536 /\
  Forall (fun ip => valid_ip ip = true) (nat_ips c) /\ Forall (fun ip => valid_ip ip = true) (proxy_ips c).

Lemma cfg_ranges_default path : cfg_ranges (set_cfg_path path cfg_default).
Proof. unfold cfg_ranges. simpl. split_all; try lia; constructor. Qed.

Lemma split_ip_port_valid v ip : split_ip_port v = Some ip -> valid_ip ip = true.
Proof. unfold split_ip_port. case_match eqn:E; [|done]. by intros [= <-]. Qed.

Lemma s32_u32_range x : 0 <= u32 x < 4294967296.
Proof. apply u32_range. Qed.

Lemma parse_value_ranges c key val : cfg_ranges c -> cfg_ranges (parse_value c key val).
Proof.
  intros H. unfold parse_value. cbv zeta.
  pose proof (u32_range (atoi val)) as R32. pose proof (u16_range (atoi val)) as R16.
  unfold u32_ok, u16_ok in *.
  repeat case_match; try exact H; unfold cfg_ranges in *; simpl; split_all; try done; try lia.
  all: apply Forall_app_2; [done|]; repeat constructor; by eapply split_ip_port_valid.
Qed.

Lemma parse_line_ranges c line : cfg_ranges c -> cfg_ranges (parse_line c line).
Proof.
  intros H. unfold parse_line. destruct (skip_line _); [done|].
  destruct (cut_at 61 _) as [[key val]|]; [|done].
  destruct (_ =? 0)%nat; [done|]. by apply parse_value_ranges.
Qed.

Lemma or_localhost_valid l :
  Forall (fun ip => valid_ip ip = true) l ->
  or_localhost l <> [] /\ Forall (fun ip => valid_ip ip = true) (or_localhost l).
Proof. intros H. destruct l; simpl; split; try done. by repeat constructor. Qed.

Lemma parse_file_ranges path file c :
  parse_file path file = Some c ->
  cfg_ranges c /\ nat_ips c <> [] /\ proxy_ips c <> [] /\ cfg_path c = path /\ loaded c = true.
Proof.
  unfold parse_file. destruct file as [content|]; [|done].
  set (fresh := foldl parse_line _ _). intros [= <-].
  assert (cfg_ranges fresh /\ cfg_path fresh = path) as [R P].
  { apply (foldl_invariant (fun c => cfg_ranges c /\ cfg_path c = path)).
    - split; [apply cfg_ranges_default|done].
    - intros c line _ [Hr Hp]. split; [by apply parse_line_ranges|].
      rewrite <- Hp. unfold parse_line, parse_value. cbv zeta. by repeat case_match. }
  destruct R as (? & ? & ? & ? & ? & Hn & Hp).
  apply or_localhost_valid in Hn as [? ?]. apply or_localhost_valid in Hp as [? ?].
  unfold cfg_ranges. simpl. by split_all.
Qed.

(** Whatever the configuration file contains, a configuration that loads is
    usable: 1 to 64 workers, 1 to 16 receive threads, positive 32-bit flood
    threshold and blacklist time, a 16-bit alternate port, at least one server
    and one proxy address, all passing the address check; a file that cannot
    be opened leaves the defaults with the local addresses, and a hot reload
    replaces the configuration only when the file changed and opens. *)
Theorem config_usable (path : bytes) (file : option bytes) (old : CfgData) (mt last : Z) :
  let r := load_server_set cfg_default path file in
  (cfg_ranges r.2 /\ nat_ips r.2 <> [] /\ proxy_ips r.2 <> [] /\ cfg_path r.2 = path) /\
  (r.1 = true <-> file <> None) /\
  (let '(changed, c, last') := reload_if_changed old path mt file last in
   (changed = true <-> mt <> 0 /\ mt <> last /\ file <> None) /\
   (changed = false -> c = old) /\
   (changed = true -> c = (load_server_set old path file).2 /\ last' = mt /\ cfg_ranges c)).
Proof.
  unfold load_server_set, reload_if_changed.
  destruct (parse_file path file) as [c|] eqn:E.
  - destruct (parse_file_ranges path file c E) as (R & N & P & Q & L).
    assert (file <> None) by (by destruct file). simpl. split_all; try done.
    destruct (Z.eqb_spec mt 0), (Z.eqb_spec mt last); simpl; naive_solver.
  - assert (file = None) as -> by (by destruct file). simpl. split_all; try done.
    + unfold cfg_ranges. simpl. split_all; try lia; by repeat constructor.
    + destruct (Z.eqb_spec mt 0), (Z.eqb_spec mt last); simpl; naive_solver.
Qed.

(** ** The address check *)

Lemma valid_ip_octet o r dots :
  byte_ok o ->
  exists seg, 0 < seg /\ valid_ip_loop (dec_u o ++ r) 0 0 dots = valid_ip_loop r seg o dots /\ seg <= 3.
Proof.
  unfold byte_ok. intros H.
  assert (forall m, is_digit (48 + m mod 10) = true /\ (48 + m mod 10 =? 46) = false) as D.
  { intros m. pose proof (Z.mod_pos_bound m 10). unfold is_digit. lia. }
  destruct (Z.lt_ge_cases o 10); [|destruct (Z.lt_ge_cases o 100)].
  - exists 1. split_all; [lia| |lia]. rewrite dec_u_small by done. cbn [app valid_ip_loop].
    rewrite (proj1 (D _)), (proj2 (D _)).
    repeat match goal with |- context [?a <? ?b] => destruct (Z.ltb_spec a b); [zdiv|] end.
    f_equal; zdiv.
  - exists 2. split_all; [lia| |lia]. rewrite dec_u_step, dec_u_small by zdiv. cbn [app valid_ip_loop].
    rewrite !(proj1 (D _)), !(proj2 (D _)).
    repeat match goal with |- context [?a <? ?b] => destruct (Z.ltb_spec a b); [zdiv|] end.
    f_equal; zdiv.
  - exists 3. split_all; [lia| |lia]. rewrite dec_u_step, dec_u_step, dec_u_small by zdiv.
    cbn [app valid_ip_loop]. rewrite !(proj1 (D _)), !(proj2 (D _)).
    repeat match goal with |- context [?a <? ?b] => destruct (Z.ltb_spec a b); [zdiv|] end.
    f_equal; zdiv.
Qed.

Lemma valid_ip_dot r seg num dots :
  valid_ip_loop (46 :: r) seg num dots = valid_ip_loop r 0 0 (dots + 1).
Proof. reflexivity. Qed.

(** The address check of the configuration accepts every address in dotted
    form, but also text that is no address: [...1], and a missing segment, pass
    the check and do not convert. *)
Theorem valid_ip_incomplete :
  (forall a, valid_ip (inet_ntop a) = true) /\
  valid_ip (bs "...1") = true /\ inet_pton (bs "...1") = None /\
  valid_ip (bs "1..2.3") = true /\ inet_pton (bs "1..2.3") = None.
Proof.
  split; [|by_computation]. intros a. unfold valid_ip.
  pose proof (inet_ntop_length a) as L.
  pose proof (bytes_ok_le_enc 4 a) as B. unfold inet_ntop in *.
  destruct (le_enc 4 a) as [|o0 [|o1 [|o2 [|o3 [|? ?]]]]] eqn:E; try by apply (f_equal length) in E.
  repeat match goal with H : Forall _ (_ :: _) |- _ => apply Forall_cons in H as [? H] end.
  destruct (Nat.eqb_spec (length (dec_u o0 ++ 46 :: dec_u o1 ++ 46 :: dec_u o2 ++ 46 :: dec_u o3)) 0) as [Z0|_].
  { rewrite length_app in Z0. simpl in Z0. lia. }
  destruct (Nat.ltb_spec 15 (length (dec_u o0 ++ 46 :: dec_u o1 ++ 46 :: dec_u o2 ++ 46 :: dec_u o3))); [lia|].
  cbn [orb].
  destruct (valid_ip_octet o0 (46 :: dec_u o1 ++ 46 :: dec_u o2 ++ 46 :: dec_u o3) 0) as (s0 & _ & -> & _); [done|].
  destruct (valid_ip_octet o1 (46 :: dec_u o2 ++ 46 :: dec_u o3) 1) as (s1 & _ & E1 & _); [done|].
  destruct (valid_ip_octet o2 (46 :: dec_u o3) 2) as (s2 & _ & E2 & _); [done|].
  destruct (valid_ip_octet o3 [] 3) as (s3 & Hs3 & E3 & _); [done|].
  rewrite app_nil_r in E3. rewrite valid_ip_dot. change (0 + 1) with 1.
  rewrite E1, valid_ip_dot. change (1 + 1) with 2.
  rewrite E2, valid_ip_dot. change (2 + 1) with 3. rewrite E3. simpl. lia.
Qed.
