(* ===== verification/Packet.v ===== *)
(** * Datagrams and framing

    Every component builds its datagrams the same way, an 8-byte header and a
    payload, and checks them the same way on receipt.  The fixed text fields of
    the structures are filled on zeroed memory. *)

From S2P Require Import Prelude.
From S2P Require Import Bytes.
From S2P Require Import Wire.
From S2P Require Import ProtoDef.
From S2P Require Import NetUtil.

#[local] Open Scope Z_scope.

(** Which socket a server datagram leaves from. *)
Inductive sock := MainSock | AltSock.

#[export] Instance sock_eq_dec : EqDecision sock.
Proof. solve_decision. Defined.

Record datagram := mkDg { dg_sock : sock; dg_to : sockaddr_in; dg_data : bytes }.

Definition mk_head (msg_id : Z) (plen : nat) : MsgHead :=
  mkMsgHead (htons NAT_MAGIC) PROTO_VER msg_id (htonl (u32 (Z.of_nat plen))).

(** Header and payload. *)
Definition frame (msg_id : Z) (payload : bytes) : bytes :=
  cenc MsgHead_codec (mk_head msg_id (length payload)) ++ payload.

(** The checks on a received datagram, then message number and payload. *)
Definition parse_frame (data : bytes) : option (Z * bytes) :=
  if (length data <? csize MsgHead_codec)%nat then None
  else
    let h := cdec MsgHead_codec data in
    if negb (ntohs (mh_magic h) =? NAT_MAGIC) then None
    else if negb (mh_version h =? PROTO_VER) then None
    else if len data - 8 <? ntohl (mh_length h) then None
    else Some (mh_msg_id h, slice 8 (Z.to_nat (ntohl (mh_length h))) data).

(** [inet_ntop] into a zeroed 16-byte field, and [memcpy] or [strncpy] of an
    identifier into a zeroed 33-byte one. *)
Definition ip_field (a : Z) : bytes := pad_to MAX_IP_LEN (inet_ntop a).
Definition uuid_field (uuid : bytes) : bytes := strncpy_z (MAX_UUID_LEN + 1) MAX_UUID_LEN uuid.

(** A zeroed value of a structure, [memset(&x, 0, sizeof(x))]. *)
Definition zeroed {A} (c : codec A) : A := cdec c (replicate (csize c) 0).

(** [n] octets read from an object that has [length obj]. *)
Definition read_obj (n : nat) (obj : bytes) : outcome bytes :=
  if (length obj <? n)%nat then Fault OutOfBounds else Done (take n obj).

(** The C string at an offset of an object: it must end inside. *)
Definition cstr_in (off : nat) (obj : bytes) : outcome bytes :=
  if bool_decide (0 ∈ drop off obj) then Done (c_str (drop off obj)) else Fault OutOfBounds.

Lemma mk_head_ok id n : 0 <= id < 256 -> cok MsgHead_codec (mk_head id n).
Proof.
  intros H. simpl. unfold PROTO_VER. split_all; try lia.
  - apply htons_range.
  - apply htons_range.
  - apply htonl_range.
  - apply htonl_range.
Qed.

Lemma frame_length id p : length (frame id p) = (8 + length p)%nat.
Proof. unfold frame. rewrite length_app. done. Qed.

(** A receiver takes a frame apart as the sender put it together. *)
Lemma parse_frame_frame id p rest :
  0 <= id < 256 -> len p < 4294967296 -> parse_frame (frame id p ++ rest) = Some (id, p).
Proof.
  intros Hid Hp. pose proof (mk_head_ok id (length p) Hid) as Hh. unfold parse_frame, len in *.
  rewrite length_app, frame_length. change (csize MsgHead_codec) with 8%nat.
  destruct (Nat.ltb_spec (8 + length p + length rest) 8); [lia|].
  unfold frame. rewrite <- app_assoc, codec_dec_enc by done.
  cbn [mh_magic mh_version mh_length mh_msg_id mk_head].
  rewrite htons_involutive by (unfold u16_ok, NAT_MAGIC; lia).
  rewrite !Z.eqb_refl. cbn [negb].
  rewrite u32_small by (unfold u32_ok; lia).
  rewrite htonl_involutive by (unfold u32_ok; lia).
  destruct (Z.ltb_spec (Z.of_nat (8 + length p + length rest) - 8) (Z.of_nat (length p))); [lia|].
  do 2 f_equal. unfold slice. rewrite Nat2Z.id.
  rewrite drop_app_exact by exact (codec_size _ Hh). apply take_app_length.
Qed.

Lemma parse_frame_length data id p :
  parse_frame data = Some (id, p) -> (8 + length p <= length data)%nat.
Proof.
  unfold parse_frame. change (csize MsgHead_codec) with 8%nat.
  destruct (Nat.ltb_spec (length data) 8); [done|].
  destruct (negb _); [done|]. destruct (negb _); [done|].
  destruct (Z.ltb_spec (len data - 8) (ntohl (mh_length (cdec MsgHead_codec data)))); [done|].
  intros [= _ <-]. unfold len in *. unfold slice. rewrite length_take, length_drop. lia.
Qed.

Lemma parse_frame_bytes data id p : bytes_ok data -> parse_frame data = Some (id, p) -> bytes_ok p.
Proof.
  intros Hd. unfold parse_frame.
  destruct (_ <? _)%nat; [done|]. destruct (negb _); [done|]. destruct (negb _); [done|].
  destruct (_ <? _); [done|]. intros [= _ <-]. by apply Forall_slice.
Qed.

Lemma length_ip_field a : length (ip_field a) = 16%nat.
Proof. apply length_pad_to. Qed.

Lemma inet_ntop_bytes_ok a : bytes_ok (inet_ntop a).
Proof.
  pose proof (bytes_ok_le_enc 4 a) as B. unfold inet_ntop.
  destruct (le_enc 4 a) as [|o0 [|o1 [|o2 [|o3 [|? ?]]]]]; try constructor.
  assert (forall o, byte_ok o -> bytes_ok (dec_u o)) as D.
  { unfold byte_ok. intros o Ho. eapply Forall_impl; [apply dec_u_digits; lia|].
    unfold is_digit. intros c. lia. }
  repeat match goal with H : Forall _ (_ :: _) |- _ => apply Forall_cons in H as [? H] end.
  repeat (apply Forall_app_2 || apply Forall_cons_2); by auto.
Qed.

Lemma ip_field_ok a : bytes_ok (ip_field a).
Proof. apply pad_to_ok, inet_ntop_bytes_ok. Qed.

(** Reading an address field back as a string. *)
Lemma c_str_ip_field a : c_str (ip_field a) = inet_ntop a.
Proof.
  unfold ip_field, MAX_IP_LEN. pose proof (inet_ntop_length a).
  rewrite pad_to_short by lia.
  destruct (16 - length (inet_ntop a))%nat eqn:E; [lia|]. simpl.
  apply c_str_app_nul, inet_ntop_no_nul.
Qed.

Lemma ip_field_eq a : ip_field a = inet_ntop a ++ 0 :: replicate (15 - length (inet_ntop a)) 0.
Proof.
  pose proof (inet_ntop_length a). unfold ip_field, MAX_IP_LEN. rewrite pad_to_short by lia.
  by replace (16 - length (inet_ntop a))%nat with (S (15 - length (inet_ntop a))) by lia.
Qed.

(** The address in a field of a larger object. *)
Lemma cstr_in_field pre a post off : length pre = off -> cstr_in off (pre ++ ip_field a ++ post) = Done (inet_ntop a).
Proof.
  intros <-. unfold cstr_in. rewrite drop_app_length. pose proof (c_str_ip_field a) as C.
  assert (no_nul (inet_ntop a)) as N by (rewrite <- C; apply c_str_no_nul).
  rewrite ip_field_eq, <- app_assoc. cbn [app]. rewrite bool_decide_true; [by rewrite c_str_app_nul|].
  apply elem_of_app. right. by left.
Qed.

Lemma length_uuid_field u : length (uuid_field u) = 33%nat.
Proof. apply length_strncpy_z. Qed.

Lemma uuid_field_ok u : bytes_ok u -> bytes_ok (uuid_field u).
Proof. apply strncpy_z_ok. Qed.

Lemma c_str_uuid_field u : no_nul u -> (length u <= 32)%nat -> c_str (uuid_field u) = u.
Proof. intros H L. apply c_str_strncpy_z; [done|done|unfold MAX_UUID_LEN; lia]. Qed.

#[export] Hint Resolve ip_field_ok uuid_field_ok : p2p.

(** ** Requests and what a receiver reads *)

(** An identifier that travels whole: no zero octet, 1 to 32 octets. *)
Definition uuid_ok (uuid : bytes) : Prop :=
  no_nul uuid /\ bytes_ok uuid /\ (1 <= length uuid <= 32)%nat.

Lemma uuid_field_eq uuid :
  uuid_ok uuid -> uuid_field uuid = uuid ++ replicate (33 - length uuid) 0.
Proof.
  intros (N & B & L1 & L2). unfold uuid_field, MAX_UUID_LEN, strncpy_z.
  rewrite c_str_id, take_ge by (done || lia). rewrite pad_to_short by lia. done.
Qed.

(** Writing the terminator again changes nothing. *)
Lemma field_terminated uuid : uuid_ok uuid -> take 32 (uuid_field uuid) ++ [0] = uuid_field uuid.
Proof.
  intros H. rewrite uuid_field_eq by done. destruct H as (N & B & L1 & L2).
  rewrite take_app, take_ge, take_replicate by lia. rewrite <- app_assoc. f_equal.
  replace (33 - length uuid)%nat with ((32 - length uuid) + 1)%nat by lia.
  rewrite replicate_add. do 2 f_equal. lia.
Qed.

(** A structure sent alone decodes as it was encoded. *)
Lemma cdec_alone {A} (c : codec A) `{!CodecLaws c} a : cok c a -> cdec c (cenc c a) = a.
Proof. intros H. pose proof (codec_dec_enc a [] H) as E. by rewrite app_nil_r in E. Qed.

Lemma uuid_field_cok uuid : uuid_ok uuid -> cok (c_bytes 33) (uuid_field uuid).
Proof. intros (N & B & _). split; [apply length_uuid_field|by apply uuid_field_ok]. Qed.

Lemma cenc_len {A} (c : codec A) `{!CodecLaws c} a : cok c a -> len (cenc c a) = Z.of_nat (csize c).
Proof. intros H. unfold len. by rewrite codec_size. Qed.

(** The receiver of a datagram reads this structure from it. *)
Definition reads {A} (c : codec A) (m : MsgId) (d : datagram) (v : A) : Prop :=
  exists p, parse_frame (dg_data d) = Some (msg_id m, p) /\ cdec c p = v.

Lemma msg_id_range m : 0 <= msg_id m < 256.
Proof. by destruct m; vm_compute; split. Qed.

Lemma reads_frame {A} (c : codec A) `{!CodecLaws c} m k to v :
  cok c v -> Z.of_nat (csize c) < 4294967296 -> reads c m (mkDg k to (frame (msg_id m) (cenc c v))) v.
Proof.
  intros Hv Hs. exists (cenc c v). split; [|by apply cdec_alone]. cbn [dg_data].
  pose proof (parse_frame_frame (msg_id m) (cenc c v) []) as E. rewrite app_nil_r in E.
  apply E; [apply msg_id_range|by rewrite cenc_len].
Qed.

Lemma ip_field_cok a : cok (c_bytes 16) (ip_field a).
Proof. split; [apply length_ip_field|apply ip_field_ok]. Qed.
