(* ===== verification/Handler.v ===== *)
(** * Handlers

    The stateful parts of the servers and of the client are functions of a state that
    may fault and that list their effects in order.  This file has the monad they are
    written in and the equations their proofs step with. *)

From S2P Require Import Prelude.

#[local] Open Scope Z_scope.

Section Handler.
Context {S E : Type}.

Definition handler (A : Type) : Type := S -> outcome (A * S * list E).

#[export] Instance M_ret : MRet handler := fun A a s => Done (a, s, []).

#[export] Instance M_bind : MBind handler := fun A B k m s =>
  match m s with
  | Fault f => Fault f
  | Done (a, s, o) =>
      match k a s with
      | Fault f => Fault f
      | Done (b, s, o') => Done (b, s, o ++ o')
      end
  end.

Definition gets {A} (f : S -> A) : handler A := fun s => Done (f s, s, []).
Definition modify (f : S -> S) : handler unit := fun s => Done (tt, f s, []).
Definition emit (e : E) : handler unit := fun s => Done (tt, s, [e]).
Definition skip : handler unit := mret tt.
Definition lift {A} (o : outcome A) : handler A := fun s =>
  match o with Done a => Done (a, s, []) | Fault f => Fault f end.

Fixpoint mapM_ {A} (f : A -> handler unit) (l : list A) : handler unit :=
  match l with
  | [] => skip
  | a :: l => f a ;; mapM_ f l
  end.

(** ** Stepping through a handler *)

Lemma bind_done {A B} (m : handler A) (k : A -> handler B) s b s2 o :
  (m ≫= k) s = Done (b, s2, o) ->
  exists a s1 o1 o2, m s = Done (a, s1, o1) /\ k a s1 = Done (b, s2, o2) /\ o = o1 ++ o2.
Proof.
  unfold mbind, M_bind. destruct (m s) as [[[a s1] o1]|]; [|done].
  destruct (k a s1) as [[[b' s2'] o2]|] eqn:K; [|done]. intros [= -> -> <-]. eauto 10.
Qed.

Lemma bind_eq {A B} (m : handler A) (k : A -> handler B) s a s1 o1 b s2 o2 :
  m s = Done (a, s1, o1) -> k a s1 = Done (b, s2, o2) -> (m ≫= k) s = Done (b, s2, o1 ++ o2).
Proof. unfold mbind, M_bind. by intros -> ->. Qed.

Lemma gets_eq {A B} (f : S -> A) (k : A -> handler B) s : (gets f ≫= k) s = k (f s) s.
Proof. unfold mbind, M_bind, gets. by destruct (k (f s) s) as [[[]]|]. Qed.

(** A step that returns a value and has no effect outside the state. *)
Lemma step_eq {A B} (m : handler A) (k : A -> handler B) s a s1 :
  m s = Done (a, s1, []) -> (m ≫= k) s = k a s1.
Proof. unfold mbind, M_bind. intros ->. by destruct (k a s1) as [[[]]|]. Qed.

Lemma modify_eq {B} (f : S -> S) (k : unit -> handler B) s : (modify f ≫= k) s = k tt (f s).
Proof. by apply step_eq. Qed.

Lemma lift_eq {A B} (a : A) (k : A -> handler B) s : (lift (Done a) ≫= k) s = k a s.
Proof. by apply step_eq. Qed.

Lemma bind_ret_r {A} (m : handler A) s : (m ≫= mret) s = m s.
Proof. unfold mbind, M_bind. destruct (m s) as [[[a s1] o1]|]; [|done]. cbn. by rewrite app_nil_r. Qed.

Lemma bind_assoc {A B C} (m : handler A) (k : A -> handler B) (h : B -> handler C) s :
  ((m ≫= k) ≫= h) s = (m ≫= fun a => k a ≫= h) s.
Proof.
  unfold mbind, M_bind. destruct (m s) as [[[a s1] o1]|]; [|done].
  destruct (k a s1) as [[[b s2] o2]|]; [|done]. destruct (h b s2) as [[[c s3] o3]|]; [|done]. by rewrite app_assoc.
Qed.

Lemma mapM_app_eq {A} (f : A -> handler unit) l1 l2 s : mapM_ f (l1 ++ l2) s = (mapM_ f l1;; mapM_ f l2) s.
Proof.
  revert s. induction l1 as [|a l1 IH]; intros s; cbn [app mapM_].
  { by rewrite (step_eq _ _ s tt s). }
  rewrite bind_assoc. unfold mbind in *. unfold M_bind in *. destruct (f a s) as [[[u s1] o1]|]; [|done]. by rewrite IH.
Qed.

End Handler.

Arguments handler : clear implicits.

(** ** What a handler does to its state and its effects

    [R s s' o] relates the states before and after and the effects in between; a relation
    that holds of nothing happening and composes is an argument that can be carried
    through a handler step by step ([obeys_bind] and the lemmas after it). *)

Class Trace {S E : Type} (R : S -> S -> list E -> Prop) : Prop := {
  trace_nil s : R s s [];
  trace_app s1 s2 s3 o1 o2 : R s1 s2 o1 -> R s2 s3 o2 -> R s1 s3 (o1 ++ o2)
}.

Section Obeys.
Context {S E : Type} (R : S -> S -> list E -> Prop) `{!Trace R}.

Definition obeys {A} (m : handler S E A) : Prop := forall s a s' o, m s = Done (a, s', o) -> R s s' o.

Lemma obeys_ret {A} (a : A) : obeys (mret a).
Proof. intros s b s' o [= _ <- <-]. apply trace_nil. Qed.

Lemma obeys_skip : obeys skip.
Proof. apply obeys_ret. Qed.

Lemma obeys_bind {A B} (m : handler S E A) (k : A -> handler S E B) :
  obeys m -> (forall a, obeys (k a)) -> obeys (m ≫= k).
Proof.
  intros Hm Hk s b s' o (a & s1 & o1 & o2 & H1 & H2 & ->)%bind_done.
  eapply trace_app; [by eapply Hm|by eapply Hk].
Qed.

(** The rest of a handler after it read the state, with what is known of that state. *)
Lemma obeys_gets {A B} (f : S -> A) (k : A -> handler S E B) :
  (forall s a s' o, k (f s) s = Done (a, s', o) -> R s s' o) -> obeys (gets f ≫= k).
Proof. intros H s b s' o. rewrite gets_eq. apply H. Qed.

Lemma obeys_get {A} (f : S -> A) : obeys (gets f).
Proof. intros s a s' o [= _ <- <-]. apply trace_nil. Qed.

Lemma obeys_lift {A} (x : outcome A) : obeys (lift x).
Proof. intros s a s' o. destruct x; [|done]. intros [= _ <- <-]. apply trace_nil. Qed.

Lemma obeys_modify (f : S -> S) : (forall s, R s (f s) []) -> obeys (modify f).
Proof. intros H s a s' o [= _ <- <-]. apply H. Qed.

Lemma obeys_emit (e : E) : (forall s, R s s [e]) -> obeys (emit e).
Proof. intros H s a s' o [= _ <- <-]. apply H. Qed.

Lemma obeys_if {A} (b : bool) (m1 m2 : handler S E A) : obeys m1 -> obeys m2 -> obeys (if b then m1 else m2).
Proof. by destruct b. Qed.

End Obeys.

Arguments obeys {S E} R {A} m.

(** ** Handlers that do not fault *)

Section Total.
Context {S E : Type}.

Definition total {A} (m : handler S E A) : Prop := forall s, is_done (m s) = true.

Lemma total_bind {A B} (m : handler S E A) (k : A -> handler S E B) :
  total m -> (forall a, total (k a)) -> total (m ≫= k).
Proof.
  intros Hm Hk s. specialize (Hm s). unfold mbind, M_bind. destruct (m s) as [[[a s1] o1]|]; [|done].
  specialize (Hk a s1). by destruct (k a s1) as [[[]]|].
Qed.

Lemma total_ret {A} (a : A) : total (mret a).
Proof. done. Qed.

Lemma total_skip : total skip.
Proof. done. Qed.

Lemma total_gets {A} (f : S -> A) : total (gets f).
Proof. done. Qed.

Lemma total_modify (f : S -> S) : total (modify f).
Proof. done. Qed.

Lemma total_emit (e : E) : total (emit e).
Proof. done. Qed.

Lemma total_lift {A} (x : outcome A) : is_done x = true -> total (lift x).
Proof. by destruct x. Qed.

Lemma total_if {A} (b : bool) (m1 m2 : handler S E A) : total m1 -> total m2 -> total (if b then m1 else m2).
Proof. by destruct b. Qed.

(** The value, state and effects of a handler that does not fault. *)
Lemma total_done {A} (m : handler S E A) s : total m -> exists a s' o, m s = Done (a, s', o).
Proof. intros H. specialize (H s). destruct (m s) as [[[a s'] o]|]; [eauto|done]. Qed.

End Total.

#[export] Hint Resolve total_ret total_skip total_gets total_modify total_emit total_lift : p2p.

(** Walks through a handler whose parts do not fault. *)
Ltac walk_total := repeat first [ solve [auto with p2p] | apply total_if | apply total_bind; [|intros ?] ].
