(* ===== verification/Fair.v ===== *)
(** * Fair schedules

    Programs of several threads are functions from actions - a turn of one thread, or an
    event outside - to handlers; a schedule is a list of actions.  A round of a schedule
    gives every thread a turn, in any order and between any other actions.  [Fair] states
    why such a program comes to its end: there is always one thread whose turn lessens a
    measure that no action raises, and the turns of the others leave it due. *)

From S2P Require Import Prelude.
From S2P Require Import Handler.

(** ** Measures that are sums over the threads *)

Lemma sum_insert {A} (f : A -> nat) l i x y :
  l !! i = Some x -> (sum_list (map f (<[i := y]> l)) + f x = sum_list (map f l) + f y)%nat.
Proof.
  revert i. induction l as [|z l IH]; intros [|i]; [done|done|intros [= ->]; cbn; lia|].
  change (l !! i = Some x -> (f z + sum_list (map f (<[i := y]> l)) + f x = f z + sum_list (map f l) + f y)%nat).
  intros E. specialize (IH i E). lia.
Qed.

Lemma sum_alter {A} (f : A -> nat) (g : A -> A) l i :
  (forall x, l !! i = Some x -> f (g x) = f x) -> sum_list (map f (alter g i l)) = sum_list (map f l).
Proof.
  revert i. induction l as [|z l IH]; intros [|i] H; cbn; try done; [by rewrite H|]. by rewrite IH.
Qed.

Lemma sum_le {A} (f g : A -> nat) l : (forall x, f x <= g x)%nat -> (sum_list (map f l) <= sum_list (map g l))%nat.
Proof. intros H. induction l as [|x l IH]; cbn; [lia|]. specialize (H x). lia. Qed.

(** ** Programs that end *)

Section Fair.
Context {S E A R : Type} (step : A -> handler S E unit) (role : A -> option R) (roles : list R).
Context (I : S -> Prop) (ok : A -> Prop) (measure : S -> nat) (due : S -> option R).

Class Fair : Prop := {
  fair_step a s s' o : I s -> ok a -> step a s = Done (tt, s', o) ->
    I s' /\ (measure s' < measure s \/ measure s' = measure s /\ due s' = due s)%nat;
  fair_due a r s s' o : I s -> ok a -> due s = Some r -> role a = Some r ->
    step a s = Done (tt, s', o) -> (measure s' < measure s)%nat;
  fair_role s r : I s -> due s = Some r -> r ∈ roles;
  fair_over s : I s -> due s = None <-> measure s = 0%nat
}.

(** Every thread has a turn among the actions. *)
Definition covers (round : list A) : Prop := forall r, r ∈ roles -> exists a, a ∈ round /\ role a = Some r.

Context `{!Fair}.

Lemma fair_steps acts : forall s s' o,
  I s -> Forall ok acts -> mapM_ step acts s = Done (tt, s', o) -> I s' /\ (measure s' <= measure s)%nat.
Proof.
  induction acts as [|a acts IH]; intros s s' o Is O; [by intros [= <- _]|].
  apply Forall_cons in O as [Oa O]. cbn [mapM_]. intros ([] & s1 & o1 & o2 & E1 & E2 & _)%bind_done.
  destruct (fair_step a s s1 o1 Is Oa E1) as [I1 M]. destruct (IH _ _ _ I1 O E2) as [I2 M2]. split; [done|]. lia.
Qed.

Lemma fair_progress acts r : forall s s' o,
  I s -> Forall ok acts -> due s = Some r -> (exists a, a ∈ acts /\ role a = Some r) ->
  mapM_ step acts s = Done (tt, s', o) -> (measure s' < measure s)%nat.
Proof.
  induction acts as [|a acts IH]; intros s s' o Is O D (b & B & Rb).
  { by apply elem_of_nil in B. }
  apply Forall_cons in O as [Oa O]. cbn [mapM_]. intros ([] & s1 & o1 & o2 & E1 & E2 & _)%bind_done.
  destruct (fair_step a s s1 o1 Is Oa E1) as [I1 M]. destruct (fair_steps _ _ _ _ I1 O E2) as [_ M2].
  apply elem_of_cons in B as [->|B]; [pose proof (fair_due a r s s1 o1 Is Oa D Rb E1); lia|].
  destruct M as [M|[M D1]]; [lia|]. rewrite D in D1.
  pose proof (IH _ _ _ I1 O D1 (ex_intro _ b (conj B Rb)) E2). lia.
Qed.

Lemma fair_round round s s' o :
  I s -> Forall ok round -> covers round -> mapM_ step round s = Done (tt, s', o) ->
  I s' /\ (measure s' < measure s \/ measure s' = measure s /\ due s = None)%nat.
Proof.
  intros Is O C X. destruct (fair_steps _ _ _ _ Is O X) as [I' M]. split; [done|].
  destruct (due s) as [r|] eqn:D; [left|].
  - exact (fair_progress _ _ _ _ _ Is O D (C r (fair_role s r Is D)) X).
  - destruct (Nat.eq_dec (measure s') (measure s)); [by right|left; lia].
Qed.

(** As many rounds as the measure says, or more, bring the program to its end. *)
Lemma fair_ends rounds : forall s s' o,
  I s -> Forall (Forall ok) rounds -> Forall covers rounds -> (measure s <= length rounds)%nat ->
  mapM_ step (concat rounds) s = Done (tt, s', o) -> I s' /\ due s' = None.
Proof.
  intros s s' o Is O C L X.
  assert (I s' /\ (measure s' <= measure s - length rounds)%nat) as [I' M].
  { clear L. revert s o Is X. induction rounds as [|r rounds IH]; intros s o Is; cbn [concat].
    - intros [= <- _]. split; [done|]. cbn [length]. lia.
    - apply Forall_cons in O as [Or O], C as [Cr C]. rewrite mapM_app_eq.
      intros ([] & s1 & o1 & o2 & E1 & E2 & _)%bind_done. cbn [length].
      destruct (fair_round _ _ _ _ Is Or Cr E1) as [I1 M1]. destruct (IH O C _ _ I1 E2) as [I2 M2].
      split; [done|]. destruct M1 as [M1|[M1 D]]; [lia|]. pose proof (proj1 (fair_over s Is) D). lia. }
  split; [done|]. apply fair_over; [done|lia].
Qed.

End Fair.
