(* ===== verification/NatTypeCheck.v ===== *)
(** * NAT detection, server side

    Models [NatTypeCheck] of [server/natserver/src/NatTypeCheck.cpp]: the two
    sockets and the fast path that answers a detection request from both.  What
    [bind] and [getsockname] return are arguments. *)

From S2P Require Import Prelude.
From S2P Require Import Bytes.
From S2P Require Import Wire.
From S2P Require Import ProtoDef.
From S2P Require Import NetUtil.
From S2P Require Import Packet.

#[local] Open Scope Z_scope.

Module NatTypeCheck.

(** The ports, and whether each socket is open. *)
Record t := mk { main_open : bool; alt_open : bool; main_port_ : Z; alt_port_ : Z; running_ : bool }.

Definition initial : t := mk false false 0 0 false.

(** [make_udp_socket] succeeds when socket and bind do. *)
Definition make_udp_socket (socket_ok bind_ok : bool) : bool := socket_ok && bind_ok.

(** [ephemeral] is the port [getsockname] reports for the second socket. *)
Definition init (s : t) (main_port alt_port : Z) (main_ok alt_ok : bool) (ephemeral : option Z) : Z * t :=
  if negb main_ok then (-1, mk false (alt_open s) main_port alt_port (running_ s))
  else if negb alt_ok then (-1, mk true false main_port alt_port (running_ s))
  else
    let alt := if alt_port =? 0 then default 0 ephemeral else alt_port in
    (0, mk true true main_port alt true).

Definition request_stop (s : t) : t := mk (main_open s) (alt_open s) (main_port_ s) (alt_port_ s) false.

(** [self] is what [getsockname] reports for the socket. *)
Definition detect_rsp (self : option sockaddr_in) (to : sockaddr_in) (server_index main_port alt_port : Z)
    : NatDetectRsp :=
  mkNatDetectRsp server_index
    (match self with Some a => ip_field (s_addr a) | None => replicate 16 0 end)
    (match self with Some a => sin_port a | None => htons 0 end)
    (ip_field (s_addr to)) (sin_port to) (htons main_port) (htons alt_port).

Definition send_rsp (sk : sock) (self : option sockaddr_in) (to : sockaddr_in)
    (server_index main_port alt_port : Z) : datagram :=
  mkDg sk to (frame (msg_id MSG_NAT_DETECT_RSP)
    (cenc NatDetectRsp_codec (detect_rsp self to server_index main_port alt_port))).

(** [names] gives the local address of each socket. *)
Definition dual_reply (names : sock -> option sockaddr_in) (s : t) (from : sockaddr_in) : list datagram :=
  [send_rsp MainSock (names MainSock) from 0 (main_port_ s) (alt_port_ s);
   send_rsp AltSock (names AltSock) from 1 (main_port_ s) (alt_port_ s)].

Definition try_fast_handle (names : sock -> option sockaddr_in) (s : t) (data : bytes) (from : sockaddr_in)
    : bool * list datagram :=
  if (length data <? csize MsgHead_codec)%nat then (false, [])
  else
    let h := cdec MsgHead_codec data in
    if negb (ntohs (mh_magic h) =? NAT_MAGIC) || negb (mh_version h =? PROTO_VER) then (false, [])
    else if negb (mh_msg_id h =? msg_id MSG_NAT_DETECT_REQ) then (false, [])
    else (true, dual_reply names s from).

(** One turn of [run_alt_thread] with the datagram it received. *)
Definition alt_thread_step (names : sock -> option sockaddr_in) (s : t) (data : bytes) (from : sockaddr_in)
    : list datagram :=
  if (length data =? 0)%nat then [] else (try_fast_handle names s data from).2.

Lemma detect_rsp_ok self to i mp ap :
  addr_ok to -> (forall a, self = Some a -> addr_ok a) -> byte_ok i ->
  cok NatDetectRsp_codec (detect_rsp self to i mp ap).
Proof.
  intros [Ht1 Ht2] Hs Hi. unfold byte_ok, u16_ok in *. simpl.
  pose proof (htons_range mp) as R1. pose proof (htons_range ap) as R2. unfold u16_ok in *.
  split_all; try lia; try apply length_ip_field; try apply ip_field_ok; try done.
  - destruct self; [apply length_ip_field|done].
  - destruct self; [apply ip_field_ok|apply (bytes_ok_replicate 16)].
  - destruct self as [a|]; [|done]. destruct (Hs a eq_refl) as [_ Hp]. unfold u16_ok in Hp. lia.
  - destruct self as [a|]; [|done]. destruct (Hs a eq_refl) as [_ Hp]. unfold u16_ok in Hp. lia.
Qed.

(** A detection request is answered from both sockets, and a client that
    takes the answers apart learns its own mapped address, which socket
    answered, and the two server ports; anything else is left to the other
    threads without an answer. *)
Theorem detection_answers (names : sock -> option sockaddr_in) (s : t) (data : bytes) (from : sockaddr_in)
    (Hfrom : addr_ok from) (Hn : forall k a, names k = Some a -> addr_ok a)
    (Hm : u16_ok (main_port_ s)) (Ha : u16_ok (alt_port_ s)) :
  let '(hit, out) := try_fast_handle names s data from in
  (hit = false -> out = []) /\
  (forall p, parse_frame data = Some (msg_id MSG_NAT_DETECT_REQ, p) -> hit = true) /\
  (hit = true ->
     map dg_sock out = [MainSock; AltSock] /\
     Forall (fun d => dg_to d = from /\ exists rsp, parse_frame (dg_data d) =
               Some (msg_id MSG_NAT_DETECT_RSP, cenc NatDetectRsp_codec rsp) /\
             cdec NatDetectRsp_codec (cenc NatDetectRsp_codec rsp) = rsp /\
             inet_pton (nd_mapped_ip rsp) = Some (s_addr from) /\ nd_mapped_port rsp = sin_port from /\
             ntohs (nd_main_port rsp) = main_port_ s /\ ntohs (nd_alt_port rsp) = alt_port_ s /\
             nd_server_index rsp = match dg_sock d with MainSock => 0 | AltSock => 1 end) out).
Proof.
  assert (forall k i, byte_ok i ->
    exists rsp, parse_frame (dg_data (send_rsp k (names k) from i (main_port_ s) (alt_port_ s))) =
               Some (msg_id MSG_NAT_DETECT_RSP, cenc NatDetectRsp_codec rsp) /\
             cdec NatDetectRsp_codec (cenc NatDetectRsp_codec rsp) = rsp /\
             inet_pton (nd_mapped_ip rsp) = Some (s_addr from) /\ nd_mapped_port rsp = sin_port from /\
             ntohs (nd_main_port rsp) = main_port_ s /\ ntohs (nd_alt_port rsp) = alt_port_ s /\
             nd_server_index rsp = i) as R.
  { intros k i Hi. exists (detect_rsp (names k) from i (main_port_ s) (alt_port_ s)).
    assert (cok NatDetectRsp_codec (detect_rsp (names k) from i (main_port_ s) (alt_port_ s))) as Hok.
    { apply detect_rsp_ok; [done|by apply Hn|done]. }
    pose proof (codec_size _ Hok) as Hsz.
    split_all; try done.
    - unfold send_rsp. cbn [dg_data]. rewrite <- (app_nil_r (frame _ _)).
      apply parse_frame_frame; [simpl; lia|]. unfold len. rewrite Hsz. simpl. lia.
    - rewrite <- (app_nil_r (cenc _ _)). by apply codec_dec_enc.
    - cbn [nd_mapped_ip detect_rsp]. unfold inet_pton.
      rewrite c_str_ip_field. pose proof (inet_pton_ntop (s_addr from) (proj1 Hfrom)) as P.
      unfold inet_pton in P. rewrite c_str_id in P by apply inet_ntop_no_nul. done.
    - by apply htons_involutive.
    - by apply htons_involutive. }
  unfold try_fast_handle, parse_frame.
  destruct (length data <? csize MsgHead_codec)%nat; [by split_all|].
  destruct (ntohs _ =? NAT_MAGIC); [|by split_all]. destruct (_ =? PROTO_VER); [|by split_all].
  cbn [negb orb].
  destruct (Z.eqb_spec (mh_msg_id (cdec MsgHead_codec data)) (msg_id MSG_NAT_DETECT_REQ)) as [E|E]; cbn [negb].
  - split_all; [done|done|]. intros _. split; [done|].
    constructor; [split; [done|by apply R]|]. constructor; [split; [done|by apply R]|constructor].
  - split_all; [done| |done]. intros p. destruct (_ <? _); [done|]. by intros [= ? _].
Qed.

Definition sample_request : bytes := frame (msg_id MSG_NAT_DETECT_REQ) [].

Lemma detection_answers_witness :
  addr_ok (mkAddr 16777343 5) /\
  map dg_sock (try_fast_handle (fun _ => None) initial sample_request (mkAddr 16777343 5)).2 = [MainSock; AltSock].
Proof.
  assert (addr_ok (mkAddr 16777343 5)) as H by (split; unfold u32_ok, u16_ok; simpl; lia).
  split; [exact H|].
  pose proof (detection_answers (fun _ => None) initial sample_request (mkAddr 16777343 5) H
                ltac:(discriminate)) as T.
  assert (u16_ok 0) as Z0 by (unfold u16_ok; lia). specialize (T Z0 Z0).
  cbv zeta in T. destruct (try_fast_handle _ _ _ _) as [hit out] eqn:E. destruct T as (_ & T1 & T2).
  apply T2, (T1 []). reflexivity.
Defined.

End NatTypeCheck.
