(* ===== verification/Sockets.v ===== *)
(** * Sockets

    Models the calls by which the programs create, configure and close their sockets:
    class UdpSocket of client/sdk/transport/UdpSocket.h, [make_udp_socket] of
    NatTypeCheck.cpp, [make_recv_socket] and the clones of NatServer.cpp, and the sockets
    of [P2PProxy::run].  The state is the process's table of open descriptors; what the
    system calls return is given.  The other files see of this only whether a socket could
    be opened; [server_sockets_open] and [relay_sockets_open] show what that amounts to. *)

From S2P Require Import Prelude.
From S2P Require Import Bytes.
From S2P Require Import NetUtil.
From S2P Require Import NatTypeCheck.

#[local] Open Scope Z_scope.

Module Sockets.

(** ** The descriptor table *)

(** A datagram socket: its local name once it is bound, and its options. *)
Record socket := mkSocket { name : option sockaddr_in; reuse_addr : bool; reuse_port : bool; nonblock : bool }.

Abbreviation table := (gmap Z socket).

(** What the calls that open one socket return: the descriptor (negative for an error),
    whether it can be bound, and the port chosen for port 0. *)
Record sys := mkSys { k_socket : Z; k_bind : bool; k_port : Z }.

(** The local name after [bind]. *)
Definition bound_name (k : sys) (a : sockaddr_in) : sockaddr_in :=
  mkAddr (s_addr a) (if sin_port a =? 0 then htons (k_port k) else sin_port a).

(** [socket], the options, [bind]; a socket that cannot be bound is closed.  The steps the
    three callers share. *)
Definition open_bound (port_too : bool) (k : sys) (a : sockaddr_in) (t : table) : Z * table :=
  let fd := k_socket k in
  if fd <? 0 then (-1, t)
  else
    let t := <[fd := mkSocket None false false false]> t in
    let t := <[fd := mkSocket None true port_too false]> t in
    if k_bind k then (fd, <[fd := mkSocket (Some (bound_name k a)) true port_too false]> t)
    else (-1, delete fd t).

Definition any_addr (port : Z) : sockaddr_in := mkAddr 0 (htons port).

(** ** The server *)

Definition make_udp_socket (k : sys) (port : Z) : table -> Z * table := open_bound true k (any_addr port).

Definition make_recv_socket (k : sys) (port : Z) : table -> Z * table := open_bound true k (any_addr port).

(** [close] for every descriptor of a list. *)
Definition close_all (fds : list Z) (t : table) : table := foldl (fun t fd => delete fd t) t fds.

(** The loop over the clones: one attempt per element, up to the first that fails. *)
Fixpoint open_clones (ks : list sys) (port : Z) (fds : list Z) (t : table) : Z * list Z * table :=
  match ks with
  | [] => (0, fds, t)
  | k :: ks =>
      let '(fd, t) := make_recv_socket k port t in
      if fd <? 0 then (-1, fds, t) else open_clones ks port (fds ++ [fd]) t
  end.

(** The sockets [NatServer::init] opens: the two of the NAT detection, then the clones, one
    for each receive thread but the first. *)
Record opened := mkOpened { o_result : Z; o_main : Z; o_alt : Z; o_clones : list Z; o_table : table }.

Definition server_sockets (kmain kalt : sys) (ks : list sys) (nat_port alt_port : Z) (old : list Z) (t : table) : opened :=
  let '(main, t) := make_udp_socket kmain nat_port t in
  if main <? 0 then mkOpened (-1) main (-1) old t
  else
    let '(alt, t) := make_udp_socket kalt alt_port t in
    if alt <? 0 then mkOpened (-1) main alt old t
    else
      let '(r, fds, t) := open_clones ks nat_port [] (close_all old t) in
      mkOpened r main alt fds t.

(** ** The relay *)

(** The loop of [P2PProxy::run]: a socket that cannot be opened or bound is left out. *)
Fixpoint relay_sockets (ks : list sys) (port : Z) (fds : list Z) (t : table) : list Z * table :=
  match ks with
  | [] => (fds, t)
  | k :: ks =>
      let '(fd, t) := open_bound true k (any_addr port) t in
      relay_sockets ks port (if fd <? 0 then fds else fds ++ [fd]) t
  end.

(** ** The client: class UdpSocket *)

Module UdpSocket.

(** [fd_] of a socket that is not open. *)
Definition closed : Z := -1.

Definition close (fd : Z) (t : table) : Z * table := if 0 <=? fd then (-1, delete fd t) else (fd, t).

(** The address to bind to; text that is no address leaves the zeros of the [memset]. *)
Definition bind_addr (bind_port : Z) (bind_ip : option bytes) : sockaddr_in :=
  match bind_ip with
  | Some ip => mkAddr (default 0 (inet_pton ip)) (htons bind_port)
  | None => any_addr bind_port
  end.

(** Whether it succeeded, [fd_], and the table; [fd_] is overwritten, whatever it was. *)
Definition open (k : sys) (bind_port : Z) (bind_ip : option bytes) (fd : Z) (t : table) : bool * Z * table :=
  if k_socket k <? 0 then (false, k_socket k, t)
  else
    let '(fd, t) := open_bound false k (bind_addr bind_port bind_ip) t in
    if fd <? 0 then (false, closed, t)
    else (true, fd, alter (fun s => mkSocket (name s) (reuse_addr s) (reuse_port s) true) fd t).

(** The time-out given to [select], seconds and microseconds; none for a negative one. *)
Definition timeval_of (timeout_ms : Z) : option (Z * Z) :=
  if 0 <=? timeout_ms then Some (Z.quot timeout_ms 1000, Z.rem timeout_ms 1000 * 1000) else None.

(** [FD_SETSIZE]: an [fd_set] has one bit for each smaller descriptor. *)
Definition FD_SETSIZE : Z := 1024.

(** [select] gives its result and whether the descriptor is still in the set. *)
Definition wait_readable (select : option (Z * Z) -> Z * bool) (fd timeout_ms : Z) : outcome bool :=
  if (0 <=? fd) && (fd <? FD_SETSIZE) then
    let '(r, isset) := select (timeval_of timeout_ms) in Done ((0 <? r) && isset)
  else Fault OutOfBounds.

(** What [recvfrom] returns and writes, given the datagram that waits, if any. *)
Definition recv_from (waiting : option (bytes * sockaddr_in)) (cap : nat) : Z * bytes * option sockaddr_in :=
  match waiting with
  | Some (data, from) => (s32 (len (take cap data)), take cap data, Some from)
  | None => (-1, [], None)
  end.

(** [getsockname]. *)
Definition local_name (fd : Z) (t : table) : option sockaddr_in := t !! fd ≫= name.

Definition sockaddr_ip (a : sockaddr_in) : bytes := inet_ntop (s_addr a).

Definition sockaddr_port (a : sockaddr_in) : Z := ntohs (sin_port a).

Definition local_port (fd : Z) (t : table) : Z :=
  match local_name fd t with Some a => ntohs (sin_port a) | None => 0 end.

Definition local_ip (fd : Z) (t : table) : bytes :=
  match local_name fd t with Some a => sockaddr_ip a | None => bs "0.0.0.0" end.

End UdpSocket.

(** ** One socket *)

(** The socket can be opened and bound. *)
Definition ok (k : sys) : bool := (0 <=? k_socket k) && k_bind k.

(** The system gives a descriptor that is not in use. *)
Definition fresh (k : sys) (t : table) : Prop := 0 <= k_socket k -> t !! k_socket k = None.

(** Opening adds one bound socket, or leaves the table as it was: a socket that cannot be
    bound does not stay open. *)
Lemma open_bound_spec p k a t (HF : fresh k t) :
  open_bound p k a t =
    if ok k then (k_socket k, <[k_socket k := mkSocket (Some (bound_name k a)) true p false]> t) else (-1, t).
Proof.
  unfold open_bound, ok. destruct (Z.ltb_spec (k_socket k) 0) as [N|N].
  { by rewrite (proj2 (Z.leb_gt 0 (k_socket k)) N). }
  rewrite (proj2 (Z.leb_le 0 (k_socket k)) N). cbn [andb]. specialize (HF N).
  destruct (k_bind k); [by rewrite !insert_insert_eq|]. by rewrite insert_insert_eq, delete_insert_id.
Qed.

Lemma ok_fd k : ok k = true -> 0 <= k_socket k.
Proof. unfold ok. lia. Qed.

(** The two makers of the server agree with what [NatTypeCheck] assumes of them. *)
Lemma made k port t (HF : fresh k t) :
  (0 <=? (make_udp_socket k port t).1) = NatTypeCheck.make_udp_socket (0 <=? k_socket k) (k_bind k).
Proof.
  unfold make_udp_socket. rewrite open_bound_spec by done. unfold NatTypeCheck.make_udp_socket.
  change ((0 <=? k_socket k) && k_bind k) with (ok k). destruct (ok k) eqn:O; cbn [fst]; [apply ok_fd in O|]; lia.
Qed.

(** ** Many sockets *)

(** Every descriptor the system gives is unused when it is given; one that was closed may
    be given again. *)
Fixpoint all_fresh (ks : list sys) (port : Z) (t : table) : Prop :=
  match ks with
  | [] => True
  | k :: ks => fresh k t /\ all_fresh ks port (open_bound true k (any_addr port) t).2
  end.

(** A socket that shares the port with its siblings. *)
Definition shares (port : Z) (s : option socket) : Prop :=
  exists k, s = Some (mkSocket (Some (bound_name k (any_addr port))) true true false).

(** [t'] is [t] with the descriptors [new] besides, all bound to the port. *)
Record adds (port : Z) (new : list Z) (t t' : table) : Prop := {
  adds_distinct : NoDup new;
  adds_new fd : fd ∈ new -> 0 <= fd /\ t !! fd = None /\ shares port (t' !! fd);
  adds_old fd : fd ∉ new -> t' !! fd = t !! fd
}.

Lemma adds_nil port t : adds port [] t t.
Proof. split; [constructor|set_solver|done]. Qed.

Lemma adds_cons port k new t t' (HO : ok k = true) (HF : fresh k t)
    (HA : adds port new (open_bound true k (any_addr port) t).2 t') :
  adds port (k_socket k :: new) t t'.
Proof.
  rewrite open_bound_spec, HO in HA by done. cbn [snd] in HA. destruct HA as [D N O].
  pose proof (ok_fd k HO) as P. specialize (HF P).
  assert (k_socket k ∉ new) as Q.
  { intros Hin. destruct (N _ Hin) as (_ & E & _). by rewrite lookup_insert_eq in E. }
  split; [by constructor| |].
  - intros fd [->|Hin]%elem_of_cons.
    + split; [done|]. split; [done|]. rewrite O, lookup_insert_eq by done. by exists k.
    + destruct (N _ Hin) as (Hf & E & S). rewrite lookup_insert_ne in E by congruence. done.
  - intros fd [Hne Hout]%not_elem_of_cons. rewrite O, lookup_insert_ne by done. done.
Qed.

Lemma relay_sockets_app ks port fds t (HF : all_fresh ks port t) :
  exists new, (relay_sockets ks port fds t).1 = fds ++ new /\ length new = length (List.filter ok ks) /\
    adds port new t (relay_sockets ks port fds t).2.
Proof.
  revert fds t HF. induction ks as [|k ks IH]; intros fds t HF; cbn [relay_sockets].
  { exists []. rewrite app_nil_r. split; [done|]. split; [done|]. apply adds_nil. }
  destruct HF as [HF HR]. destruct (open_bound true k (any_addr port) t) as [fd t1] eqn:E.
  pose proof (open_bound_spec true k (any_addr port) t HF) as S. rewrite E in S. cbn [List.filter snd] in *.
  destruct (ok k) eqn:O; injection S as -> ->.
  - pose proof (ok_fd k O). destruct (Z.ltb_spec (k_socket k) 0); [lia|].
    destruct (IH (fds ++ [k_socket k]) _ HR) as (new & A & L & D). exists (k_socket k :: new).
    rewrite A, <- app_assoc. split; [done|]. split; [cbn; lia|]. apply adds_cons; [done..|]. by rewrite E.
  - cbn [Z.ltb Z.compare]. by apply IH.
Qed.

(** The relay ends up with one socket for each that could be opened and bound, all sharing
    its port, and with no other descriptor than before. *)
Theorem relay_sockets_open (ks : list sys) (port : Z) (t : table) (HF : all_fresh ks port t) :
  let '(fds, t') := relay_sockets ks port [] t in
  length fds = length (List.filter ok ks) /\ adds port fds t t'.
Proof.
  destruct (relay_sockets_app ks port [] t HF) as (new & A & L & D).
  destruct (relay_sockets ks port [] t) as [fds t']. cbn [fst snd app] in *. by subst fds.
Qed.

Lemma open_clones_app ks port fds t (HF : all_fresh ks port t) :
  exists new, (open_clones ks port fds t).1 = (if forallb ok ks then 0 else -1, fds ++ new) /\
    (forallb ok ks = true -> length new = length ks) /\ adds port new t (open_clones ks port fds t).2.
Proof.
  revert fds t HF. induction ks as [|k ks IH]; intros fds t HF; cbn [open_clones forallb].
  { exists []. rewrite app_nil_r. split; [done|]. split; [done|]. apply adds_nil. }
  destruct HF as [HF HR]. unfold make_recv_socket. destruct (open_bound true k (any_addr port) t) as [fd t1] eqn:E.
  pose proof (open_bound_spec true k (any_addr port) t HF) as S. rewrite E in S. cbn [snd] in *.
  destruct (ok k) eqn:O; injection S as -> ->.
  - pose proof (ok_fd k O). destruct (Z.ltb_spec (k_socket k) 0); [lia|]. cbn [andb].
    destruct (IH (fds ++ [k_socket k]) _ HR) as (new & A & L & D). exists (k_socket k :: new).
    rewrite A, <- app_assoc. split; [done|]. split; [intros F; cbn; by rewrite L|]. apply adds_cons; [done..|]. by rewrite E.
  - exists []. cbn [Z.ltb Z.compare andb fst snd]. rewrite app_nil_r. split; [done|]. split; [done|]. apply adds_nil.
Qed.

(** The server's start-up succeeds exactly when each of its sockets can be opened and bound,
    as [NatTypeCheck.init] and [ServerLoop.init] have it; then it has two sockets and its
    clones, which share the first port, under distinct descriptors, and nothing else changed. *)
Theorem server_sockets_open (kmain kalt : sys) (ks : list sys) (nat_port alt_port : Z) (t : table) (n : NatTypeCheck.t)
    (ephemeral : option Z) (HM : fresh kmain t) (HA : fresh kalt (make_udp_socket kmain nat_port t).2)
    (HK : all_fresh ks nat_port (make_udp_socket kalt alt_port (make_udp_socket kmain nat_port t).2).2) :
  let o := server_sockets kmain kalt ks nat_port alt_port [] t in
  o_result o = (if (fst (NatTypeCheck.init n nat_port alt_port (ok kmain) (ok kalt) ephemeral) =? 0) && forallb ok ks
                then 0 else -1) /\
  (o_result o = 0 ->
     length (o_clones o) = length ks /\ NoDup (o_main o :: o_alt o :: o_clones o) /\
     shares nat_port (o_table o !! o_main o) /\ shares alt_port (o_table o !! o_alt o) /\
     Forall (fun fd => shares nat_port (o_table o !! fd)) (o_clones o) /\
     forall fd, fd ∉ o_main o :: o_alt o :: o_clones o -> o_table o !! fd = t !! fd).
Proof.
  unfold server_sockets, make_udp_socket in *.
  pose proof (open_bound_spec true kmain (any_addr nat_port) t HM) as S. rewrite S in HA, HK |- *. clear S.
  destruct (ok kmain) eqn:OM; cbn [fst snd] in *; [|done]. pose proof (ok_fd _ OM) as PM. specialize (HM PM).
  destruct (Z.ltb_spec (k_socket kmain) 0); [lia|]. rewrite open_bound_spec in * by done.
  destruct (ok kalt) eqn:OA; cbn [fst snd] in *; [|done]. pose proof (ok_fd _ OA) as PA. specialize (HA PA).
  destruct (Z.ltb_spec (k_socket kalt) 0); [lia|]. cbn [close_all foldl].
  destruct (open_clones_app ks nat_port [] _ HK) as (new & A & L & [D N O]).
  destruct (open_clones ks nat_port [] _) as [[r fds] t']. cbn [fst snd app o_result o_main o_alt o_clones o_table] in *.
  injection A as -> ->. split; [by destruct (forallb ok ks)|]. destruct (forallb ok ks); [|done]. intros _. split; [by apply L|].
  assert (k_socket kmain <> k_socket kalt) as M1 by (intros E; rewrite <- E, lookup_insert_eq in HA; done).
  assert (k_socket kalt ∉ new) as M2 by (intros (_ & E & _)%N; by rewrite lookup_insert_eq in E).
  assert (k_socket kmain ∉ new) as M3.
  { intros (_ & E & _)%N. by rewrite lookup_insert_ne, lookup_insert_eq in E by done. }
  split.
  { apply NoDup_cons. split; [by apply not_elem_of_cons|]. by apply NoDup_cons. }
  rewrite !O by done.
  rewrite lookup_insert_ne, !lookup_insert_eq by done. split; [by eexists|]. split; [by eexists|].
  split; [apply Forall_forall; intros fd Hin; apply (N fd Hin)|].
  intros fd [Q1 [Q2 Q3]%not_elem_of_cons]%not_elem_of_cons. by rewrite O, !lookup_insert_ne by done.
Qed.

(** ** The client's socket *)

Import UdpSocket.

(** An open socket, as [open] leaves it. *)
Definition client_socket (k : sys) (port : Z) (ip : option bytes) : socket :=
  mkSocket (Some (bound_name k (bind_addr port ip))) true false true.

Lemma open_spec k port ip fd t (HF : fresh k t) :
  open k port ip fd t =
    if ok k then (true, k_socket k, <[k_socket k := client_socket k port ip]> t)
    else (false, if k_socket k <? 0 then k_socket k else closed, t).
Proof.
  unfold open. rewrite open_bound_spec by done. destruct (ok k) eqn:O.
  - pose proof (ok_fd k O). destruct (Z.ltb_spec (k_socket k) 0); [lia|].
    f_equal. apply map_eq. intros i. destruct (decide (i = k_socket k)) as [->|Hi].
    + by rewrite lookup_alter_eq, !lookup_insert_eq.
    + by rewrite lookup_alter_ne, !lookup_insert_ne by done.
  - by destruct (k_socket k <? 0).
Qed.

(** Opening a closed socket and closing it again leaves the process as it was; in between
    it is bound, does not block, and reports the port it was given.  A failed [open] leaves
    the socket closed and the process as it was. *)
Theorem open_close (k : sys) (port : Z) (ip : option bytes) (t : table) (HF : fresh k t) :
  let '(b, fd, t') := open k port ip closed t in
  b = ok k /\ (close fd t').2 = t /\
  if b then
    t' !! fd = Some (client_socket k port ip) /\
    local_port fd t' = ntohs (sin_port (bound_name k (bind_addr port ip)))
  else t' = t /\ fd < 0.
Proof.
  rewrite open_spec by done. destruct (ok k) eqn:O.
  - pose proof (ok_fd k O) as P. split; [done|]. unfold close, local_port, local_name.
    rewrite (proj2 (Z.leb_le 0 (k_socket k)) P), lookup_insert_eq. cbn [snd].
    split; [|done]. rewrite delete_insert_id; [done|by apply HF].
  - split; [done|]. unfold close, closed. destruct (Z.ltb_spec (k_socket k) 0) as [N|]; [|done].
    by rewrite (proj2 (Z.leb_gt 0 (k_socket k)) N).
Qed.

(** [open] on a socket that is open loses its descriptor: closing the socket closes the
    second one only. *)
Theorem reopen_leaks (k1 k2 : sys) (port : Z) (ip : option bytes) (t : table)
    (H1 : ok k1 = true) (H2 : ok k2 = true) (HF : fresh k1 t) (HN : fresh k2 (open k1 port ip closed t).2) :
  let '(_, fd1, t1) := open k1 port ip closed t in
  let '(_, fd2, t2) := open k2 port ip fd1 t1 in
  let '(fd, t3) := close fd2 t2 in
  fd = closed /\ t !! fd1 = None /\ is_Some (t3 !! fd1).
Proof.
  pose proof (ok_fd _ H1) as P1. pose proof (ok_fd _ H2) as P2. rewrite open_spec, H1 in * by done. cbn [snd] in HN.
  rewrite open_spec, H2 by done. unfold close. rewrite (proj2 (Z.leb_le 0 (k_socket k2)) P2).
  split; [done|]. split; [by apply HF|]. specialize (HN P2). rewrite delete_insert_id by done. rewrite lookup_insert_eq.
  by eexists.
Qed.

(** The time-out [select] is given is the one that was asked for, in the form it requires. *)
Lemma timeval_exact ms : 0 <= ms ->
  exists s us, timeval_of ms = Some (s, us) /\ 0 <= us < 1000000 /\ s * 1000000 + us = ms * 1000.
Proof.
  intros H. unfold timeval_of. destruct (Z.leb_spec 0 ms); [|lia]. eexists _, _. split; [done|].
  rewrite Z.quot_div_nonneg, Z.rem_mod_nonneg by lia. zdiv.
Qed.

End Sockets.
