(* ===== verification/ProxyWeight.v ===== *)
(** * Weights of the proxies

    The double-precision part of [NatServer::pick_proxy]: the weight of a healthy
    proxy and the weighted draw, on the primitive floats, which follow IEEE 754
    as the program's [double] does. *)

From Stdlib Require Import Uint63 PrimFloat.
From S2P Require Import Prelude.

#[local] Open Scope Z_scope.

Definition dbl (x : Z) : float := of_uint63 (Uint63.of_Z x).

(** The constants 0.05, 0.3 and 0.02. *)
Definition w_min : float := div (dbl 5) (dbl 100).
Definition w_down : float := div (dbl 3) (dbl 10).
Definition w_floor : float := div (dbl 2) (dbl 100).

Definition proxy_weight (used max_proxy down : Z) : float :=
  let util := if (max_proxy =? 0) then dbl 1 else div (dbl used) (dbl max_proxy) in
  let w := sub (dbl 1) util in
  let w := if PrimFloat.ltb w w_min then w_min else w in
  let w := mul w (sub (dbl 1) (mul w_down (dbl down))) in
  if PrimFloat.ltb w w_floor then w_floor else w.

(** [double total = 0; for (auto& c : cands) total += c.weight]. *)
Definition total_weight {A} (cands : list (A * float)) : float :=
  foldl (fun a c => add a c.2) (dbl 0) cands.

(** [(double)(x % 10000) / 10000.0 * total]. *)
Definition draw (x : Z) (total : float) : float := mul (div (dbl (x mod 10000)) (dbl 10000)) total.

Fixpoint pick_at {A} (r : float) (cands : list (A * float)) (back : A) : A :=
  match cands with
  | [] => back
  | (a, w) :: cands => if PrimFloat.ltb r w then a else pick_at (sub r w) cands back
  end.

Definition not_positive (x : float) : bool := PrimFloat.leb x (dbl 0).

(** The draw lands on one of the candidates. *)
Lemma pick_at_in {A} r (cands : list (A * float)) back :
  In back (map fst cands) -> In (pick_at r cands back) (map fst cands).
Proof.
  assert (forall l r, In (pick_at r l back) (map fst l) \/ pick_at r l back = back) as H.
  { induction l as [|[a w] l IH]; intros r'; simpl; [by right|].
    destruct (PrimFloat.ltb r' w); [left; by left|]. destruct (IH (sub r' w)); [left; by right|by right]. }
  intros Hb. by destruct (H cands r) as [?| ->].
Qed.
