(* ===== verification/NatServer.v ===== *)
(** * The rendezvous server: state and services

    Models [NatServer] of [server/natserver/src/NatServer.cpp] but for the packet
    switch (RecvProcess.v) and the threads (ServerLoop.v).  A handler is a
    function of the server state that may fault and lists its effects, the
    datagrams it sends and the files it writes, in order. *)

From Stdlib Require PrimFloat.
From S2P Require Import Prelude.
From S2P Require Import Bytes.
From S2P Require Import Wire.
From S2P Require Import ProtoDef.
From S2P Require Import NetUtil.
From S2P Require Import Hmac.
From S2P Require Import OrderedMap.
From S2P Require Import TextFile.
From S2P Require Import Packet.
From S2P Require Import Handler.
From S2P Require Import PeerManage.
From S2P Require Import AntiAbuse.
From S2P Require Import LicenseMgr.
From S2P Require Import CfgFile.
From S2P Require Import NatTypeCheck.
From S2P Require Import ProxyWeight.

#[local] Open Scope Z_scope.

Record IncomingPacket := mkPkt { pkt_data : bytes; pkt_from : sockaddr_in }.

Record ProxyHealth := mkHealth {
  ph_ip : bytes;
  ph_port : Z;
  ph_available : Z;
  ph_used : Z;
  ph_max_proxy : Z;
  ph_last_seen : Z;
  ph_down : Z
}.

Inductive effect :=
| Send (d : datagram)
| WriteFile (path content : bytes).

(** What a handler reads from outside: the clock (read once), whether a file can
    be opened for writing, the octets of the random device. *)
Record env := mkEnv {
  now : Z;
  writable : bytes -> bool;
  rnd_salt : bytes;
  rnd_iv : bytes
}.

Module NatServer.

Record t := mk {
  cfg_ : CfgData;
  cfg_mtime_ : Z;
  nat_port_ : Z;
  proxy_port_ : Z;
  wan_ip_ : bytes;
  peers_ : PeerManager.t;
  abuse_ : AntiAbuse.t;
  license_ : LicenseMgr.t;
  natcheck_ : NatTypeCheck.t;
  sync_enabled_ : bool;
  sync_addrs_ : list sockaddr_in;
  sync_seen_ : gmap bytes Z;
  mq_ : list IncomingPacket;
  proxy_health_ : list ProxyHealth;
  auth_nonces_ : gmap bytes (bytes * Z);
  total_pkts_ : Z;
  connect_ok_ : Z;
  connect_fail_ : Z;
  rand_seed : Z
}.

Definition set_cfg_ (x : CfgData) (s : t) : t :=
  mk x (cfg_mtime_ s) (nat_port_ s) (proxy_port_ s) (wan_ip_ s) (peers_ s) (abuse_ s)
    (license_ s) (natcheck_ s) (sync_enabled_ s) (sync_addrs_ s) (sync_seen_ s) (mq_ s)
    (proxy_health_ s) (auth_nonces_ s) (total_pkts_ s) (connect_ok_ s) (connect_fail_ s)
    (rand_seed s).

Definition set_cfg_mtime_ (x : Z) (s : t) : t :=
  mk (cfg_ s) x (nat_port_ s) (proxy_port_ s) (wan_ip_ s) (peers_ s) (abuse_ s) (license_ s)
    (natcheck_ s) (sync_enabled_ s) (sync_addrs_ s) (sync_seen_ s) (mq_ s) (proxy_health_ s)
    (auth_nonces_ s) (total_pkts_ s) (connect_ok_ s) (connect_fail_ s) (rand_seed s).

Definition set_nat_port_ (x : Z) (s : t) : t :=
  mk (cfg_ s) (cfg_mtime_ s) x (proxy_port_ s) (wan_ip_ s) (peers_ s) (abuse_ s) (license_ s)
    (natcheck_ s) (sync_enabled_ s) (sync_addrs_ s) (sync_seen_ s) (mq_ s) (proxy_health_ s)
    (auth_nonces_ s) (total_pkts_ s) (connect_ok_ s) (connect_fail_ s) (rand_seed s).

Definition set_proxy_port_ (x : Z) (s : t) : t :=
  mk (cfg_ s) (cfg_mtime_ s) (nat_port_ s) x (wan_ip_ s) (peers_ s) (abuse_ s) (license_ s)
    (natcheck_ s) (sync_enabled_ s) (sync_addrs_ s) (sync_seen_ s) (mq_ s) (proxy_health_ s)
    (auth_nonces_ s) (total_pkts_ s) (connect_ok_ s) (connect_fail_ s) (rand_seed s).

Definition set_wan_ip_ (x : bytes) (s : t) : t :=
  mk (cfg_ s) (cfg_mtime_ s) (nat_port_ s) (proxy_port_ s) x (peers_ s) (abuse_ s) (license_ s)
    (natcheck_ s) (sync_enabled_ s) (sync_addrs_ s) (sync_seen_ s) (mq_ s) (proxy_health_ s)
    (auth_nonces_ s) (total_pkts_ s) (connect_ok_ s) (connect_fail_ s) (rand_seed s).

Definition set_peers_ (x : PeerManager.t) (s : t) : t :=
  mk (cfg_ s) (cfg_mtime_ s) (nat_port_ s) (proxy_port_ s) (wan_ip_ s) x (abuse_ s) (license_ s)
    (natcheck_ s) (sync_enabled_ s) (sync_addrs_ s) (sync_seen_ s) (mq_ s) (proxy_health_ s)
    (auth_nonces_ s) (total_pkts_ s) (connect_ok_ s) (connect_fail_ s) (rand_seed s).

Definition set_abuse_ (x : AntiAbuse.t) (s : t) : t :=
  mk (cfg_ s) (cfg_mtime_ s) (nat_port_ s) (proxy_port_ s) (wan_ip_ s) (peers_ s) x (license_ s)
    (natcheck_ s) (sync_enabled_ s) (sync_addrs_ s) (sync_seen_ s) (mq_ s) (proxy_health_ s)
    (auth_nonces_ s) (total_pkts_ s) (connect_ok_ s) (connect_fail_ s) (rand_seed s).

Definition set_license_ (x : LicenseMgr.t) (s : t) : t :=
  mk (cfg_ s) (cfg_mtime_ s) (nat_port_ s) (proxy_port_ s) (wan_ip_ s) (peers_ s) (abuse_ s) x
    (natcheck_ s) (sync_enabled_ s) (sync_addrs_ s) (sync_seen_ s) (mq_ s) (proxy_health_ s)
    (auth_nonces_ s) (total_pkts_ s) (connect_ok_ s) (connect_fail_ s) (rand_seed s).

Definition set_natcheck_ (x : NatTypeCheck.t) (s : t) : t :=
  mk (cfg_ s) (cfg_mtime_ s) (nat_port_ s) (proxy_port_ s) (wan_ip_ s) (peers_ s) (abuse_ s)
    (license_ s) x (sync_enabled_ s) (sync_addrs_ s) (sync_seen_ s) (mq_ s) (proxy_health_ s)
    (auth_nonces_ s) (total_pkts_ s) (connect_ok_ s) (connect_fail_ s) (rand_seed s).

Definition set_sync_enabled_ (x : bool) (s : t) : t :=
  mk (cfg_ s) (cfg_mtime_ s) (nat_port_ s) (proxy_port_ s) (wan_ip_ s) (peers_ s) (abuse_ s)
    (license_ s) (natcheck_ s) x (sync_addrs_ s) (sync_seen_ s) (mq_ s) (proxy_health_ s)
    (auth_nonces_ s) (total_pkts_ s) (connect_ok_ s) (connect_fail_ s) (rand_seed s).

Definition set_sync_addrs_ (x : list sockaddr_in) (s : t) : t :=
  mk (cfg_ s) (cfg_mtime_ s) (nat_port_ s) (proxy_port_ s) (wan_ip_ s) (peers_ s) (abuse_ s)
    (license_ s) (natcheck_ s) (sync_enabled_ s) x (sync_seen_ s) (mq_ s) (proxy_health_ s)
    (auth_nonces_ s) (total_pkts_ s) (connect_ok_ s) (connect_fail_ s) (rand_seed s).

Definition set_sync_seen_ (x : gmap bytes Z) (s : t) : t :=
  mk (cfg_ s) (cfg_mtime_ s) (nat_port_ s) (proxy_port_ s) (wan_ip_ s) (peers_ s) (abuse_ s)
    (license_ s) (natcheck_ s) (sync_enabled_ s) (sync_addrs_ s) x (mq_ s) (proxy_health_ s)
    (auth_nonces_ s) (total_pkts_ s) (connect_ok_ s) (connect_fail_ s) (rand_seed s).

Definition set_mq_ (x : list IncomingPacket) (s : t) : t :=
  mk (cfg_ s) (cfg_mtime_ s) (nat_port_ s) (proxy_port_ s) (wan_ip_ s) (peers_ s) (abuse_ s)
    (license_ s) (natcheck_ s) (sync_enabled_ s) (sync_addrs_ s) (sync_seen_ s) x
    (proxy_health_ s) (auth_nonces_ s) (total_pkts_ s) (connect_ok_ s) (connect_fail_ s)
    (rand_seed s).

Definition set_proxy_health_ (x : list ProxyHealth) (s : t) : t :=
  mk (cfg_ s) (cfg_mtime_ s) (nat_port_ s) (proxy_port_ s) (wan_ip_ s) (peers_ s) (abuse_ s)
    (license_ s) (natcheck_ s) (sync_enabled_ s) (sync_addrs_ s) (sync_seen_ s) (mq_ s) x
    (auth_nonces_ s) (total_pkts_ s) (connect_ok_ s) (connect_fail_ s) (rand_seed s).

Definition set_auth_nonces_ (x : gmap bytes (bytes * Z)) (s : t) : t :=
  mk (cfg_ s) (cfg_mtime_ s) (nat_port_ s) (proxy_port_ s) (wan_ip_ s) (peers_ s) (abuse_ s)
    (license_ s) (natcheck_ s) (sync_enabled_ s) (sync_addrs_ s) (sync_seen_ s) (mq_ s)
    (proxy_health_ s) x (total_pkts_ s) (connect_ok_ s) (connect_fail_ s) (rand_seed s).

Definition set_total_pkts_ (x : Z) (s : t) : t :=
  mk (cfg_ s) (cfg_mtime_ s) (nat_port_ s) (proxy_port_ s) (wan_ip_ s) (peers_ s) (abuse_ s)
    (license_ s) (natcheck_ s) (sync_enabled_ s) (sync_addrs_ s) (sync_seen_ s) (mq_ s)
    (proxy_health_ s) (auth_nonces_ s) x (connect_ok_ s) (connect_fail_ s) (rand_seed s).

Definition set_connect_ok_ (x : Z) (s : t) : t :=
  mk (cfg_ s) (cfg_mtime_ s) (nat_port_ s) (proxy_port_ s) (wan_ip_ s) (peers_ s) (abuse_ s)
    (license_ s) (natcheck_ s) (sync_enabled_ s) (sync_addrs_ s) (sync_seen_ s) (mq_ s)
    (proxy_health_ s) (auth_nonces_ s) (total_pkts_ s) x (connect_fail_ s) (rand_seed s).

Definition set_connect_fail_ (x : Z) (s : t) : t :=
  mk (cfg_ s) (cfg_mtime_ s) (nat_port_ s) (proxy_port_ s) (wan_ip_ s) (peers_ s) (abuse_ s)
    (license_ s) (natcheck_ s) (sync_enabled_ s) (sync_addrs_ s) (sync_seen_ s) (mq_ s)
    (proxy_health_ s) (auth_nonces_ s) (total_pkts_ s) (connect_ok_ s) x (rand_seed s).

Definition set_rand_seed (x : Z) (s : t) : t :=
  mk (cfg_ s) (cfg_mtime_ s) (nat_port_ s) (proxy_port_ s) (wan_ip_ s) (peers_ s) (abuse_ s)
    (license_ s) (natcheck_ s) (sync_enabled_ s) (sync_addrs_ s) (sync_seen_ s) (mq_ s)
    (proxy_health_ s) (auth_nonces_ s) (total_pkts_ s) (connect_ok_ s) (connect_fail_ s) x.

(** A constructed server; [init] replaces the empty configuration. *)
Definition initial : t :=
  mk cfg_default 0 0 0 (bs "0.0.0.0") PeerManager.empty AntiAbuse.empty LicenseMgr.empty
    NatTypeCheck.initial false [] ∅ [] [] ∅ 0 0 0 1.

(** ** Handlers *)

Abbreviation M := (handler t effect).

(** Calls into the components that keep their own state. *)
Definition on_abuse {A} (f : AntiAbuse.t -> A * AntiAbuse.t) : M A := fun s =>
  let '(a, x) := f (abuse_ s) in Done (a, set_abuse_ x s, []).

Definition on_license {A} (f : LicenseMgr.t -> outcome (A * LicenseMgr.t)) : M A := fun s =>
  match f (license_ s) with
  | Fault e => Fault e
  | Done (a, x) => Done (a, set_license_ x s, [])
  end.

Definition on_peers (f : PeerManager.t -> PeerManager.t) : M unit :=
  modify (fun s => set_peers_ (f (peers_ s)) s).

Definition rand32 : M Z := fun s =>
  let '(r, seed) := rand_u32 (rand_seed s) in Done (r, set_rand_seed seed s, []).

Definition inc_connect_ok : M unit := modify (fun s => set_connect_ok_ (u64 (connect_ok_ s + 1)) s).
Definition inc_connect_fail : M unit := modify (fun s => set_connect_fail_ (u64 (connect_fail_ s + 1)) s).

(** ** Sending *)

(** Too long a payload is dropped without an error the callers look at. *)
Definition send_msg (to : sockaddr_in) (id : MsgId) (payload : bytes) : M unit :=
  if (MAX_PKT - 8 <? length payload)%nat then skip
  else emit (Send (mkDg MainSock to (frame (msg_id id) payload))).

(** [plen] octets of [obj], signed when a secret is set. *)
Definition sync_send_msg (to : sockaddr_in) (id : MsgId) (obj : bytes) (plen : nat) : M unit :=
  cfg ← gets cfg_;
  if (MAX_PKT - 32 <? plen)%nat then skip
  else
    payload ← lift (read_obj plen obj);
    if (length (sync_auth_secret cfg) =? 0)%nat then send_msg to id payload
    else send_msg to id (payload ++ hmac_sha256 (sync_auth_secret cfg) payload).

Definition broadcast_sync_msg (id : MsgId) (obj : bytes) (plen : nat) (except : option sockaddr_in)
    : M unit :=
  addrs ← gets sync_addrs_;
  mapM_ (fun to =>
    if match except with Some e => sockaddr_eq e to | None => false end then skip
    else sync_send_msg to id obj plen) addrs.

(** ** Authentication *)

Fixpoint rand_octets (n : nat) : M bytes :=
  match n with
  | O => mret []
  | S n => r ← rand32; rest ← rand_octets n; mret (Z.land r 255 :: rest)
  end.

Definition issue_auth_nonce (e : env) (uuid : bytes) : M bytes :=
  n ← rand_octets 16;
  modify (fun s => set_auth_nonces_ (<[uuid := (n, now e + 30)]> (auth_nonces_ s)) s);;
  mret n.

(** The message a client signs: the identifier in 33 octets, then the nonce. *)
Definition login_mac (secret uuid nonce : bytes) : bytes :=
  hmac_sha256 secret (pad_to 33 uuid ++ nonce).

Definition verify_auth_login (e : env) (uuid nonce mac : bytes) : M bool :=
  cfg ← gets cfg_;
  if negb (auth_enabled cfg) then mret true
  else
    nonces ← gets auth_nonces_;
    match nonces !! uuid with
    | None => mret false
    | Some (n, expire) =>
        modify (fun s => set_auth_nonces_ (delete uuid (auth_nonces_ s)) s);;
        if expire <? now e then mret false
        else if negb (bool_decide (n = nonce)) then mret false
        else
          if negb (bool_decide (login_mac (auth_secret cfg) uuid nonce = mac)) then mret false
          else
            on_peers (fun p => PeerManager.set_auth_expire p uuid (now e + 3600));;
            mret true
    end.

(** [cfg->enable_license && !license_.allowed(uuid)]. *)
Definition license_rejects (cfg : CfgData) (uuid : bytes) : M bool :=
  if enable_license cfg then
    ok ← on_license (fun l => LicenseMgr.allowed l uuid); mret (negb ok)
  else mret false.

(** ** Heartbeats *)

Definition send_heartbeat_rsp (to : sockaddr_in) (uuid33 : bytes) (rsp : ExtInfoRsp) (enc : bool)
    (enc_iv : bytes) : M unit :=
  cfg ← gets cfg_;
  let body := cenc ExtInfoRsp_codec rsp in
  if negb enc then send_msg to MSG_HEARTBEAT_RSP body
  else
    let body :=
      if (length (auth_secret cfg) =? 0)%nat then body
      else p2p_stream_xor (auth_secret cfg) (take 33 uuid33) (take 8 enc_iv) body in
    send_msg to MSG_HEARTBEAT_RSP_ENC (take 33 uuid33 ++ take 8 enc_iv ++ body).

(** ** Registry synchronisation: sending *)

Definition sync_enabled (s : t) : bool := sync_enabled_ s && negb (length (sync_addrs_ s) =? 0)%nat.

Definition sync_entry (p : Peer) (hop : Z) : SyncPeerEntry :=
  mkSyncPeerEntry (uuid_field (p_uuid p)) (ip_field (s_addr (p_pub_addr p))) (sin_port (p_pub_addr p))
    (ip_field (s_addr (p_lan_addr p))) (sin_port (p_lan_addr p)) (p_dev_type p) (p_nattype p)
    hop 0 (htonl (u32 (p_last_heartbeat p))) (htons (p_extlen p)).

Definition send_peer_entry (to : sockaddr_in) (p : Peer) (hop : Z) : M unit :=
  let head := cenc SyncPeerEntry_codec (sync_entry p hop) in
  let obj :=
    if (0 <? p_extlen p) && (p_extlen p <=? Z.of_nat MAX_EXTINFO)
    then head ++ take (Z.to_nat (p_extlen p)) (p_extinfo p) else head in
  sync_send_msg to MSG_SYNC_PEER_ENTRY obj (length obj).

Definition broadcast_peer_entry (e : env) (req : UuidReq) (extinfo : bytes) (pub : sockaddr_in) : M unit :=
  en ← gets sync_enabled;
  if negb en then skip
  else
    let p := mkPeer (c_str (ur_uuid req)) pub (mkAddr (s_addr pub) (ur_lan_port req)) (ur_dev_type req)
               (ur_nattype req) (now e) 0 0 (u16 (len extinfo)) extinfo in
    addrs ← gets sync_addrs_;
    mapM_ (fun to => send_peer_entry to p 1) addrs.

Definition handle_heartbeat (e : env) (req : UuidReq) (extinfo : bytes) (from : sockaddr_in) (enc : bool)
    (enc_iv : bytes) : M unit :=
  cfg ← gets cfg_;
  alt ← gets (fun s => NatTypeCheck.alt_port_ (natcheck_ s));
  peers ← gets peers_;
  let uuid := c_str (ur_uuid req) in
  let refused r := mkExtInfoRsp r (replicate 16 0) 0 (replicate 16 0) 0 (htons alt) in
  if auth_enabled cfg && negb (PeerManager.authed (now e) peers uuid) then
    send_heartbeat_rsp from (ur_uuid req) (refused 1) enc enc_iv
  else
    black ← on_abuse (AntiAbuse.is_uuid_blacklisted (now e) uuid);
    reject ← (if (black : bool) then mret true else license_rejects cfg uuid);
    if (reject : bool) then send_heartbeat_rsp from (ur_uuid req) (refused 2) enc enc_iv
    else
      let lan := mkAddr (s_addr from) (ur_lan_port req) in
      on_peers (fun p => (PeerManager.upsert (now e) p uuid from lan (ur_dev_type req)
                            (ur_nattype req) extinfo).2);;
      broadcast_peer_entry e req extinfo from;;
      send_heartbeat_rsp from (ur_uuid req)
        (mkExtInfoRsp 0 (ip_field (s_addr from)) (sin_port from) (ip_field (s_addr lan)) (sin_port lan)
           (htons alt)) enc enc_iv.

(** ** Registry synchronisation: receiving *)

(** The signature covers the first [body_len] octets and follows them. *)
Definition sync_verify (cfg : CfgData) (payload : bytes) (body_len : nat) : bool :=
  if (length (sync_auth_secret cfg) =? 0)%nat then true
  else if (length payload <? body_len + 32)%nat then false
  else bool_decide (hmac_sha256 (sync_auth_secret cfg) (take body_len payload) = slice body_len 32 payload).

Definition seen_key (uuid : bytes) (hb_time : Z) (from : sockaddr_in) : bytes :=
  uuid ++ 124 :: dec_u hb_time ++ 124 :: dec_u (ntohl (s_addr from)) ++ 58 :: dec_u (ntohs (sin_port from)).

Definition seen_sync_entry (e : env) (uuid : bytes) (hb_time : Z) (from : sockaddr_in) : M bool := fun s =>
  let key := seen_key uuid hb_time from in
  let seen := match sync_seen_ s !! key with Some at_ => now e - at_ <? 300 | None => false end in
  if seen then Done (true, s, [])
  else
    let m := <[key := now e]> (sync_seen_ s) in
    let m := if (16384 <? Z.of_nat (size m)) then filter (fun kv => ~ (300 <= now e - kv.2)) m else m in
    Done (false, set_sync_seen_ m s, []).

(** [&f] has [sizeof(f)] octets; the forwarded length adds the extension. *)
Definition handle_sync_entry (e : env) (ent : SyncPeerEntry) (extinfo : bytes) (from : sockaddr_in) : M unit :=
  en ← gets sync_enabled;
  if negb en then skip
  else
    let hop := sp_hop ent in
    let hb_time := ntohl (sp_hb_time ent) in
    let uuid := c_str (sp_uuid ent) in
    if (length uuid =? 0)%nat then skip
    else
      seen ← (if hop =? SYNC_HOP_SNAP then mret false else seen_sync_entry e uuid hb_time from);
      if (seen : bool) then skip
      else
        let obj := cenc SyncPeerEntry_codec ent in
        pub_ip ← lift (cstr_in 33 obj);
        lan_ip ← lift (cstr_in 51 obj);
        let pub_addr := default 0 (inet_pton pub_ip) in
        let pub := mkAddr pub_addr (sp_pub_port ent) in
        let lan := mkAddr (default pub_addr (inet_pton lan_ip)) (sp_lan_port ent) in
        on_peers (fun p => (PeerManager.upsert_synced p uuid pub lan (sp_dev_type ent) (sp_nattype ent)
                              extinfo hb_time).2);;
        if negb (hop =? SYNC_HOP_SNAP) && (hop <? SYNC_HOP_MAX) then
          let f := mkSyncPeerEntry (sp_uuid ent) (sp_pub_ip ent) (sp_pub_port ent) (sp_lan_ip ent)
                     (sp_lan_port ent) (sp_dev_type ent) (sp_nattype ent) (u8 (hop + 1)) (sp_reserved ent)
                     (sp_hb_time ent) (sp_extlen ent) in
          broadcast_sync_msg MSG_SYNC_PEER_ENTRY (cenc SyncPeerEntry_codec f)
            (csize SyncPeerEntry_codec + length extinfo) (Some from)
        else skip.

Definition handle_sync_del (uuid : bytes) (from : sockaddr_in) : M unit :=
  en ← gets sync_enabled;
  if negb en then skip
  else
    broadcast_sync_msg MSG_SYNC_PEER_DEL (cenc SyncPeerDel_codec (mkSyncPeerDel (uuid_field uuid)))
      (csize SyncPeerDel_codec) (Some from);;
    on_peers (fun p => (PeerManager.remove p uuid).2).

Definition send_sync_snapshot (to : sockaddr_in) : M unit :=
  snap ← gets (fun s => PeerManager.snapshot (peers_ s));
  mapM_ (fun p => send_peer_entry to p SYNC_HOP_SNAP) snap.

Definition handle_sync_snapshot_req (from : sockaddr_in) : M unit :=
  en ← gets sync_enabled;
  if negb en then skip else send_sync_snapshot from.

Definition request_sync_snapshot (e : env) : M unit :=
  en ← gets sync_enabled;
  if negb en then skip
  else broadcast_sync_msg MSG_SYNC_SNAPSHOT_REQ
         (cenc SyncSnapshotReq_codec (mkSyncSnapshotReq (htonl (u32 (now e)))))
         (csize SyncSnapshotReq_codec) None.

(** ** Proxies *)

Definition send_proxy_avail_query (proxy_ip : bytes) : M unit :=
  wan ← gets wan_ip_;
  port ← gets nat_port_;
  pport ← gets proxy_port_;
  let to := mkAddr (default 0 (inet_pton proxy_ip)) (htons pport) in
  send_msg to MSG_SP_ASK_EXTINFO_REQ
    (cenc ProxyAvailReq_codec (mkProxyAvailReq (strncpy_z 16 15 wan) (htons port))).

(** The first entry of the address is refreshed, or a new one appended. *)
Fixpoint refresh_health (h : ProxyHealth) (l : list ProxyHealth) : list ProxyHealth :=
  match l with
  | [] => [h]
  | p :: l => if bool_decide (ph_ip p = ph_ip h) && (ph_port p =? ph_port h) then h :: l
              else p :: refresh_health h l
  end.

Definition collect_proxy_avail (e : env) (from : sockaddr_in) (rsp : ProxyAvailRsp) : M unit :=
  modify (fun s =>
    let h := mkHealth (inet_ntop (s_addr from)) (proxy_port_ s) (par_available rsp)
               (ntohs (par_used rsp)) (ntohs (par_max_proxy rsp)) (now e) 0 in
    set_proxy_health_ (refresh_health h (proxy_health_ s)) s).

Definition stale (e : env) (p : ProxyHealth) : ProxyHealth :=
  if 10 <=? now e - ph_last_seen p then
    mkHealth (ph_ip p) (ph_port p) 0 (ph_used p) (ph_max_proxy p) (ph_last_seen p)
      (if ph_down p <? 255 then ph_down p + 1 else ph_down p)
  else p.

Definition mark_proxy_stale (e : env) : M unit :=
  modify (fun s => set_proxy_health_ (map (stale e) (proxy_health_ s)) s).

Definition healthy (e : env) (p : ProxyHealth) : bool :=
  (now e - ph_last_seen p <=? 30) && negb (ph_available p =? 0) && (ph_down p <? 2).

(** The empty string when the weights do not add up to a positive number. *)
Definition pick_weighted (cands : list (bytes * PrimFloat.float)) : M bytes :=
  let total := total_weight cands in
  if not_positive total then mret []
  else
    x ← rand32;
    mret (pick_at (draw x total) cands (from_option fst [] (last cands))).

Definition is_dup (out : list ProxyCandidate) (ip : bytes) : bool :=
  existsb (fun c => bool_decide (ip = c_str (pc_ip c))) out.

Definition candidate (port : Z) (ip : bytes) : ProxyCandidate :=
  mkProxyCandidate (strncpy_z 16 15 ip) (htons port).

Fixpoint pick_rounds (k : nat) (cands : list (bytes * PrimFloat.float)) (port : Z)
    (out : list ProxyCandidate) : M (list ProxyCandidate) :=
  match k with
  | O => mret out
  | S k =>
      if (length cands =? 0)%nat then mret out
      else
        ip ← pick_weighted cands;
        pick_rounds k cands port
          (if negb (length ip =? 0)%nat && negb (is_dup out ip) then out ++ [candidate port ip] else out)
  end.

Fixpoint pick_fallback (ips : list bytes) (port : Z) (out : list ProxyCandidate) : list ProxyCandidate :=
  match ips with
  | [] => out
  | ip :: ips =>
      if (3 <=? length out)%nat then out
      else if is_dup out ip then pick_fallback ips port out
      else pick_fallback ips port (out ++ [candidate port ip])
  end.

Definition pick_proxy (e : env) : M (list ProxyCandidate) :=
  health ← gets proxy_health_;
  port ← gets proxy_port_;
  cfg ← gets cfg_;
  let cands := map (fun p => (ph_ip p, proxy_weight (ph_used p) (ph_max_proxy p) (ph_down p))) (List.filter (healthy e) health) in
  out ← pick_rounds 3 cands port [];
  mret (pick_fallback (proxy_ips cfg) port out).

(** The three slots of a message, the unused ones zero. *)
Definition proxy_slots (out : list ProxyCandidate) : list ProxyCandidate :=
  take 3 (out ++ replicate 3 (mkProxyCandidate (replicate 16 0) 0)).

End NatServer.
