(* ===== verification/RecvProcess.v ===== *)
(** * The packet switch of the rendezvous server

    Models [NatServer::handle_packet] of
    [server/natserver/src/RecvProcess.cpp], one definition per message. *)

From S2P Require Import Prelude.
From S2P Require Import Bytes.
From S2P Require Import Wire.
From S2P Require Import ProtoDef.
From S2P Require Import NetUtil.
From S2P Require Import Hmac.
From S2P Require Import OrderedMap.
From S2P Require Import Packet.
From S2P Require Import Handler.
From S2P Require Import PeerManage.
From S2P Require Import AntiAbuse.
From S2P Require Import LicenseMgr.
From S2P Require Import CfgFile.
From S2P Require Import NatTypeCheck.
From S2P Require Import NatServer.

#[local] Open Scope Z_scope.

Module RecvProcess.
Import NatServer.

(** [uuid[MAX_UUID_LEN] = 0] on a 33-byte array. *)
Definition terminate (uuid33 : bytes) : bytes := take 32 uuid33 ++ [0].

(** [copy_uuid] into a 33-byte array. *)
Definition copy_uuid (src : bytes) : bytes := take 32 src ++ [0].

(** A structure copied from the payload when it is long enough, else zeroed. *)
Definition read_or_zero {A} (c : codec A) (p : bytes) : A :=
  if (length p <? csize c)%nat then zeroed c else cdec c p.

Definition terminate_req (r : UuidReq) : UuidReq :=
  mkUuidReq (terminate (ur_uuid r)) (ur_dev_type r) (ur_nattype r) (ur_lan_port r) (ur_session_pts r)
    (ur_extlen r).

(** [MSG_HEARTBEAT_REQ], [MSG_ADD_UID_REQ]. *)
Definition on_heartbeat (e : env) (from : sockaddr_in) (p : bytes) : M unit :=
  if (length p <? csize UuidReq_codec)%nat then skip
  else
    let req := terminate_req (cdec UuidReq_codec p) in
    let extlen := ntohs (ur_extlen req) in
    let extinfo :=
      if (0 <? extlen) && (extlen <=? Z.of_nat MAX_EXTINFO)
         && (Z.of_nat (csize UuidReq_codec) + extlen <=? len p)
      then slice (csize UuidReq_codec) (Z.to_nat extlen) p else [] in
    handle_heartbeat e req extinfo from false [].

(** [MSG_HEARTBEAT_REQ_ENC]: identifier, vector, encrypted request and extension. *)
Definition on_heartbeat_enc (e : env) (from : sockaddr_in) (p : bytes) : M unit :=
  if (length p <? 33 + 8 + csize UuidReq_codec)%nat then skip
  else
    cfg ← gets cfg_;
    let uuid := terminate (take 33 p) in
    let iv := slice 33 8 p in
    let cipher := drop 41 p in
    let body := if (length (auth_secret cfg) =? 0)%nat then cipher
                else p2p_stream_xor (auth_secret cfg) uuid iv cipher in
    let r := cdec UuidReq_codec body in
    let req := mkUuidReq (terminate uuid) (ur_dev_type r) (ur_nattype r) (ur_lan_port r)
                 (ur_session_pts r) (ur_extlen r) in
    let ext := drop (csize UuidReq_codec) body in
    let extinfo := if (length ext <=? MAX_EXTINFO)%nat then ext else [] in
    handle_heartbeat e req extinfo from true iv.

(** [MSG_SND_EXTINFO_REQ]: stores the extension of a peer and forwards. *)
Definition on_snd_extinfo (e : env) (p : bytes) (uuid : bytes) : M unit :=
  let extlen := u16 (len p - 33) in
  let extinfo := if extlen <=? Z.of_nat MAX_EXTINFO then slice 33 (Z.to_nat extlen) p else [] in
  peers ← gets peers_;
  match PeerManager.get peers uuid with
  | None => skip
  | Some self =>
      on_peers (fun t => (PeerManager.upsert (now e) t (p_uuid self) (p_pub_addr self) (p_lan_addr self)
                            (p_dev_type self) (p_nattype self) extinfo).2);;
      peers ← gets peers_;
      match PeerManager.get peers uuid with
      | None => skip
      | Some dst => send_msg (p_pub_addr dst) MSG_SND_EXTINFO_REQ p
      end
  end.

(** [MSG_SND_EXTINFO_REQ] ([snd]) and [MSG_ASK_EXTINFO_REQ]. *)
Definition on_extinfo (e : env) (snd : bool) (from : sockaddr_in) (p : bytes) : M unit :=
  alt ← gets (fun s => NatTypeCheck.alt_port_ (natcheck_ s));
  let rsp r lan_ip lan_port :=
    cenc ExtInfoRsp_codec (mkExtInfoRsp r (ip_field (s_addr from)) (sin_port from) lan_ip lan_port (htons alt)) in
  let none := replicate 16 0 in
  if (length p <? csize ExtInfoReq_codec)%nat then send_msg from MSG_ASK_EXTINFO_RSP (rsp 0 none 0)
  else
    let uuid := c_str (terminate (eq_uuid (cdec ExtInfoReq_codec p))) in
    if snd then on_snd_extinfo e p uuid
    else
      peers ← gets peers_;
      match PeerManager.get peers uuid with
      | Some pe =>
          let head := rsp 0 (ip_field (s_addr (p_lan_addr pe))) (sin_port (p_lan_addr pe)) in
          let fits := (length head + length (p_extinfo pe) <=? MAX_PKT)%nat in
          send_msg from MSG_ASK_EXTINFO_RSP (head ++ (if fits then p_extinfo pe else []))
      | None => send_msg from MSG_ASK_EXTINFO_RSP (rsp 2 none 0)
      end.

Definition failed_ack (result : Z) (dst_uuid : bytes) : ConnectAck :=
  mkConnectAck result (copy_uuid dst_uuid) (replicate 16 0) 0 (replicate 16 0) 0 0 0 (proxy_slots []).

Definition refuse_connect (from : sockaddr_in) (result : Z) (dst_uuid : bytes) : M unit :=
  send_msg from MSG_CONNECT_ACK (cenc ConnectAck_codec (failed_ack result dst_uuid));;
  inc_connect_fail.

(** What the initiator learns of its peer. *)
Definition connect_ack (dst_uuid : bytes) (dst : Peer) (proxies : list ProxyCandidate) : ConnectAck :=
  mkConnectAck CONNECT_OK (copy_uuid dst_uuid) (ip_field (s_addr (p_pub_addr dst)))
    (sin_port (p_pub_addr dst)) (ip_field (s_addr (p_lan_addr dst))) (sin_port (p_lan_addr dst))
    (p_nattype dst) (len proxies) (proxy_slots proxies).

(** What the peer learns of the initiator; unregistered, its source address
    stands for the private one. *)
Definition connect_invite (src_uuid : bytes) (from : sockaddr_in) (src : option Peer)
    (proxies : list ProxyCandidate) : ConnectInvite :=
  let lan := match src with Some s => p_lan_addr s | None => from end in
  mkConnectInvite (copy_uuid src_uuid) (ip_field (s_addr from)) (sin_port from)
    (ip_field (s_addr lan)) (sin_port lan)
    (match src with Some s => p_nattype s | None => nat_type NAT_UNKNOWN end)
    (len proxies) (proxy_slots proxies).

(** [MSG_CONNECT_REQ]. *)
Definition on_connect (e : env) (from : sockaddr_in) (p : bytes) : M unit :=
  if (length p <? csize ConnectReq_codec)%nat then skip
  else
    let req := cdec ConnectReq_codec p in
    let src33 := terminate (cr_src_uuid req) in
    let dst33 := terminate (cr_dst_uuid req) in
    cfg ← gets cfg_;
    peers ← gets peers_;
    if auth_enabled cfg && negb (PeerManager.authed (now e) peers (c_str src33)) then
      refuse_connect from 3 dst33
    else
      reject ← license_rejects cfg (c_str src33);
      if (reject : bool) then refuse_connect from CONNECT_NOT_FOUND dst33
      else
        match PeerManager.get peers (c_str dst33) with
        | None => refuse_connect from CONNECT_NOT_FOUND dst33
        | Some dst =>
            proxies ← pick_proxy e;
            send_msg from MSG_CONNECT_ACK (cenc ConnectAck_codec (connect_ack dst33 dst proxies));;
            proxies ← pick_proxy e;
            send_msg (p_pub_addr dst) MSG_CONNECT_INVITE
              (cenc ConnectInvite_codec
                 (connect_invite src33 from (PeerManager.get peers (c_str src33)) proxies));;
            inc_connect_ok
        end.

(** [MSG_ICE_SDP]: the terminator is written into the packet itself. *)
Definition on_ice_sdp (p : bytes) : M unit :=
  if (length p <? sizeof_IceSdpMsg - 1)%nat then skip
  else
    let p := take 32 p ++ [0] ++ drop 33 p in
    let slen := ntohs (le_dec (slice 34 2 p)) in
    if len p <? Z.of_nat (sizeof_IceSdpMsg - 1) + slen then skip
    else
      peers ← gets peers_;
      match PeerManager.get peers (c_str (take 33 p)) with
      | None => skip
      | Some dst => send_msg (p_pub_addr dst) MSG_ICE_SDP p
      end.

Definition dev_entry (p : Peer) : DevListEntry :=
  mkDevListEntry (uuid_field (p_uuid p)) (ip_field (s_addr (p_pub_addr p))) (sin_port (p_pub_addr p))
    (p_dev_type p).

(** [MSG_GET_DEV_LIST_REQ]. *)
Definition on_dev_list (from : sockaddr_in) (p : bytes) : M unit :=
  let req := read_or_zero DevListReq_codec p in
  let start := ntohs (dq_start_index req) in
  let want := ntohs (dq_want_num req) in
  let want := if (want =? 0) || (100 <? want) then 20 else want in
  snap ← gets (fun s => PeerManager.snapshot (peers_ s));
  let entries := slice (Z.to_nat start) (Z.to_nat want) snap in
  send_msg from MSG_GET_DEV_LIST_RSP
    (cenc DevListRsp_codec (mkDevListRsp (htons (u16 (len snap))) (htons (u16 (len entries))) (htons start)) ++
     concat (map (fun q => cenc DevListEntry_codec (dev_entry q)) entries)).

(** The buffer has [128 + 32 * MAX_IP_LEN] octets and every address is written as
    15 of them, 16 apart, after the 4-byte head. *)
Definition server_list_buf : nat := 128 + 32 * MAX_IP_LEN.

Definition server_list_fits (n : nat) : bool :=
  (n =? 0)%nat || (csize ServerListRsp_codec + 16 * (n - 1) + 15 <=? server_list_buf)%nat.

(** [MSG_GET_SERVER_LIST_REQ]. *)
Definition on_server_list (from : sockaddr_in) : M unit :=
  cfg ← gets cfg_;
  wan ← gets wan_ip_;
  let nats :=
    if negb (length wan =? 0)%nat && negb (bool_decide (wan = bs "0.0.0.0"))
       && negb (bool_decide (wan ∈ nat_ips cfg))
    then nat_ips cfg ++ [wan] else nat_ips cfg in
  let all := nats ++ proxy_ips cfg in
  if negb (server_list_fits (length all)) then lift (Fault OutOfBounds)
  else
    send_msg from MSG_GET_SERVER_LIST_RSP
      (cenc ServerListRsp_codec
         (mkServerListRsp (htons (u16 (len nats))) (htons (u16 (len (proxy_ips cfg))))) ++
       concat (map (strncpy_z 16 15) all)).

(** [MSG_DELETE_UID_REQ]; saving the white list writes its file. *)
Definition save_license (e : env) : M unit := fun s =>
  let path := LicenseMgr.path_ (license_ s) in
  match LicenseMgr.save (writable e path) (rnd_salt e) (rnd_iv e) (license_ s) with
  | Fault f => Fault f
  | Done (_, content, l) =>
      Done (tt, set_license_ l s, match content with Some c => [WriteFile path c] | None => [] end)
  end.

Definition on_delete_uid (e : env) (p : bytes) : M unit :=
  let uuid33 :=
    if (csize UuidReq_codec <=? length p)%nat then ur_uuid (cdec UuidReq_codec p)
    else if (33 <=? length p)%nat then take 33 p
    else replicate 33 0 in
  let uuid := c_str (terminate uuid33) in
  on_peers (fun t => (PeerManager.remove t uuid).2);;
  removed ← on_license (fun l => LicenseMgr.remove l uuid);
  if (removed : bool) then save_license e else skip.

(** [MSG_CHECK_UID_REQ]. *)
Definition on_check_uid (from : sockaddr_in) (p : bytes) : M unit :=
  let uuid := c_str (terminate (eq_uuid (read_or_zero ExtInfoReq_codec p))) in
  peers ← gets peers_;
  found ← (if PeerManager.exists_ peers uuid then mret true
           else on_license (fun l => LicenseMgr.exists_ l uuid));
  send_msg from MSG_CHECK_UID_RSP [if (found : bool) then 1 else 0].

(** [MSG_AUTH_CHALLENGE_REQ]. *)
Definition on_auth_challenge (e : env) (from : sockaddr_in) (p : bytes) : M unit :=
  let uuid := c_str (terminate (acq_uuid (read_or_zero AuthChallengeReq_codec p))) in
  let answer r nonce :=
    send_msg from MSG_AUTH_CHALLENGE_RSP
      (cenc AuthChallengeRsp_codec (mkAuthChallengeRsp r nonce (htons 30))) in
  cfg ← gets cfg_;
  black ← on_abuse (AntiAbuse.is_uuid_blacklisted (now e) uuid);
  if (black : bool) then answer 1 (replicate 16 0)
  else
    reject ← license_rejects cfg uuid;
    if (reject : bool) then answer 2 (replicate 16 0)
    else nonce ← issue_auth_nonce e uuid; answer 0 nonce.

(** [MSG_AUTH_LOGIN_REQ]. *)
Definition on_auth_login (e : env) (from : sockaddr_in) (p : bytes) : M unit :=
  if (length p <? csize AuthLoginReq_codec)%nat then skip
  else
    let req := cdec AuthLoginReq_codec p in
    let uuid := c_str (terminate (alq_uuid req)) in
    let answer r :=
      send_msg from MSG_AUTH_LOGIN_RSP (cenc AuthLoginRsp_codec (mkAuthLoginRsp r (htons 3600))) in
    cfg ← gets cfg_;
    black ← on_abuse (AntiAbuse.is_uuid_blacklisted (now e) uuid);
    if (black : bool) then answer AUTH_BLACKLIST
    else
      reject ← license_rejects cfg uuid;
      if (reject : bool) then answer AUTH_WHITELIST_REJ
      else
        ok ← verify_auth_login e uuid (alq_nonce req) (alq_mac req);
        answer (if (ok : bool) then AUTH_OK else AUTH_BAD_MAC).

(** [MSG_ADMIN_STATS_REQ]. *)
Definition stats_rsp (e : env) (s : t) : AdminStatsRsp :=
  let n (x : nat) := htonl (u32 (Z.of_nat x)) in
  mkAdminStatsRsp (htonl (u32 (total_pkts_ s))) (n (PeerManager.size_ (peers_ s)))
    (n (PeerManager.device_count (peers_ s))) (n (PeerManager.client_count (peers_ s)))
    (n (AntiAbuse.ip_blacklist_size (abuse_ s))) (n (PeerManager.authed_count (now e) (peers_ s)))
    (n (length (List.filter (fun p => negb (ph_available p =? 0)) (proxy_health_ s))))
    (htonl (u32 (connect_ok_ s))) (htonl (u32 (connect_fail_ s))).

Definition on_admin_stats (e : env) (from : sockaddr_in) : M unit :=
  rsp ← gets (stats_rsp e);
  send_msg from MSG_ADMIN_STATS_RSP (cenc AdminStatsRsp_codec rsp).

(** [MSG_ADMIN_BLACKLIST_REQ]: the operation on an authorised key gives the
    result code and, for the query, the entries. *)
Definition admin_entry (kv : bytes * Z) : AdminBlacklistEntry :=
  mkAdminBlacklistEntry (strncpy_z 64 63 kv.1) (htonl (u32 kv.2)).

Definition admin_entries (a : AntiAbuse.t) : list AdminBlacklistEntry :=
  take 28 (map admin_entry (ordered (AntiAbuse.ip_blacklist_snapshot a) ++
                            ordered (AntiAbuse.uuid_blacklist_snapshot a))).

Definition key_valid (key : bytes) : bool :=
  negb (length key =? 0)%nat && (length key <=? MAX_UUID_LEN)%nat.

Definition admin_op (e : env) (op : Z) (key : bytes) (a : AntiAbuse.t)
    : Z * list AdminBlacklistEntry * AntiAbuse.t :=
  if op =? 1 then
    match inet_pton key with
    | None => (4, [], a)
    | Some ip => (0, [], AntiAbuse.blacklist_ip (now e) ip a)
    end
  else if op =? 2 then
    match inet_pton key with
    | None => (4, [], a)
    | Some ip =>
        let '(listed, a) := AntiAbuse.is_ip_blacklisted_ip (now e) ip a in
        if negb listed then (3, [], a) else (0, [], AntiAbuse.unblacklist_ip ip a)
    end
  else if op =? 3 then
    if negb (key_valid key) then (4, [], a) else (0, [], AntiAbuse.blacklist_uuid (now e) key a)
  else if op =? 4 then
    if negb (key_valid key) then (4, [], a)
    else
      let '(listed, a) := AntiAbuse.is_uuid_blacklisted (now e) key a in
      if negb listed then (3, [], a) else (0, [], AntiAbuse.unblacklist_uuid key a)
  else if op =? 5 then (0, admin_entries a, a)
  else (2, [], a).

Definition admin_rsp (result : Z) (ips uuids : nat) (entries : list AdminBlacklistEntry)
    : AdminBlacklistRsp :=
  mkAdminBlacklistRsp result (htonl (u32 (Z.of_nat ips))) (htonl (u32 (Z.of_nat uuids))) (len entries)
    (take 28 (entries ++ replicate 28 (mkAdminBlacklistEntry (replicate 64 0) 0))).

(** The string starts at the key and must end inside the request. *)
Definition on_admin_blacklist (e : env) (from : sockaddr_in) (p : bytes) : M unit :=
  if (length p <? csize AdminBlacklistReq_codec)%nat then skip
  else
    let req := cdec AdminBlacklistReq_codec p in
    let answer r := send_msg from MSG_ADMIN_BLACKLIST_RSP (cenc AdminBlacklistRsp_codec r) in
    let denied := mkAdminBlacklistRsp 1 0 0 0 (replicate 28 (mkAdminBlacklistEntry (replicate 64 0) 0)) in
    cfg ← gets cfg_;
    if (length (admin_secret cfg) =? 0)%nat then answer denied
    else if negb (bool_decide (hmac_sha256 (admin_secret cfg) (abq_op req :: abq_key req) = abq_mac req))
    then answer denied
    else
      _ ← lift (cstr_in 1 (cenc AdminBlacklistReq_codec req));
      let key := c_strn 64 (abq_key req) in
      out ← on_abuse (fun a => let '(r, es, a) := admin_op e (abq_op req) key a in ((r, es), a));
      a ← gets abuse_;
      answer (admin_rsp out.1 (AntiAbuse.ip_blacklist_size a) (AntiAbuse.uuid_blacklist_size a) out.2).

(** [MSG_SYNC_PEER_ENTRY]. *)
Definition on_sync_entry (e : env) (from : sockaddr_in) (p : bytes) : M unit :=
  if (length p <? csize SyncPeerEntry_codec)%nat then skip
  else
    let r := cdec SyncPeerEntry_codec p in
    let ent := mkSyncPeerEntry (terminate (sp_uuid r)) (sp_pub_ip r) (sp_pub_port r) (sp_lan_ip r)
                 (sp_lan_port r) (sp_dev_type r) (sp_nattype r) (sp_hop r) (sp_reserved r)
                 (sp_hb_time r) (sp_extlen r) in
    let extlen := ntohs (sp_extlen ent) in
    if Z.of_nat MAX_EXTINFO <? extlen then skip
    else
      let body := (csize SyncPeerEntry_codec + Z.to_nat extlen)%nat in
      if (length p <? body)%nat then skip
      else
        cfg ← gets cfg_;
        if negb (sync_verify cfg p body) then skip
        else handle_sync_entry e ent (slice (csize SyncPeerEntry_codec) (Z.to_nat extlen) p) from.

(** [MSG_SYNC_PEER_DEL]. *)
Definition on_sync_del (from : sockaddr_in) (p : bytes) : M unit :=
  if (length p <? csize SyncPeerDel_codec)%nat then skip
  else
    cfg ← gets cfg_;
    if negb (sync_verify cfg p (csize SyncPeerDel_codec)) then skip
    else handle_sync_del (c_str (terminate (sd_uuid (cdec SyncPeerDel_codec p)))) from.

(** [MSG_SYNC_SNAPSHOT_REQ]: the clock difference wraps to 32 bits. *)
Definition on_sync_snapshot (e : env) (from : sockaddr_in) (p : bytes) : M unit :=
  if (length p <? csize SyncSnapshotReq_codec)%nat then skip
  else
    cfg ← gets cfg_;
    if negb (sync_verify cfg p (csize SyncSnapshotReq_codec)) then skip
    else
      let skew := s32 (u32 (now e) - ntohl (ss_ts (cdec SyncSnapshotReq_codec p))) in
      if (skew <? -300) || (300 <? skew) then skip else handle_sync_snapshot_req from.

(** [MSG_SP_ASK_EXTINFO_RSP]. *)
Definition on_proxy_avail (e : env) (from : sockaddr_in) (p : bytes) : M unit :=
  if (length p <? csize ProxyAvailRsp_codec)%nat then skip
  else collect_proxy_avail e from (cdec ProxyAvailRsp_codec p).

(** ** The switch *)

Definition dispatch (e : env) (from : sockaddr_in) (m : MsgId) (p : bytes) : M unit :=
  match m with
  | MSG_HEARTBEAT_REQ | MSG_ADD_UID_REQ => on_heartbeat e from p
  | MSG_HEARTBEAT_REQ_ENC => on_heartbeat_enc e from p
  | MSG_SND_EXTINFO_REQ => on_extinfo e true from p
  | MSG_ASK_EXTINFO_REQ => on_extinfo e false from p
  | MSG_CONNECT_REQ => on_connect e from p
  | MSG_ICE_SDP => on_ice_sdp p
  | MSG_GET_DEV_LIST_REQ => on_dev_list from p
  | MSG_GET_SERVER_LIST_REQ => on_server_list from
  | MSG_DELETE_UID_REQ => on_delete_uid e p
  | MSG_CHECK_UID_REQ => on_check_uid from p
  | MSG_AUTH_CHALLENGE_REQ => on_auth_challenge e from p
  | MSG_AUTH_LOGIN_REQ => on_auth_login e from p
  | MSG_ADMIN_STATS_REQ => on_admin_stats e from
  | MSG_ADMIN_BLACKLIST_REQ => on_admin_blacklist e from p
  | MSG_SYNC_PEER_ENTRY => on_sync_entry e from p
  | MSG_SYNC_PEER_DEL => on_sync_del from p
  | MSG_SYNC_SNAPSHOT_REQ => on_sync_snapshot e from p
  | MSG_SP_ASK_EXTINFO_RSP => on_proxy_avail e from p
  | _ => skip
  end.

Definition handle_packet (e : env) (data : bytes) (from : sockaddr_in) : M unit :=
  match parse_frame data with
  | None => skip
  | Some (id, p) =>
      match msg_of id with
      | None => skip
      | Some m => dispatch e from m p
      end
  end.

End RecvProcess.
