(* ===== verification/ServerSafety.v ===== *)
(** * No packet breaks the server

    A handler is [safe] when, from a state that satisfies the invariant, it
    finishes without a fault, in a state that satisfies it, and every datagram it
    sends fits the packet buffer.  All handlers are, but for three requests
    ([hazard]) that make the code read or write past an object. *)

From S2P Require Import Prelude.
From S2P Require Import Bytes.
From S2P Require Import Wire.
From S2P Require Import ProtoDef.
From S2P Require Import NetUtil.
From S2P Require Import Packet.
From S2P Require Import Handler.
From S2P Require Import PeerManage.
From S2P Require Import AntiAbuse.
From S2P Require Import LicenseMgr.
From S2P Require Import CfgFile.
From S2P Require Import NatTypeCheck.
From S2P Require Import NatServer.
From S2P Require Import RecvProcess.

#[local] Open Scope Z_scope.

Module ServerSafety.
Import NatServer RecvProcess.

(** ** The predicate *)

(** The peer table is well formed and no thread holds the license lock. *)
Definition server_inv (s : t) : Prop :=
  PeerManager.wf (peers_ s) /\ LicenseMgr.mu_ (license_ s) = false.

Definition effect_ok (e : effect) : Prop :=
  match e with
  | Send d => (8 <= length (dg_data d) <= MAX_PKT)%nat /\ dg_sock d = MainSock
  | WriteFile _ _ => True
  end.

Definition safe {A} (m : M A) : Prop :=
  forall s, server_inv s ->
    exists a s' o, m s = Done (a, s', o) /\ server_inv s' /\ Forall effect_ok o.

Lemma safe_ret {A} (a : A) : safe (mret a).
Proof. intros s H. exists a, s, []. by split_all; [|..|constructor]. Qed.

Lemma safe_bind {A B} (m : M A) (k : A -> M B) :
  safe m -> (forall a, safe (k a)) -> safe (m ≫= k).
Proof.
  intros Hm Hk s H. destruct (Hm s H) as (a & s1 & o1 & E1 & H1 & O1).
  destruct (Hk a s1 H1) as (b & s2 & o2 & E2 & H2 & O2).
  exists b, s2, (o1 ++ o2). unfold mbind, M_bind. rewrite E1, E2.
  split_all; try done; [by destruct H2..|by apply Forall_app_2].
Qed.

Lemma safe_gets {A} (f : t -> A) : safe (gets f).
Proof. intros s H. exists (f s), s, []. by split_all; [|..|constructor]. Qed.

(** A state read may assume the invariant. *)
Lemma safe_gets_bind {A B} (f : t -> A) (k : A -> M B) :
  (forall s, server_inv s -> safe (k (f s))) -> safe (gets f ≫= k).
Proof.
  intros Hk s H. destruct (Hk s H s H) as (b & s2 & o2 & E2 & H2 & O2).
  exists b, s2, o2. unfold mbind, M_bind, gets. by rewrite E2.
Qed.

Lemma safe_modify f : (forall s, server_inv s -> server_inv (f s)) -> safe (modify f).
Proof. intros Hf s H. exists tt, (f s), []. split_all; [done|by apply Hf..|constructor]. Qed.

Lemma safe_skip : safe skip.
Proof. apply safe_ret. Qed.

Lemma safe_if {A} (b : bool) (m m' : M A) : safe m -> safe m' -> safe (if b then m else m').
Proof. by destruct b. Qed.

Lemma safe_mapM {A} (f : A -> M unit) l : (forall a, a ∈ l -> safe (f a)) -> safe (mapM_ f l).
Proof.
  induction l as [|a l IH]; intros Hf; [apply safe_skip|]. simpl.
  apply safe_bind; [apply Hf; set_solver|]. intros _. apply IH. intros b Hb. apply Hf. set_solver.
Qed.

Lemma safe_rand32 : safe rand32.
Proof.
  intros s H. unfold rand32. destruct (rand_u32 _) as [r seed].
  exists r, (set_rand_seed seed s), []. by split_all; [|..|constructor].
Qed.

Lemma safe_on_abuse {A} (f : AntiAbuse.t -> A * AntiAbuse.t) : safe (on_abuse f).
Proof.
  intros s H. unfold on_abuse. destruct (f (abuse_ s)) as [a x].
  exists a, (set_abuse_ x s), []. by split_all; [|..|constructor].
Qed.

Lemma safe_on_peers f :
  (forall p, PeerManager.wf p -> PeerManager.wf (f p)) -> safe (on_peers f).
Proof. intros Hf. apply safe_modify. intros s [Hp Hl]. split; [by apply Hf|done]. Qed.

Lemma safe_on_license {A} (f : LicenseMgr.t -> outcome (A * LicenseMgr.t)) :
  (forall l, LicenseMgr.mu_ l = false -> exists a l', f l = Done (a, l') /\ LicenseMgr.mu_ l' = false) ->
  safe (on_license f).
Proof.
  intros Hf s [Hp Hl]. unfold on_license. destruct (Hf _ Hl) as (a & l' & -> & Hl').
  exists a, (set_license_ l' s), []. by split_all; [|..|constructor].
Qed.

Lemma safe_lift_done {A} (a : A) : safe (lift (Done a)).
Proof. intros s H. exists a, s, []. by split_all; [|..|constructor]. Qed.

Lemma safe_send_msg to id payload : safe (send_msg to id payload).
Proof.
  unfold send_msg. destruct (Nat.ltb_spec (MAX_PKT - 8) (length payload)); [apply safe_skip|].
  intros s H0. eexists tt, s, _. split; [done|]. split; [done|].
  constructor; [|constructor]. cbn [effect_ok dg_data dg_sock]. rewrite frame_length.
  split; [|done]. change MAX_PKT with 2048%nat in *. lia.
Qed.

Lemma allowed_frees uuid l :
  LicenseMgr.mu_ l = false ->
  exists a l', LicenseMgr.allowed l uuid = Done (a, l') /\ LicenseMgr.mu_ l' = false.
Proof. intros H. rewrite LicenseMgr.allowed_done by done. by eexists _, _. Qed.

Lemma exists_frees uuid l :
  LicenseMgr.mu_ l = false ->
  exists a l', LicenseMgr.exists_ l uuid = Done (a, l') /\ LicenseMgr.mu_ l' = false.
Proof. intros H. rewrite LicenseMgr.exists_done by done. by eexists _, _. Qed.

Lemma remove_frees uuid l :
  LicenseMgr.mu_ l = false ->
  exists a l', LicenseMgr.remove l uuid = Done (a, l') /\ LicenseMgr.mu_ l' = false.
Proof. intros H. rewrite LicenseMgr.remove_done by done. by eexists _, _. Qed.

Lemma license_rejects_safe cfg uuid : safe (license_rejects cfg uuid).
Proof.
  unfold license_rejects. apply safe_if; [|apply safe_ret].
  apply safe_bind; [|intros; apply safe_ret]. apply safe_on_license. by apply allowed_frees.
Qed.

Lemma peer_remove_wf uuid p : PeerManager.wf p -> PeerManager.wf (PeerManager.remove p uuid).2.
Proof. intros H. by apply map_Forall_delete. Qed.

Create HintDb safe.
#[export] Hint Resolve safe_ret safe_skip safe_gets safe_rand32 safe_on_abuse safe_send_msg
  license_rejects_safe allowed_frees exists_frees remove_frees peer_remove_wf
  PeerManager.upsert_wf PeerManager.upsert_synced_wf PeerManager.set_auth_expire_wf : safe.

(** Walks through a handler: binds, branches, calls. *)
Ltac walk :=
  repeat first
    [ progress (intros; cbv zeta)
    | solve [eauto with safe]
    | match goal with
      | |- safe (on_peers _) => apply safe_on_peers
      | |- safe (on_license _) => apply safe_on_license
      | |- safe (modify _) => apply safe_modify
      | |- safe (mbind _ _) => apply safe_bind
      | |- safe (if _ then _ else _) => apply safe_if
      | |- safe (mapM_ _ _) => apply safe_mapM
      | |- safe (let '(_, _) := ?x in _) => destruct x
      | |- safe (match ?x with _ => _ end) => destruct x
      end ].

(** ** The services *)

Lemma sync_send_msg_safe to id obj plen :
  (plen <= length obj)%nat -> safe (sync_send_msg to id obj plen).
Proof.
  intros H. unfold sync_send_msg. apply safe_bind; [apply safe_gets|]. intros cfg.
  apply safe_if; [apply safe_skip|]. unfold read_obj.
  destruct (Nat.ltb_spec (length obj) plen); [lia|].
  apply safe_bind; [apply safe_lift_done|]. intros p. by walk.
Qed.

Lemma broadcast_safe id obj plen except :
  (plen <= length obj)%nat -> safe (broadcast_sync_msg id obj plen except).
Proof.
  intros H. unfold broadcast_sync_msg. walk. by apply sync_send_msg_safe.
Qed.

Lemma send_peer_entry_safe to p hop : safe (send_peer_entry to p hop).
Proof. unfold send_peer_entry. by apply sync_send_msg_safe. Qed.

#[local] Hint Resolve send_peer_entry_safe : safe.

Lemma rand_octets_safe n : safe (rand_octets n).
Proof. induction n as [|n IH]; simpl; walk. Qed.

Lemma issue_auth_nonce_safe e uuid : safe (issue_auth_nonce e uuid).
Proof.
  unfold issue_auth_nonce. apply safe_bind; [apply rand_octets_safe|]. intros n.
  apply safe_bind; [by apply safe_modify|]. intros _. apply safe_ret.
Qed.

Lemma verify_auth_login_safe e uuid nonce mac : safe (verify_auth_login e uuid nonce mac).
Proof.
  unfold verify_auth_login. apply safe_bind; [apply safe_gets|]. intros cfg.
  apply safe_if; [apply safe_ret|]. apply safe_bind; [apply safe_gets|]. intros nonces.
  destruct (nonces !! uuid) as [[n ex]|]; [|apply safe_ret].
  apply safe_bind; [by apply safe_modify|]. intros _. walk.
Qed.

Lemma send_heartbeat_rsp_safe to uuid rsp enc iv : safe (send_heartbeat_rsp to uuid rsp enc iv).
Proof. unfold send_heartbeat_rsp. walk. Qed.

#[local] Hint Resolve send_heartbeat_rsp_safe issue_auth_nonce_safe verify_auth_login_safe : safe.

Lemma broadcast_peer_entry_safe e req ext pub : safe (broadcast_peer_entry e req ext pub).
Proof. unfold broadcast_peer_entry. walk. Qed.

#[local] Hint Resolve broadcast_peer_entry_safe : safe.

Lemma handle_heartbeat_safe e req ext from enc iv : safe (handle_heartbeat e req ext from enc iv).
Proof. unfold handle_heartbeat. walk. Qed.

#[local] Hint Resolve handle_heartbeat_safe : safe.

Lemma inc_ok_safe : safe inc_connect_ok.
Proof. by apply safe_modify. Qed.
Lemma inc_fail_safe : safe inc_connect_fail.
Proof. by apply safe_modify. Qed.

#[local] Hint Resolve inc_ok_safe inc_fail_safe : safe.

Lemma pick_rounds_safe k cands port out : safe (pick_rounds k cands port out).
Proof.
  revert out. induction k as [|k IH]; intros out; simpl; [apply safe_ret|].
  apply safe_if; [apply safe_ret|]. apply safe_bind; [|by intros].
  unfold pick_weighted. walk.
Qed.

Lemma pick_proxy_safe e : safe (pick_proxy e).
Proof. unfold pick_proxy. walk. apply pick_rounds_safe. Qed.

#[local] Hint Resolve pick_proxy_safe : safe.

Lemma handle_sync_del_safe uuid from : safe (handle_sync_del uuid from).
Proof.
  unfold handle_sync_del. walk. apply broadcast_safe.
  by rewrite length_uuid_field || (simpl; rewrite length_uuid_field).
Qed.

Lemma handle_sync_snapshot_req_safe from : safe (handle_sync_snapshot_req from).
Proof. unfold handle_sync_snapshot_req, send_sync_snapshot. walk. Qed.

#[local] Hint Resolve handle_sync_del_safe handle_sync_snapshot_req_safe : safe.

Lemma seen_sync_entry_safe e uuid hb from : safe (seen_sync_entry e uuid hb from).
Proof.
  intros s H. unfold seen_sync_entry.
  set (b := match sync_seen_ s !! _ with Some _ => _ | None => _ end). destruct b.
  - exists true, s, []. split; [done|]. split; [exact H|constructor].
  - eexists false, _, []. split; [done|]. split; [exact H|constructor].
Qed.

(** A forwarded entry is read inside its object when there is no extension. *)
Lemma handle_sync_entry_safe e ent from :
  cok SyncPeerEntry_codec ent ->
  0 ∈ drop 33 (cenc SyncPeerEntry_codec ent) -> 0 ∈ drop 51 (cenc SyncPeerEntry_codec ent) ->
  safe (handle_sync_entry e ent [] from).
Proof.
  intros Hok Z1 Z2. unfold handle_sync_entry. apply safe_bind; [apply safe_gets|]. intros en.
  apply safe_if; [apply safe_skip|]. cbv zeta. apply safe_if; [apply safe_skip|].
  apply safe_bind; [apply safe_if; [apply safe_ret|apply seen_sync_entry_safe]|]. intros seen.
  apply safe_if; [apply safe_skip|]. unfold cstr_in. rewrite !bool_decide_true by done.
  apply safe_bind; [apply safe_lift_done|]. intros pub_ip.
  apply safe_bind; [apply safe_lift_done|]. intros lan_ip.
  apply safe_bind; [walk|]. intros _. apply safe_if; [|apply safe_skip].
  apply broadcast_safe. rewrite Nat.add_0_r, codec_size; [done|].
  simpl in *. split_all; try done; apply u8_range.
Qed.

(** ** The switch *)

Lemma on_heartbeat_safe e from p : safe (on_heartbeat e from p).
Proof. unfold on_heartbeat. walk. Qed.

Lemma on_heartbeat_enc_safe e from p : safe (on_heartbeat_enc e from p).
Proof. unfold on_heartbeat_enc. walk. Qed.

Lemma on_extinfo_safe e snd from p : safe (on_extinfo e snd from p).
Proof. unfold on_extinfo, on_snd_extinfo. walk. Qed.

Lemma refuse_connect_safe from r dst : safe (refuse_connect from r dst).
Proof. unfold refuse_connect. walk. Qed.

#[local] Hint Resolve refuse_connect_safe : safe.

Lemma on_connect_safe e from p : safe (on_connect e from p).
Proof. unfold on_connect. walk. Qed.

Lemma on_ice_sdp_safe p : safe (on_ice_sdp p).
Proof. unfold on_ice_sdp. walk. Qed.

Lemma on_dev_list_safe from p : safe (on_dev_list from p).
Proof. unfold on_dev_list. walk. Qed.

Lemma save_license_safe e : safe (save_license e).
Proof.
  intros s [Hp Hl]. unfold save_license.
  destruct (LicenseMgr.save_done (writable e (LicenseMgr.path_ (license_ s))) (rnd_salt e) (rnd_iv e) _ Hl)
    as (ok & content & ->).
  destruct content; eexists tt, _, _; (split; [done|]); (split; [by split|]); by repeat constructor.
Qed.

#[local] Hint Resolve save_license_safe : safe.

Lemma on_delete_uid_safe e p : safe (on_delete_uid e p).
Proof. unfold on_delete_uid. walk. Qed.

Lemma on_check_uid_safe from p : safe (on_check_uid from p).
Proof. unfold on_check_uid. walk. Qed.

Lemma on_auth_challenge_safe e from p : safe (on_auth_challenge e from p).
Proof. unfold on_auth_challenge. walk. Qed.

Lemma on_auth_login_safe e from p : safe (on_auth_login e from p).
Proof. unfold on_auth_login. walk. Qed.

Lemma on_admin_stats_safe e from : safe (on_admin_stats e from).
Proof. unfold on_admin_stats. walk. Qed.

Lemma on_sync_del_safe from p : safe (on_sync_del from p).
Proof. unfold on_sync_del. walk. Qed.

Lemma on_sync_snapshot_safe e from p : safe (on_sync_snapshot e from p).
Proof. unfold on_sync_snapshot. walk. Qed.

Lemma on_proxy_avail_safe e from p : safe (on_proxy_avail e from p).
Proof. unfold on_proxy_avail, collect_proxy_avail. walk. Qed.

#[local] Hint Resolve on_heartbeat_safe on_heartbeat_enc_safe on_extinfo_safe on_connect_safe
  on_ice_sdp_safe on_dev_list_safe on_delete_uid_safe on_check_uid_safe on_auth_challenge_safe
  on_auth_login_safe on_admin_stats_safe on_sync_del_safe on_sync_snapshot_safe
  on_proxy_avail_safe : safe.

(** ** The three requests that break the server *)

(** The addresses a server-list reply carries. *)
Definition advertised (s : t) : list bytes :=
  let nats :=
    if negb (length (wan_ip_ s) =? 0)%nat && negb (bool_decide (wan_ip_ s = bs "0.0.0.0"))
       && negb (bool_decide (wan_ip_ s ∈ nat_ips (cfg_ s)))
    then nat_ips (cfg_ s) ++ [wan_ip_ s] else nat_ips (cfg_ s) in
  nats ++ proxy_ips (cfg_ s).

(** An address text of a registry row that does not end inside the row, or a row
    with an extension; a key that does not end inside its request; an address
    list longer than the reply buffer. *)
Definition hazard (s : t) (m : MsgId) (p : bytes) : bool :=
  match m with
  | MSG_GET_SERVER_LIST_REQ => negb (server_list_fits (length (advertised s)))
  | MSG_ADMIN_BLACKLIST_REQ =>
      negb (bool_decide (0 ∈ drop 1 (take (csize AdminBlacklistReq_codec) p)))
  | MSG_SYNC_PEER_ENTRY =>
      negb (ntohs (sp_extlen (cdec SyncPeerEntry_codec p)) =? 0)
      || negb (bool_decide (0 ∈ drop 51 (take (csize SyncPeerEntry_codec) p)))
  | _ => false
  end.

Definition packet_hazard (s : t) (data : bytes) : bool :=
  match parse_frame data with
  | None => false
  | Some (id, p) => match msg_of id with None => false | Some m => hazard s m p end
  end.

Lemma on_admin_blacklist_safe e from p :
  bytes_ok p -> 0 ∈ drop 1 (take (csize AdminBlacklistReq_codec) p) -> safe (on_admin_blacklist e from p).
Proof.
  intros Hp Hz. unfold on_admin_blacklist.
  destruct (Nat.ltb_spec (length p) (csize AdminBlacklistReq_codec)); [apply safe_skip|].
  assert (cstr_in 1 (cenc AdminBlacklistReq_codec (cdec AdminBlacklistReq_codec p)) =
          Done (c_str (drop 1 (take (csize AdminBlacklistReq_codec) p)))) as E.
  { unfold cstr_in. rewrite codec_enc_dec by done. by rewrite bool_decide_true. }
  cbv zeta. apply safe_bind; [walk|]. intros cfg. apply safe_if; [walk|]. apply safe_if; [walk|].
  rewrite E. apply safe_bind; [apply safe_lift_done|]. intros _. walk.
Qed.

Lemma on_server_list_safe from s :
  server_inv s -> server_list_fits (length (advertised s)) = true ->
  exists s' o, on_server_list from s = Done (tt, s', o) /\ server_inv s' /\ Forall effect_ok o.
Proof.
  intros Hs F. unfold on_server_list. unfold mbind, M_bind, gets.
  fold (advertised s). rewrite F. cbn [negb].
  edestruct safe_send_msg as ([] & s' & o & E & H1 & H2); [exact Hs|]. rewrite E. eauto.
Qed.

(** The first octets of a decoded row survive termination of its identifier. *)
Lemma terminated_row_tail p k :
  bytes_ok p -> (csize SyncPeerEntry_codec <= length p)%nat -> (33 <= k)%nat ->
  let r := cdec SyncPeerEntry_codec p in
  drop k (cenc SyncPeerEntry_codec
    (mkSyncPeerEntry (terminate (sp_uuid r)) (sp_pub_ip r) (sp_pub_port r) (sp_lan_ip r)
                 (sp_lan_port r) (sp_dev_type r) (sp_nattype r) (sp_hop r) (sp_reserved r)
                 (sp_hb_time r) (sp_extlen r))) = drop k (take (csize SyncPeerEntry_codec) p).
Proof.
  intros Hp L Hk r. rewrite <- codec_enc_dec by done. fold r.
  pose proof (codec_dec_ok p Hp L) as O. fold r in O. clearbody r.
  destruct r as [x0 x1 x2 x3 x4 x5 x6 x7 x8 x9 x10]. destruct O as [[U _] _].
  cbn in U. cbn [cenc SyncPeerEntry_codec c_iso c_pair sp_uuid sp_pub_ip sp_pub_port sp_lan_ip sp_lan_port
    sp_dev_type sp_nattype sp_hop sp_reserved sp_hb_time sp_extlen].
  replace k with (33 + (k - 33))%nat by lia. rewrite <- !drop_drop. f_equal.
  change (cenc (c_bytes 33)) with (fun l : bytes => l). cbv beta.
  assert (length (terminate x0) = 33%nat).
  { unfold terminate. rewrite length_app, length_take, U. done. }
  by rewrite !drop_app_exact.
Qed.

Lemma on_sync_entry_safe e from p :
  bytes_ok p -> ntohs (sp_extlen (cdec SyncPeerEntry_codec p)) = 0 ->
  0 ∈ drop 51 (take (csize SyncPeerEntry_codec) p) -> safe (on_sync_entry e from p).
Proof.
  intros Hp X Hz. unfold on_sync_entry.
  destruct (Nat.ltb_spec (length p) (csize SyncPeerEntry_codec)) as [|L]; [apply safe_skip|].
  cbv zeta. cbn [sp_extlen]. rewrite X. change (Z.to_nat 0) with 0%nat.
  apply safe_if; [walk|]. apply safe_if; [walk|]. apply safe_bind; [walk|]. intros cfg.
  apply safe_if; [walk|]. change (slice _ 0 p) with (@nil Z).
  apply handle_sync_entry_safe; rewrite ?terminated_row_tail by (done || lia); [| |done].
  - pose proof (codec_dec_ok p Hp L) as O. destruct (cdec SyncPeerEntry_codec p), O as [[U V] O].
    split; [|exact O]. cbn in U, V |- *. unfold terminate. split.
    + rewrite length_app, length_take, U. done.
    + apply Forall_app_2; [by apply Forall_take|]. repeat constructor; done.
  - change 51%nat with (18 + 33)%nat in Hz. rewrite Nat.add_comm, <- drop_drop in Hz.
    by apply subseteq_drop in Hz.
Qed.

Lemma dispatch_safe e from m p s :
  bytes_ok p -> server_inv s -> hazard s m p = false ->
  exists s' o, dispatch e from m p s = Done (tt, s', o) /\ server_inv s' /\ Forall effect_ok o.
Proof.
  intros Hp Hs Hz.
  assert (forall h : M unit, safe h ->
    exists s' o, h s = Done (tt, s', o) /\ server_inv s' /\ Forall effect_ok o) as K.
  { intros h Hh. destruct (Hh s Hs) as ([] & s' & o & ?). eauto. }
  destruct m; cbn [dispatch]; try (apply K; eauto with safe; fail).
  all: cbn [hazard] in Hz.
  - apply on_server_list_safe; [done|]. by apply negb_false_iff.
  - apply K, on_admin_blacklist_safe; [done|]. by apply negb_false_iff, bool_decide_eq_true in Hz.
  - apply orb_false_iff in Hz as [Z1 Z2]. apply negb_false_iff in Z1, Z2.
    apply K, on_sync_entry_safe; [done|by apply Z.eqb_eq|by apply bool_decide_eq_true in Z2].
Qed.

(** C1: From a state with a well-formed peer table and a free license lock, the
    server handles every datagram it can receive, of any content and sender,
    other than the three requests [packet_hazard] names: the handler finishes
    without a fault or a deadlock, the state still satisfies the invariant, and
    every datagram it sends carries a header and fits the packet buffer. *)
Theorem handle_packet_safe (e : env) (data : bytes) (from : sockaddr_in) (s : t)
    (Hs : server_inv s) (Hd : bytes_ok data) (Hz : packet_hazard s data = false) :
  exists s' o, handle_packet e data from s = Done (tt, s', o) /\ server_inv s' /\ Forall effect_ok o.
Proof.
  unfold handle_packet, packet_hazard in *.
  destruct (parse_frame data) as [[id p]|] eqn:E; [|by exists s, []].
  destruct (msg_of id) as [m|]; [|by exists s, []].
  apply dispatch_safe; [by eapply parse_frame_bytes|done|done].
Qed.

(** ** What the three requests can do *)

(** A handler that ends well, or reads or writes past an object; nothing else goes wrong
    in it, and it leaves no lock held. *)
Definition overrun_at_worst {A} (m : M A) : Prop :=
  forall s, server_inv s ->
    match m s with
    | Done (_, s', o) => server_inv s' /\ Forall effect_ok o
    | Fault f => f = OutOfBounds
    end.

Lemma overrun_safe {A} (m : M A) : safe m -> overrun_at_worst m.
Proof. intros H s Hs. by destruct (H s Hs) as (a & s' & o & -> & ? & ?). Qed.

Lemma overrun_bind {A B} (m : M A) (k : A -> M B) :
  overrun_at_worst m -> (forall a, overrun_at_worst (k a)) -> overrun_at_worst (m ≫= k).
Proof.
  intros Hm Hk s Hs. specialize (Hm s Hs). unfold mbind, M_bind. destruct (m s) as [[[a s1] o1]|]; [|done].
  destruct Hm as [H1 O1]. specialize (Hk a s1 H1). destruct (k a s1) as [[[b s2] o2]|]; [|done].
  destruct Hk as [H2 O2]. split; [done|]. by apply Forall_app_2.
Qed.

Lemma overrun_if {A} (b : bool) (m1 m2 : M A) :
  overrun_at_worst m1 -> overrun_at_worst m2 -> overrun_at_worst (if b then m1 else m2).
Proof. by destruct b. Qed.

Lemma overrun_mapM {A} (f : A -> M unit) l : (forall a, overrun_at_worst (f a)) -> overrun_at_worst (mapM_ f l).
Proof. intros H. induction l as [|a l IH]; [apply overrun_safe, safe_skip|]. by apply overrun_bind. Qed.

Lemma overrun_lift {A} (x : outcome A) : (forall f, x = Fault f -> f = OutOfBounds) -> overrun_at_worst (lift x).
Proof. intros H s Hs. destruct x as [a|f]; cbn; [by split|by apply H]. Qed.

Lemma overrun_cstr_in off obj : overrun_at_worst (lift (cstr_in off obj)).
Proof. apply overrun_lift. unfold cstr_in. intros f. destruct (bool_decide _); [done|]. by intros [= <-]. Qed.

Lemma overrun_read_obj n obj : overrun_at_worst (lift (read_obj n obj)).
Proof. apply overrun_lift. unfold read_obj. intros f. destruct (_ <? _)%nat; [|done]. by intros [= <-]. Qed.

#[local] Hint Resolve overrun_cstr_in overrun_read_obj : safe.

(** Walks through a handler that may overrun. *)
Ltac walk_overrun :=
  repeat first
    [ progress (intros; cbv zeta)
    | solve [auto with safe]
    | solve [apply overrun_safe; walk]
    | apply overrun_if | apply overrun_bind | apply overrun_mapM
    | match goal with |- overrun_at_worst (match ?x with _ => _ end) => destruct x end ].

Lemma overrun_server_list from : overrun_at_worst (on_server_list from).
Proof.
  unfold on_server_list. apply overrun_bind; [walk_overrun|]. intros cfg. apply overrun_bind; [walk_overrun|]. intros wan.
  cbv zeta. apply overrun_if; [|walk_overrun]. apply overrun_lift. by intros f [= <-].
Qed.

Lemma overrun_admin e from p : overrun_at_worst (on_admin_blacklist e from p).
Proof. unfold on_admin_blacklist. walk_overrun. Qed.

Lemma overrun_sync_entry e from p : overrun_at_worst (on_sync_entry e from p).
Proof.
  unfold on_sync_entry, handle_sync_entry, broadcast_sync_msg, sync_send_msg.
  pose proof seen_sync_entry_safe as Seen. walk_overrun.
Qed.

(** Whatever the packet, the server handles it well or runs past an object; it does the
    latter only for the three requests. *)
Lemma handle_packet_outcome e data from s :
  server_inv s -> bytes_ok data ->
  match handle_packet e data from s with
  | Done (_, s', o) => server_inv s' /\ Forall effect_ok o
  | Fault f => f = OutOfBounds /\ packet_hazard s data = true
  end.
Proof.
  intros Hs Hd. unfold handle_packet, packet_hazard.
  destruct (parse_frame data) as [[id p]|] eqn:E; [|by split].
  destruct (msg_of id) as [m|]; [|by split].
  destruct (hazard s m p) eqn:Hz.
  - assert (overrun_at_worst (dispatch e from m p)) as O.
    { destruct m; try done; cbn [dispatch];
        [apply overrun_server_list|apply overrun_admin|apply overrun_sync_entry]. }
    specialize (O s Hs). by destruct (dispatch e from m p s) as [[[]]|].
  - apply parse_frame_bytes in E; [|done].
    by destruct (dispatch_safe e from m p s E Hs Hz) as (s' & o & -> & ? & ?).
Qed.

Definition quiet_env : env := mkEnv 1000 (fun _ => true) [] [].

Lemma handle_packet_safe_witness :
  exists s' o, handle_packet quiet_env (frame (msg_id MSG_CHECK_UID_REQ) (bs "cam")) (mkAddr 1 2) initial
    = Done (tt, s', o) /\ server_inv s' /\ Forall effect_ok o.
Proof.
  apply (handle_packet_safe quiet_env _ (mkAddr 1 2) initial).
  - split; [apply PeerManager.wf_empty|reflexivity].
  - decide_now.
  - reflexivity.
Defined.

End ServerSafety.
