(* ===== verification/ServerAuth.v ===== *)
(** * Who may register and who is authenticated

    A frame rule for the registry ([keeps]): what a handler may do to the peer
    table, whatever else it does.  With it, over the whole packet switch: only a
    signed login or a signed registry row authenticates an identifier, and only
    an admitted heartbeat or a signed registry row registers one. *)

From S2P Require Import Prelude.
From S2P Require Import Bytes.
From S2P Require Import Wire.
From S2P Require Import ProtoDef.
From S2P Require Import NetUtil.
From S2P Require Import Hmac.
From S2P Require Import Packet.
From S2P Require Import Handler.
From S2P Require Import PeerManage.
From S2P Require Import AntiAbuse.
From S2P Require Import LicenseMgr.
From S2P Require Import CfgFile.
From S2P Require Import NatTypeCheck.
From S2P Require Import NatServer.
From S2P Require Import RecvProcess.
From S2P Require Import ServerSafety.

#[local] Open Scope Z_scope.

Module ServerAuth.
Import NatServer RecvProcess ServerSafety.

(** ** The frame rule *)

(** A relation on states that what handlers do outside the registry respects. *)
Class Frame (R : t -> t -> Prop) : Prop := {
  frame_preorder :: PreOrder R;
  frame_abuse s x : R s (set_abuse_ x s);
  frame_license s x : R s (set_license_ x s);
  frame_seed s x : R s (set_rand_seed x s);
  frame_nonces s x : R s (set_auth_nonces_ x s);
  frame_seen s x : R s (set_sync_seen_ x s);
  frame_health s x : R s (set_proxy_health_ x s);
  frame_ok s x : R s (set_connect_ok_ x s);
  frame_fail s x : R s (set_connect_fail_ x s)
}.

(** Relations on the registry, and equality of the queue. *)
Abbreviation on_registry R := (fun s s' => R (peers_ s) (peers_ s')).

#[export] Instance registry_frame (R : PeerManager.t -> PeerManager.t -> Prop) :
  PreOrder R -> Frame (on_registry R).
Proof.
  intros H. split; try by intros. split; [by intros s|]. intros s1 s2 s3 H1 H2. by etrans.
Qed.

Abbreviation same_queue := (fun s s' : t => mq_ s = mq_ s').

#[export] Instance queue_frame : Frame same_queue.
Proof. split; try by intros. split; [by intros s|]. intros s1 s2 s3 H1 H2. by etrans. Qed.

Section Keeps.
Context (R : t -> t -> Prop) `{!Frame R}.

(** The state after the handler is [R]-related to the one before. *)
Definition keeps {A} (m : M A) : Prop := forall s a s' o, m s = Done (a, s', o) -> R s s'.

Lemma keeps_ret {A} (a : A) : keeps (mret a).
Proof. by intros s a' s' o [= _ <- _]. Qed.

Lemma keeps_bind {A B} (m : M A) (k : A -> M B) :
  keeps m -> (forall a, keeps (k a)) -> keeps (m ≫= k).
Proof.
  intros Hm Hk s b s2 o (a & s1 & o1 & o2 & E1 & E2 & _)%bind_done.
  etrans; [by eapply Hm|by eapply Hk].
Qed.

Lemma keeps_gets {A} (f : t -> A) : keeps (gets f).
Proof. by intros s a s' o [= _ <- _]. Qed.

Lemma keeps_skip : keeps skip.
Proof. apply keeps_ret. Qed.

Lemma keeps_emit e : keeps (emit e).
Proof. by intros s a s' o [= _ <- _]. Qed.

Lemma keeps_modify f : (forall s, R s (f s)) -> keeps (modify f).
Proof. intros Hf s a s' o [= _ <- _]. apply Hf. Qed.

Lemma keeps_lift {A} (x : outcome A) : keeps (lift x).
Proof. intros s a s' o. unfold lift. destruct x; [|done]. by intros [= _ <- _]. Qed.

Lemma keeps_if {A} (b : bool) (m m' : M A) : keeps m -> keeps m' -> keeps (if b then m else m').
Proof. by destruct b. Qed.

Lemma keeps_mapM {A} (f : A -> M unit) l : (forall a, keeps (f a)) -> keeps (mapM_ f l).
Proof.
  intros Hf. induction l as [|a l IH]; [apply keeps_skip|].
  apply keeps_bind; [apply Hf|by intros _].
Qed.

Lemma keeps_on_abuse {A} (f : AntiAbuse.t -> A * AntiAbuse.t) : keeps (on_abuse f).
Proof. intros s a s' o. unfold on_abuse. destruct (f (abuse_ s)). intros [= _ <- _]. apply frame_abuse. Qed.

Lemma keeps_on_license {A} (f : LicenseMgr.t -> outcome (A * LicenseMgr.t)) : keeps (on_license f).
Proof.
  intros s a s' o. unfold on_license. destruct (f (license_ s)) as [[]|]; [|done].
  intros [= _ <- _]. apply frame_license.
Qed.

Lemma keeps_rand32 : keeps rand32.
Proof. intros s a s' o. unfold rand32. destruct (rand_u32 _). intros [= _ <- _]. apply frame_seed. Qed.

Lemma keeps_on_peers f : (forall s, R s (set_peers_ (f (peers_ s)) s)) -> keeps (on_peers f).
Proof. intros Hf s a s' o [= _ <- _]. apply Hf. Qed.

Lemma keeps_seen e uuid hb from : keeps (seen_sync_entry e uuid hb from).
Proof.
  intros s a s' o. unfold seen_sync_entry.
  set (b := match sync_seen_ s !! _ with Some _ => _ | None => _ end).
  destruct b; intros [= _ <- _]; [done|apply frame_seen].
Qed.

Lemma keeps_save_license e : keeps (save_license e).
Proof.
  intros s a s' o. unfold save_license.
  destruct (LicenseMgr.save _ _ _ _) as [[[ok c] l]|]; [|done].
  intros [= _ <- _]. apply frame_license.
Qed.

Create HintDb keeps.

#[local] Hint Resolve keeps_ret keeps_skip keeps_gets keeps_emit keeps_lift keeps_on_abuse
  keeps_on_license keeps_rand32 keeps_seen keeps_save_license : keeps.

#[local] Ltac walk_keeps :=
  repeat first
    [ progress (intros; cbv zeta)
    | solve [eauto with keeps]
    | match goal with
      | |- keeps (modify _) => apply keeps_modify; intros;
          first [apply frame_nonces | apply frame_health | apply frame_ok | apply frame_fail]
      | |- keeps (mbind _ _) => apply keeps_bind
      | |- keeps (if _ then _ else _) => apply keeps_if
      | |- keeps (mapM_ _ _) => apply keeps_mapM
      | |- keeps (let '(_, _) := ?x in _) => destruct x
      | |- keeps (match ?x with _ => _ end) => destruct x
      end ].

Lemma keeps_send_msg to id p : keeps (send_msg to id p).
Proof. unfold send_msg. walk_keeps. Qed.

#[local] Hint Resolve keeps_send_msg : keeps.

Lemma keeps_sync_send to id obj n : keeps (sync_send_msg to id obj n).
Proof. unfold sync_send_msg. walk_keeps. Qed.

#[local] Hint Resolve keeps_sync_send : keeps.

Lemma keeps_broadcast id obj n x : keeps (broadcast_sync_msg id obj n x).
Proof. unfold broadcast_sync_msg. walk_keeps. Qed.

Lemma keeps_broadcast_entry e req ext pub : keeps (broadcast_peer_entry e req ext pub).
Proof. unfold broadcast_peer_entry, send_peer_entry. walk_keeps. Qed.

Lemma keeps_rsp to u r enc iv : keeps (send_heartbeat_rsp to u r enc iv).
Proof. unfold send_heartbeat_rsp. walk_keeps. Qed.

Lemma keeps_rejects cfg uuid : keeps (license_rejects cfg uuid).
Proof. unfold license_rejects. walk_keeps. Qed.

#[local] Hint Resolve keeps_broadcast keeps_broadcast_entry keeps_rsp keeps_rejects : keeps.

Lemma keeps_rand_octets n : keeps (rand_octets n).
Proof. induction n as [|n IH]; simpl; walk_keeps. Qed.

Lemma keeps_pick_rounds k c port out : keeps (pick_rounds k c port out).
Proof.
  revert out. induction k as [|k IH]; intros out; simpl; [apply keeps_ret|].
  apply keeps_if; [apply keeps_ret|]. unfold pick_weighted. walk_keeps.
Qed.

#[local] Hint Resolve keeps_rand_octets keeps_pick_rounds : keeps.

Lemma keeps_refuse from r dst : keeps (refuse_connect from r dst).
Proof. unfold refuse_connect, inc_connect_fail. walk_keeps. Qed.

#[local] Hint Resolve keeps_refuse : keeps.

(** The messages that never touch the registry. *)
Definition readonly (m : MsgId) : bool :=
  match m with
  | MSG_HEARTBEAT_REQ | MSG_ADD_UID_REQ | MSG_HEARTBEAT_REQ_ENC | MSG_SND_EXTINFO_REQ
  | MSG_DELETE_UID_REQ | MSG_AUTH_LOGIN_REQ | MSG_SYNC_PEER_ENTRY | MSG_SYNC_PEER_DEL => false
  | _ => true
  end.

Lemma keeps_readonly e from m p : readonly m = true -> keeps (dispatch e from m p).
Proof.
  destruct m; try done; intros _; cbn [dispatch]; try apply keeps_skip.
  all: unfold on_extinfo, on_connect, pick_proxy, inc_connect_ok, on_ice_sdp, on_dev_list, on_server_list,
    on_check_uid, on_auth_challenge, issue_auth_nonce, on_admin_stats, on_admin_blacklist,
    on_sync_snapshot, handle_sync_snapshot_req, send_sync_snapshot, send_peer_entry,
    on_proxy_avail, collect_proxy_avail.
  all: walk_keeps.
Qed.

Lemma keeps_delete e p : (forall s u, R s (set_peers_ (PeerManager.remove (peers_ s) u).2 s)) -> keeps (on_delete_uid e p).
Proof.
  intros HR. unfold on_delete_uid. cbv zeta. apply keeps_bind; [by apply keeps_on_peers|]. walk_keeps.
Qed.

Lemma keeps_sync_del from p : (forall s u, R s (set_peers_ (PeerManager.remove (peers_ s) u).2 s)) -> keeps (on_sync_del from p).
Proof.
  intros HR. unfold on_sync_del, handle_sync_del.
  walk_keeps; by apply keeps_on_peers.
Qed.

Lemma keeps_heartbeat_upsert e req ext from enc iv :
  (forall s u pub lan dt nt x,
     R s (set_peers_ (PeerManager.upsert (now e) (peers_ s) u pub lan dt nt x).2 s)) ->
  keeps (handle_heartbeat e req ext from enc iv).
Proof. intros HR. unfold handle_heartbeat. walk_keeps; by apply keeps_on_peers. Qed.

Lemma keeps_on_heartbeat e from p :
  (forall req ext enc iv, keeps (handle_heartbeat e req ext from enc iv)) ->
  keeps (on_heartbeat e from p) /\ keeps (on_heartbeat_enc e from p).
Proof. intros H. unfold on_heartbeat, on_heartbeat_enc. split; walk_keeps. Qed.

Lemma keeps_login e from p :
  (forall s u x, R s (set_peers_ (PeerManager.set_auth_expire (peers_ s) u x) s)) -> keeps (on_auth_login e from p).
Proof.
  intros HR. unfold on_auth_login, verify_auth_login. walk_keeps; by apply keeps_on_peers.
Qed.

Lemma keeps_extinfo e from p :
  (forall s u pub lan dt nt x,
     R s (set_peers_ (PeerManager.upsert (now e) (peers_ s) u pub lan dt nt x).2 s)) ->
  keeps (on_extinfo e true from p).
Proof. intros HR. unfold on_extinfo, on_snd_extinfo. walk_keeps; by apply keeps_on_peers. Qed.

Lemma keeps_sync_entry e from p :
  (forall s u pub lan dt nt x hb,
     R s (set_peers_ (PeerManager.upsert_synced (peers_ s) u pub lan dt nt x hb).2 s)) ->
  keeps (on_sync_entry e from p).
Proof. intros HR. unfold on_sync_entry, handle_sync_entry. walk_keeps; by apply keeps_on_peers. Qed.

(** A relation that every registry change respects as well holds of every packet. *)
Lemma keeps_handle_packet e data from :
  (forall s p, R s (set_peers_ p s)) -> keeps (handle_packet e data from).
Proof.
  intros HR. unfold handle_packet. destruct (parse_frame data) as [[id p]|]; [|apply keeps_skip].
  destruct (msg_of id) as [m|]; [|apply keeps_skip].
  destruct (readonly m) eqn:Er; [by apply keeps_readonly|].
  destruct m; try done; cbn [dispatch].
  all: first [ apply keeps_on_heartbeat; intros; apply keeps_heartbeat_upsert; done
             | apply keeps_extinfo; done | apply keeps_delete; done | apply keeps_sync_del; done
             | apply keeps_login; done | apply keeps_sync_entry; done ].
Qed.

End Keeps.

(** ** Authentication *)

(** Nobody is authenticated who was not. *)
Definition no_new_auth (tm : Z) (p p' : PeerManager.t) : Prop :=
  forall k, PeerManager.authed tm p' k = true -> PeerManager.authed tm p k = true.

#[export] Instance no_new_auth_preorder tm : PreOrder (no_new_auth tm).
Proof. split; [by intros p k|]. intros p q r H1 H2 k H. auto. Qed.

Lemma upsert_no_auth tm t0 p u pub lan dt nt x :
  0 <= tm -> no_new_auth tm p (PeerManager.upsert t0 p u pub lan dt nt x).2.
Proof.
  intros Ht k. unfold PeerManager.upsert. destruct (PeerManager.uuid_valid u); [|done]. simpl.
  rewrite !PeerManager.authed_spec. simpl. intros [?|(q & E & L)]; [by left|]. right.
  destruct (decide (k = u)) as [->|N]; [|rewrite lookup_insert_ne in E by done; eauto].
  rewrite lookup_insert_eq in E. simplify_eq.
  destruct (PeerManager.peers_ p !! u) as [q|]; simpl in L; [by eauto|lia].
Qed.

Lemma remove_no_auth tm p u : no_new_auth tm p (PeerManager.remove p u).2.
Proof.
  intros k. rewrite !PeerManager.authed_spec. simpl.
  intros [?|(q & E & L)]; [by left|]. right. apply lookup_delete_Some in E as [_ E]. eauto.
Qed.

Lemma set_auth_other tm p u x k :
  k <> u -> PeerManager.authed tm (PeerManager.set_auth_expire p u x) k = PeerManager.authed tm p k.
Proof. intros N. unfold PeerManager.authed. simpl. by rewrite lookup_insert_ne, lookup_alter_ne. Qed.

(** The login a packet carries, and that it answers an issued, unexpired nonce
    with the right code. *)
Definition login_of (p : bytes) : AuthLoginReq := cdec AuthLoginReq_codec p.

Definition login_valid (e : env) (s : t) (k p : bytes) : Prop :=
  k = c_str (terminate (alq_uuid (login_of p))) /\
  exists expire,
    auth_nonces_ s !! k = Some (alq_nonce (login_of p), expire) /\ now e <= expire /\
    alq_mac (login_of p) = login_mac (auth_secret (cfg_ s)) k (alq_nonce (login_of p)).

(** A registry row about [k], signed when a secret is set. *)
Definition row_valid (s : t) (k p : bytes) : Prop :=
  let r := cdec SyncPeerEntry_codec p in
  k = c_str (terminate (sp_uuid r)) /\ sync_enabled s = true /\
  sync_verify (cfg_ s) p (csize SyncPeerEntry_codec + Z.to_nat (ntohs (sp_extlen r))) = true.

Lemma rejects_state cfg uuid s b s' o :
  license_rejects cfg uuid s = Done (b, s', o) ->
  cfg_ s' = cfg_ s /\ auth_nonces_ s' = auth_nonces_ s /\ peers_ s' = peers_ s /\ abuse_ s' = abuse_ s.
Proof.
  unfold license_rejects. destruct (enable_license cfg); [|by intros [= _ <- _]].
  intros (a & s1 & o1 & o2 & E & [= _ <- _] & _)%bind_done. revert E. unfold on_license.
  destruct (LicenseMgr.allowed _ _) as [[]|]; [|done]. by intros [= _ <- _].
Qed.

Lemma verify_login_new e uuid nonce mac s b s' o k :
  verify_auth_login e uuid nonce mac s = Done (b, s', o) ->
  PeerManager.authed (now e) (peers_ s') k = true -> PeerManager.authed (now e) (peers_ s) k = false ->
  k = uuid /\ exists expire, auth_nonces_ s !! k = Some (nonce, expire) /\ now e <= expire /\
    mac = login_mac (auth_secret (cfg_ s)) k nonce.
Proof.
  intros E Ha Hn. revert E. unfold verify_auth_login, mbind, M_bind, gets, mret, M_ret, modify, on_peers.
  destruct (negb (auth_enabled (cfg_ s))); [intros [= _ <- _]; congruence|].
  destruct (auth_nonces_ s !! uuid) as [[n ex]|] eqn:N; [|intros [= _ <- _]; congruence].
  destruct (Z.ltb_spec ex (now e)); [intros [= _ <- _]; cbn [peers_ set_auth_nonces_] in Ha; congruence|].
  destruct (bool_decide_reflect (n = nonce)) as [->|]; [|intros [= _ <- _]; cbn [peers_ set_auth_nonces_] in Ha; congruence].
  destruct (bool_decide_reflect (login_mac (auth_secret (cfg_ s)) uuid nonce = mac)) as [<-|];
    [|intros [= _ <- _]; cbn [peers_ set_auth_nonces_] in Ha; congruence].
  intros [= _ <- _]. simpl in Ha.
  destruct (decide (k = uuid)) as [->|D]; [eauto|]. rewrite set_auth_other in Ha by done. congruence.
Qed.

Lemma send_msg_peers to id q s a s' o : send_msg to id q s = Done (a, s', o) -> peers_ s' = peers_ s.
Proof. intros E. symmetry. by apply (keeps_send_msg (on_registry eq)) in E. Qed.

Lemma on_login_new e from p s a s' o k :
  on_auth_login e from p s = Done (a, s', o) ->
  PeerManager.authed (now e) (peers_ s') k = true -> PeerManager.authed (now e) (peers_ s) k = false ->
  login_valid e s k p.
Proof.
  intros E Ha Hn. revert E. unfold on_auth_login.
  destruct (_ <? _)%nat; [intros [= _ <- _]; congruence|]. cbv zeta.
  set (uuid := c_str _).
  intros (cfg & s1 & o1 & o2 & [= <- <- _] & E & _)%bind_done.
  apply bind_done in E as (black & s2 & o3 & o4 & E2 & E & _).
  assert (cfg_ s2 = cfg_ s /\ auth_nonces_ s2 = auth_nonces_ s /\ peers_ s2 = peers_ s) as (C2 & N2 & P2).
  { revert E2. unfold on_abuse. destruct (AntiAbuse.is_uuid_blacklisted _ _ _). by intros [= _ <- _]. }
  destruct black; [apply send_msg_peers in E; congruence|].
  apply bind_done in E as (rej & s3 & o5 & o6 & E3 & E & _).
  apply rejects_state in E3 as (C3 & N3 & P3 & _).
  destruct rej; [apply send_msg_peers in E; congruence|].
  apply bind_done in E as (ok & s4 & o7 & o8 & E4 & E & _). apply send_msg_peers in E.
  rewrite E in Ha. rewrite <- P2, <- P3 in Hn.
  destruct (verify_login_new _ _ _ _ _ _ _ _ _ E4 Ha Hn) as (-> & ex & X).
  split; [done|]. exists ex. rewrite <- N2, <- N3. rewrite <- C2, <- C3. exact X.
Qed.

Lemma upsert_synced_other r u pub lan dt nt x hb k :
  k <> u -> PeerManager.peers_ (PeerManager.upsert_synced r u pub lan dt nt x hb).2 !! k =
            PeerManager.peers_ r !! k /\
  PeerManager.auth_sessions_ (PeerManager.upsert_synced r u pub lan dt nt x hb).2 =
  PeerManager.auth_sessions_ r.
Proof.
  intros N. unfold PeerManager.upsert_synced. destruct (PeerManager.uuid_valid u); [|done]. simpl.
  by rewrite lookup_insert_ne.
Qed.

(** A registry row changes the table only at its own key, and only when it is
    valid. *)
Lemma on_sync_entry_changes e from p s a s' o :
  on_sync_entry e from p s = Done (a, s', o) ->
  peers_ s' = peers_ s \/
  (row_valid s (c_str (terminate (sp_uuid (cdec SyncPeerEntry_codec p)))) p /\
   exists pub lan dt nt x hb,
     peers_ s' = (PeerManager.upsert_synced (peers_ s)
       (c_str (terminate (sp_uuid (cdec SyncPeerEntry_codec p)))) pub lan dt nt x hb).2).
Proof.
  unfold on_sync_entry. destruct (_ <? _)%nat; [intros [= _ <- _]; by left|].
  cbv zeta. cbn [sp_extlen]. destruct (_ <? _); [intros [= _ <- _]; by left|].
  destruct (_ <? _)%nat; [intros [= _ <- _]; by left|].
  intros (cfg & s1 & o1 & o2 & [= <- <- _] & E & _)%bind_done.
  destruct (sync_verify _ _ _) eqn:V; [|by injection E as _ <- _; left]. cbn [negb] in E.
  unfold handle_sync_entry in E. cbv zeta in E. cbn [sp_uuid] in E.
  apply bind_done in E as (en & s2 & o3 & o4 & [= <- <- _] & E & _).
  destruct (sync_enabled s) eqn:En; [|by injection E as _ <- _; left]. cbn [negb] in E.
  destruct (length _ =? 0)%nat; [by injection E as _ <- _; left|].
  apply bind_done in E as (seen & s3 & o5 & o6 & E3 & E & _).
  assert (peers_ s3 = peers_ s) as P3.
  { destruct (_ =? _); [by injection E3 as _ <- _|]. by apply (keeps_seen (on_registry eq)) in E3. }
  destruct seen; [by injection E as _ <- _; left|].
  apply bind_done in E as (i1 & s4 & o7 & o8 & E4 & E & _). apply (keeps_lift (on_registry eq)) in E4.
  apply bind_done in E as (i2 & s5 & o9 & o10 & E5 & E & _). apply (keeps_lift (on_registry eq)) in E5.
  apply bind_done in E as ([] & s6 & o11 & o12 & [= <- _] & E & _).
  assert (peers_ s' = peers_ (set_peers_ (PeerManager.upsert_synced (peers_ s5)
     (c_str (terminate (sp_uuid (cdec SyncPeerEntry_codec p))))
     (mkAddr (default 0 (inet_pton i1)) (sp_pub_port (cdec SyncPeerEntry_codec p)))
     (mkAddr (default (default 0 (inet_pton i1)) (inet_pton i2)) (sp_lan_port (cdec SyncPeerEntry_codec p)))
     (sp_dev_type (cdec SyncPeerEntry_codec p)) (sp_nattype (cdec SyncPeerEntry_codec p))
     (slice (csize SyncPeerEntry_codec) (Z.to_nat (ntohs (sp_extlen (cdec SyncPeerEntry_codec p)))) p)
     (ntohl (sp_hb_time (cdec SyncPeerEntry_codec p)))).2 s5)) as P6.
  { destruct (_ && _); [by apply (keeps_broadcast (on_registry eq)) in E|by injection E as _ <- _]. }
  right. split; [done|]. rewrite P6, <- P3, E4, E5. cbn [peers_ set_peers_]. eauto 10.
Qed.

(** C2: nobody is authenticated without the secret: if an identifier is
    authenticated after a packet and was not before, then the packet was either a
    login for it that carried the nonce issued to it, unexpired, and the HMAC of
    identifier and nonce under the configured secret, or a registry row for it
    from a server, whose signature was checked.  No other packet, whatever its
    content and order, authenticates anyone. *)
Theorem only_login_authenticates (e : env) (data : bytes) (from : sockaddr_in) (s s' : t) (o : list effect)
    (k : bytes) (Ht : 0 <= now e) (Hrun : handle_packet e data from s = Done (tt, s', o))
    (Hafter : PeerManager.authed (now e) (peers_ s') k = true)
    (Hbefore : PeerManager.authed (now e) (peers_ s) k = false) :
  exists p,
    parse_frame data = Some (msg_id MSG_AUTH_LOGIN_REQ, p) /\ login_valid e s k p \/
    parse_frame data = Some (msg_id MSG_SYNC_PEER_ENTRY, p) /\ row_valid s k p.
Proof.
  unfold handle_packet in Hrun. destruct (parse_frame data) as [[id p]|];
    [|by injection Hrun as <- _; congruence].
  destruct (msg_of id) as [m|] eqn:Em; [|by injection Hrun as <- _; congruence].
  apply msg_of_some in Em as <-. exists p.
  assert (keeps (on_registry (no_new_auth (now e))) (dispatch e from m p) -> False) as K.
  { intros K. apply K in Hrun. apply Hrun in Hafter. congruence. }
  destruct (readonly m) eqn:Er; [by destruct K; apply keeps_readonly; [apply _|]|].
  assert (forall r u pub lan dt nt x,
    no_new_auth (now e) r (PeerManager.upsert (now e) r u pub lan dt nt x).2) as U
    by (intros; by apply upsert_no_auth).
  assert (forall req ext enc iv, keeps (on_registry (no_new_auth (now e))) (handle_heartbeat e req ext from enc iv)) as Hh
    by (intros; apply keeps_heartbeat_upsert; [apply _|intros; apply U]).
  destruct m; try done; cbn [dispatch] in *.
  all: try (exfalso; apply K; first
    [ apply keeps_on_heartbeat; [apply _|done] | apply keeps_extinfo; [apply _|intros; apply U]
    | apply keeps_delete; [apply _|intros; apply remove_no_auth]
    | apply keeps_sync_del; [apply _|intros; apply remove_no_auth] ]; fail).
  - left. split; [done|]. by eapply on_login_new.
  - right. split; [done|]. apply on_sync_entry_changes in Hrun as [E|(V & pub & lan & dt & nt & x & hb & E)];
      [congruence|].
    destruct (decide (k = c_str (terminate (sp_uuid (cdec SyncPeerEntry_codec p))))) as [->|N]; [done|].
    destruct (upsert_synced_other (peers_ s) _ pub lan dt nt x hb k N) as [E1 E2].
    unfold PeerManager.authed in *. rewrite E, E1, E2 in Hafter. congruence.
Qed.

(** The state and the effects of a run that ends. *)
Definition final {A} (r : outcome (A * t * list effect)) : t :=
  match r with Done (_, s, _) => s | Fault _ => initial end.

Definition sent {A} (r : outcome (A * t * list effect)) : list effect :=
  match r with Done (_, _, o) => o | Fault _ => [] end.

(** A server with a secret that has issued a nonce for [cam]. *)
Definition challenged : t :=
  set_auth_nonces_ {[ bs "cam" := (replicate 16 7, 1030) ]}
    (set_cfg_ (set_enable_auth true (set_auth_secret (bs "secret") cfg_default)) initial).

Definition login_packet (uuid nonce mac : bytes) : bytes :=
  frame (msg_id MSG_AUTH_LOGIN_REQ) (cenc AuthLoginReq_codec (mkAuthLoginReq (uuid_field uuid) nonce mac)).

Lemma only_login_authenticates_witness :
  let data := login_packet (bs "cam") (replicate 16 7) (login_mac (bs "secret") (bs "cam") (replicate 16 7)) in
  exists p,
    parse_frame data = Some (msg_id MSG_AUTH_LOGIN_REQ, p) /\
      login_valid (mkEnv 1000 (fun _ => true) [] []) challenged (bs "cam") p \/
    parse_frame data = Some (msg_id MSG_SYNC_PEER_ENTRY, p) /\ row_valid challenged (bs "cam") p.
Proof.
  intros data.
  apply (only_login_authenticates (mkEnv 1000 (fun _ => true) [] []) data (mkAddr 16777343 5) challenged
    (final (handle_packet (mkEnv 1000 (fun _ => true) [] []) data (mkAddr 16777343 5) challenged))
    (sent (handle_packet (mkEnv 1000 (fun _ => true) [] []) data (mkAddr 16777343 5) challenged)) (bs "cam")).
  - simpl. lia.
  - vm_compute. reflexivity.
  - vm_compute. reflexivity.
  - vm_compute. reflexivity.
Defined.

(** ** Registration *)

(** Nobody is registered who was not. *)
Definition no_new_peer (p p' : PeerManager.t) : Prop :=
  forall k, is_Some (PeerManager.get p' k) -> is_Some (PeerManager.get p k).

#[export] Instance no_new_peer_preorder : PreOrder no_new_peer.
Proof. split; [by intros p k|]. intros p q r H1 H2 k H. auto. Qed.

Lemma remove_no_peer p u : no_new_peer p (PeerManager.remove p u).2.
Proof.
  intros k. unfold PeerManager.get. simpl. intros [q [_ E]%lookup_delete_Some]. by exists q.
Qed.

Lemma set_auth_no_peer p u x : no_new_peer p (PeerManager.set_auth_expire p u x).
Proof.
  intros k. unfold PeerManager.get. simpl. destruct (decide (k = u)) as [->|].
  - by rewrite lookup_alter_eq, fmap_is_Some.
  - by rewrite lookup_alter_ne.
Qed.

Lemma upsert_one tm p u pub lan dt nt x k :
  is_Some (PeerManager.get (PeerManager.upsert tm p u pub lan dt nt x).2 k) ->
  k = u \/ is_Some (PeerManager.get p k).
Proof.
  destruct (decide (k = u)); [by left|]. rewrite PeerManager.get_upsert_ne by done. by right.
Qed.

(** The gates a heartbeat passes. *)
Definition admitted (e : env) (s : t) (k : bytes) : Prop :=
  (auth_enabled (cfg_ s) = true -> PeerManager.authed (now e) (peers_ s) k = true) /\
  ~ AntiAbuse.uuid_blocked (now e) k (abuse_ s) /\
  (enable_license (cfg_ s) = true ->
     LicenseMgr.uuids_ (license_ s) = ∅ \/ k ∈ LicenseMgr.uuids_ (license_ s)).

Lemma rejects_false cfg uuid s s' o :
  license_rejects cfg uuid s = Done (false, s', o) -> LicenseMgr.mu_ (license_ s) = false ->
  enable_license cfg = true -> LicenseMgr.uuids_ (license_ s) = ∅ \/ uuid ∈ LicenseMgr.uuids_ (license_ s).
Proof.
  intros E L En. unfold license_rejects in E. rewrite En in E.
  apply bind_done in E as (b & s1 & o1 & o2 & E & [= B _ _] & _). revert E. unfold on_license.
  rewrite LicenseMgr.allowed_done by done. intros [= <- _ _].
  apply negb_false_iff, orb_true_iff in B. by rewrite !bool_decide_eq_true in B.
Qed.

Lemma heartbeat_new e req ext from enc iv s a s' o k :
  LicenseMgr.mu_ (license_ s) = false ->
  handle_heartbeat e req ext from enc iv s = Done (a, s', o) ->
  is_Some (PeerManager.get (peers_ s') k) -> PeerManager.get (peers_ s) k = None ->
  k = c_str (ur_uuid req) /\ admitted e s k.
Proof.
  intros L E Ha Hn. unfold handle_heartbeat in E. cbv zeta in E.
  apply bind_done in E as (cfg & ? & ? & ? & [= <- <- _] & E & _).
  apply bind_done in E as (alt & ? & ? & ? & [= <- <- _] & E & _).
  apply bind_done in E as (peers & ? & ? & ? & [= <- <- _] & E & _).
  destruct (auth_enabled (cfg_ s) && _) eqn:A.
  { apply (keeps_rsp (on_registry eq)) in E. rewrite <- E, Hn in Ha. by destruct Ha. }
  apply bind_done in E as (black & s2 & o3 & o4 & E2 & E & _).
  assert (peers_ s2 = peers_ s /\ license_ s2 = license_ s /\ enable_license (cfg_ s2) = enable_license (cfg_ s) /\
    (black = false -> ~ AntiAbuse.uuid_blocked (now e) (c_str (ur_uuid req)) (abuse_ s))) as (P2 & L2 & C2 & B2).
  { revert E2. unfold on_abuse.
    destruct (AntiAbuse.is_uuid_blacklisted _ _ _) as [b x] eqn:B. intros [= <- <- _].
    split_all; try done. intros ->. rewrite <- AntiAbuse.is_uuid_blacklisted_true, B. done. }
  apply bind_done in E as (rej & s3 & o5 & o6 & E3 & E & _).
  assert (peers_ s3 = peers_ s) as P3.
  { destruct black; [by injection E3 as _ <- _|]. apply rejects_state in E3 as (_ & _ & -> & _). done. }
  destruct rej.
  { apply (keeps_rsp (on_registry eq)) in E. rewrite <- E, P3, Hn in Ha. by destruct Ha. }
  destruct black; [done|].
  apply bind_done in E as ([] & s4 & o7 & o8 & [= <- _] & E & _).
  apply bind_done in E as ([] & s5 & o9 & o10 & E5 & E & _).
  apply (keeps_rsp (on_registry eq)) in E. apply (keeps_broadcast_entry (on_registry eq)) in E5.
  rewrite <- E, <- E5 in Ha. cbn [peers_ set_peers_] in Ha. rewrite P3 in Ha.
  apply upsert_one in Ha as [->|Ha]; [|rewrite Hn in Ha; by destruct Ha].
  split; [done|]. unfold admitted. split; [|split]; [|by apply B2|].
  - intros Ae. rewrite Ae in A. by apply negb_false_iff in A.
  - rewrite <- L2 in L |- *. by eapply rejects_false.
Qed.

(** A heartbeat's identifier; the encrypted form carries it in the clear. *)
Definition heartbeat_for (m : MsgId) (p k : bytes) : Prop :=
  match m with
  | MSG_HEARTBEAT_REQ | MSG_ADD_UID_REQ => k = c_str (terminate (ur_uuid (cdec UuidReq_codec p)))
  | MSG_HEARTBEAT_REQ_ENC => k = c_str (terminate (terminate (take 33 p)))
  | _ => False
  end.

Lemma extinfo_no_peer e from p s a s' o :
  PeerManager.wf (peers_ s) -> on_extinfo e true from p s = Done (a, s', o) ->
  no_new_peer (peers_ s) (peers_ s').
Proof.
  intros W E. unfold on_extinfo in E. cbv zeta in E.
  apply bind_done in E as (alt & ? & ? & ? & [= <- <- _] & E & _).
  destruct (_ <? _)%nat; [apply send_msg_peers in E; by rewrite E|].
  unfold on_snd_extinfo in E. cbv zeta in E.
  apply bind_done in E as (ps & ? & ? & ? & [= <- <- _] & E & _).
  destruct (PeerManager.get (peers_ s) _) as [self|] eqn:G; [|by injection E as _ <- _].
  apply bind_done in E as ([] & s1 & ? & ? & [= <- _] & E & _).
  apply bind_done in E as (ps & s2 & ? & ? & [= <- <- _] & E & _).
  intros k Hk. assert (peers_ s' = peers_ (set_peers_ (PeerManager.upsert (now e) (peers_ s) (p_uuid self)
    (p_pub_addr self) (p_lan_addr self) (p_dev_type self) (p_nattype self)
    (if u16 (len p - 33) <=? Z.of_nat MAX_EXTINFO then slice 33 (Z.to_nat (u16 (len p - 33))) p else [])).2 s))
    as P. { case_match; [by apply send_msg_peers in E|by injection E as _ <- _]. }
  rewrite P in Hk. apply upsert_one in Hk as [->|Hk]; [|done].
  destruct (W _ _ G) as [-> _]. by exists self.
Qed.

(** C7: nobody is registered past the gates: if an identifier is in the registry
    after a packet and was not before, then the packet was either a heartbeat (in
    the clear, as an add request, or encrypted) for it, and it was authenticated
    if authentication is on, not blacklisted, and on the white list if that is on
    and not empty; or a registry row for it from a server, whose signature was
    checked. *)
Theorem only_admitted_register (e : env) (data : bytes) (from : sockaddr_in) (s s' : t) (o : list effect)
    (k : bytes) (Hs : server_inv s) (Hrun : handle_packet e data from s = Done (tt, s', o))
    (Hafter : is_Some (PeerManager.get (peers_ s') k)) (Hbefore : PeerManager.get (peers_ s) k = None) :
  exists m p, parse_frame data = Some (msg_id m, p) /\
    (heartbeat_for m p k /\ admitted e s k \/ m = MSG_SYNC_PEER_ENTRY /\ row_valid s k p).
Proof.
  destruct Hs as [W L]. unfold handle_packet in Hrun.
  destruct (parse_frame data) as [[id p]|]; [|by injection Hrun as <- _; rewrite Hbefore in Hafter; destruct Hafter].
  destruct (msg_of id) as [m|] eqn:Em; [|by injection Hrun as <- _; rewrite Hbefore in Hafter; destruct Hafter].
  apply msg_of_some in Em as <-. exists m, p. split; [done|].
  assert (no_new_peer (peers_ s) (peers_ s') -> False) as K.
  { intros K. apply K in Hafter. rewrite Hbefore in Hafter. by destruct Hafter. }
  assert (keeps (on_registry no_new_peer) (dispatch e from m p) -> False) as K2 by (intros K2; apply K2 in Hrun; auto).
  destruct (readonly m) eqn:Er; [by destruct K2; apply keeps_readonly; [apply _|]|].
  destruct m; try done; cbn [dispatch] in *.
  all: try (exfalso; apply K2; first
    [ apply keeps_delete; [apply _|intros; apply remove_no_peer]
    | apply keeps_sync_del; [apply _|intros; apply remove_no_peer]
    | apply keeps_login; [apply _|intros; apply set_auth_no_peer] ]; fail).
  all: try (destruct K; by eapply extinfo_no_peer).
  all: try (left; unfold on_heartbeat, on_heartbeat_enc in Hrun;
    destruct (_ <? _)%nat; [by destruct K; injection Hrun as <- _|]).
  all: try (apply heartbeat_new with (k := k) in Hrun as [-> X]; [split; [reflexivity|done]|done..]; fail).
  - apply bind_done in Hrun as (cfg & ? & ? & ? & [= <- <- _] & E & _).
    apply heartbeat_new with (k := k) in E as [-> X]; [split; [reflexivity|done]|done..].
  - right. split; [done|]. apply on_sync_entry_changes in Hrun as [E|(V & pub & lan & dt & nt & x & hb & E)].
    { destruct K. by rewrite E. }
    destruct (decide (k = c_str (terminate (sp_uuid (cdec SyncPeerEntry_codec p))))) as [->|N]; [done|].
    destruct (upsert_synced_other (peers_ s) _ pub lan dt nt x hb k N) as [E1 _].
    destruct K. unfold PeerManager.get in *. rewrite E, E1, Hbefore in Hafter. by destruct Hafter.
Qed.

Definition heartbeat_packet (uuid : bytes) : bytes :=
  frame (msg_id MSG_HEARTBEAT_REQ) (cenc UuidReq_codec (mkUuidReq (uuid_field uuid) 1 2 (htons 5000) 0 0)).

Lemma only_admitted_register_witness :
  exists m p, parse_frame (heartbeat_packet (bs "cam")) = Some (msg_id m, p) /\
    (heartbeat_for m p (bs "cam") /\ admitted quiet_env initial (bs "cam") \/
     m = MSG_SYNC_PEER_ENTRY /\ row_valid initial (bs "cam") p).
Proof.
  apply (only_admitted_register quiet_env (heartbeat_packet (bs "cam")) (mkAddr 16777343 5) initial
    (final (handle_packet quiet_env (heartbeat_packet (bs "cam")) (mkAddr 16777343 5) initial))
    (sent (handle_packet quiet_env (heartbeat_packet (bs "cam")) (mkAddr 16777343 5) initial)) (bs "cam")).
  - split; [apply PeerManager.wf_empty|reflexivity].
  - vm_compute. reflexivity.
  - apply (bool_decide_unpack _). vm_compute. exact I.
  - vm_compute. reflexivity.
Defined.

End ServerAuth.
