(* ===== verification/ServerLogin.v ===== *)
(** * The login exchange

    Challenge, login, replay, through the packet switch: what the server answers
    and what it remembers. *)

From S2P Require Import Prelude.
From S2P Require Import Bytes.
From S2P Require Import Wire.
From S2P Require Import ProtoDef.
From S2P Require Import NetUtil.
From S2P Require Import Packet.
From S2P Require Import Handler.
From S2P Require Import PeerManage.
From S2P Require Import AntiAbuse.
From S2P Require Import LicenseMgr.
From S2P Require Import CfgFile.
From S2P Require Import NatTypeCheck.
From S2P Require Import NatServer.
From S2P Require Import RecvProcess.
From S2P Require Import ServerSafety.
From S2P Require Import ServerAuth.

#[local] Open Scope Z_scope.

Module ServerLogin.
Import NatServer RecvProcess ServerSafety ServerAuth.

(** ** Stepping through a handler *)

Lemma send_msg_eq to id p s :
  (length p <= MAX_PKT - 8)%nat ->
  send_msg to id p s = Done (tt, s, [Send (mkDg MainSock to (frame (msg_id id) p))]).
Proof. intros H. unfold send_msg. by destruct (Nat.ltb_spec (MAX_PKT - 8) (length p)); [lia|]. Qed.

Lemma license_rejects_eq cfg uuid s :
  LicenseMgr.mu_ (license_ s) = false ->
  license_rejects cfg uuid s =
  Done (enable_license cfg && negb (bool_decide (LicenseMgr.uuids_ (license_ s) = ∅)
                                    || bool_decide (uuid ∈ LicenseMgr.uuids_ (license_ s))), s, []).
Proof.
  intros L. unfold license_rejects. destruct (enable_license cfg); [|done].
  unfold mbind, M_bind, on_license. rewrite LicenseMgr.allowed_done by done. by destruct s.
Qed.

(** The white list accepts an identifier. *)
Definition licensed (s : t) (uuid : bytes) : Prop :=
  enable_license (cfg_ s) = true ->
  LicenseMgr.uuids_ (license_ s) = ∅ \/ uuid ∈ LicenseMgr.uuids_ (license_ s).

Lemma licensed_not_rejected cfg s uuid :
  licensed s uuid -> enable_license cfg = enable_license (cfg_ s) -> LicenseMgr.mu_ (license_ s) = false ->
  license_rejects cfg uuid s = Done (false, s, []).
Proof.
  intros H E L. rewrite license_rejects_eq by done. rewrite E.
  destruct (enable_license (cfg_ s)) eqn:En; [|done]. do 3 f_equal.
  destruct (H En); [rewrite bool_decide_true by done; done|].
  rewrite (bool_decide_true (uuid ∈ _)) by done. by rewrite orb_true_r.
Qed.

(** The state after a blacklist query that finds nothing. *)
Definition queried (e : env) (uuid : bytes) (s : t) : t :=
  set_abuse_ (AntiAbuse.is_uuid_blacklisted (now e) uuid (abuse_ s)).2 s.

Lemma not_blocked_eq e uuid s :
  ~ AntiAbuse.uuid_blocked (now e) uuid (abuse_ s) ->
  on_abuse (AntiAbuse.is_uuid_blacklisted (now e) uuid) s = Done (false, queried e uuid s, []).
Proof.
  rewrite <- AntiAbuse.is_uuid_blacklisted_true. unfold on_abuse, queried.
  destruct (AntiAbuse.is_uuid_blacklisted _ _ _) as [[] x]; [done|done].
Qed.

Lemma blocked_later n n' uuid a :
  n <= n' -> ~ AntiAbuse.uuid_blocked n uuid a -> ~ AntiAbuse.uuid_blocked n' uuid a.
Proof. unfold AntiAbuse.uuid_blocked. naive_solver lia. Qed.

(** ** Requests on the wire *)

Definition challenge_packet (uuid : bytes) : bytes :=
  frame (msg_id MSG_AUTH_CHALLENGE_REQ) (cenc AuthChallengeReq_codec (mkAuthChallengeReq (uuid_field uuid))).

Lemma handle_frame e from s m p :
  len p < 4294967296 -> handle_packet e (frame (msg_id m) p) from s = dispatch e from m p s.
Proof.
  intros H. unfold handle_packet. pose proof (parse_frame_frame (msg_id m) p []) as E.
  rewrite app_nil_r in E. rewrite E; [by rewrite msg_of_id| |done].
  by destruct m; vm_compute; split.
Qed.

Lemma terminate_uuid_field uuid : uuid_ok uuid -> terminate (uuid_field uuid) = uuid_field uuid.
Proof. apply field_terminated. Qed.

Lemma request_uuid uuid : uuid_ok uuid -> c_str (terminate (uuid_field uuid)) = uuid.
Proof.
  intros H. rewrite terminate_uuid_field by done. destruct H as (N & B & L1 & L2).
  by apply c_str_uuid_field.
Qed.

Lemma challenge_cok uuid : uuid_ok uuid -> cok AuthChallengeReq_codec (mkAuthChallengeReq (uuid_field uuid)).
Proof. intros U. exact (uuid_field_cok _ U). Qed.

Lemma login_cok uuid nonce mac :
  uuid_ok uuid -> length nonce = 16%nat -> bytes_ok nonce -> length mac = 32%nat -> bytes_ok mac ->
  cok AuthLoginReq_codec (mkAuthLoginReq (uuid_field uuid) nonce mac).
Proof. intros U. split; [exact (uuid_field_cok _ U)|]. by repeat split. Qed.

(** ** The answers *)

Definition challenge_answer (to : sockaddr_in) (r : Z) (nonce : bytes) : effect :=
  Send (mkDg MainSock to (frame (msg_id MSG_AUTH_CHALLENGE_RSP)
    (cenc AuthChallengeRsp_codec (mkAuthChallengeRsp r nonce (htons 30))))).

Definition login_answer (to : sockaddr_in) (r : Z) : effect :=
  Send (mkDg MainSock to (frame (msg_id MSG_AUTH_LOGIN_RSP)
    (cenc AuthLoginRsp_codec (mkAuthLoginRsp r (htons 3600))))).

(** The next [n] octets of the random generator, and where it is after them. *)
Fixpoint draws (n : nat) (seed : Z) : bytes * Z :=
  match n with
  | O => ([], seed)
  | S n =>
      let '(r, seed) := rand_u32 seed in
      let '(l, seed) := draws n seed in
      (Z.land r 255 :: l, seed)
  end.

(** The nonce a challenge is answered with when the generator is at [seed]. *)
Definition fresh_nonce (seed : Z) : bytes := (draws 16 seed).1.

Lemma length_draws n seed : length (draws n seed).1 = n.
Proof.
  revert seed. induction n as [|n IH]; intros seed; [done|]. cbn [draws]. destruct (rand_u32 seed) as [r seed1].
  specialize (IH seed1). destruct (draws n seed1) as [l seed2]. cbn in *. by rewrite IH.
Qed.

Lemma draws_ok n seed : bytes_ok (draws n seed).1.
Proof.
  revert seed. induction n as [|n IH]; intros seed; [constructor|]. cbn [draws]. destruct (rand_u32 seed) as [r seed1].
  specialize (IH seed1). destruct (draws n seed1) as [l seed2]. constructor; [|done].
  rewrite land255. unfold byte_ok. apply Z.mod_pos_bound. lia.
Qed.

Lemma rand_octets_eq n s :
  rand_octets n s = Done ((draws n (rand_seed s)).1, set_rand_seed (draws n (rand_seed s)).2 s, []).
Proof.
  revert s. induction n as [|n IH]; intros s; cbn [rand_octets draws]; [by destruct s|].
  unfold rand32. unfold mbind, M_bind at 1. destruct (rand_u32 (rand_seed s)) as [r seed].
  specialize (IH (set_rand_seed seed s)). cbn [rand_seed set_rand_seed] in IH.
  destruct (draws n seed) as [l seed2]. unfold mbind, M_bind. rewrite IH. done.
Qed.

Lemma issue_auth_nonce_eq e uuid s :
  issue_auth_nonce e uuid s =
  Done (fresh_nonce (rand_seed s),
    set_auth_nonces_ (<[uuid := (fresh_nonce (rand_seed s), now e + 30)]> (auth_nonces_ s))
      (set_rand_seed (draws 16 (rand_seed s)).2 s), []).
Proof. unfold issue_auth_nonce. by rewrite (step_eq _ _ _ _ _ (rand_octets_eq 16 s)). Qed.

Lemma on_challenge_draws e from uuid s :
  uuid_ok uuid -> LicenseMgr.mu_ (license_ s) = false ->
  ~ AntiAbuse.uuid_blocked (now e) uuid (abuse_ s) -> licensed s uuid ->
  let nonce := fresh_nonce (rand_seed s) in
  on_auth_challenge e from (cenc AuthChallengeReq_codec (mkAuthChallengeReq (uuid_field uuid))) s =
  Done (tt, set_auth_nonces_ (<[uuid := (nonce, now e + 30)]> (auth_nonces_ s))
              (set_rand_seed (draws 16 (rand_seed s)).2 (queried e uuid s)), [challenge_answer from 0 nonce]).
Proof.
  intros U L B W nonce. unfold on_auth_challenge, read_or_zero.
  pose proof (challenge_cok _ U) as K.
  rewrite (codec_size _ K), Nat.ltb_irrefl. rewrite (cdec_alone _ _ K). cbn [acq_uuid].
  rewrite request_uuid by done. rewrite gets_eq. cbv zeta.
  rewrite (step_eq _ _ _ _ _ (not_blocked_eq e uuid s B)).
  rewrite (step_eq _ _ _ _ _ (licensed_not_rejected (cfg_ s) (queried e uuid s) uuid W eq_refl L)).
  rewrite (step_eq _ _ _ _ _ (issue_auth_nonce_eq e uuid (queried e uuid s))).
  apply send_msg_eq. rewrite codec_size; [unfold MAX_PKT; simpl; lia|]. simpl.
  pose proof (length_draws 16 (rand_seed s)). pose proof (draws_ok 16 (rand_seed s)).
  split_all; try done; apply htons_range.
Qed.

Lemma on_challenge_eq e from uuid s :
  uuid_ok uuid -> LicenseMgr.mu_ (license_ s) = false ->
  ~ AntiAbuse.uuid_blocked (now e) uuid (abuse_ s) -> licensed s uuid ->
  exists nonce seed,
    on_auth_challenge e from (cenc AuthChallengeReq_codec (mkAuthChallengeReq (uuid_field uuid))) s =
    Done (tt, set_auth_nonces_ (<[uuid := (nonce, now e + 30)]> (auth_nonces_ s))
                (set_rand_seed seed (queried e uuid s)), [challenge_answer from 0 nonce]) /\
    length nonce = 16%nat /\ bytes_ok nonce.
Proof.
  intros U L B W. exists (fresh_nonce (rand_seed s)), (draws 16 (rand_seed s)).2.
  split; [by apply on_challenge_draws|]. split; [apply length_draws|apply draws_ok].
Qed.

(** A nonce is spent by the first login that names its identifier, whatever its
    outcome. *)
Definition spent (uuid : bytes) (s : t) : t := set_auth_nonces_ (delete uuid (auth_nonces_ s)) s.

(** The verdict on a login for an identifier that has a nonce: in time, with that nonce, and
    signed; in any case the nonce is gone. *)
Lemma verify_spends e uuid nonce n mac ex s :
  auth_enabled (cfg_ s) = true -> auth_nonces_ s !! uuid = Some (nonce, ex) ->
  let ok := (now e <=? ex) && bool_decide (n = nonce) && bool_decide (login_mac (auth_secret (cfg_ s)) uuid nonce = mac) in
  verify_auth_login e uuid n mac s =
  Done (ok, if ok then set_peers_ (PeerManager.set_auth_expire (peers_ s) uuid (now e + 3600)) (spent uuid s)
            else spent uuid s, []).
Proof.
  intros A N. unfold verify_auth_login. rewrite !gets_eq, A. cbn [negb]. rewrite gets_eq, N.
  unfold mbind, M_bind, modify, on_peers, mret, M_ret.
  destruct (Z.ltb_spec ex (now e)); [by rewrite (proj2 (Z.leb_gt _ _))|]. rewrite (proj2 (Z.leb_le _ _)) by done.
  cbn [andb]. destruct (decide (n = nonce)) as [->|Hn]; [|by rewrite (bool_decide_false (nonce = n)), (bool_decide_false (n = nonce)) by congruence].
  rewrite !bool_decide_true by done. cbn [negb andb]. by destruct (bool_decide _).
Qed.

Lemma verify_issued e uuid nonce mac ex s :
  auth_enabled (cfg_ s) = true -> auth_nonces_ s !! uuid = Some (nonce, ex) -> now e <= ex ->
  let ok := bool_decide (login_mac (auth_secret (cfg_ s)) uuid nonce = mac) in
  verify_auth_login e uuid nonce mac s =
  Done (ok, if ok then set_peers_ (PeerManager.set_auth_expire (peers_ s) uuid (now e + 3600)) (spent uuid s)
            else spent uuid s, []).
Proof.
  intros A N X ok. pose proof (verify_spends e uuid nonce nonce mac ex s A N) as V.
  rewrite (proj2 (Z.leb_le _ _) X), bool_decide_true in V by done. exact V.
Qed.

Lemma verify_missing e uuid nonce mac s :
  auth_enabled (cfg_ s) = true -> auth_nonces_ s !! uuid = None ->
  verify_auth_login e uuid nonce mac s = Done (false, s, []).
Proof. intros A N. unfold verify_auth_login. rewrite gets_eq, A. cbn [negb]. by rewrite gets_eq, N. Qed.

Lemma on_login_eq e from uuid nonce mac s ok s2 :
  uuid_ok uuid -> LicenseMgr.mu_ (license_ s) = false ->
  ~ AntiAbuse.uuid_blocked (now e) uuid (abuse_ s) -> licensed s uuid ->
  length nonce = 16%nat -> bytes_ok nonce -> length mac = 32%nat -> bytes_ok mac ->
  verify_auth_login e uuid nonce mac (queried e uuid s) = Done (ok, s2, []) ->
  on_auth_login e from (cenc AuthLoginReq_codec (mkAuthLoginReq (uuid_field uuid) nonce mac)) s =
  Done (tt, s2, [login_answer from (if ok then AUTH_OK else AUTH_BAD_MAC)]).
Proof.
  intros U L B W N1 N2 M1 M2 V. unfold on_auth_login.
  pose proof (login_cok _ _ _ U N1 N2 M1 M2) as K.
  rewrite (codec_size _ K), Nat.ltb_irrefl. rewrite (cdec_alone _ _ K).
  cbn [alq_uuid alq_nonce alq_mac]. rewrite request_uuid by done. cbv zeta. rewrite gets_eq.
  rewrite (step_eq _ _ _ _ _ (not_blocked_eq e uuid s B)).
  rewrite (step_eq _ _ _ _ _ (licensed_not_rejected (cfg_ s) (queried e uuid s) uuid W eq_refl L)).
  rewrite (step_eq _ _ _ _ _ V). destruct ok; apply send_msg_eq; vm_compute; lia.
Qed.

Lemma queried_unblocked e uuid s n :
  now e <= n -> ~ AntiAbuse.uuid_blocked n uuid (abuse_ s) ->
  ~ AntiAbuse.uuid_blocked n uuid (abuse_ (queried e uuid s)).
Proof. intros Hn. cbn [abuse_ queried set_abuse_]. by rewrite AntiAbuse.is_uuid_blacklisted_keeps. Qed.

(** C14: the login exchange works and cannot be replayed.  For an identifier that is neither
    blacklisted nor refused by the white list, the challenge is answered with a nonce that is
    the next 16 octets of the server's random generator, which moves on past them.  The
    first login for the identifier after it, whenever it comes and whatever nonce and code
    it carries, is answered OK exactly when it comes at most 30 seconds after the challenge
    with that nonce and with the HMAC of identifier and nonce under the secret; then the
    identifier is authenticated for 3600 seconds, and otherwise nothing changes in the
    registry.  Any later login for it, the same packet included, is refused and changes no
    registration, until another challenge. *)
Theorem login_exchange (e1 e2 e3 : env) (from : sockaddr_in) (uuid n mac n' mac' : bytes) (s : t)
    (Hinv : server_inv s) (Hauth : auth_enabled (cfg_ s) = true) (Hu : uuid_ok uuid)
    (Hfree : ~ AntiAbuse.uuid_blocked (now e1) uuid (abuse_ s)) (Hlic : licensed s uuid)
    (H12 : now e1 <= now e2) (H23 : now e2 <= now e3)
    (Hlogin : length n = 16%nat /\ bytes_ok n /\ length mac = 32%nat /\ bytes_ok mac)
    (Hlater : length n' = 16%nat /\ bytes_ok n' /\ length mac' = 32%nat /\ bytes_ok mac') :
  let nonce := fresh_nonce (rand_seed s) in
  let ok := (now e2 <=? now e1 + 30) && bool_decide (n = nonce) &&
            bool_decide (login_mac (auth_secret (cfg_ s)) uuid nonce = mac) in
  exists s1 s2 s3,
    handle_packet e1 (challenge_packet uuid) from s = Done (tt, s1, [challenge_answer from 0 nonce]) /\
    rand_seed s1 = (draws 16 (rand_seed s)).2 /\
    handle_packet e2 (login_packet uuid n mac) from s1 =
      Done (tt, s2, [login_answer from (if ok then AUTH_OK else AUTH_BAD_MAC)]) /\
    (ok = true -> forall tm, PeerManager.authed tm (peers_ s2) uuid = (tm <? now e2 + 3600)) /\
    (ok = false -> peers_ s2 = peers_ s) /\
    handle_packet e3 (login_packet uuid n' mac') from s2 =
      Done (tt, s3, [login_answer from AUTH_BAD_MAC]) /\ peers_ s3 = peers_ s2.
Proof.
  intros nonce ok. destruct Hinv as [_ L], Hlogin as (N1 & N2 & M1 & M2), Hlater as (N1' & N2' & M1' & M2').
  pose proof (on_challenge_draws e1 from uuid s Hu L Hfree Hlic) as E1. cbv zeta in E1. fold nonce in E1.
  set (s1 := set_auth_nonces_ _ _) in E1.
  assert (~ AntiAbuse.uuid_blocked (now e2) uuid (abuse_ s1)) as F1.
  { apply (queried_unblocked e1); [lia|]. apply (blocked_later (now e1)); [lia|done]. }
  assert (auth_nonces_ (queried e2 uuid s1) !! uuid = Some (nonce, now e1 + 30)) as K1.
  { cbn. by rewrite lookup_insert_eq. }
  pose proof (verify_spends e2 uuid nonce n mac (now e1 + 30) (queried e2 uuid s1) Hauth K1) as V. cbv zeta in V.
  change (auth_secret (cfg_ (queried e2 uuid s1))) with (auth_secret (cfg_ s)) in V. fold ok in V.
  set (s2 := if ok then _ else _) in V.
  pose proof (on_login_eq e2 from uuid n mac s1 ok s2 Hu L F1 Hlic N1 N2 M1 M2 V) as E2.
  assert (auth_nonces_ s2 !! uuid = None) as K2 by (unfold s2; destruct ok; cbn; by rewrite lookup_delete_eq).
  assert (abuse_ s2 = abuse_ (queried e2 uuid s1) /\ cfg_ s2 = cfg_ s /\ license_ s2 = license_ s)
    as (A2 & C2 & L2) by (unfold s2; destruct ok; auto).
  assert (~ AntiAbuse.uuid_blocked (now e3) uuid (abuse_ s2)) as F2.
  { rewrite A2. apply queried_unblocked; [done|]. apply (blocked_later (now e2)); [lia|done]. }
  exists s1, s2, (queried e3 uuid s2). split; [|split; [done|split; [|split; [|split; [|split; [|done]]]]]].
  - unfold challenge_packet. rewrite handle_frame; [exact E1|].
    rewrite (cenc_len _ _ (challenge_cok _ Hu)). reflexivity.
  - unfold login_packet. rewrite handle_frame; [exact E2|].
    rewrite (cenc_len _ _ (login_cok _ _ _ Hu N1 N2 M1 M2)). reflexivity.
  - intros Hok tm. unfold s2. rewrite Hok. cbn [peers_ set_peers_].
    unfold PeerManager.authed. cbn. rewrite lookup_insert_eq, lookup_alter_eq.
    destruct (tm <? now e2 + 3600) eqn:T; [done|]. by destruct (PeerManager.peers_ (peers_ s) !! uuid).
  - intros Hok. unfold s2. by rewrite Hok.
  - unfold login_packet. rewrite handle_frame.
    + apply (on_login_eq e3 from uuid n' mac' s2 false); try done.
      * by rewrite L2.
      * unfold licensed. by rewrite C2, L2.
      * apply verify_missing; [|exact K2]. cbn. by rewrite C2.
    + rewrite (cenc_len _ _ (login_cok _ _ _ Hu N1' N2' M1' M2')). reflexivity.
Qed.

(** A login that is accepted, and the same packet again. *)
Lemma login_exchange_witness :
  let e n := mkEnv n (fun _ => true) [] [] in
  let from := mkAddr 16777343 5 in
  let nonce := fresh_nonce (rand_seed challenged) in
  let mac := login_mac (bs "secret") (bs "cam") nonce in
  exists s1 s2 s3,
    handle_packet (e 1000) (challenge_packet (bs "cam")) from challenged =
      Done (tt, s1, [challenge_answer from 0 nonce]) /\
    handle_packet (e 1005) (login_packet (bs "cam") nonce mac) from s1 = Done (tt, s2, [login_answer from AUTH_OK]) /\
    PeerManager.authed 4604 (peers_ s2) (bs "cam") = true /\
    handle_packet (e 1006) (login_packet (bs "cam") nonce mac) from s2 = Done (tt, s3, [login_answer from AUTH_BAD_MAC]) /\
    peers_ s3 = peers_ s2.
Proof.
  intros e from nonce mac.
  destruct (login_exchange (e 1000) (e 1005) (e 1006) from (bs "cam") nonce mac nonce mac challenged)
    as (s1 & s2 & s3 & E1 & _ & E2 & A & _ & E3 & P).
  - split; [apply PeerManager.wf_empty|exact eq_refl].
  - exact eq_refl.
  - split; [|split]; [decide_now|decide_now|vm_compute; lia].
  - intros (_ & ex & H & _). by vm_compute in H.
  - intros H. by vm_compute in H.
  - cbn. lia.
  - cbn. lia.
  - split; [apply length_draws|split; [apply draws_ok|split; [exact eq_refl|decide_now]]].
  - split; [apply length_draws|split; [apply draws_ok|split; [exact eq_refl|decide_now]]].
  - exists s1, s2, s3. split; [exact E1|]. split.
    + rewrite E2. f_equal.
    + split; [|split; [exact E3|exact P]]. rewrite A by (vm_compute; reflexivity). reflexivity.
Defined.

End ServerLogin.
