(* ===== verification/ServerConnect.v ===== *)
(** * Introductions

    The choice of relay candidates and the CONNECT request: what both sides are
    told, and when the request is refused. *)

From S2P Require Import Prelude.
From S2P Require Import Bytes.
From S2P Require Import Wire.
From S2P Require Import ProtoDef.
From S2P Require Import NetUtil.
From S2P Require Import Packet.
From S2P Require Import Handler.
From S2P Require Import PeerManage.
From S2P Require Import AntiAbuse.
From S2P Require Import LicenseMgr.
From S2P Require Import CfgFile.
From S2P Require Import NatTypeCheck.
From S2P Require Import ProxyWeight.
From S2P Require Import NatServer.
From S2P Require Import RecvProcess.
From S2P Require Import ServerSafety.
From S2P Require Import ServerAuth.
From S2P Require Import ServerLogin.

#[local] Open Scope Z_scope.

Module ServerConnect.
Import NatServer RecvProcess ServerSafety ServerAuth ServerLogin.

(** ** Relay candidates *)

(** An address text that fits a candidate's field. *)
Definition ip_text (ip : bytes) : Prop := no_nul ip /\ bytes_ok ip /\ (length ip <= 15)%nat.

Definition cand_ip (c : ProxyCandidate) : bytes := c_str (pc_ip c).

Lemma cand_ip_candidate port ip : ip_text ip -> cand_ip (candidate port ip) = ip.
Proof. intros (N & _ & L). apply c_str_strncpy_z; [done|done|lia]. Qed.

Lemma is_dup_spec out ip : is_dup out ip = true <-> ip ∈ map cand_ip out.
Proof.
  unfold is_dup. rewrite existsb_exists, list_elem_of_fmap. unfold cand_ip.
  split; intros (c & H1 & H2); exists c.
  - apply bool_decide_eq_true in H2. by rewrite list_elem_of_In.
  - rewrite bool_decide_eq_true, <- list_elem_of_In. done.
Qed.

(** Distinct candidates for this port, at most [n], from known addresses. *)
Definition picked (port : Z) (known : list bytes) (n : nat) (out : list ProxyCandidate) : Prop :=
  (length out <= n)%nat /\ NoDup (map cand_ip out) /\
  Forall (fun c => exists ip, ip ∈ known /\ c = candidate port ip) out.

Lemma picked_snoc port known n out ip :
  Forall ip_text known -> ip ∈ known -> is_dup out ip = false -> (length out < n)%nat ->
  picked port known n out -> picked port known n (out ++ [candidate port ip]).
Proof.
  intros K I D L (_ & N & F). rewrite Forall_forall in K. unfold picked. split_all.
  - rewrite length_app. simpl. lia.
  - rewrite map_app. apply NoDup_app. split_all; [done| |apply NoDup_singleton].
    intros x Hx. simpl. rewrite cand_ip_candidate by auto. intros ->%list_elem_of_singleton.
    apply is_dup_spec in Hx. congruence.
  - apply Forall_app_2; [done|]. repeat constructor. eauto.
Qed.

Lemma pick_weighted_in cands s ip s' o :
  pick_weighted cands s = Done (ip, s', o) -> cands <> [] ->
  (ip = [] \/ ip ∈ map fst cands) /\ o = [] /\ exists seed, s' = set_rand_seed seed s.
Proof.
  unfold pick_weighted. intros E N. destruct (not_positive _).
  { injection E as <- <- <-. split_all; [by left|done|]. exists (rand_seed s). by destruct s. }
  apply bind_done in E as (x & s1 & o1 & o2 & E & [= <- <- <-] & ->).
  revert E. unfold rand32. destruct (rand_u32 _) as [r seed]. intros [= <- <- <-].
  split_all; [right|done|by eexists]. apply list_elem_of_In, pick_at_in.
  destruct cands as [|c cands] using rev_ind; [done|]. rewrite last_snoc, map_app. simpl.
  apply in_app_iff. right. by left.
Qed.

Lemma pick_rounds_picked k cands port out known s n :
  Forall ip_text known -> (forall ip, ip ∈ map fst cands -> ip ∈ known) ->
  picked port known n out -> (length out + k <= n)%nat ->
  exists out' seed, pick_rounds k cands port out s = Done (out', set_rand_seed seed s, []) /\
    picked port known n out'.
Proof.
  intros K I. revert out s. induction k as [|k IH]; intros out s P L; cbn [pick_rounds].
  { exists out, (rand_seed s). by destruct s. }
  destruct (Nat.eqb_spec (length cands) 0) as [Z0|Z0].
  { exists out, (rand_seed s). by destruct s. }
  assert (exists ip s1, pick_weighted cands s = Done (ip, s1, [])) as (ip & s1 & E).
  { unfold pick_weighted. destruct (not_positive _); [by do 2 eexists|].
    unfold mbind, M_bind, rand32. destruct (rand_u32 _). by do 2 eexists. }
  destruct (pick_weighted_in _ _ _ _ _ E) as (M & _ & seed & ->); [by destruct cands|].
  rewrite (step_eq _ _ _ _ _ E).
  edestruct (IH (if negb (length ip =? 0)%nat && negb (is_dup out ip) then out ++ [candidate port ip] else out)
    (set_rand_seed seed s)) as (out' & seed' & E' & P').
  - destruct (is_dup out ip) eqn:D; [by rewrite andb_false_r|]. rewrite andb_true_r.
    destruct (Nat.eqb_spec (length ip) 0) as [Z1|Z1]; [done|]. simpl.
    destruct M as [->|M]; [done|]. apply picked_snoc; [done|by apply I|done|lia|done].
  - destruct (negb _ && _); rewrite ?length_app; simpl; lia.
  - exists out', seed'. by rewrite E'.
Qed.

Lemma pick_fallback_picked ips port known out :
  Forall ip_text known -> (forall ip, ip ∈ ips -> ip ∈ known) -> picked port known 3 out ->
  picked port known 3 (pick_fallback ips port out) /\
  (length (pick_fallback ips port out) = 3%nat \/
   forall ip, ip ∈ ips -> ip ∈ map cand_ip (pick_fallback ips port out)).
Proof.
  intros K. revert out. induction ips as [|ip ips IH]; intros out I P; cbn [pick_fallback].
  { split; [done|right]. intros ip Hi. by apply not_elem_of_nil in Hi. }
  assert (forall ip, ip ∈ ips -> ip ∈ known) as I' by set_solver.
  assert (forall l out x, x ∈ map cand_ip out -> x ∈ map cand_ip (pick_fallback l port out)) as G.
  { induction l as [|y l IHl]; intros out' x Hx; cbn [pick_fallback]; [done|].
    destruct (3 <=? _)%nat; [done|]. destruct (is_dup _ _); [by apply IHl|].
    apply IHl. rewrite map_app. set_solver. }
  destruct (Nat.leb_spec 3 (length out)). { split; [done|left]. destruct P as [L _]. lia. }
  destruct (is_dup out ip) eqn:D.
  - destruct (IH out I' P) as [P' C]. split; [done|]. destruct C as [C|C]; [by left|right].
    intros x [->|Hx]%elem_of_cons; [|by apply C]. apply G. by apply is_dup_spec.
  - assert (ip ∈ known) as Ik by set_solver.
    destruct (IH (out ++ [candidate port ip]) I') as [P' C]; [by apply picked_snoc|].
    split; [done|]. destruct C as [C|C]; [by left|right].
    intros x [->|Hx]%elem_of_cons; [|by apply C]. apply G. rewrite map_app. simpl.
    rewrite Forall_forall in K. rewrite cand_ip_candidate by auto. set_solver.
Qed.

(** The addresses the server may name: the configured relays and those that
    answered a query. *)
Definition relays (e : env) (s : t) : list bytes :=
  map ph_ip (List.filter (healthy e) (proxy_health_ s)) ++ proxy_ips (cfg_ s).

Lemma pick_proxy_picks (e : env) (s : t) (Hip : Forall ip_text (relays e s)) :
  exists out seed, pick_proxy e s = Done (out, set_rand_seed seed s, []) /\
    picked (proxy_port_ s) (relays e s) 3 out /\
    (length out = 3%nat \/ forall ip, ip ∈ proxy_ips (cfg_ s) -> ip ∈ map cand_ip out).
Proof.
  unfold pick_proxy. rewrite !gets_eq. cbv zeta.
  set (cands := map _ (List.filter _ _)).
  assert (map fst cands = map ph_ip (List.filter (healthy e) (proxy_health_ s))) as Ec
    by (unfold cands; by rewrite map_map).
  destruct (pick_rounds_picked 3 cands (proxy_port_ s) [] (relays e s) s 3) as (out & seed & E & P);
    [done| |by split; [simpl; lia|split; constructor]|done|].
  { intros ip. rewrite Ec. unfold relays. set_solver. }
  rewrite (step_eq _ _ _ _ _ E). eexists _, seed. split; [done|].
  apply pick_fallback_picked; [done| |done]. unfold relays. set_solver.
Qed.

(** Relay candidates are at most three, distinct, with the configured port,
    and each is a configured relay or one that answered within 30 seconds, has
    room and failed at most once; when fewer than three are named, every configured
    relay is among them.  Choosing changes nothing but the random seed. *)
Theorem pick_proxy_sound (e : env) (s : t) (Hip : Forall ip_text (relays e s)) :
  exists out seed, pick_proxy e s = Done (out, set_rand_seed seed s, []) /\
    picked (proxy_port_ s) (relays e s) 3 out /\
    (length out = 3%nat \/ forall ip, ip ∈ proxy_ips (cfg_ s) -> ip ∈ map cand_ip out).
Proof. by apply pick_proxy_picks. Qed.

Lemma pick_proxy_sound_witness :
  let s := set_cfg_ (set_proxy_ips [bs "10.0.0.1"; bs "10.0.0.2"] cfg_default) initial in
  exists out seed, pick_proxy quiet_env s = Done (out, set_rand_seed seed s, []) /\
    picked (proxy_port_ s) (relays quiet_env s) 3 out /\
    (length out = 3%nat \/ forall ip, ip ∈ proxy_ips (cfg_ s) -> ip ∈ map cand_ip out).
Proof.
  intros s. apply (pick_proxy_sound quiet_env s).
  repeat constructor; try decide_now; vm_compute; lia.
Defined.

(** ** The request and the two notices *)

Definition connect_packet (src dst : bytes) : bytes :=
  frame (msg_id MSG_CONNECT_REQ) (cenc ConnectReq_codec (mkConnectReq (uuid_field src) (uuid_field dst))).

(** Fields that fit a notice. *)
Definition peer_fits (p : Peer) : Prop :=
  u16_ok (sin_port (p_pub_addr p)) /\ u16_ok (sin_port (p_lan_addr p)) /\ byte_ok (p_nattype p).

Lemma candidate_cok port ip : ip_text ip -> cok ProxyCandidate_codec (candidate port ip).
Proof.
  intros (_ & B & _). split; [split; [apply length_strncpy_z|by apply strncpy_z_ok]|apply htons_range].
Qed.

Lemma slots_cok port known out :
  Forall ip_text known -> picked port known 3 out -> cok (c_rep 3 ProxyCandidate_codec) (proxy_slots out).
Proof.
  intros K (L & _ & F). unfold proxy_slots. rewrite Forall_forall in K. split.
  - rewrite length_take, length_app, length_replicate. lia.
  - apply Forall_take, Forall_app_2.
    + eapply Forall_impl; [exact F|]. intros c (ip & Hi & ->). by apply candidate_cok, K.
    + apply Forall_replicate. split; [split; [done|apply bytes_ok_replicate]|]. by vm_compute.
Qed.

Lemma len_slots port known out : picked port known 3 out -> byte_ok (len out).
Proof. intros (L & _). unfold byte_ok, len. lia. Qed.

Lemma copy_uuid_terminated uuid : uuid_ok uuid -> copy_uuid (terminate (uuid_field uuid)) = uuid_field uuid.
Proof. intros U. rewrite terminate_uuid_field by done. apply terminate_uuid_field, U. Qed.

Lemma ack_cok port known out dst d :
  uuid_ok dst -> peer_fits d -> Forall ip_text known -> picked port known 3 out ->
  cok ConnectAck_codec (connect_ack (terminate (uuid_field dst)) d out).
Proof.
  intros U (P1 & P2 & P3) K P. unfold connect_ack. rewrite copy_uuid_terminated by done.
  repeat split; try apply ip_field_cok; try apply (uuid_field_cok _ U); try apply P1; try apply P2;
    try apply P3; try apply (len_slots _ _ _ P); try apply (slots_cok _ _ _ K P).
  all: done.
Qed.

Lemma invite_cok port known out src from p :
  uuid_ok src -> u16_ok (sin_port from) -> (forall q, p = Some q -> peer_fits q) ->
  Forall ip_text known -> picked port known 3 out ->
  cok ConnectInvite_codec (connect_invite (terminate (uuid_field src)) from p out).
Proof.
  intros U F Q K P. unfold connect_invite. rewrite copy_uuid_terminated by done.
  assert (u16_ok (sin_port (match p with Some s => p_lan_addr s | None => from end)) /\
    byte_ok (match p with Some s => p_nattype s | None => nat_type NAT_UNKNOWN end)) as [H1 H2].
  { destruct p as [q|]; [destruct (Q q eq_refl) as (?&?&?); done|done]. }
  repeat split; try apply ip_field_cok; try apply (uuid_field_cok _ U); try apply F; try apply H1;
    try apply H2; try apply (len_slots _ _ _ P); try apply (slots_cok _ _ _ K P).
Qed.

(** The verdict on a request. *)
Definition connect_code (e : env) (s : t) (src dst : bytes) : Z :=
  if auth_enabled (cfg_ s) && negb (PeerManager.authed (now e) (peers_ s) src) then 3
  else if enable_license (cfg_ s) && negb (bool_decide (LicenseMgr.uuids_ (license_ s) = ∅)
            || bool_decide (src ∈ LicenseMgr.uuids_ (license_ s))) then CONNECT_NOT_FOUND
  else match PeerManager.get (peers_ s) dst with None => CONNECT_NOT_FOUND | Some _ => CONNECT_OK end.

Lemma connect_cok src dst :
  uuid_ok src -> uuid_ok dst -> cok ConnectReq_codec (mkConnectReq (uuid_field src) (uuid_field dst)).
Proof. intros U V. split; by apply uuid_field_cok. Qed.

(** The request handler, once the request is read. *)
Lemma handle_connect e src dst from s :
  uuid_ok src -> uuid_ok dst -> LicenseMgr.mu_ (license_ s) = false ->
  handle_packet e (connect_packet src dst) from s =
  (let dst33 := terminate (uuid_field dst) in
   match PeerManager.get (peers_ s) dst with
   | Some d =>
       if connect_code e s src dst =? CONNECT_OK then
         (proxies ← pick_proxy e;
          send_msg from MSG_CONNECT_ACK (cenc ConnectAck_codec (connect_ack dst33 d proxies));;
          proxies ← pick_proxy e;
          send_msg (p_pub_addr d) MSG_CONNECT_INVITE
            (cenc ConnectInvite_codec
               (connect_invite (terminate (uuid_field src)) from (PeerManager.get (peers_ s) src) proxies));;
          inc_connect_ok) s
       else refuse_connect from (connect_code e s src dst) dst33 s
   | None => refuse_connect from (connect_code e s src dst) dst33 s
   end).
Proof.
  intros U V L. pose proof (connect_cok _ _ U V) as K. unfold connect_packet.
  rewrite handle_frame by (rewrite (cenc_len _ _ K); reflexivity). cbn [dispatch].
  unfold on_connect. rewrite (codec_size _ K), Nat.ltb_irrefl, (cdec_alone _ _ K).
  cbn [cr_src_uuid cr_dst_uuid]. cbv zeta. rewrite !gets_eq, !request_uuid by done. unfold connect_code.
  destruct (auth_enabled _ && _); [by destruct (PeerManager.get _ dst)|].
  rewrite (step_eq _ _ _ _ _ (license_rejects_eq (cfg_ s) src s L)).
  destruct (enable_license _ && _); by destruct (PeerManager.get _ dst).
Qed.

(** The two notices as they are sent. *)
Lemma connect_sends e src dst from s d :
  server_inv s -> uuid_ok src -> uuid_ok dst -> u16_ok (sin_port from) ->
  PeerManager.get (peers_ s) dst = Some d -> connect_code e s src dst = CONNECT_OK ->
  map_Forall (fun _ p => peer_fits p) (PeerManager.peers_ (peers_ s)) -> Forall ip_text (relays e s) ->
  exists s' out1 out2,
    let a := connect_ack (terminate (uuid_field dst)) d out1 in
    let i := connect_invite (terminate (uuid_field src)) from (PeerManager.get (peers_ s) src) out2 in
    handle_packet e (connect_packet src dst) from s =
      Done (tt, s', [Send (mkDg MainSock from (frame (msg_id MSG_CONNECT_ACK) (cenc ConnectAck_codec a)));
                     Send (mkDg MainSock (p_pub_addr d) (frame (msg_id MSG_CONNECT_INVITE) (cenc ConnectInvite_codec i)))]) /\
    cok ConnectAck_codec a /\ cok ConnectInvite_codec i /\
    peers_ s' = peers_ s /\ connect_ok_ s' = u64 (connect_ok_ s + 1) /\ connect_fail_ s' = connect_fail_ s.
Proof.
  intros [_ L] Hs Hd Hf Hget Hcode Hfits Hip. rewrite handle_connect by done. rewrite Hget, Hcode, Z.eqb_refl. cbv zeta.
  destruct (pick_proxy_picks e s Hip) as (out1 & seed1 & E1 & P1 & _).
  destruct (pick_proxy_picks e (set_rand_seed seed1 s) Hip) as (out2 & seed2 & E2 & P2 & _).
  pose proof (ack_cok _ _ out1 dst d Hd (Hfits _ _ Hget) Hip P1) as K1.
  assert (forall q, PeerManager.get (peers_ s) src = Some q -> peer_fits q) as Q
    by (intros q Hq; exact (Hfits _ _ Hq)).
  pose proof (invite_cok _ _ out2 src from _ Hs Hf Q Hip P2) as K2.
  rewrite (step_eq _ _ _ _ _ E1). eexists _, out1, out2. split.
  - eapply (bind_eq _ _ _ _ _ [_]); [apply send_msg_eq; rewrite (codec_size _ K1); vm_compute; lia|].
    rewrite (step_eq _ _ _ _ _ E2).
    eapply (bind_eq _ _ _ _ _ [_]); [apply send_msg_eq; rewrite (codec_size _ K2); vm_compute; lia|]. done.
  - split; [exact K1|]. split; [exact K2|]. done.
Qed.

(** An introduction tells both sides where the other is.  When the initiator
    passes the gates and the target is registered, the server sends exactly two
    datagrams: to the sender, the target's public and private address and NAT
    type; to the target's registered address, the sender's observed address, and
    its private address and NAT type if it is registered.  Both carry relay
    candidates.  The registry is unchanged and the success counter goes up. *)
Theorem connect_introduces (e : env) (src dst : bytes) (from : sockaddr_in) (s : t) (d : Peer)
    (Hinv : server_inv s) (Hs : uuid_ok src) (Hd : uuid_ok dst) (Hf : u16_ok (sin_port from))
    (Hget : PeerManager.get (peers_ s) dst = Some d) (Hcode : connect_code e s src dst = CONNECT_OK)
    (Hfits : map_Forall (fun _ p => peer_fits p) (PeerManager.peers_ (peers_ s)))
    (Hip : Forall ip_text (relays e s)) :
  exists s' ack inv a i,
    handle_packet e (connect_packet src dst) from s = Done (tt, s', [Send ack; Send inv]) /\
    dg_to ack = from /\ reads ConnectAck_codec MSG_CONNECT_ACK ack a /\
    ca_result a = CONNECT_OK /\ c_str (ca_dst_uuid a) = dst /\
    c_str (ca_dst_pub_ip a) = inet_ntop (s_addr (p_pub_addr d)) /\
    ca_dst_pub_port a = sin_port (p_pub_addr d) /\
    c_str (ca_dst_lan_ip a) = inet_ntop (s_addr (p_lan_addr d)) /\
    ca_dst_lan_port a = sin_port (p_lan_addr d) /\ ca_dst_nattype a = p_nattype d /\
    dg_to inv = p_pub_addr d /\ reads ConnectInvite_codec MSG_CONNECT_INVITE inv i /\
    c_str (ci_src_uuid i) = src /\ c_str (ci_src_pub_ip i) = inet_ntop (s_addr from) /\
    ci_src_pub_port i = sin_port from /\
    (forall p, PeerManager.get (peers_ s) src = Some p ->
       c_str (ci_src_lan_ip i) = inet_ntop (s_addr (p_lan_addr p)) /\
       ci_src_lan_port i = sin_port (p_lan_addr p) /\ ci_src_nattype i = p_nattype p) /\
    peers_ s' = peers_ s /\ connect_ok_ s' = u64 (connect_ok_ s + 1) /\ connect_fail_ s' = connect_fail_ s.
Proof.
  destruct (connect_sends e src dst from s d Hinv Hs Hd Hf Hget Hcode Hfits Hip)
    as (s' & out1 & out2 & E & K1 & K2 & Hp & Ho & Hn).
  eexists s', _, _, _, _. split; [exact E|].
  split; [done|]. split; [apply reads_frame; [apply _|exact K1|reflexivity]|].
  repeat match goal with |- _ /\ _ => split end.
  all: try (apply reads_frame; [apply _|exact K2|reflexivity]).
  all: unfold connect_ack, connect_invite; rewrite ?copy_uuid_terminated by done.
  all: cbn [ca_result ca_dst_uuid ca_dst_pub_ip ca_dst_pub_port ca_dst_lan_ip ca_dst_lan_port ca_dst_nattype
    ci_src_uuid ci_src_pub_ip ci_src_pub_port ci_src_lan_ip ci_src_lan_port ci_src_nattype].
  all: rewrite ?c_str_ip_field; try done.
  all: try (apply c_str_uuid_field; first [apply Hs | apply Hd]).
  by intros p ->.
Qed.

(** C29: a refused introduction reveals nothing: when the initiator is not
    authenticated (code 3), is refused by the white list, or the target is not
    registered (code 2), the only datagram goes back to the sender, with the code,
    the target's identifier and otherwise zeros, nobody else hears of it, the
    registry is unchanged and the failure counter goes up. *)
Theorem connect_refused (e : env) (src dst : bytes) (from : sockaddr_in) (s : t)
    (Hinv : server_inv s) (Hs : uuid_ok src) (Hd : uuid_ok dst)
    (Hcode : connect_code e s src dst <> CONNECT_OK) :
  exists s' ack,
    handle_packet e (connect_packet src dst) from s = Done (tt, s', [Send ack]) /\
    dg_to ack = from /\
    reads ConnectAck_codec MSG_CONNECT_ACK ack
      (mkConnectAck (connect_code e s src dst) (uuid_field dst) (replicate 16 0) 0 (replicate 16 0) 0 0 0
         (replicate 3 (mkProxyCandidate (replicate 16 0) 0))) /\
    peers_ s' = peers_ s /\ connect_fail_ s' = u64 (connect_fail_ s + 1) /\ connect_ok_ s' = connect_ok_ s.
Proof.
  destruct Hinv as [_ L]. rewrite handle_connect by done. cbv zeta.
  assert (byte_ok (connect_code e s src dst)) as B.
  { unfold connect_code. repeat case_match; by vm_compute. }
  assert (cok ConnectAck_codec (failed_ack (connect_code e s src dst) (terminate (uuid_field dst)))) as K.
  { unfold failed_ack. rewrite copy_uuid_terminated by done.
    repeat split; try apply (uuid_field_cok _ Hd); try apply B; try apply bytes_ok_replicate; try by vm_compute.
    apply (Forall_replicate _ 3). repeat split; [apply bytes_ok_replicate|by vm_compute..]. }
  assert (forall m, m = refuse_connect from (connect_code e s src dst) (terminate (uuid_field dst)) ->
    exists s' ack, m s = Done (tt, s', [Send ack]) /\ dg_to ack = from /\
      reads ConnectAck_codec MSG_CONNECT_ACK ack
        (failed_ack (connect_code e s src dst) (terminate (uuid_field dst))) /\
      peers_ s' = peers_ s /\ connect_fail_ s' = u64 (connect_fail_ s + 1) /\ connect_ok_ s' = connect_ok_ s) as R.
  { intros m ->. do 2 eexists. split.
    - unfold refuse_connect. eapply (bind_eq _ _ _ _ _ [_]); [|done].
      apply send_msg_eq. rewrite (codec_size _ K). vm_compute. lia.
    - split; [done|]. split; [apply reads_frame; [apply _|exact K|reflexivity]|done]. }
  unfold failed_ack in R. rewrite copy_uuid_terminated in R by done.
  apply Z.eqb_neq in Hcode. destruct (PeerManager.get (peers_ s) dst); rewrite ?Hcode; by apply R.
Qed.

(** ** Witnesses *)

Definition cam : Peer :=
  mkPeer (bs "cam") (mkAddr 33663172 20480) (mkAddr 167880896 20480) 1 2 900 900 0 0 [].

(** A server that knows [cam] and one relay. *)
Definition ready : t :=
  set_peers_ (PeerManager.mk {[ bs "cam" := cam ]} ∅)
    (set_cfg_ (set_proxy_ips [bs "10.0.0.1"] cfg_default) initial).

Lemma ready_inv : server_inv ready.
Proof.
  split; [|exact eq_refl]. apply map_Forall_singleton. repeat split. vm_compute. lia.
Qed.

Lemma app_uuid_ok : uuid_ok (bs "app") /\ uuid_ok (bs "cam").
Proof. split; (split; [decide_now|split; [decide_now|vm_compute; lia]]). Qed.

Lemma connect_introduces_witness :
  exists s' ack inv, handle_packet quiet_env (connect_packet (bs "app") (bs "cam")) (mkAddr 16777343 5) ready
    = Done (tt, s', [Send ack; Send inv]) /\ dg_to inv = p_pub_addr cam.
Proof.
  destruct (connect_introduces quiet_env (bs "app") (bs "cam") (mkAddr 16777343 5) ready cam)
    as (s' & ack & inv & a & i & E & _ & _ & _ & _ & _ & _ & _ & _ & _ & T & _).
  - apply ready_inv.
  - apply app_uuid_ok.
  - apply app_uuid_ok.
  - by vm_compute.
  - by vm_compute.
  - by vm_compute.
  - apply map_Forall_singleton. by vm_compute.
  - repeat constructor; try decide_now; vm_compute; lia.
  - exists s', ack, inv. by split.
Defined.

Lemma connect_refused_witness :
  exists s' ack, handle_packet quiet_env (connect_packet (bs "cam") (bs "app")) (mkAddr 16777343 5) ready
    = Done (tt, s', [Send ack]) /\ dg_to ack = mkAddr 16777343 5 /\ connect_fail_ s' = 1.
Proof.
  destruct (connect_refused quiet_env (bs "cam") (bs "app") (mkAddr 16777343 5) ready)
    as (s' & ack & E & T & _ & _ & F & _).
  - apply ready_inv.
  - apply app_uuid_ok.
  - apply app_uuid_ok.
  - by vm_compute.
  - exists s', ack. by split.
Defined.

End ServerConnect.
