(* ===== verification/ServerQueries.v ===== *)
(** * What the server answers

    Heartbeats, the device and server lists, administration and removal, through
    the packet switch. *)

From S2P Require Import Prelude.
From S2P Require Import Bytes.
From S2P Require Import Wire.
From S2P Require Import ProtoDef.
From S2P Require Import NetUtil.
From S2P Require Import Hmac.
From S2P Require Import Packet.
From S2P Require Import Handler.
From S2P Require Import PeerManage.
From S2P Require Import AntiAbuse.
From S2P Require Import LicenseMgr.
From S2P Require Import CfgFile.
From S2P Require Import NatTypeCheck.
From S2P Require Import NatServer.
From S2P Require Import RecvProcess.
From S2P Require Import ServerSafety.
From S2P Require Import ServerAuth.
From S2P Require Import ServerLogin.
From S2P Require Import ServerConnect.

#[local] Open Scope Z_scope.

Module ServerQueries.
Import NatServer RecvProcess ServerSafety ServerAuth ServerLogin ServerConnect.

(** ** Heartbeats *)

Definition request (uuid : bytes) (dev_type nattype lan_port : Z) : UuidReq :=
  mkUuidReq (uuid_field uuid) dev_type nattype lan_port 0 0.

Definition heartbeat (uuid : bytes) (dev_type nattype lan_port : Z) : bytes :=
  frame (msg_id MSG_HEARTBEAT_REQ) (cenc UuidReq_codec (request uuid dev_type nattype lan_port)).

Definition request_ok (uuid : bytes) (dev_type nattype lan_port : Z) : Prop :=
  uuid_ok uuid /\ byte_ok dev_type /\ byte_ok nattype /\ u16_ok lan_port.

(** Blacklisted, or refused by the white list. *)
Definition refusal (e : env) (s : t) (uuid : bytes) : bool :=
  (AntiAbuse.is_uuid_blacklisted (now e) uuid (abuse_ s)).1 ||
  enable_license (cfg_ s) && negb (bool_decide (LicenseMgr.uuids_ (license_ s) = ∅)
                                   || bool_decide (uuid ∈ LicenseMgr.uuids_ (license_ s))).

(** The verdict on a heartbeat. *)
Definition heartbeat_code (e : env) (s : t) (uuid : bytes) : Z :=
  if auth_enabled (cfg_ s) && negb (PeerManager.authed (now e) (peers_ s) uuid) then 1
  else if refusal e s uuid then 2 else 0.

Lemma request_cok uuid dt nt lp : request_ok uuid dt nt lp -> cok UuidReq_codec (request uuid dt nt lp).
Proof.
  intros (U & D & N & P). repeat split; try apply (uuid_field_cok _ U); try apply D; try apply N; try apply P.
  all: by vm_compute.
Qed.

Lemma handle_heartbeat_packet e uuid dt nt lp from s :
  request_ok uuid dt nt lp ->
  handle_packet e (heartbeat uuid dt nt lp) from s =
  handle_heartbeat e (request uuid dt nt lp) [] from false [] s.
Proof.
  intros R. pose proof (request_cok _ _ _ _ R) as K. unfold heartbeat.
  rewrite handle_frame by (rewrite (cenc_len _ _ K); reflexivity). cbn [dispatch].
  unfold on_heartbeat. rewrite (codec_size _ K), Nat.ltb_irrefl, (cdec_alone _ _ K).
  unfold terminate_req. cbn [request ur_uuid ur_dev_type ur_nattype ur_lan_port ur_session_pts ur_extlen].
  destruct R as [U _]. by rewrite terminate_uuid_field.
Qed.

Lemma abuse_query e uuid s :
  on_abuse (AntiAbuse.is_uuid_blacklisted (now e) uuid) s =
  Done ((AntiAbuse.is_uuid_blacklisted (now e) uuid (abuse_ s)).1, queried e uuid s, []).
Proof. unfold on_abuse, queried. by destruct (AntiAbuse.is_uuid_blacklisted _ _ _). Qed.

Lemma refusal_eq e uuid s :
  LicenseMgr.mu_ (license_ s) = false ->
  (if (AntiAbuse.is_uuid_blacklisted (now e) uuid (abuse_ s)).1 then mret true
   else license_rejects (cfg_ s) uuid) (queried e uuid s) = Done (refusal e s uuid, queried e uuid s, []).
Proof.
  intros L. unfold refusal. destruct (AntiAbuse.is_uuid_blacklisted _ _ _).1; [done|].
  by rewrite license_rejects_eq.
Qed.

Lemma rsp_cok r a pp b lp alt :
  byte_ok r -> u16_ok pp -> u16_ok lp ->
  cok ExtInfoRsp_codec (mkExtInfoRsp r (ip_field a) pp (ip_field b) lp (htons alt)).
Proof.
  intros R P L. repeat split; try apply ip_field_cok; try apply R; try apply P; try apply L; apply htons_range.
Qed.

Lemma refused_cok r alt :
  byte_ok r -> cok ExtInfoRsp_codec (mkExtInfoRsp r (replicate 16 0) 0 (replicate 16 0) 0 (htons alt)).
Proof.
  intros R. repeat split; try apply R; try apply bytes_ok_replicate; try apply htons_range; by vm_compute.
Qed.

Lemma send_plain_rsp to u rsp iv s :
  cok ExtInfoRsp_codec rsp ->
  send_heartbeat_rsp to u rsp false iv s =
  Done (tt, s, [Send (mkDg MainSock to (frame (msg_id MSG_HEARTBEAT_RSP) (cenc ExtInfoRsp_codec rsp)))]).
Proof.
  intros K. unfold send_heartbeat_rsp. rewrite gets_eq. cbn [negb]. cbv zeta.
  apply send_msg_eq. rewrite (codec_size _ K). vm_compute. lia.
Qed.

(** C28: a heartbeat is answered and registers.  The server always answers the
    sender; the code is 1 for an unauthenticated identifier when authentication is
    on, 2 for one that is blacklisted or not on the white list, and then the
    registry is unchanged and nothing else is sent; otherwise the code is 0, the
    answer tells the sender its observed address, and the registry has the
    identifier with that address, its private port and types, seen now. *)
Theorem heartbeat_answers (e : env) (uuid : bytes) (dt nt lp : Z) (from : sockaddr_in) (s : t)
    (Hinv : server_inv s) (Hreq : request_ok uuid dt nt lp) (Hf : u16_ok (sin_port from)) :
  exists s' o d r,
    handle_packet e (heartbeat uuid dt nt lp) from s = Done (tt, s', o ++ [Send d]) /\
    dg_to d = from /\ reads ExtInfoRsp_codec MSG_HEARTBEAT_RSP d r /\
    er_result r = heartbeat_code e s uuid /\
    (heartbeat_code e s uuid <> 0 -> peers_ s' = peers_ s /\ o = []) /\
    (heartbeat_code e s uuid = 0 ->
       c_str (er_pub_ip r) = inet_ntop (s_addr from) /\ er_pub_port r = sin_port from /\
       exists p, PeerManager.get (peers_ s') uuid = Some p /\ p_pub_addr p = from /\
         p_lan_addr p = mkAddr (s_addr from) lp /\ p_dev_type p = dt /\ p_nattype p = nt /\
         p_last_heartbeat p = now e).
Proof.
  rewrite handle_heartbeat_packet by done. destruct Hreq as (U & D & N & P), Hinv as [W L].
  unfold handle_heartbeat. rewrite !gets_eq. cbv zeta.
  cbn [request ur_uuid ur_dev_type ur_nattype ur_lan_port].
  assert (c_str (uuid_field uuid) = uuid) as -> by (apply c_str_uuid_field; apply U).
  set (alt := NatTypeCheck.alt_port_ (natcheck_ s)). unfold heartbeat_code.
  destruct (auth_enabled _ && _).
  { pose proof (refused_cok 1 alt ltac:(done)) as K. rewrite (send_plain_rsp _ _ _ _ _ K).
    eexists _, [], _, _. split; [done|]. split; [done|]. split; [apply reads_frame; [apply _|exact K|reflexivity]|].
    by split. }
  rewrite (step_eq _ _ _ _ _ (abuse_query e uuid s)).
  rewrite (step_eq _ _ _ _ _ (refusal_eq e uuid s L)). destruct (refusal e s uuid).
  { pose proof (refused_cok 2 alt ltac:(done)) as K. rewrite (send_plain_rsp _ _ _ _ _ K).
    eexists _, [], _, _. split; [done|]. split; [done|]. split; [apply reads_frame; [apply _|exact K|reflexivity]|].
    by split. }
  set (up := PeerManager.upsert (now e) (peers_ s) uuid from (mkAddr (s_addr from) lp) dt nt []).
  set (s1 := set_peers_ up.2 (queried e uuid s)).
  rewrite (step_eq _ _ _ tt s1) by done.
  assert (server_inv s1) as I1 by (split; [by apply PeerManager.upsert_wf|done]).
  destruct (broadcast_peer_entry_safe e (request uuid dt nt lp) [] from s1 I1) as ([] & s2 & o & Eb & _ & _).
  pose proof (keeps_broadcast_entry (on_registry eq) _ _ _ _ _ _ _ _ Eb) as Ep.
  pose proof (rsp_cok 0 (s_addr from) (sin_port from) (s_addr from) lp alt ltac:(done) Hf P) as K.
  eexists s2, o, _, _. split; [by eapply bind_eq; [exact Eb|apply send_plain_rsp, K]|].
  split; [done|]. split; [apply reads_frame; [apply _|exact K|reflexivity]|].
  split; [done|]. split; [done|]. intros _. cbn [er_pub_ip er_pub_port]. rewrite c_str_ip_field.
  split; [done|]. split; [done|]. rewrite <- Ep. apply PeerManager.get_upsert_eq.
  destruct U as (_ & _ & U1 & U2). unfold PeerManager.uuid_valid, MAX_UUID_LEN.
  destruct (Nat.eqb_spec (length uuid) 0), (Nat.leb_spec (length uuid) 32); simpl; done || lia.
Qed.

Lemma heartbeat_answers_witness :
  exists s' o d r,
    handle_packet quiet_env (heartbeat (bs "app") 2 1 20480) (mkAddr 16777343 5) ready =
      Done (tt, s', o ++ [Send d]) /\
    reads ExtInfoRsp_codec MSG_HEARTBEAT_RSP d r /\ c_str (er_pub_ip r) = inet_ntop 16777343.
Proof.
  destruct (heartbeat_answers quiet_env (bs "app") 2 1 20480 (mkAddr 16777343 5) ready)
    as (s' & o & d & r & E & _ & R & _ & _ & H).
  - apply ready_inv.
  - split; [apply app_uuid_ok|by vm_compute].
  - by vm_compute.
  - exists s', o, d, r. split; [exact E|]. split; [exact R|]. apply H. exact eq_refl.
Defined.

(** ** The device list *)

Definition dev_list_packet (start want : Z) : bytes :=
  frame (msg_id MSG_GET_DEV_LIST_REQ) (cenc DevListReq_codec (mkDevListReq (htons start) (htons want))).

(** The page the request asks for, in key order. *)
Definition page (start want : Z) (s : t) : list Peer :=
  slice (Z.to_nat start) (Z.to_nat (if (want =? 0) || (100 <? want) then 20 else want))
    (PeerManager.snapshot (peers_ s)).

Definition dev_list_payload (start : Z) (total : Z) (entries : list Peer) : bytes :=
  cenc DevListRsp_codec (mkDevListRsp (htons (u16 total)) (htons (u16 (len entries))) (htons start)) ++
  concat (map (fun q => cenc DevListEntry_codec (dev_entry q)) entries).

Lemma length_dev_entry q : length (cenc DevListEntry_codec (dev_entry q)) = 52%nat.
Proof.
  unfold dev_entry. cbn [cenc DevListEntry_codec c_iso c_pair c_bytes c_u16 c_u8 c_uint fst snd
    de_uuid de_ip de_port de_dev_type].
  by rewrite !length_app, length_uuid_field, length_ip_field, !length_le_enc.
Qed.

Lemma length_dev_list start total entries :
  length (dev_list_payload start total entries) = (6 + 52 * length entries)%nat.
Proof.
  unfold dev_list_payload. rewrite length_app.
  replace (length (cenc DevListRsp_codec _)) with 6%nat by (by vm_compute).
  f_equal. induction entries as [|q l IH]; [done|]. cbn [map concat length].
  rewrite length_app, length_dev_entry, IH. lia.
Qed.

(** The device list is paged in key order, from the requested index, 20 entries
    when none or more than 100 are asked for; the reply carries the total and the
    entries of the page if they are at most 39, and a request whose page is longer
    gets no answer at all. *)
Theorem dev_list_pages (e : env) (start want : Z) (from : sockaddr_in) (s : t)
    (Hs : u16_ok start) (Hw : u16_ok want) :
  handle_packet e (dev_list_packet start want) from s =
  Done (tt, s,
    if (length (page start want s) <=? 39)%nat
    then [Send (mkDg MainSock from (frame (msg_id MSG_GET_DEV_LIST_RSP)
           (dev_list_payload start (len (PeerManager.snapshot (peers_ s))) (page start want s))))]
    else []).
Proof.
  assert (cok DevListReq_codec (mkDevListReq (htons start) (htons want))) as K
    by (split; apply htons_range).
  unfold dev_list_packet. rewrite handle_frame by (rewrite (cenc_len _ _ K); reflexivity). cbn [dispatch].
  unfold on_dev_list, read_or_zero. rewrite (codec_size _ K), Nat.ltb_irrefl, (cdec_alone _ _ K).
  cbn [dq_start_index dq_want_num]. rewrite !htons_involutive by done. cbv zeta. rewrite gets_eq.
  fold (page start want s). fold (dev_list_payload start (len (PeerManager.snapshot (peers_ s))) (page start want s)).
  unfold send_msg. rewrite length_dev_list. change (MAX_PKT - 8)%nat with 2040%nat.
  destruct (Nat.leb_spec (length (page start want s)) 39), (Nat.ltb_spec 2040 (6 + 52 * length (page start want s)));
    done || lia.
Qed.

Lemma dev_list_pages_witness :
  handle_packet quiet_env (dev_list_packet 0 100) (mkAddr 16777343 5) ready =
  Done (tt, ready, [Send (mkDg MainSock (mkAddr 16777343 5) (frame (msg_id MSG_GET_DEV_LIST_RSP)
    (dev_list_payload 0 1 [cam])))]).
Proof.
  rewrite (dev_list_pages quiet_env 0 100 (mkAddr 16777343 5) ready); [|by vm_compute|by vm_compute].
  vm_compute. reflexivity.
Defined.

(** ** The server list *)

(** The server list is answered with the configured rendezvous servers, this
    one if it is not among them, and the relays, as long as they are at most 39; with
    more, answering writes past the reply buffer. *)
Theorem server_list_answer (e : env) (p : bytes) (from : sockaddr_in) (s : t) (Hp : len p < 4294967296) :
  handle_packet e (frame (msg_id MSG_GET_SERVER_LIST_REQ) p) from s =
  if (length (advertised s) <=? 39)%nat then
    Done (tt, s, [Send (mkDg MainSock from (frame (msg_id MSG_GET_SERVER_LIST_RSP)
      (cenc ServerListRsp_codec
         (mkServerListRsp (htons (u16 (len (advertised s) - len (proxy_ips (cfg_ s)))))
            (htons (u16 (len (proxy_ips (cfg_ s)))))) ++
       concat (map (strncpy_z 16 15) (advertised s)))))])
  else Fault OutOfBounds.
Proof.
  rewrite handle_frame by done. cbn [dispatch]. unfold on_server_list. rewrite !gets_eq. cbv zeta.
  fold (advertised s). set (nats := if _ && _ then _ else _).
  assert (server_list_fits (length (advertised s)) = (length (advertised s) <=? 39)%nat) as ->.
  { unfold server_list_fits, server_list_buf. change (csize ServerListRsp_codec) with 4%nat.
    change (128 + 32 * MAX_IP_LEN)%nat with 640%nat.
    destruct (Nat.eqb_spec (length (advertised s)) 0), (Nat.leb_spec (length (advertised s)) 39),
      (Nat.leb_spec (4 + 16 * (length (advertised s) - 1) + 15) 640); simpl; done || lia. }
  destruct (Nat.leb_spec (length (advertised s)) 39) as [H|H]; cbn [negb]; [|done].
  replace (len (advertised s) - len (proxy_ips (cfg_ s))) with (len nats)
    by (unfold advertised, len; fold nats; rewrite length_app; lia).
  apply send_msg_eq. rewrite length_app.
  replace (length (cenc ServerListRsp_codec _)) with 4%nat by (by vm_compute).
  assert (forall l : list bytes, length (concat (map (strncpy_z 16 15) l)) = (16 * length l)%nat) as ->.
  { induction l as [|q l IH]; [done|]. cbn [map concat length]. rewrite length_app, length_strncpy_z, IH. lia. }
  change (MAX_PKT - 8)%nat with 2040%nat. lia.
Qed.

Lemma server_list_answer_witness :
  handle_packet quiet_env (frame (msg_id MSG_GET_SERVER_LIST_REQ) []) (mkAddr 16777343 5)
    (set_cfg_ (set_proxy_ips (replicate 40 (bs "10.0.0.1")) cfg_default) initial) = Fault OutOfBounds.
Proof. rewrite (server_list_answer quiet_env []); [|by vm_compute]. vm_compute. reflexivity. Defined.

(** ** Administration *)

Definition admin_answer (to : sockaddr_in) (r : AdminBlacklistRsp) : effect :=
  Send (mkDg MainSock to (frame (msg_id MSG_ADMIN_BLACKLIST_RSP) (cenc AdminBlacklistRsp_codec r))).

Definition no_entries : list AdminBlacklistEntry := replicate 28 (mkAdminBlacklistEntry (replicate 64 0) 0).

(** Administration needs the secret: a blacklist request is refused, with the
    state unchanged and nothing of it revealed, when no secret is configured or when
    its code is not the HMAC of operation and key under the secret. *)
Theorem admin_gate (e : env) (p : bytes) (from : sockaddr_in) (s : t)
    (Hp : (csize AdminBlacklistReq_codec <= length p)%nat /\ len p < 4294967296)
    (Hbad : let req := cdec AdminBlacklistReq_codec p in
            admin_secret (cfg_ s) = [] \/
            hmac_sha256 (admin_secret (cfg_ s)) (abq_op req :: abq_key req) <> abq_mac req) :
  handle_packet e (frame (msg_id MSG_ADMIN_BLACKLIST_REQ) p) from s =
  Done (tt, s, [admin_answer from (mkAdminBlacklistRsp 1 0 0 0 no_entries)]).
Proof.
  destruct Hp as [L Hp]. rewrite handle_frame by done. cbn [dispatch]. unfold on_admin_blacklist.
  destruct (Nat.ltb_spec (length p) (csize AdminBlacklistReq_codec)); [lia|]. cbv zeta in *.
  rewrite gets_eq.
  assert (send_msg from MSG_ADMIN_BLACKLIST_RSP
    (cenc AdminBlacklistRsp_codec (mkAdminBlacklistRsp 1 0 0 0 no_entries)) s =
    Done (tt, s, [admin_answer from (mkAdminBlacklistRsp 1 0 0 0 no_entries)])) as E
    by (apply send_msg_eq; vm_compute; lia).
  destruct Hbad as [-> |Hbad]; [exact E|].
  destruct (Nat.eqb_spec (length (admin_secret (cfg_ s))) 0); [exact E|].
  rewrite bool_decide_false by done. exact E.
Qed.

Lemma admin_gate_witness :
  handle_packet quiet_env (frame (msg_id MSG_ADMIN_BLACKLIST_REQ) (replicate 97 0)) (mkAddr 16777343 5) ready =
  Done (tt, ready, [admin_answer (mkAddr 16777343 5) (mkAdminBlacklistRsp 1 0 0 0 no_entries)]).
Proof.
  apply (admin_gate quiet_env (replicate 97 0) (mkAddr 16777343 5) ready).
  - split; [vm_compute; lia|by vm_compute].
  - left. exact eq_refl.
Defined.

Definition admin_packet (op : Z) (key secret : bytes) : bytes :=
  frame (msg_id MSG_ADMIN_BLACKLIST_REQ) (cenc AdminBlacklistReq_codec
    (mkAdminBlacklistReq op (pad_to 64 key) (hmac_sha256 secret (op :: pad_to 64 key)))).

Lemma admin_cok op key secret :
  byte_ok op -> bytes_ok key ->
  cok AdminBlacklistReq_codec
    (mkAdminBlacklistReq op (pad_to 64 key) (hmac_sha256 secret (op :: pad_to 64 key))).
Proof.
  intros O K. split; [exact O|]. split; split.
  - apply length_pad_to.
  - by apply pad_to_ok.
  - apply length_hmac.
  - apply hmac_ok.
Qed.

(** The key ends inside the request. *)
Lemma admin_key_in op key secret :
  uuid_ok key ->
  0 ∈ drop 1 (cenc AdminBlacklistReq_codec
    (mkAdminBlacklistReq op (pad_to 64 key) (hmac_sha256 secret (op :: pad_to 64 key)))).
Proof.
  intros (_ & _ & L). cbn [cenc AdminBlacklistReq_codec c_iso c_pair abq_op abq_key abq_mac fst snd].
  rewrite drop_app_exact by done. apply elem_of_app. left. cbn [cenc c_bytes].
  rewrite pad_to_short by lia. apply elem_of_app. right. apply elem_of_replicate. split; [done|lia].
Qed.

Lemma admin_key_read key : uuid_ok key -> c_strn 64 (pad_to 64 key) = key.
Proof.
  intros (N & _ & L). unfold c_strn. rewrite take_ge by (rewrite length_pad_to; lia).
  rewrite pad_to_short by lia. destruct (64 - length key)%nat eqn:E; [lia|]. simpl. by apply c_str_app_nul.
Qed.

Lemma admin_rsp_cok a b : cok AdminBlacklistRsp_codec (admin_rsp 0 a b []).
Proof.
  split; [done|]. split; [apply htonl_range|]. split; [apply htonl_range|]. split; [done|].
  split; [done|]. apply (Forall_replicate _ 28). repeat split; [apply bytes_ok_replicate|by vm_compute..].
Qed.

(** With the secret an identifier can be banned: the request is answered with
    success, and for [blacklist_sec_] seconds from then every heartbeat of the
    identifier is refused, whatever its login and the white list say. *)
Theorem admin_bans (e : env) (uuid : bytes) (from : sockaddr_in) (s : t)
    (Hu : uuid_ok uuid) (Hsec : admin_secret (cfg_ s) <> []) :
  exists s' d r,
    handle_packet e (admin_packet 3 uuid (admin_secret (cfg_ s))) from s = Done (tt, s', [Send d]) /\
    reads AdminBlacklistRsp_codec MSG_ADMIN_BLACKLIST_RSP d r /\ abr_result r = 0 /\
    peers_ s' = peers_ s /\
    forall e', now e' <= now e + AntiAbuse.blacklist_sec_ (abuse_ s) -> heartbeat_code e' s' uuid <> 0.
Proof.
  set (op := 3). pose proof (admin_cok op uuid (admin_secret (cfg_ s)) ltac:(done) (proj1 (proj2 Hu))) as K.
  unfold admin_packet. rewrite handle_frame by (rewrite (cenc_len _ _ K); reflexivity). cbn [dispatch].
  unfold on_admin_blacklist. rewrite (codec_size _ K), Nat.ltb_irrefl, (cdec_alone _ _ K). cbv zeta.
  rewrite gets_eq. cbn [abq_op abq_key abq_mac]. rewrite (bool_decide_true (_ = _)) by done.
  destruct (Nat.eqb_spec (length (admin_secret (cfg_ s))) 0) as [Z0|_];
    [by apply nil_length_inv in Z0|]. cbn [negb].
  rewrite (step_eq _ _ s (c_str (drop 1 (cenc AdminBlacklistReq_codec (mkAdminBlacklistReq op (pad_to 64 uuid)
    (hmac_sha256 (admin_secret (cfg_ s)) (op :: pad_to 64 uuid)))))) s).
  2:{ unfold lift, cstr_in. by rewrite bool_decide_true by (by apply admin_key_in). }
  rewrite admin_key_read by done.
  set (banned := AntiAbuse.blacklist_uuid (now e) uuid (abuse_ s)).
  assert (admin_op e op uuid (abuse_ s) = (0, [], banned)) as Eop.
  { unfold admin_op, op. cbn [Z.eqb Pos.eqb]. destruct Hu as (_ & _ & L1 & L2). unfold key_valid, MAX_UUID_LEN.
    by destruct (Nat.eqb_spec (length uuid) 0), (Nat.leb_spec (length uuid) 32); try lia. }
  rewrite (step_eq _ _ s (0, []) (set_abuse_ banned s)).
  2:{ unfold on_abuse. by rewrite Eop. }
  rewrite gets_eq. cbn [fst snd].
  eexists _, _, _. split; [apply send_msg_eq; rewrite (codec_size _ (admin_rsp_cok _ _)); vm_compute; lia|].
  split; [apply reads_frame; [apply _|apply admin_rsp_cok|reflexivity]|]. split; [done|]. split; [done|].
  intros e' H. unfold heartbeat_code, refusal. destruct (auth_enabled _ && _); [done|].
  assert ((AntiAbuse.is_uuid_blacklisted (now e') uuid (abuse_ (set_abuse_ banned s))).1 = true) as ->; [|done].
  apply AntiAbuse.is_uuid_blacklisted_true. split; [by intros ->; destruct Hu as (_ & _ & ?); simpl in *; lia|].
  eexists. cbn. rewrite lookup_insert_eq. by split.
Qed.

Lemma admin_bans_witness :
  let s := set_cfg_ (set_admin_secret (bs "root") cfg_default) initial in
  exists s' d r,
    handle_packet quiet_env (admin_packet 3 (bs "cam") (bs "root")) (mkAddr 16777343 5) s = Done (tt, s', [Send d]) /\
    reads AdminBlacklistRsp_codec MSG_ADMIN_BLACKLIST_RSP d r /\ abr_result r = 0 /\
    peers_ s' = peers_ s /\
    forall e', now e' <= now quiet_env + AntiAbuse.blacklist_sec_ (abuse_ s) ->
      heartbeat_code e' s' (bs "cam") <> 0.
Proof.
  intros s. apply (admin_bans quiet_env (bs "cam") (mkAddr 16777343 5) s).
  - apply app_uuid_ok.
  - discriminate.
Defined.

(** ** Removal *)

Definition delete_packet (uuid : bytes) : bytes := frame (msg_id MSG_DELETE_UID_REQ) (uuid_field uuid).

(** Anyone can remove anyone: a removal request, from any address and with
    authentication on or off, without any credential, takes its identifier out of the
    registry and out of the white list; no other registration changes and nothing is
    answered. *)
Theorem delete_uid_open (e : env) (uuid : bytes) (from : sockaddr_in) (s : t)
    (Hinv : server_inv s) (Hu : uuid_ok uuid) :
  exists s' o,
    handle_packet e (delete_packet uuid) from s = Done (tt, s', o) /\
    PeerManager.get (peers_ s') uuid = None /\
    (forall k, k <> uuid -> PeerManager.get (peers_ s') k = PeerManager.get (peers_ s) k) /\
    LicenseMgr.uuids_ (license_ s') = LicenseMgr.uuids_ (license_ s) ∖ {[uuid]} /\
    (forall d, Send d ∉ o).
Proof.
  destruct Hinv as [W L]. unfold delete_packet.
  rewrite handle_frame by (unfold len; rewrite length_uuid_field; reflexivity). cbn [dispatch].
  unfold on_delete_uid. rewrite length_uuid_field. change (csize UuidReq_codec <=? 33)%nat with false.
  cbn [Nat.leb]. rewrite take_ge by (rewrite length_uuid_field; lia). rewrite request_uuid by done. cbv zeta.
  set (s1 := set_peers_ (PeerManager.remove (peers_ s) uuid).2 s).
  rewrite (step_eq _ _ _ tt s1) by done.
  set (l := LicenseMgr.mk (LicenseMgr.path_ (license_ s)) (LicenseMgr.pass_ (license_ s))
    (LicenseMgr.uuids_ (license_ s) ∖ {[uuid]}) false).
  rewrite (step_eq _ _ _ (bool_decide (uuid ∈ LicenseMgr.uuids_ (license_ s))) (set_license_ l s1)).
  2:{ unfold on_license. rewrite LicenseMgr.remove_done by done. done. }
  assert (forall k, k <> uuid -> PeerManager.get (peers_ s1) k = PeerManager.get (peers_ s) k) as N.
  { intros k Hk. unfold PeerManager.get. cbn. by rewrite lookup_delete_ne. }
  assert (PeerManager.get (peers_ s1) uuid = None) as D by (unfold PeerManager.get; cbn; by rewrite lookup_delete_eq).
  destruct (bool_decide _).
  - unfold save_license. cbn [license_ set_license_].
    destruct (LicenseMgr.save_done (writable e (LicenseMgr.path_ l)) (rnd_salt e) (rnd_iv e) l eq_refl)
      as (ok & content & ->).
    eexists _, _. split; [done|]. split; [exact D|]. split; [exact N|]. split; [done|].
    intros d. destruct content; [|set_solver]. by intros ?%list_elem_of_singleton.
  - eexists _, _. split; [done|]. split; [exact D|]. split; [exact N|]. split; [done|]. set_solver.
Qed.

Lemma delete_uid_open_witness :
  exists s' o, handle_packet quiet_env (delete_packet (bs "cam")) (mkAddr 16777343 5) ready = Done (tt, s', o) /\
    PeerManager.get (peers_ s') (bs "cam") = None.
Proof.
  destruct (delete_uid_open quiet_env (bs "cam") (mkAddr 16777343 5) ready) as (s' & o & E & D & _).
  - apply ready_inv.
  - apply app_uuid_ok.
  - exists s', o. by split.
Defined.

(** ** Relayed session descriptions *)

(** The layout of an [IceSdpMsg] with its text: the length is at offset 34, the
    text at offset 36, and one octet follows it. *)
Definition ice_payload (uuid sdp : bytes) : bytes :=
  uuid_field uuid ++ [0] ++ be_enc 2 (len sdp) ++ sdp ++ [0].

Lemma length_ice uuid sdp : length (ice_payload uuid sdp) = (37 + length sdp)%nat.
Proof.
  unfold ice_payload. rewrite !length_app, length_uuid_field, length_be_enc. simpl. lia.
Qed.

(** The terminator is already in place. *)
Lemma ice_terminated uuid sdp :
  uuid_ok uuid ->
  take 32 (ice_payload uuid sdp) ++ [0] ++ drop 33 (ice_payload uuid sdp) = ice_payload uuid sdp.
Proof.
  intros U. unfold ice_payload. rewrite drop_app_exact by apply length_uuid_field.
  rewrite take_app_le by (rewrite length_uuid_field; lia). rewrite app_assoc.
  f_equal. exact (terminate_uuid_field uuid U).
Qed.

Lemma ice_length_field uuid sdp :
  u16_ok (len sdp) -> ntohs (le_dec (slice 34 2 (ice_payload uuid sdp))) = len sdp.
Proof.
  intros L. unfold ice_payload, slice. rewrite app_assoc.
  rewrite drop_app_exact by (rewrite length_app, length_uuid_field; done).
  rewrite take_app_exact by apply length_be_enc.
  rewrite <- le_enc_htons by done. rewrite le_dec_enc_small by apply htons_range. by apply htons_involutive.
Qed.

(** A session description is relayed unchanged: when its target is registered
    and it fits a packet, the server sends the same octets to the target's registered
    address, and nothing when the target is unknown; the state does not change. *)
Theorem ice_relayed (e : env) (uuid sdp : bytes) (from : sockaddr_in) (s : t)
    (Hu : uuid_ok uuid) (Hl : (length sdp <= 2003)%nat) :
  handle_packet e (frame (msg_id MSG_ICE_SDP) (ice_payload uuid sdp)) from s =
  Done (tt, s,
    match PeerManager.get (peers_ s) uuid with
    | Some d => [Send (mkDg MainSock (p_pub_addr d) (frame (msg_id MSG_ICE_SDP) (ice_payload uuid sdp)))]
    | None => []
    end).
Proof.
  rewrite handle_frame by (unfold len; rewrite length_ice; lia). cbn [dispatch]. unfold on_ice_sdp.
  change (sizeof_IceSdpMsg - 1)%nat with 37%nat. rewrite length_ice.
  destruct (Nat.ltb_spec (37 + length sdp) 37); [lia|]. cbv zeta. rewrite ice_terminated by done.
  rewrite ice_length_field by (unfold u16_ok, len; lia). unfold len. rewrite length_ice.
  destruct (Z.ltb_spec (Z.of_nat (37 + length sdp)) (Z.of_nat 37 + Z.of_nat (length sdp))); [lia|].
  rewrite gets_eq. unfold ice_payload at 1. rewrite take_app_exact by apply length_uuid_field.
  rewrite c_str_uuid_field by apply Hu.
  destruct (PeerManager.get (peers_ s) uuid); [|done].
  apply send_msg_eq. rewrite length_ice. change (MAX_PKT - 8)%nat with 2040%nat. lia.
Qed.

Lemma ice_relayed_witness :
  handle_packet quiet_env (frame (msg_id MSG_ICE_SDP) (ice_payload (bs "cam") (bs "v=0"))) (mkAddr 16777343 5) ready =
  Done (tt, ready, [Send (mkDg MainSock (p_pub_addr cam)
    (frame (msg_id MSG_ICE_SDP) (ice_payload (bs "cam") (bs "v=0"))))]).
Proof.
  rewrite (ice_relayed quiet_env (bs "cam") (bs "v=0") (mkAddr 16777343 5) ready).
  - exact eq_refl.
  - apply app_uuid_ok.
  - vm_compute. lia.
Defined.

End ServerQueries.
