(* ===== verification/ServerSync.v ===== *)
(** * Registry synchronisation between servers

    What a signed message does, that an unsigned one does nothing, that a row sent
    by one server is the row another stores, and how far messages travel. *)

From S2P Require Import Prelude.
From S2P Require Import Bytes.
From S2P Require Import Wire.
From S2P Require Import ProtoDef.
From S2P Require Import NetUtil.
From S2P Require Import Sha256.
From S2P Require Import Hmac.
From S2P Require Import Packet.
From S2P Require Import Handler.
From S2P Require Import PeerManage.
From S2P Require Import AntiAbuse.
From S2P Require Import LicenseMgr.
From S2P Require Import CfgFile.
From S2P Require Import NatTypeCheck.
From S2P Require Import NatServer.
From S2P Require Import RecvProcess.
From S2P Require Import ServerSafety.
From S2P Require Import ServerAuth.
From S2P Require Import ServerLogin.
From S2P Require Import ServerConnect.

#[local] Open Scope Z_scope.

Module ServerSync.
Import NatServer RecvProcess ServerSafety ServerAuth ServerLogin ServerConnect.

(** ** Signatures *)

(** Some prefix of the payload is followed by its code under the secret. *)
Definition carries_mac (secret p : bytes) : Prop :=
  exists n, (n + 32 <= length p)%nat /\ slice n 32 p = hmac_sha256 secret (take n p).

Lemma sync_verify_mac cfg p n :
  sync_auth_secret cfg <> [] -> sync_verify cfg p n = true -> carries_mac (sync_auth_secret cfg) p.
Proof.
  intros S. unfold sync_verify.
  destruct (Nat.eqb_spec (length (sync_auth_secret cfg)) 0) as [Z0|_]; [by apply nil_length_inv in Z0|].
  destruct (Nat.ltb_spec (length p) (n + 32)); [done|]. rewrite bool_decide_eq_true. exists n. by split.
Qed.

Definition is_sync (m : MsgId) : bool :=
  match m with MSG_SYNC_PEER_ENTRY | MSG_SYNC_PEER_DEL | MSG_SYNC_SNAPSHOT_REQ => true | _ => false end.

(** C20: servers trust only signed messages: when a synchronisation secret is set, a
    registry row, a removal or a snapshot request that carries no code made with the
    secret over a prefix of its payload changes nothing and is not answered, whatever
    its content and sender. *)
Theorem forged_sync_ignored (e : env) (m : MsgId) (p : bytes) (from : sockaddr_in) (s : t)
    (Hm : is_sync m = true) (Hl : len p < 4294967296) (Hsec : sync_auth_secret (cfg_ s) <> [])
    (Hforged : ~ carries_mac (sync_auth_secret (cfg_ s)) p) :
  handle_packet e (frame (msg_id m) p) from s = Done (tt, s, []).
Proof.
  rewrite handle_frame by done.
  assert (forall n, sync_verify (cfg_ s) p n = false) as V.
  { intros n. apply not_true_iff_false. intros V. by apply sync_verify_mac in V. }
  destruct m; try done; cbn [dispatch].
  - unfold on_sync_entry. destruct (_ <? _)%nat; [done|]. cbv zeta. destruct (_ <? _); [done|].
    destruct (_ <? _)%nat; [done|]. by rewrite gets_eq, V.
  - unfold on_sync_del. destruct (_ <? _)%nat; [done|]. by rewrite gets_eq, V.
  - unfold on_sync_snapshot. destruct (_ <? _)%nat; [done|]. by rewrite gets_eq, V.
Qed.

(** What a server appends to a body. *)
Definition signature (cfg : CfgData) (body : bytes) : bytes :=
  if (length (sync_auth_secret cfg) =? 0)%nat then [] else hmac_sha256 (sync_auth_secret cfg) body.

Lemma length_signature cfg body : (length (signature cfg body) <= 32)%nat.
Proof. unfold signature. destruct (_ =? _)%nat; [simpl; lia|]. rewrite length_hmac. done. Qed.

Lemma sync_send_eq to id obj s :
  (length obj <= MAX_PKT - 40)%nat ->
  sync_send_msg to id obj (length obj) s =
  Done (tt, s, [Send (mkDg MainSock to (frame (msg_id id) (obj ++ signature (cfg_ s) obj)))]).
Proof.
  intros L. unfold sync_send_msg. rewrite gets_eq. change (MAX_PKT - 40)%nat with 2008%nat in L.
  change (MAX_PKT - 32)%nat with 2016%nat. destruct (Nat.ltb_spec 2016 (length obj)); [lia|].
  rewrite (step_eq _ _ s obj s).
  2:{ unfold lift, read_obj. by rewrite Nat.ltb_irrefl, take_ge. }
  pose proof (length_signature (cfg_ s) obj). unfold signature in *.
  destruct (_ =? _)%nat; rewrite ?app_nil_r; apply send_msg_eq; rewrite ?length_app; change (MAX_PKT - 8)%nat with 2040%nat; lia.
Qed.

Lemma sync_verify_signed cfg body :
  sync_verify cfg (body ++ signature cfg body) (length body) = true.
Proof.
  unfold sync_verify, signature. destruct (_ =? _)%nat; [done|].
  rewrite length_app, length_hmac. change SHA256_DIGEST_LEN with 32%nat. rewrite Nat.ltb_irrefl.
  rewrite take_app_length. unfold slice. rewrite drop_app_length, take_ge by (by rewrite length_hmac).
  by apply bool_decide_true.
Qed.

Lemma forged_sync_ignored_witness :
  let s := set_cfg_ (set_sync_auth_secret (bs "sync") cfg_default) initial in
  handle_packet quiet_env (frame (msg_id MSG_SYNC_SNAPSHOT_REQ) (replicate 4 0)) (mkAddr 16777343 5) s =
  Done (tt, s, []).
Proof.
  intros s. apply (forged_sync_ignored quiet_env MSG_SYNC_SNAPSHOT_REQ (replicate 4 0) (mkAddr 16777343 5) s).
  - exact eq_refl.
  - exact eq_refl.
  - discriminate.
  - intros (n & H & _). simpl in H. lia.
Defined.

(** ** Rows *)

(** A stored row that fits the message. *)
Definition row_fits (p : Peer) : Prop :=
  uuid_ok (p_uuid p) /\ addr_ok (p_pub_addr p) /\ addr_ok (p_lan_addr p) /\ byte_ok (p_dev_type p) /\
  byte_ok (p_nattype p) /\ u32_ok (p_last_heartbeat p) /\ bytes_ok (p_extinfo p) /\
  (length (p_extinfo p) <= 1024)%nat /\ p_extlen p = len (p_extinfo p).

Lemma sync_entry_cok p hop : row_fits p -> byte_ok hop -> cok SyncPeerEntry_codec (sync_entry p hop).
Proof.
  intros (U & [_ P] & [_ L] & D & N & _) H. unfold sync_entry.
  split; [exact (uuid_field_cok _ U)|]. split; [apply ip_field_cok|]. split; [exact P|].
  split; [apply ip_field_cok|]. split; [exact L|]. split; [exact D|]. split; [exact N|]. split; [exact H|].
  split; [by vm_compute|]. split; [apply htonl_range|apply htons_range].
Qed.

(** The row as it is sent. *)
Definition row_body (p : Peer) (hop : Z) : bytes := cenc SyncPeerEntry_codec (sync_entry p hop) ++ p_extinfo p.

Lemma row_body_length p hop :
  row_fits p -> byte_ok hop -> length (row_body p hop) = (79 + length (p_extinfo p))%nat.
Proof. intros F H. unfold row_body. rewrite length_app, (codec_size _ (sync_entry_cok _ _ F H)). done. Qed.

Lemma send_peer_entry_eq to p hop s :
  row_fits p -> byte_ok hop ->
  send_peer_entry to p hop s =
  Done (tt, s, [Send (mkDg MainSock to (frame (msg_id MSG_SYNC_PEER_ENTRY)
                  (row_body p hop ++ signature (cfg_ s) (row_body p hop))))]).
Proof.
  intros F H. pose proof (row_body_length p hop F H) as L. unfold send_peer_entry. cbv zeta.
  destruct F as (_ & _ & _ & _ & _ & _ & _ & E1 & E2).
  assert ((if (0 <? p_extlen p) && (p_extlen p <=? Z.of_nat MAX_EXTINFO)
    then cenc SyncPeerEntry_codec (sync_entry p hop) ++ take (Z.to_nat (p_extlen p)) (p_extinfo p)
    else cenc SyncPeerEntry_codec (sync_entry p hop)) = row_body p hop) as ->.
  { unfold row_body. rewrite E2. unfold len. change (Z.of_nat MAX_EXTINFO) with 1024.
    rewrite Nat2Z.id, take_ge by done.
    destruct (Z.ltb_spec 0 (Z.of_nat (length (p_extinfo p)))) as [|Z0];
      destruct (Z.leb_spec (Z.of_nat (length (p_extinfo p))) 1024); try done; try lia.
    destruct (p_extinfo p); [by rewrite app_nil_r|simpl in Z0; lia]. }
  apply sync_send_eq. rewrite L. change (MAX_PKT - 40)%nat with 2008%nat. lia.
Qed.

Lemma terminate_sync_entry p hop :
  row_fits p ->
  let r := sync_entry p hop in
  mkSyncPeerEntry (terminate (sp_uuid r)) (sp_pub_ip r) (sp_pub_port r) (sp_lan_ip r) (sp_lan_port r)
    (sp_dev_type r) (sp_nattype r) (sp_hop r) (sp_reserved r) (sp_hb_time r) (sp_extlen r) = r.
Proof.
  intros (U & _) r. subst r. unfold sync_entry.
  cbn [sp_uuid sp_pub_ip sp_pub_port sp_lan_ip sp_lan_port sp_dev_type sp_nattype sp_hop sp_reserved
    sp_hb_time sp_extlen].
  by rewrite (terminate_uuid_field _ U).
Qed.

(** A received row, once its signature is checked. *)
Lemma on_sync_entry_signed e from p hop s :
  row_fits p -> byte_ok hop ->
  on_sync_entry e from (row_body p hop ++ signature (cfg_ s) (row_body p hop)) s =
  handle_sync_entry e (sync_entry p hop) (p_extinfo p) from s.
Proof.
  intros F H. pose proof (row_body_length p hop F H) as L. pose proof (sync_entry_cok p hop F H) as K.
  pose proof (sync_verify_signed (cfg_ s) (row_body p hop)) as V.
  unfold on_sync_entry. set (sig := signature _ _) in *.
  assert (cdec SyncPeerEntry_codec (row_body p hop ++ sig) = sync_entry p hop) as ->.
  { unfold row_body. rewrite <- app_assoc. by apply codec_dec_enc. }
  rewrite length_app, L. change (csize SyncPeerEntry_codec) with 79%nat.
  destruct (Nat.ltb_spec (79 + length (p_extinfo p) + length sig) 79); [lia|].
  cbv zeta. rewrite terminate_sync_entry by done.
  destruct F as (U & P & A & D & N & B & X & E1 & E2).
  assert (ntohs (sp_extlen (sync_entry p hop)) = len (p_extinfo p)) as ->.
  { cbn [sync_entry sp_extlen]. rewrite E2. apply htons_involutive. unfold u16_ok, len. lia. }
  unfold len. change (Z.of_nat MAX_EXTINFO) with 1024. rewrite Nat2Z.id.
  destruct (Z.ltb_spec 1024 (Z.of_nat (length (p_extinfo p)))); [lia|].
  destruct (Nat.ltb_spec (79 + length (p_extinfo p) + length sig) (79 + length (p_extinfo p))); [lia|].
  rewrite gets_eq. rewrite L in V. rewrite V. cbn [negb]. f_equal.
  unfold slice, row_body. rewrite <- app_assoc, drop_app_exact by exact (codec_size _ K).
  by rewrite take_app_length.
Qed.

Lemma sync_entry_ip p hop k f :
  row_fits p -> byte_ok hop -> ((k, f) = (33%nat, p_pub_addr p) \/ (k, f) = (51%nat, p_lan_addr p)) ->
  cstr_in k (cenc SyncPeerEntry_codec (sync_entry p hop)) = Done (inet_ntop (s_addr f)).
Proof.
  intros F H C. unfold cstr_in.
  assert (exists rest, drop k (cenc SyncPeerEntry_codec (sync_entry p hop)) = ip_field (s_addr f) ++ rest)
    as [rest ->].
  { unfold sync_entry. cbn [cenc SyncPeerEntry_codec c_iso c_pair fst snd sp_uuid sp_pub_ip sp_pub_port sp_lan_ip
      sp_lan_port sp_dev_type sp_nattype sp_hop sp_reserved sp_hb_time sp_extlen c_bytes].
    destruct C as [[= -> ->]|[= -> ->]].
    - rewrite drop_app_exact by apply length_uuid_field. by eexists.
    - change 51%nat with (33 + (16 + 2))%nat. rewrite <- !drop_drop.
      rewrite drop_app_exact by apply length_uuid_field. rewrite drop_app_exact by apply length_ip_field.
      rewrite drop_app_exact by apply length_le_enc. by eexists. }
  pose proof (inet_ntop_length (s_addr f)) as L.
  assert (ip_field (s_addr f) = inet_ntop (s_addr f) ++ 0 :: replicate (15 - length (inet_ntop (s_addr f))) 0) as ->.
  { unfold ip_field, MAX_IP_LEN. rewrite pad_to_short by lia. f_equal.
    replace (16 - length (inet_ntop (s_addr f)))%nat with (S (15 - length (inet_ntop (s_addr f)))) by lia. done. }
  rewrite bool_decide_true by (rewrite <- app_assoc; apply elem_of_app; right; left).
  rewrite <- app_assoc. cbn [app]. f_equal. apply c_str_app_nul, inet_ntop_no_nul.
Qed.

(** What storing a row does: a new record, or the old one with the row's data. *)
Definition stored (s : t) (p : Peer) : t :=
  set_peers_ (PeerManager.upsert_synced (peers_ s) (p_uuid p) (p_pub_addr p) (p_lan_addr p) (p_dev_type p)
                (p_nattype p) (p_extinfo p) (p_last_heartbeat p)).2 s.

(** A row that is not in the recent history is stored, then forwarded. *)
Lemma handle_sync_entry_stores e p hop from s s1 :
  row_fits p -> byte_ok hop -> sync_enabled s = true ->
  (if hop =? SYNC_HOP_SNAP then mret false
   else seen_sync_entry e (p_uuid p) (p_last_heartbeat p) from) s = Done (false, s1, []) ->
  handle_sync_entry e (sync_entry p hop) (p_extinfo p) from s =
  (if negb (hop =? SYNC_HOP_SNAP) && (hop <? SYNC_HOP_MAX)
   then broadcast_sync_msg MSG_SYNC_PEER_ENTRY (cenc SyncPeerEntry_codec (sync_entry p (hop + 1)))
          (csize SyncPeerEntry_codec + length (p_extinfo p)) (Some from)
   else skip) (stored s1 p).
Proof.
  intros F H En Se. unfold handle_sync_entry. rewrite gets_eq, En. cbn [negb].
  pose proof F as (U & [P1 P2] & [L1 L2] & D & N & B & X & E1 & E2).
  assert (c_str (sp_uuid (sync_entry p hop)) = p_uuid p) as Eu by (apply c_str_uuid_field; apply U).
  assert (ntohl (sp_hb_time (sync_entry p hop)) = p_last_heartbeat p) as Eh.
  { cbn [sync_entry sp_hb_time]. rewrite u32_small by done. by apply htonl_involutive. }
  cbv zeta. rewrite Eu, Eh. change (sp_hop (sync_entry p hop)) with hop.
  destruct (Nat.eqb_spec (length (p_uuid p)) 0) as [Z0|_]; [destruct U as (_ & _ & ? & _); lia|].
  rewrite (step_eq _ _ _ _ _ Se).
  rewrite (step_eq _ _ s1 (inet_ntop (s_addr (p_pub_addr p))) s1)
    by (unfold lift; by rewrite (sync_entry_ip p hop 33 (p_pub_addr p) F H (or_introl eq_refl))).
  rewrite (step_eq _ _ s1 (inet_ntop (s_addr (p_lan_addr p))) s1)
    by (unfold lift; by rewrite (sync_entry_ip p hop 51 (p_lan_addr p) F H (or_intror eq_refl))).
  rewrite !inet_pton_ntop by done. cbn [default from_option id].
  rewrite (step_eq _ _ s1 tt (stored s1 p)).
  2:{ unfold on_peers, modify, stored. cbn [sync_entry sp_pub_port sp_lan_port sp_dev_type sp_nattype].
      by destruct (p_pub_addr p), (p_lan_addr p). }
  destruct (Z.eqb_spec hop SYNC_HOP_SNAP); cbn [negb andb]; [done|].
  destruct (Z.ltb_spec hop SYNC_HOP_MAX) as [Hh|]; [|done].
  rewrite u8_small by (unfold byte_ok, SYNC_HOP_MAX in *; lia). done.
Qed.

(** A row on the wire, signed for the servers that share this configuration. *)
Definition row_packet (cfg : CfgData) (p : Peer) (hop : Z) : bytes :=
  frame (msg_id MSG_SYNC_PEER_ENTRY) (row_body p hop ++ signature cfg (row_body p hop)).

Lemma handle_row e p hop from s cfg :
  row_fits p -> byte_ok hop -> sync_auth_secret cfg = sync_auth_secret (cfg_ s) ->
  handle_packet e (row_packet cfg p hop) from s =
  handle_sync_entry e (sync_entry p hop) (p_extinfo p) from s.
Proof.
  intros F H E. unfold row_packet. pose proof (length_signature cfg (row_body p hop)) as L.
  pose proof F as (_ & _ & _ & _ & _ & _ & _ & X & _).
  rewrite handle_frame by (unfold len; rewrite length_app, row_body_length by done; lia). cbn [dispatch].
  assert (signature cfg (row_body p hop) = signature (cfg_ s) (row_body p hop)) as ->
    by (unfold signature; by rewrite E).
  by apply on_sync_entry_signed.
Qed.

Lemma stored_get s p :
  uuid_ok (p_uuid p) -> (length (p_extinfo p) <= 1024)%nat ->
  exists q, PeerManager.get (peers_ (stored s p)) (p_uuid p) = Some q /\
    p_pub_addr q = p_pub_addr p /\ p_lan_addr q = p_lan_addr p /\ p_dev_type q = p_dev_type p /\
    p_nattype q = p_nattype p /\ p_last_heartbeat q = p_last_heartbeat p /\ p_extinfo q = p_extinfo p /\
    p_auth_expire q = p_last_heartbeat p + 3600.
Proof.
  intros (_ & _ & U1 & U2) X. unfold stored, PeerManager.upsert_synced, PeerManager.get.
  assert (PeerManager.uuid_valid (p_uuid p) = true) as ->.
  { unfold PeerManager.uuid_valid, MAX_UUID_LEN.
    by destruct (Nat.eqb_spec (length (p_uuid p)) 0), (Nat.leb_spec (length (p_uuid p)) 32); try lia. }
  cbn. rewrite lookup_insert_eq. unfold PeerManager.take_extinfo, MAX_EXTINFO.
  destruct (Nat.leb_spec (length (p_extinfo p)) 1024); [|lia].
  destruct (PeerManager.peers_ (peers_ s) !! p_uuid p); by eexists.
Qed.

(** C19: a snapshot replicates the registry row by row: what one server sends of a
    peer, another that shares the secret (or the absence of one) stores as the same
    addresses, types, heartbeat time and extension, extension of any length included,
    authenticated for an hour after the heartbeat, and sends nothing further. *)
Theorem row_replicates (eB : env) (p : Peer) (to from : sockaddr_in) (sA sB : t)
    (Hp : row_fits p) (Hsec : sync_auth_secret (cfg_ sA) = sync_auth_secret (cfg_ sB))
    (Hen : sync_enabled sB = true) :
  exists d s' q,
    send_peer_entry to p SYNC_HOP_SNAP sA = Done (tt, sA, [Send d]) /\ dg_to d = to /\
    handle_packet eB (dg_data d) from sB = Done (tt, s', []) /\
    PeerManager.get (peers_ s') (p_uuid p) = Some q /\
    p_pub_addr q = p_pub_addr p /\ p_lan_addr q = p_lan_addr p /\ p_dev_type q = p_dev_type p /\
    p_nattype q = p_nattype p /\ p_last_heartbeat q = p_last_heartbeat p /\ p_extinfo q = p_extinfo p /\
    p_auth_expire q = p_last_heartbeat p + 3600.
Proof.
  destruct (stored_get sB p) as (q & Q); [apply Hp|apply Hp|].
  assert (byte_ok SYNC_HOP_SNAP) as H by done.
  eexists _, (stored sB p), q. split; [by apply send_peer_entry_eq|]. split; [done|]. split; [|exact Q].
  cbn [dg_data]. fold (row_packet (cfg_ sA) p SYNC_HOP_SNAP). rewrite handle_row by done.
  by rewrite (handle_sync_entry_stores eB p SYNC_HOP_SNAP from sB sB).
Qed.

(** Server [a] behind another address. *)
Definition synced (addrs : list sockaddr_in) : t :=
  set_sync_enabled_ true (set_sync_addrs_ addrs initial).

Definition cam_ext (ext : bytes) : Peer :=
  mkPeer (bs "cam") (mkAddr 33663172 20480) (mkAddr 167880896 20480) 1 2 900 900 0 (len ext) ext.

Lemma cam_fits ext : bytes_ok ext -> (length ext <= 1024)%nat -> row_fits (cam_ext ext).
Proof.
  intros B L. split; [apply app_uuid_ok|]. unfold cam_ext. cbn.
  repeat (split; [by vm_compute|]). by split.
Qed.

Lemma row_replicates_witness :
  exists d s' q,
    send_peer_entry (mkAddr 1 1) (cam_ext [7]) SYNC_HOP_SNAP initial = Done (tt, initial, [Send d]) /\
    handle_packet quiet_env (dg_data d) (mkAddr 2 2) (synced [mkAddr 2 2]) = Done (tt, s', []) /\
    PeerManager.get (peers_ s') (bs "cam") = Some q /\ p_extinfo q = [7].
Proof.
  destruct (row_replicates quiet_env (cam_ext [7]) (mkAddr 1 1) (mkAddr 2 2) initial (synced [mkAddr 2 2]))
    as (d & s' & q & E1 & _ & E2 & G & _ & _ & _ & _ & _ & X & _).
  - apply cam_fits; [decide_now|vm_compute; lia].
  - exact eq_refl.
  - exact eq_refl.
  - exists d, s', q. by split.
Defined.

(** ** Forwarding *)

Lemma broadcast_eq id obj from s :
  (length obj <= MAX_PKT - 40)%nat ->
  broadcast_sync_msg id obj (length obj) (Some from) s =
  Done (tt, s, map (fun to => Send (mkDg MainSock to (frame (msg_id id) (obj ++ signature (cfg_ s) obj))))
                 (List.filter (fun to => negb (sockaddr_eq from to)) (sync_addrs_ s))).
Proof.
  intros L. unfold broadcast_sync_msg. rewrite gets_eq.
  generalize (sync_addrs_ s). intros addrs. induction addrs as [|a l IH]; [done|]. cbn [mapM_ List.filter].
  destruct (sockaddr_eq from a); cbn [negb].
  - rewrite (step_eq _ _ s tt s) by done. exact IH.
  - cbn [map]. eapply (bind_eq _ _ _ _ _ [_]); [by apply sync_send_eq|exact IH].
Qed.

(** The row has not been seen from this sender at this heartbeat in 300 seconds. *)
Definition fresh (e : env) (p : Peer) (from : sockaddr_in) (s : t) : bool :=
  match sync_seen_ s !! seen_key (p_uuid p) (p_last_heartbeat p) from with
  | Some at_ => 300 <=? now e - at_
  | None => true
  end.

Lemma seen_fresh e p from s :
  fresh e p from s = true ->
  exists m, seen_sync_entry e (p_uuid p) (p_last_heartbeat p) from s = Done (false, set_sync_seen_ m s, []).
Proof.
  unfold fresh, seen_sync_entry. destruct (sync_seen_ s !! _) as [at_|]; [|by eexists].
  intros H. destruct (Z.ltb_spec (now e - at_) 300); [lia|]. by eexists.
Qed.

Lemma seen_again e p from s :
  fresh e p from s = false ->
  seen_sync_entry e (p_uuid p) (p_last_heartbeat p) from s = Done (true, s, []).
Proof.
  unfold fresh, seen_sync_entry. destruct (sync_seen_ s !! _) as [at_|]; [|done].
  intros H. by destruct (Z.ltb_spec (now e - at_) 300); [|lia].
Qed.

(** Rows without an extension flood at most three hops: a row seen from the
    same sender with the same heartbeat within 300 seconds is dropped; a new one is
    stored and, if it made fewer than three hops, sent once to every other server but
    the one it came from, with the hop count one higher; at three hops it is stored
    and not sent on. *)
Theorem row_forwarding (e : env) (p : Peer) (hop : Z) (from : sockaddr_in) (s : t)
    (Hp : row_fits p) (Hext : p_extinfo p = []) (Hh : 0 <= hop < 255) (Hen : sync_enabled s = true) :
  exists s',
    handle_packet e (row_packet (cfg_ s) p hop) from s =
    Done (tt, s',
      if fresh e p from s && (hop <? 3)
      then map (fun to => Send (mkDg MainSock to (row_packet (cfg_ s) p (hop + 1))))
             (List.filter (fun to => negb (sockaddr_eq from to)) (sync_addrs_ s))
      else []) /\
    (fresh e p from s = false -> s' = s) /\
    (fresh e p from s = true -> exists q, PeerManager.get (peers_ s') (p_uuid p) = Some q /\
       p_pub_addr q = p_pub_addr p /\ p_last_heartbeat q = p_last_heartbeat p).
Proof.
  assert (byte_ok hop) as B by (unfold byte_ok; lia). rewrite handle_row by done.
  assert ((hop =? SYNC_HOP_SNAP) = false) as Hs by (apply Z.eqb_neq; unfold SYNC_HOP_SNAP; lia).
  destruct (fresh e p from s) eqn:Fr.
  - destruct (seen_fresh e p from s Fr) as [m Em].
    rewrite (handle_sync_entry_stores e p hop from s (set_sync_seen_ m s)) by (rewrite ?Hs; done).
    destruct (stored_get (set_sync_seen_ m s) p) as (q & G & P & _ & _ & _ & T & _); [apply Hp|apply Hp|].
    rewrite Hs. cbn [negb andb]. change SYNC_HOP_MAX with 3. exists (stored (set_sync_seen_ m s) p).
    split; [|split; [done|intros _; by exists q]].
    destruct (Z.ltb_spec hop 3) as [H3|]; [|done].
    assert (byte_ok (hop + 1)) as B1 by (unfold byte_ok; lia).
    pose proof (row_body_length p (hop + 1) Hp B1) as L.
    rewrite Hext in L |- *. simpl length in *. rewrite Nat.add_0_r in L |- *.
    assert (cenc SyncPeerEntry_codec (sync_entry p (hop + 1)) = row_body p (hop + 1)) as ->
      by (unfold row_body; by rewrite Hext, app_nil_r).
    change (csize SyncPeerEntry_codec) with 79%nat. rewrite <- L.
    apply (broadcast_eq MSG_SYNC_PEER_ENTRY (row_body p (hop + 1)) from (stored (set_sync_seen_ m s) p)).
    rewrite L. vm_compute. lia.
  - exists s. split; [|done]. unfold handle_sync_entry. rewrite gets_eq, Hen. cbn [negb andb]. cbv zeta.
    change (sp_hop (sync_entry p hop)) with hop. rewrite Hs.
    assert (c_str (sp_uuid (sync_entry p hop)) = p_uuid p) as -> by (apply c_str_uuid_field; apply Hp).
    assert (ntohl (sp_hb_time (sync_entry p hop)) = p_last_heartbeat p) as ->.
    { cbn [sync_entry sp_hb_time]. rewrite u32_small by apply Hp. by apply htonl_involutive, Hp. }
    destruct (_ =? 0)%nat; [done|]. by rewrite (step_eq _ _ _ _ _ (seen_again e p from s Fr)).
Qed.

Lemma row_forwarding_witness :
  let s := synced [mkAddr 1 1; mkAddr 2 2] in
  exists s', handle_packet quiet_env (row_packet (cfg_ s) (cam_ext []) 1) (mkAddr 2 2) s =
    Done (tt, s', [Send (mkDg MainSock (mkAddr 1 1) (row_packet (cfg_ s) (cam_ext []) 2))]).
Proof.
  intros s. destruct (row_forwarding quiet_env (cam_ext []) 1 (mkAddr 2 2) s) as (s' & E & _).
  - apply cam_fits; [decide_now|vm_compute; lia].
  - exact eq_refl.
  - lia.
  - exact eq_refl.
  - exists s'. exact E.
Defined.

(** A row with an extension cannot be forwarded: [handle_sync_entry] passes the
    length of row and extension with a copy of the row alone, so that when such a row
    arrives for the first time with fewer than three hops and there is any other server
    to send it to, the server reads past the copy. *)
Theorem forwarding_overreads (e : env) (p : Peer) (hop : Z) (from a : sockaddr_in) (s : t)
    (Hp : row_fits p) (Hext : p_extinfo p <> []) (Hh : 0 <= hop < 3) (Hen : sync_enabled s = true)
    (Hfresh : fresh e p from s = true) (Ha : a ∈ sync_addrs_ s /\ a <> from) :
  handle_packet e (row_packet (cfg_ s) p hop) from s = Fault OutOfBounds.
Proof.
  assert (byte_ok hop) as B by (unfold byte_ok; lia). rewrite handle_row by done.
  assert ((hop =? SYNC_HOP_SNAP) = false) as Hs by (apply Z.eqb_neq; unfold SYNC_HOP_SNAP; lia).
  destruct (seen_fresh e p from s Hfresh) as [m Em].
  rewrite (handle_sync_entry_stores e p hop from s (set_sync_seen_ m s)) by (rewrite ?Hs; done).
  rewrite Hs. change SYNC_HOP_MAX with 3. destruct (Z.ltb_spec hop 3); [|lia]. cbn [negb andb].
  assert (byte_ok (hop + 1)) as B1 by (unfold byte_ok; lia).
  pose proof (codec_size _ (sync_entry_cok p (hop + 1) Hp B1)) as L.
  set (obj := cenc SyncPeerEntry_codec (sync_entry p (hop + 1))) in *.
  set (s1 := stored (set_sync_seen_ m s) p).
  unfold broadcast_sync_msg. rewrite gets_eq. change (sync_addrs_ s1) with (sync_addrs_ s).
  destruct Ha as [Ha Na]. induction (sync_addrs_ s) as [|b l IH]; [by apply not_elem_of_nil in Ha|].
  cbn [mapM_]. destruct (sockaddr_eq from b) eqn:Eb.
  - apply sockaddr_eq_true in Eb as <-. rewrite (step_eq _ _ s1 tt s1) by done. apply IH.
    by apply elem_of_cons in Ha as [->|].
  - unfold mbind, M_bind. unfold sync_send_msg. rewrite gets_eq.
    pose proof Hp as (_ & _ & _ & _ & _ & _ & _ & X & _).
    change (csize SyncPeerEntry_codec) with 79%nat. change (MAX_PKT - 32)%nat with 2016%nat.
    destruct (Nat.ltb_spec 2016 (79 + length (p_extinfo p))); [lia|].
    unfold mbind, M_bind, lift, read_obj. rewrite L. change (csize SyncPeerEntry_codec) with 79%nat.
    destruct (Nat.ltb_spec 79 (79 + length (p_extinfo p))) as [_|Hle]; [done|].
    destruct (p_extinfo p); [done|simpl in Hle; lia].
Qed.

Lemma forwarding_overreads_witness :
  let s := synced [mkAddr 1 1; mkAddr 2 2] in
  handle_packet quiet_env (row_packet (cfg_ s) (cam_ext [7]) 1) (mkAddr 2 2) s = Fault OutOfBounds.
Proof.
  intros s. apply (forwarding_overreads quiet_env (cam_ext [7]) 1 (mkAddr 2 2) (mkAddr 1 1) s).
  - apply cam_fits; [decide_now|vm_compute; lia].
  - discriminate.
  - lia.
  - exact eq_refl.
  - exact eq_refl.
  - split; [left|discriminate].
Defined.

(** ** Removals *)

Definition del_body (uuid : bytes) : bytes := cenc SyncPeerDel_codec (mkSyncPeerDel (uuid_field uuid)).

Definition del_packet (cfg : CfgData) (uuid : bytes) : bytes :=
  frame (msg_id MSG_SYNC_PEER_DEL) (del_body uuid ++ signature cfg (del_body uuid)).

Lemma handle_del e uuid from s cfg :
  uuid_ok uuid -> sync_enabled s = true -> sync_auth_secret cfg = sync_auth_secret (cfg_ s) ->
  handle_packet e (del_packet cfg uuid) from s =
  Done (tt, set_peers_ (PeerManager.remove (peers_ s) uuid).2 s,
    map (fun to => Send (mkDg MainSock to (del_packet cfg uuid)))
      (List.filter (fun to => negb (sockaddr_eq from to)) (sync_addrs_ s))).
Proof.
  intros U En E. unfold del_packet.
  assert (signature cfg (del_body uuid) = signature (cfg_ s) (del_body uuid)) as ->
    by (unfold signature; by rewrite E).
  pose proof (length_signature (cfg_ s) (del_body uuid)) as Ls.
  assert (cok SyncPeerDel_codec (mkSyncPeerDel (uuid_field uuid))) as K by exact (uuid_field_cok _ U).
  assert (length (del_body uuid) = 33%nat) as Lb by exact (codec_size _ K).
  rewrite handle_frame by (unfold len; rewrite length_app, Lb; lia). cbn [dispatch]. unfold on_sync_del.
  change (csize SyncPeerDel_codec) with 33%nat. rewrite length_app, Lb.
  destruct (Nat.ltb_spec (33 + length (signature (cfg_ s) (del_body uuid))) 33); [lia|].
  rewrite gets_eq. pose proof (sync_verify_signed (cfg_ s) (del_body uuid)) as V. rewrite Lb in V. rewrite V.
  cbn [negb].
  assert (cdec SyncPeerDel_codec (del_body uuid ++ signature (cfg_ s) (del_body uuid)) =
    mkSyncPeerDel (uuid_field uuid)) as -> by exact (codec_dec_enc _ _ K).
  cbn [sd_uuid]. rewrite request_uuid by done. unfold handle_sync_del. rewrite gets_eq, En. cbn [negb].
  fold (del_body uuid). change (csize SyncPeerDel_codec) with 33%nat. rewrite <- Lb at 1.
  rewrite <- (app_nil_r (map _ _)). eapply bind_eq; [|done].
  apply broadcast_eq. rewrite Lb. vm_compute. lia.
Qed.

(** Three servers that know each other; [b] receives the removal from [a], [c] from
    [b], and so on around the ring.  [circulates n] holds when [n] deliveries in a row
    each make the receiver send exactly one more copy of the removal, to the next. *)
Fixpoint circulates (n : nat) (e : env) (data : bytes) (a b c : sockaddr_in) (sa sb sc : t) : Prop :=
  match n with
  | O => True
  | S n =>
      exists sb', handle_packet e data a sb = Done (tt, sb', [Send (mkDg MainSock c data)]) /\
        circulates n e data b c a sb' sc sa
  end.

(** A server of the ring: it synchronises with the two others under this secret. *)
Definition ring_member (secret : bytes) (x y : sockaddr_in) (s : t) : Prop :=
  sync_enabled_ s = true /\ sync_auth_secret (cfg_ s) = secret /\
  (sync_addrs_ s = [x; y] \/ sync_addrs_ s = [y; x]).

(** A removal never dies out: it carries no hop count and is not remembered, so
    among three servers that synchronise with each other one removal message goes
    around for ever: after any number of deliveries a copy is still on its way, to
    servers that may have removed the peer long before. *)
Theorem removal_circulates (n : nat) (e : env) (uuid : bytes) (a b c : sockaddr_in) (sa sb sc : t)
    (cfg : CfgData) (Hu : uuid_ok uuid) (Hab : a <> b /\ b <> c /\ a <> c)
    (Ha : ring_member (sync_auth_secret cfg) b c sa) (Hb : ring_member (sync_auth_secret cfg) a c sb)
    (Hc : ring_member (sync_auth_secret cfg) a b sc) :
  circulates n e (del_packet cfg uuid) a b c sa sb sc.
Proof.
  revert a b c sa sb sc Hab Ha Hb Hc. induction n as [|n IH]; intros a b c sa sb sc (N1 & N2 & N3) Ha Hb Hc; [done|].
  destruct Hb as (E1 & E2 & E3).
  assert (sockaddr_eq a a = true /\ sockaddr_eq a c = false) as [T1 T2].
  { split; [by apply sockaddr_eq_true|]. apply not_true_iff_false. by rewrite sockaddr_eq_true. }
  exists (set_peers_ (PeerManager.remove (peers_ sb) uuid).2 sb). split.
  - rewrite handle_del; [|done| |done].
    + destruct E3 as [-> | ->]; cbn [List.filter]; rewrite T1, T2; done.
    + unfold sync_enabled. rewrite E1. by destruct E3 as [-> | ->].
  - destruct Hc as (C1 & C2 & C3), Ha as (A1 & A2 & A3). apply IH; split_all; try done.
    all: unfold ring_member; cbn; tauto.
Qed.

Lemma removal_circulates_witness :
  circulates 1000 quiet_env (del_packet cfg_default (bs "cam")) (mkAddr 1 1) (mkAddr 2 2) (mkAddr 3 3)
    (synced [mkAddr 2 2; mkAddr 3 3]) (synced [mkAddr 1 1; mkAddr 3 3]) (synced [mkAddr 1 1; mkAddr 2 2]).
Proof.
  apply (removal_circulates 1000 quiet_env (bs "cam") (mkAddr 1 1) (mkAddr 2 2) (mkAddr 3 3)
    (synced [mkAddr 2 2; mkAddr 3 3]) (synced [mkAddr 1 1; mkAddr 3 3]) (synced [mkAddr 1 1; mkAddr 2 2])
    cfg_default).
  - apply app_uuid_ok.
  - split; [discriminate|split; discriminate].
  - split; [exact eq_refl|split; [exact eq_refl|left; exact eq_refl]].
  - split; [exact eq_refl|split; [exact eq_refl|left; exact eq_refl]].
  - split; [exact eq_refl|split; [exact eq_refl|left; exact eq_refl]].
Defined.

End ServerSync.
