(* ===== verification/ServerLoop.v ===== *)
(** * Start-up and threads of the rendezvous server

    Models [NatServer::init], [setup_sync_peers] and one turn of each thread of
    [run]: a receive thread, a worker, the timer.  The threads interleave at these
    turns; [step] is their union. *)

From S2P Require Import Prelude.
From S2P Require Import Bytes.
From S2P Require Import Wire.
From S2P Require Import ProtoDef.
From S2P Require Import NetUtil.
From S2P Require Import TextFile.
From S2P Require Import Packet.
From S2P Require Import Handler.
From S2P Require Import PeerManage.
From S2P Require Import AntiAbuse.
From S2P Require Import LicenseMgr.
From S2P Require Import CfgFile.
From S2P Require Import NatTypeCheck.
From S2P Require Import NatServer.
From S2P Require Import RecvProcess.
From S2P Require Import ServerSafety.
From S2P Require Import ServerAuth.
From S2P Require Import ServerLogin.

#[local] Open Scope Z_scope.

Module ServerLoop.
Import NatServer RecvProcess ServerSafety ServerAuth ServerLogin.

(** What the operating system answers: file contents and times, whether the sockets
    can be opened, the local address of each socket, and the traversal orders of the
    unordered maps. *)
Record world := mkWorld {
  w_env : env;
  read_file : bytes -> option bytes;
  mtime : bytes -> Z;
  main_ok : bool;
  alt_ok : bool;
  clones_ok : bool;
  ephemeral : option Z;
  names : sock -> option sockaddr_in;
  ip_iter : gmap Z Z -> list (Z * Z);
  uuid_iter : gmap bytes Z -> list (bytes * Z)
}.

(** ** Start-up *)

(** [ip:port] of a synchronisation peer; the default port is the server's. *)
Definition sync_target (nat_port : Z) (s : bytes) : bytes * Z :=
  match cut_at 58 s with
  | Some (ip, port) => (ip, u16 (atoi port))
  | None => (s, nat_port)
  end.

Definition sync_peer (self_ip : bytes) (nat_port : Z) (s : bytes) : option sockaddr_in :=
  let '(ip, port) := sync_target nat_port s in
  if bool_decide (ip = self_ip) && (port =? nat_port) then None
  else match inet_pton ip with
       | Some a => Some (mkAddr a (htons port))
       | None => None
       end.

Definition setup_sync_peers : M unit :=
  modify (fun s =>
    let s := set_sync_addrs_ [] s in
    if negb (CfgFile.sync_enabled (cfg_ s)) then set_sync_enabled_ false s
    else
      let list := if (length (sync_addrs (cfg_ s)) =? 0)%nat then nat_ips (cfg_ s) else sync_addrs (cfg_ s) in
      let self_ip := if bool_decide (wan_ip_ s = bs "0.0.0.0") then bs "127.0.0.1" else wan_ip_ s in
      set_sync_addrs_ (omap (sync_peer self_ip (nat_port_ s)) list) (set_sync_enabled_ true s)).

Definition lift_license (f : LicenseMgr.t -> outcome LicenseMgr.t) : M unit :=
  on_license (fun l => match f l with Done l => Done (tt, l) | Fault x => Fault x end).

Definition init_abuse (w : world) : M unit :=
  cfg ← gets cfg_;
  modify (fun s => set_abuse_ (AntiAbuse.configure (abuse_ s) (flood_pkt_threshold cfg) (blacklist_seconds cfg)) s);;
  if (length (blacklist_file cfg) =? 0)%nat then skip
  else
    modify (fun s =>
      let a := AntiAbuse.set_password (AntiAbuse.set_path (abuse_ s) (blacklist_file cfg)) (blacklist_pass cfg) in
      set_abuse_ (AntiAbuse.load a (read_file w (blacklist_file cfg))).2 s).

Definition init_license (w : world) : M unit :=
  cfg ← gets cfg_;
  let named := negb (length (license_file cfg) =? 0)%nat in
  lift_license (fun l => LicenseMgr.set_path l (if named then license_file cfg else bs "/tmp/licensep2p_clean.dat"));;
  lift_license (fun l => LicenseMgr.set_password l (license_pass cfg));;
  if negb (enable_license cfg) then skip
  else
    loaded ← (if named then on_license (fun l => LicenseMgr.load l (license_file cfg) (read_file w (license_file cfg)))
              else mret false);
    (if (loaded : bool) then _ ← on_license LicenseMgr.count; skip
     else mapM_ (fun u => _ ← on_license (fun l => LicenseMgr.add l u); skip) (allowed_uuids cfg));;
    if named then
      n ← on_license LicenseMgr.count;
      if (0 <? (n : nat))%nat then save_license (w_env w) else skip
    else skip.

Definition init (w : world) (cfg_path : bytes) (nat_port proxy_port : Z) (wan_ip : bytes) : M Z :=
  modify (fun s => set_wan_ip_ wan_ip (set_proxy_port_ proxy_port (set_nat_port_ nat_port s)));;
  let cfg := (load_server_set cfg_default cfg_path (read_file w cfg_path)).2 in
  modify (set_cfg_ cfg);;
  if (length (nat_ips cfg) =? 0)%nat || (length (proxy_ips cfg) =? 0)%nat then mret (-1)
  else
    modify (set_cfg_mtime_ (mtime w cfg_path));;
    init_abuse w;;
    init_license w;;
    r ← (fun s =>
      let '(r, n) := NatTypeCheck.init (natcheck_ s) (nat_port_ s) (nat_sock2_port (cfg_ s)) (main_ok w) (alt_ok w)
                       (ephemeral w) in Done (r, set_natcheck_ n s, []));
    if negb (r =? 0) then mret (-1)
    else
      setup_sync_peers;;
      if (1 <? recv_threads cfg) && negb (clones_ok w) then mret (-1) else mret 0.

(** ** A receive thread: one datagram *)

Definition QUEUE_MAX : nat := Z.to_nat 8192.

Definition push_packet (pkt : IncomingPacket) (q : list IncomingPacket) : list IncomingPacket :=
  (if (QUEUE_MAX <=? length q)%nat then tail q else q) ++ [pkt].

Definition receive (w : world) (data : bytes) (from : sockaddr_in) : M unit :=
  let buf := take MAX_PKT data in
  if (length buf =? 0)%nat then skip
  else
    modify (fun s => set_total_pkts_ (u64 (total_pkts_ s + 1)) s);;
    black ← on_abuse (AntiAbuse.is_ip_blacklisted (now (w_env w)) from);
    if (black : bool) then skip
    else
      flood ← on_abuse (AntiAbuse.check_flood (now (w_env w)) (s_addr from));
      if (flood : bool) then skip
      else
        n ← gets natcheck_;
        let '(hit, out) := NatTypeCheck.try_fast_handle (names w) n buf from in
        if hit then mapM_ (fun d => emit (Send d)) out
        else modify (fun s => set_mq_ (push_packet (mkPkt buf from) (mq_ s)) s).

(** ** A worker: one packet *)

Definition process (w : world) : M unit :=
  q ← gets mq_;
  match q with
  | [] => skip
  | pkt :: q =>
      modify (set_mq_ q);;
      handle_packet (w_env w) (pkt_data pkt) (pkt_from pkt)
  end.

(** ** The timer: one turn *)

Record timers := mkTimers { last_proxy_q : Z; last_stat : Z; last_sync_snap : Z }.

Definition broadcast_del (u : bytes) : M unit :=
  broadcast_sync_msg MSG_SYNC_PEER_DEL (cenc SyncPeerDel_codec (mkSyncPeerDel (uuid_field u)))
    (csize SyncPeerDel_codec) None.

Definition expire_peers (w : world) : M unit :=
  dead ← gets (fun s => (PeerManager.cleanup_timeout_and_collect (now (w_env w)) 90 (peers_ s)).1);
  on_peers (fun p => (PeerManager.cleanup_timeout_and_collect (now (w_env w)) 90 p).2);;
  mapM_ broadcast_del dead.

Definition save_abuse (w : world) : M unit := fun s =>
  let a := abuse_ s in
  let '(ok, content) := AntiAbuse.save (ip_iter w) (uuid_iter w) (now (w_env w))
                          (writable (w_env w) (AntiAbuse.path_ a)) (rnd_salt (w_env w)) (rnd_iv (w_env w)) a in
  Done (tt, if ok then set_abuse_ (AntiAbuse.reset_dirty a) s else s,
        match content with Some c => [WriteFile (AntiAbuse.path_ a) c] | None => [] end).

Definition reload (w : world) : M unit :=
  modify (fun s =>
    let path := CfgFile.cfg_path (cfg_ s) in
    let '(ok, cfg, mt) := reload_if_changed (cfg_ s) path (mtime w path) (read_file w path) (cfg_mtime_ s) in
    let s := set_cfg_mtime_ mt s in
    if ok then
      set_abuse_ (AntiAbuse.configure (abuse_ s) (flood_pkt_threshold cfg) (blacklist_seconds cfg)) (set_cfg_ cfg s)
    else s).

(** The turn after the expiry. *)
Definition upkeep (w : world) (tm : timers) : M timers :=
  let t0 := now (w_env w) in
  on_peers (PeerManager.cleanup_auth_sessions t0);;
  modify (fun s => set_abuse_ (AntiAbuse.sweep t0 (abuse_ s)) s);;
  dirty ← gets (fun s => AntiAbuse.needs_save (abuse_ s));
  (if (dirty : bool) then save_abuse w else skip);;
  reload w;;
  tm ← (if 10 <=? t0 - last_proxy_q tm then
          cfg ← gets cfg_;
          mapM_ send_proxy_avail_query (proxy_ips cfg);;
          mark_proxy_stale (w_env w);;
          mret (mkTimers t0 (last_stat tm) (last_sync_snap tm))
        else mret tm);
  en ← gets sync_enabled;
  tm ← (if en && (SYNC_SNAPSHOT_INTERVAL <=? t0 - last_sync_snap tm) then
          request_sync_snapshot (w_env w);;
          mret (mkTimers (last_proxy_q tm) (last_stat tm) t0)
        else mret tm);
  mret (if 5 <=? t0 - last_stat tm then mkTimers (last_proxy_q tm) t0 (last_sync_snap tm) else tm).

Definition tick (w : world) (tm : timers) : M timers := expire_peers w;; upkeep w tm.

(** ** The status report *)

(** The JSON text; a quotation mark is octet 34. *)
Definition json_field (name : bytes) (n : Z) : bytes := 34 :: name ++ 34 :: 58 :: dec_u n.

Definition status_json (e : env) (s : t) : bytes :=
  let n (x : nat) := Z.of_nat x in
  123 :: json_field (bs "online") (n (PeerManager.size_ (peers_ s))) ++
  44 :: json_field (bs "devices") (n (PeerManager.device_count (peers_ s))) ++
  44 :: json_field (bs "apps") (n (PeerManager.client_count (peers_ s))) ++
  44 :: json_field (bs "authed") (n (PeerManager.authed_count (now e) (peers_ s))) ++
  44 :: json_field (bs "total_pkts") (total_pkts_ s) ++
  44 :: json_field (bs "connect_ok") (connect_ok_ s) ++
  44 :: json_field (bs "connect_fail") (connect_fail_ s) ++
  44 :: json_field (bs "blacklist_ips") (n (AntiAbuse.ip_blacklist_size (abuse_ s))) ++
  44 :: json_field (bs "proxy_count") (n (length (proxy_ips (cfg_ s)))) ++ [125].

(** ** The queue *)

(** A bounded queue of received datagrams, and the invariant of the handlers. *)
Definition pkt_ok (pkt : IncomingPacket) : Prop :=
  bytes_ok (pkt_data pkt) /\ (length (pkt_data pkt) <= MAX_PKT)%nat.

Definition loop_inv (s : t) : Prop :=
  server_inv s /\ (length (mq_ s) <= QUEUE_MAX)%nat /\ Forall pkt_ok (mq_ s).

Lemma push_packet_spec pkt q :
  (length q <= QUEUE_MAX)%nat ->
  push_packet pkt q = drop (length (q ++ [pkt]) - QUEUE_MAX) (q ++ [pkt]).
Proof.
  intros H. unfold push_packet. rewrite length_app. cbn [length].
  assert (1 <= QUEUE_MAX)%nat by (unfold QUEUE_MAX; lia).
  destruct (Nat.leb_spec QUEUE_MAX (length q)).
  - replace (length q + 1 - QUEUE_MAX)%nat with 1%nat by lia. destruct q; [simpl in *; lia|done].
  - replace (length q + 1 - QUEUE_MAX)%nat with 0%nat by lia. by rewrite drop_0.
Qed.

Lemma push_packet_length pkt q :
  (length q <= QUEUE_MAX)%nat -> (length (push_packet pkt q) <= QUEUE_MAX)%nat.
Proof. intros H. rewrite push_packet_spec by done. rewrite length_drop, length_app. simpl. lia. Qed.

(** The queue keeps the newest packets in order: after any packets are pushed,
    one by one, it holds the last 8192 of what it held and what came, and overload
    drops the oldest. *)
Theorem queue_keeps_newest (q pkts : list IncomingPacket) (Hq : (length q <= QUEUE_MAX)%nat) :
  foldl (fun q pkt => push_packet pkt q) q pkts = drop (length (q ++ pkts) - QUEUE_MAX) (q ++ pkts).
Proof.
  revert q Hq. induction pkts as [|pkt pkts IH]; intros q Hq; cbn [foldl].
  { rewrite app_nil_r. replace (length q - QUEUE_MAX)%nat with 0%nat by lia. by rewrite drop_0. }
  rewrite IH by (by apply push_packet_length). rewrite push_packet_spec by done.
  remember (length (q ++ [pkt]) - QUEUE_MAX)%nat as k eqn:Ek.
  assert (k <= length (q ++ [pkt]))%nat as Hk by lia.
  rewrite <- drop_app_le by done. rewrite drop_drop, <- app_assoc, length_drop. f_equal.
  rewrite length_app in Ek, Hk. rewrite !length_app in *. cbn [length app] in *. lia.
Qed.

Lemma queue_keeps_newest_witness :
  foldl (fun q pkt => push_packet pkt q) [mkPkt [1] (mkAddr 0 0)] [mkPkt [2] (mkAddr 0 0)] =
  [mkPkt [1] (mkAddr 0 0); mkPkt [2] (mkAddr 0 0)].
Proof.
  rewrite (queue_keeps_newest [mkPkt [1] (mkAddr 0 0)] [mkPkt [2] (mkAddr 0 0)]).
  - unfold QUEUE_MAX. simpl length. replace (2 - Z.to_nat 8192)%nat with 0%nat by lia. reflexivity.
  - unfold QUEUE_MAX. simpl length. lia.
Defined.

(** ** The threads never stop *)

Lemma mq_of {A} (m : M A) s a s' o : keeps same_queue m -> m s = Done (a, s', o) -> mq_ s' = mq_ s.
Proof. intros K E. symmetry. by eapply K. Qed.

Lemma on_abuse_eq {A} (f : AntiAbuse.t -> A * AntiAbuse.t) s :
  on_abuse f s = Done ((f (abuse_ s)).1, set_abuse_ (f (abuse_ s)).2 s, []).
Proof. unfold on_abuse. by destruct (f (abuse_ s)). Qed.

Lemma receive_ok w data from s :
  loop_inv s -> bytes_ok data ->
  exists s' o, receive w data from s = Done (tt, s', o) /\ loop_inv s'.
Proof.
  intros (I & L & F) B. unfold receive. cbv zeta.
  destruct (length (take MAX_PKT data) =? 0)%nat; [by exists s, []|].
  rewrite (step_eq _ _ s tt (set_total_pkts_ (u64 (total_pkts_ s + 1)) s)) by done.
  rewrite (step_eq _ _ _ _ _ (on_abuse_eq _ _)).
  destruct (AntiAbuse.is_ip_blacklisted _ _ _) as [[] x]; cbn [fst snd]; [by do 2 eexists|].
  rewrite (step_eq _ _ _ _ _ (on_abuse_eq _ _)).
  destruct (AntiAbuse.check_flood _ _ _) as [[] y]; cbn [fst snd]; [by do 2 eexists|].
  rewrite gets_eq. destruct (NatTypeCheck.try_fast_handle _ _ _ _) as [[] out].
  - assert (forall s0, exists o, (mapM_ (fun d => emit (Send d)) out : M unit) s0 = Done (tt, s0, o)) as Em.
    { induction out as [|d out IH]; intros s0; [by eexists|]. destruct (IH s0) as [o E].
      exists (Send d :: o). cbn [mapM_]. by apply (bind_eq _ _ _ tt s0 [Send d]). }
    edestruct Em as [o ->]. by do 2 eexists.
  - do 2 eexists. split; [done|]. split; [done|]. split; [by apply push_packet_length|].
    cbn [mq_ set_mq_]. unfold push_packet. apply Forall_app_2.
    + destruct (_ <=? _)%nat; [|done]. cbn [mq_ set_abuse_ set_total_pkts_]. by destruct F.
    + constructor; [|constructor]. split; cbn [pkt_data]; [by apply Forall_take|rewrite length_take; lia].
Qed.

(** A worker either handles the packet it takes, or runs past an object, which it does only
    for one of the three requests. *)
Lemma process_outcome w s :
  loop_inv s ->
  match process w s with
  | Done (_, s', o) => loop_inv s' /\ Forall effect_ok o /\ mq_ s' = tail (mq_ s)
  | Fault f => f = OutOfBounds /\ exists pkt q, mq_ s = pkt :: q /\ packet_hazard s (pkt_data pkt) = true
  end.
Proof.
  intros (I & L & F). unfold process. rewrite gets_eq.
  destruct (mq_ s) as [|pkt q] eqn:Eq; [unfold loop_inv; cbn; rewrite Eq; by split_all|].
  apply Forall_cons in F as [[Fb Fl] F]. rewrite (step_eq _ _ s tt (set_mq_ q s)) by done.
  pose proof (handle_packet_outcome (w_env w) (pkt_data pkt) (pkt_from pkt) (set_mq_ q s) I Fb) as H.
  destruct (handle_packet _ _ _ _) as [[[[] s'] o]|f] eqn:E.
  - destruct H as [I' O]. pose proof (mq_of _ _ _ _ _ (keeps_handle_packet same_queue _ _ _ ltac:(done)) E) as M'.
    cbn [mq_ set_mq_] in M'. split; [|by split]. split; [done|]. rewrite M'. split; [simpl in L; lia|done].
  - destruct H as [-> H]. split; [done|]. by exists pkt, q.
Qed.

Lemma process_ok w s :
  loop_inv s ->
  (forall pkt q, mq_ s = pkt :: q -> packet_hazard s (pkt_data pkt) = false) ->
  exists s' o, process w s = Done (tt, s', o) /\ loop_inv s' /\ Forall effect_ok o /\ mq_ s' = tail (mq_ s).
Proof.
  intros I Hz. pose proof (process_outcome w s I) as H. destruct (process w s) as [[[[] s'] o]|f]; [by exists s', o|].
  destruct H as (_ & pkt & q & E & P). by rewrite (Hz pkt q E) in P.
Qed.

(** *** The timer *)

Lemma broadcast_del_safe u : safe (broadcast_del u).
Proof. apply broadcast_safe. apply Nat.eq_le_incl. symmetry. exact (length_uuid_field u). Qed.

Lemma collect_wf n tm p : PeerManager.wf p -> PeerManager.wf (PeerManager.cleanup_timeout_and_collect n tm p).2.
Proof. apply PeerManager.step_wf. constructor. Qed.

Lemma cleanup_auth_wf n p : PeerManager.wf p -> PeerManager.wf (PeerManager.cleanup_auth_sessions n p).
Proof. apply PeerManager.step_wf. constructor. Qed.

Lemma save_abuse_safe w : safe (save_abuse w).
Proof.
  intros s I. unfold save_abuse. destruct (AntiAbuse.save _ _ _ _ _ _ _) as [ok content].
  exists tt. do 2 eexists. split; [done|]. split; [by destruct ok|].
  destruct content; by repeat constructor.
Qed.

Lemma reload_safe w : safe (reload w).
Proof.
  apply safe_modify. intros s I. cbv beta zeta. destruct (reload_if_changed _ _ _ _ _) as [[ok cfg] mt]. by destruct ok.
Qed.

Lemma request_snapshot_safe e : safe (request_sync_snapshot e).
Proof. unfold request_sync_snapshot. walk. by apply broadcast_safe. Qed.

Lemma query_safe ip : safe (send_proxy_avail_query ip).
Proof. unfold send_proxy_avail_query. walk. Qed.

#[local] Hint Resolve broadcast_del_safe collect_wf cleanup_auth_wf save_abuse_safe reload_safe
  request_snapshot_safe query_safe : safe.

Lemma tick_safe w tm : safe (tick w tm).
Proof. unfold tick, expire_peers, upkeep, mark_proxy_stale. walk. Qed.

(** What the timer does besides expiring peers leaves their records alone. *)
Definition same_records (p p' : PeerManager.t) : Prop := PeerManager.peers_ p = PeerManager.peers_ p'.

#[export] Instance same_records_preorder : PreOrder same_records.
Proof. split; [done|]. unfold same_records. intros p q r. congruence. Qed.

Section TickFrame.
Context (R : t -> t -> Prop) `{!Frame R}.
Hypothesis Rcfg : forall s x, R s (set_cfg_ x s).
Hypothesis Rmtime : forall s x, R s (set_cfg_mtime_ x s).
Hypothesis Rauth : forall s n, R s (set_peers_ (PeerManager.cleanup_auth_sessions n (peers_ s)) s).

Lemma keeps_reload w : keeps R (reload w).
Proof.
  apply keeps_modify. intros s. cbv beta zeta. destruct (reload_if_changed _ _ _ _ _) as [[ok cfg] mt].
  destruct ok; [|apply Rmtime]. etrans; [apply (Rmtime s mt)|]. etrans; [apply Rcfg|apply frame_abuse].
Qed.

Lemma keeps_save_abuse w : keeps R (save_abuse w).
Proof.
  intros s a s' o. unfold save_abuse. destruct (AntiAbuse.save _ _ _ _ _ _ _) as [ok content].
  intros [= _ <- _]. destruct ok; [apply frame_abuse|done].
Qed.

Lemma keeps_upkeep w tm : keeps R (upkeep w tm).
Proof.
  unfold upkeep, request_sync_snapshot, mark_proxy_stale. cbv zeta.
  repeat (intros; match goal with
    | |- keeps _ (mbind _ _) => apply keeps_bind
    | |- keeps _ (if _ then _ else _) => apply keeps_if
    | |- keeps _ (mapM_ _ _) => apply keeps_mapM
    | |- keeps _ (on_peers _) => by apply keeps_on_peers
    | |- keeps _ (modify _) => apply keeps_modify; intros; first [apply frame_abuse | apply frame_health]
    | |- keeps _ (gets _) => apply keeps_gets
    | |- keeps _ (mret _) => apply keeps_ret
    | |- keeps _ skip => apply keeps_skip
    | |- keeps _ (save_abuse _) => apply keeps_save_abuse
    | |- keeps _ (reload _) => apply keeps_reload
    | |- keeps _ (broadcast_sync_msg _ _ _ _) => apply keeps_broadcast
    | |- keeps _ (send_proxy_avail_query _) => unfold send_proxy_avail_query
    | |- keeps _ (send_msg _ _ _) => apply keeps_send_msg
    end; try apply _).
Qed.

End TickFrame.

Lemma expire_queue w : keeps same_queue (expire_peers w).
Proof.
  unfold expire_peers. apply keeps_bind; [apply _|apply keeps_gets, _|]. intros dead.
  apply keeps_bind; [apply _|by apply keeps_on_peers|]. intros _.
  apply keeps_mapM; [apply _|]. intros u. apply keeps_broadcast, _.
Qed.

Lemma expire_records w s s' o :
  expire_peers w s = Done (tt, s', o) ->
  PeerManager.peers_ (peers_ s') =
  PeerManager.peers_ (PeerManager.cleanup_timeout (now (w_env w)) 90 (peers_ s)).
Proof.
  unfold expire_peers. intros (dead & s1 & o1 & o2 & [= <- <- _] & E & _)%bind_done.
  apply bind_done in E as ([] & s2 & o3 & o4 & [= <- _] & E & _).
  assert (keeps (on_registry eq) (mapM_ broadcast_del
    (PeerManager.cleanup_timeout_and_collect (now (w_env w)) 90 (peers_ s)).1)) as K.
  { apply keeps_mapM; [apply _|]. intros u. apply keeps_broadcast, _. }
  apply K in E. by rewrite <- E.
Qed.

Lemma tick_ok w tm s :
  loop_inv s ->
  exists tm' s' o, tick w tm s = Done (tm', s', o) /\ loop_inv s' /\ Forall effect_ok o /\
    PeerManager.peers_ (peers_ s') =
    PeerManager.peers_ (PeerManager.cleanup_timeout (now (w_env w)) 90 (peers_ s)).
Proof.
  intros (I & L & F). destruct (tick_safe w tm s I) as (tm' & s' & o & E & I' & O).
  exists tm', s', o. split; [done|]. pose proof E as E0. unfold tick in E0.
  apply bind_done in E0 as ([] & s1 & o1 & o2 & E1 & E2 & _).
  assert (mq_ s' = mq_ s) as Q.
  { rewrite (mq_of _ _ _ _ _ (keeps_upkeep same_queue ltac:(done) ltac:(done) ltac:(done) w tm) E2).
    apply (mq_of _ _ _ _ _ (expire_queue w) E1). }
  assert (PeerManager.peers_ (peers_ s1) = PeerManager.peers_ (peers_ s')) as P
    by exact (keeps_upkeep (on_registry same_records) ltac:(done) ltac:(done) ltac:(done) w tm _ _ _ _ E2).
  split; [|split; [done|]].
  - split; [done|]. by rewrite Q.
  - rewrite <- P. exact (expire_records _ _ _ _ E1).
Qed.

(** The packet at the head of the queue is one of the three that break the server. *)
Definition head_hazard (s : t) : Prop :=
  exists pkt q, mq_ s = pkt :: q /\ packet_hazard s (pkt_data pkt) = true.

(** The server and its timer, or how a turn failed. *)
Inductive conf := Going (s : t) (tm : timers) | Failed (f : fault).

(** What a turn leads to. *)
Definition outcome_of {A} (r : outcome (A * t * list effect)) (tm : A -> timers) : conf :=
  match r with Done (a, s, _) => Going s (tm a) | Fault f => Failed f end.

(** One turn of some thread: a receive thread that is given a datagram, a worker, the
    timer.  A turn that fails ends the program. *)
Inductive step : conf -> conf -> Prop :=
| step_receive w data from s tm : bytes_ok data -> step (Going s tm) (outcome_of (receive w data from s) (fun _ => tm))
| step_process w s tm : step (Going s tm) (outcome_of (process w s) (fun _ => tm))
| step_tick w s tm : step (Going s tm) (outcome_of (tick w tm s) id).

(** Still going, with the invariant; or failed in a worker that took one of the three. *)
Definition sane (x0 x : conf) : Prop :=
  match x with
  | Going s _ => loop_inv s
  | Failed f =>
      f = OutOfBounds /\ exists w s tm, rtc step x0 (Going s tm) /\ loop_inv s /\ head_hazard s /\ process w s = Fault f
  end.

Lemma step_sane x0 x y : step x y -> rtc step x0 x -> sane x0 x -> sane x0 y.
Proof.
  intros [w data from s tm B|w s tm|w s tm] R I; cbn [sane] in I.
  - by destruct (receive_ok w data from s I B) as (s2 & o2 & -> & I2).
  - pose proof (process_outcome w s I) as H. destruct (process w s) as [[[[] s2] o2]|f] eqn:E; [by destruct H|].
    destruct H as [-> H]. split; [done|]. by exists w, s, tm.
  - by destruct (tick_ok w tm s I) as (tm2 & s2 & o2 & -> & I2 & _).
Qed.

(** C18: the threads keep the server going, but for three requests.  Take any interleaving
    of receive, worker and timer turns, with any packets, file contents and clock.  Either
    no turn fails, or a worker that takes one of the three requests [packet_hazard] names
    runs past an object, from a state that was still in order; nothing else ends the
    program, and in particular no lock is ever taken twice.  As long as it goes on, the
    registry is well formed, no lock is held, and the queue has at most 8192 packets that
    fit the buffer; a receive thread can take any datagram; the timer can run and leaves
    exactly the peers heard from in the last 90 seconds; and a worker that takes any other
    packet finishes and removes it from the queue. *)
Theorem threads_run (s0 : t) (tm0 : timers) (x : conf) (Hs0 : loop_inv s0) (Hreach : rtc step (Going s0 tm0) x) :
  match x with
  | Failed f =>
      f = OutOfBounds /\
      exists w s tm, rtc step (Going s0 tm0) (Going s tm) /\ loop_inv s /\ head_hazard s /\ process w s = Fault f
  | Going s tm =>
      loop_inv s /\
      (forall w data from, bytes_ok data -> exists s' o, receive w data from s = Done (tt, s', o)) /\
      (forall w, exists tm' s' o, tick w tm s = Done (tm', s', o) /\ Forall effect_ok o /\
         PeerManager.peers_ (peers_ s') =
         PeerManager.peers_ (PeerManager.cleanup_timeout (now (w_env w)) 90 (peers_ s))) /\
      (~ head_hazard s -> forall w, exists s' o, process w s = Done (tt, s', o) /\ Forall effect_ok o /\
         mq_ s' = tail (mq_ s))
  end.
Proof.
  assert (sane (Going s0 tm0) x) as I.
  { revert x Hreach. apply rtc_ind_r; [done|]. intros x y R Hxy IH. by eapply step_sane. }
  destruct x as [s tm|f]; [|done]. cbn [sane] in I. split; [done|]. split; [|split].
  - intros w data from B. destruct (receive_ok w data from s I B) as (s' & o & E & _). eauto.
  - intros w. destruct (tick_ok w tm s I) as (tm' & s' & o & E & _ & O & P). eauto 10.
  - intros Hz w. destruct (process_ok w s I) as (s' & o & E & _ & O & Q); [|eauto].
    intros pkt q E. destruct (packet_hazard s (pkt_data pkt)) eqn:H; [|done]. destruct Hz. by exists pkt, q.
Qed.

Lemma initial_inv : loop_inv initial.
Proof.
  split; [split; [apply PeerManager.wf_empty|done]|]. split; [unfold QUEUE_MAX; simpl length; lia|constructor].
Qed.

Lemma threads_run_witness :
  exists s' o, receive (mkWorld quiet_env (fun _ => None) (fun _ => 0) true true true None (fun _ => None)
    (fun m => map_to_list m) (fun m => map_to_list m)) [1; 2; 3] (mkAddr 16777343 5) initial = Done (tt, s', o).
Proof.
  destruct (threads_run initial (mkTimers 0 0 0) (Going initial (mkTimers 0 0 0))) as (_ & R & _).
  - apply initial_inv.
  - apply rtc_refl.
  - apply R. decide_now.
Defined.

(** ** Start-up *)

(** The white list file is named, can be read and has either format. *)
Definition license_hangs (w : world) (cfg : CfgData) : bool :=
  enable_license cfg && negb (length (license_file cfg) =? 0)%nat &&
  match read_file w (license_file cfg) with
  | Some raw => bool_decide (is_Some (LicenseMgr.read_uuids (license_pass cfg) raw))
  | None => false
  end.

Lemma on_license_eq {A} (f : LicenseMgr.t -> outcome (A * LicenseMgr.t)) s a l :
  f (license_ s) = Done (a, l) -> on_license f s = Done (a, set_license_ l s, []).
Proof. intros E. unfold on_license. by rewrite E. Qed.

Lemma add_all_safe us : safe (mapM_ (fun u => _ ← on_license (fun l => LicenseMgr.add l u); skip) us).
Proof.
  apply safe_mapM. intros u _. apply safe_bind; [|intros; apply safe_skip]. apply safe_on_license.
  intros l Hl. unfold LicenseMgr.add. destruct (length u =? 0)%nat; [by do 2 eexists|].
  rewrite LicenseMgr.lock_free by done. by do 2 eexists.
Qed.

Lemma count_safe : safe (on_license LicenseMgr.count).
Proof.
  apply safe_on_license. intros l Hl. unfold LicenseMgr.count. rewrite LicenseMgr.lock_free by done.
  by do 2 eexists.
Qed.

(** Loading ends unless the file parses. *)
Lemma load_safe path file :
  safe (fun s => match file with
    | Some raw => if bool_decide (is_Some (LicenseMgr.read_uuids (LicenseMgr.pass_ (license_ s)) raw))
                  then Done (false, s, []) else on_license (fun l => LicenseMgr.load l path file) s
    | None => on_license (fun l => LicenseMgr.load l path file) s
    end).
Proof.
  intros s I. assert (server_inv s) as [W L] by done. destruct file as [raw|].
  - destruct (bool_decide_reflect (is_Some (LicenseMgr.read_uuids (LicenseMgr.pass_ (license_ s)) raw))) as [H|H].
    { exists false, s, []. split; [done|]. split; [done|constructor]. }
    apply eq_None_not_Some in H. unfold on_license, LicenseMgr.load.
    rewrite LicenseMgr.lock_free by done. cbn. rewrite H. eexists _, _, []. split; [done|]. split; [by split|constructor].
  - unfold on_license, LicenseMgr.load. eexists _, _, []. split; [done|]. split; [by split|constructor].
Qed.

Abbreviation same_setup := (fun s s' : t => cfg_ s = cfg_ s' /\ mq_ s = mq_ s').

#[export] Instance setup_frame : Frame same_setup.
Proof. split; try by intros. split; [by intros s|]. intros s1 s2 s3 [] []. split; congruence. Qed.

Lemma keeps_init_license w : keeps same_setup (init_license w).
Proof.
  unfold init_license, lift_license. cbv zeta.
  repeat (intros; match goal with
    | |- keeps _ (mbind _ _) => apply keeps_bind
    | |- keeps _ (if _ then _ else _) => apply keeps_if
    | |- keeps _ (mapM_ _ _) => apply keeps_mapM
    | |- keeps _ (on_license _) => apply keeps_on_license
    | |- keeps _ (gets _) => apply keeps_gets
    | |- keeps _ (mret _) => apply keeps_ret
    | |- keeps _ skip => apply keeps_skip
    | |- keeps _ (save_license _) => apply keeps_save_license
    end; try apply _).
Qed.

(** The lock is free after the path and the password are set. *)
Definition keyed (path pass : bytes) (s : t) : t :=
  set_license_ (LicenseMgr.mk path pass (LicenseMgr.uuids_ (license_ s)) false) s.

Lemma init_license_steps w s :
  server_inv s ->
  init_license w s =
  (let cfg := cfg_ s in
   let named := negb (length (license_file cfg) =? 0)%nat in
   if negb (enable_license cfg) then skip
   else
     loaded ← (if named then on_license (fun l => LicenseMgr.load l (license_file cfg) (read_file w (license_file cfg)))
               else mret false);
     (if (loaded : bool) then _ ← on_license LicenseMgr.count; skip
      else mapM_ (fun u => _ ← on_license (fun l => LicenseMgr.add l u); skip) (allowed_uuids cfg));;
     if named then
       n ← on_license LicenseMgr.count;
       if (0 <? (n : nat))%nat then save_license (w_env w) else skip
     else skip)
  (keyed (if negb (length (license_file (cfg_ s)) =? 0)%nat then license_file (cfg_ s)
          else bs "/tmp/licensep2p_clean.dat") (license_pass (cfg_ s)) s).
Proof.
  intros [_ L]. unfold init_license. rewrite gets_eq. cbv zeta.
  set (path := if negb _ then license_file (cfg_ s) else _).
  rewrite (step_eq _ _ s tt (keyed path (LicenseMgr.pass_ (license_ s)) s)).
  2:{ unfold lift_license, on_license, LicenseMgr.set_path. by rewrite LicenseMgr.lock_free. }
  rewrite (step_eq _ _ _ tt (keyed path (license_pass (cfg_ s)) s)); [done|].
  unfold lift_license, on_license, LicenseMgr.set_password. by rewrite LicenseMgr.lock_free.
Qed.

Lemma init_license_hangs w s :
  server_inv s -> license_hangs w (cfg_ s) = true -> init_license w s = Fault Deadlock.
Proof.
  intros I H. rewrite init_license_steps by done. destruct I as [_ L]. unfold license_hangs in H.
  apply andb_true_iff in H as [[En Na]%andb_true_iff H]. cbv zeta. rewrite En, Na. cbn [negb].
  destruct (read_file w _) as [raw|]; [|done]. apply bool_decide_eq_true in H as [u Hu].
  unfold mbind at 1, M_bind at 1, on_license at 1, LicenseMgr.load.
  rewrite LicenseMgr.lock_free by done. cbn [mbind outcome_bind]. cbn. by rewrite Hu.
Qed.

Lemma init_license_ok w s :
  server_inv s -> license_hangs w (cfg_ s) = false ->
  exists s' o, init_license w s = Done (tt, s', o) /\ server_inv s'.
Proof.
  intros I H. rewrite init_license_steps by done. cbv zeta. unfold license_hangs in H.
  set (s1 := keyed _ _ s). assert (server_inv s1) as I1 by (destruct I; by split).
  destruct (enable_license (cfg_ s)); cbn [negb]; [|by exists s1, []].
  destruct (length (license_file (cfg_ s)) =? 0)%nat; cbn [negb andb] in *.
  - destruct (add_all_safe (allowed_uuids (cfg_ s)) s1 I1) as ([] & s2 & o2 & E2 & I2 & _).
    exists s2, ([] ++ o2 ++ []). split; [|done].
    eapply bind_eq; [done|]. by eapply bind_eq; [exact E2|].
  - destruct (load_safe (license_file (cfg_ s)) (read_file w (license_file (cfg_ s))) s1 I1)
      as (b & s2 & o2 & E2 & I2 & _).
    assert (on_license (fun l => LicenseMgr.load l (license_file (cfg_ s)) (read_file w (license_file (cfg_ s)))) s1
      = Done (b, s2, o2)) as E2'.
    { destruct (read_file w _) as [raw|]; [|done]. cbn in E2. rewrite H in E2. exact E2. }
    assert (safe ((if b then _ ← on_license LicenseMgr.count; skip
      else mapM_ (fun u => _ ← on_license (fun l => LicenseMgr.add l u); skip) (allowed_uuids (cfg_ s)));;
      n ← on_license LicenseMgr.count; if (0 <? (n : nat))%nat then save_license (w_env w) else skip)) as Hs.
    { apply safe_bind.
      - destruct b; [|apply add_all_safe]. apply safe_bind; [apply count_safe|intros; apply safe_skip].
      - intros _. apply safe_bind; [apply count_safe|]. intros n.
        apply safe_if; [apply save_license_safe|apply safe_skip]. }
    destruct (Hs s2 I2) as ([] & s3 & o3 & E3 & I3 & _).
    exists s3, (o2 ++ o3). split; [|done]. by eapply bind_eq.
Qed.

Lemma init_abuse_ok w s :
  exists a, init_abuse w s = Done (tt, set_abuse_ a s, []).
Proof.
  unfold init_abuse. rewrite gets_eq.
  rewrite (step_eq _ _ s tt (set_abuse_ (AntiAbuse.configure (abuse_ s) (flood_pkt_threshold (cfg_ s))
    (blacklist_seconds (cfg_ s))) s)) by done.
  destruct (_ =? _)%nat; by eexists.
Qed.

Lemma loaded_ips path file :
  let cfg := (load_server_set cfg_default path file).2 in
  (length (nat_ips cfg) =? 0)%nat || (length (proxy_ips cfg) =? 0)%nat = false.
Proof.
  unfold load_server_set. destruct (parse_file path file) as [c|] eqn:E; [|done].
  destruct (parse_file_ranges path file c E) as (_ & N & P & _). cbn.
  by destruct (nat_ips c), (proxy_ips c).
Qed.

Lemma setup_sync_peers_ok s :
  loop_inv s ->
  exists s', setup_sync_peers s = Done (tt, s', []) /\ loop_inv s' /\ cfg_ s' = cfg_ s /\
    sync_enabled_ s' = CfgFile.sync_enabled (cfg_ s).
Proof.
  intros I. unfold setup_sync_peers, modify. cbv zeta. cbn [cfg_ set_sync_addrs_].
  destruct (CfgFile.sync_enabled (cfg_ s)); cbn [negb]; eexists; by split.
Qed.

(** Which sockets a start needs. *)
Definition sockets_open (w : world) (cfg : CfgData) : bool :=
  main_ok w && alt_ok w && negb ((1 <? recv_threads cfg) && negb (clones_ok w)).

(** Start-up.  With any configuration file, [init] hangs on the license lock
    exactly when the white list is on and its file is named, can be read and has either
    format; otherwise it ends, with 0 exactly when all sockets could be opened, and then
    the threads can start: the invariant they rely on holds, the configuration is the
    one loaded and registry synchronisation is on as configured. *)
Theorem init_starts (w : world) (path wan : bytes) (np pp : Z) :
  let cfg := (load_server_set cfg_default path (read_file w path)).2 in
  if license_hangs w cfg then init w path np pp wan initial = Fault Deadlock
  else exists r s' o, init w path np pp wan initial = Done (r, s', o) /\
    r = (if sockets_open w cfg then 0 else -1) /\ loop_inv s' /\ cfg_ s' = cfg /\
    (r = 0 -> sync_enabled_ s' = CfgFile.sync_enabled cfg).
Proof.
  intros cfg. unfold init. set (s1 := set_wan_ip_ wan (set_proxy_port_ pp (set_nat_port_ np initial))).
  rewrite (step_eq _ _ initial tt s1) by done. cbv zeta. fold cfg.
  set (s2 := set_cfg_ cfg s1). rewrite (step_eq _ _ s1 tt s2) by done.
  pose proof (loaded_ips path (read_file w path)) as Hips. cbv zeta in Hips. fold cfg in Hips. rewrite Hips.
  set (s3 := set_cfg_mtime_ (mtime w path) s2). rewrite (step_eq _ _ s2 tt s3) by done.
  destruct (init_abuse_ok w s3) as [a Ea]. rewrite (step_eq _ _ _ _ _ Ea).
  assert (server_inv (set_abuse_ a s3)) as I4 by (split; [apply PeerManager.wf_empty|done]).
  destruct (license_hangs w cfg) eqn:H.
  { unfold mbind at 1, M_bind at 1. by rewrite (init_license_hangs w (set_abuse_ a s3) I4 H). }
  destruct (init_license_ok w (set_abuse_ a s3) I4 H) as (s5 & o & El & I5).
  destruct (keeps_init_license w _ _ _ _ El) as [C5 Q5].
  assert (loop_inv s5) as L5.
  { split; [done|]. rewrite <- Q5. destruct initial_inv as (_ & L & F). by split. }
  assert (exists r s', (r0 ← (fun s => let '(r, n) := NatTypeCheck.init (natcheck_ s) (nat_port_ s)
      (nat_sock2_port (cfg_ s)) (main_ok w) (alt_ok w) (ephemeral w) in Done (r, set_natcheck_ n s, []));
    if negb (r0 =? 0) then mret (-1) else setup_sync_peers;;
      if (1 <? recv_threads cfg) && negb (clones_ok w) then mret (-1) else mret 0) s5 = Done (r, s', []) /\
    r = (if sockets_open w cfg then 0 else -1) /\ loop_inv s' /\ cfg_ s' = cfg /\
    (r = 0 -> sync_enabled_ s' = CfgFile.sync_enabled cfg)) as (r & s' & E & X).
  { unfold mbind at 1, M_bind at 1, NatTypeCheck.init, sockets_open.
    destruct (main_ok w); cbn [negb andb]; [|by do 2 eexists].
    destruct (alt_ok w); cbn [negb andb]; [|by do 2 eexists].
    change (0 =? 0) with true. cbn [negb].
    set (s6 := set_natcheck_ _ s5).
    destruct (setup_sync_peers_ok s6 L5) as (s7 & E7 & L7 & C7 & S7).
    assert (cfg_ s7 = cfg) as C8 by (rewrite C7; symmetry; exact C5).
    rewrite (step_eq _ _ _ _ _ E7).
    destruct (_ && _); cbn [negb]; eexists _, s7; (split; [done|]); (split; [done|]); (split; [done|]);
      (split; [done|]); intros; rewrite S7; by rewrite <- C8, C7. }
  exists r, s', (o ++ []). split; [|exact X]. eapply bind_eq; [exact El|exact E].
Qed.

End ServerLoop.
