(* ===== verification/StatusServer.v ===== *)
(** * The status service

    Models [StatusServer]: its set-up, and its accept loop as a fold over what the
    system hands it, in which the request to stop of the main thread is one event among
    the others.  The text it serves is [ServerLoop.status_json]. *)

From S2P Require Import Prelude.
From S2P Require Import Bytes.
From S2P Require Import NetUtil.
From S2P Require Import PeerManage.
From S2P Require Import AntiAbuse.
From S2P Require Import CfgFile.
From S2P Require Import NatServer.
From S2P Require Import ServerSafety.
From S2P Require Import ServerLoop.

#[local] Open Scope Z_scope.

Module StatusServer.

(** ** The service *)

Record t := mk { sock_ : Z; port_ : Z; running_ : bool; provider_ : bool }.

Definition create : t := mk (-1) 0 false false.

(** What [socket], [bind] and [listen] return. *)
Record setup := mkSetup { s_socket : Z; s_bind : Z; s_listen : Z }.

Definition init (port : Z) (provider : bool) (sys : setup) (s : t) : Z * t :=
  if s_socket sys <? 0 then (-1, mk (s_socket sys) port (running_ s) provider)
  else if negb (s_bind sys =? 0) || negb (s_listen sys =? 0) then (-1, mk (-1) port (running_ s) provider)
  else (0, mk (s_socket sys) port true provider).

Definition request_stop (s : t) : t := mk (sock_ s) (port_ s) false (provider_ s).

Definition crlf : bytes := [13; 10].

Definition response (body : bytes) : bytes :=
  bs "HTTP/1.0 200 OK" ++ crlf ++ bs "Content-Type: application/json" ++ crlf ++ bs "Connection: close" ++ crlf ++
  bs "Content-Length: " ++ dec_u (len body) ++ crlf ++ crlf ++ body.

(** The request is read and ignored; the snapshot is the server's at that moment. *)
Definition body (s : t) (e : NatServer.env) (srv : NatServer.t) : bytes :=
  if provider_ s then ServerLoop.status_json e srv else bs "{}".

(** What [accept] returns, or the main thread's request to stop. *)
Inductive event :=
  | Interrupted
  | Failed
  | Connection (fd : Z) (e : NatServer.env) (srv : NatServer.t)
  | Stop.

(** The loop, in [accept]: whether it has returned, the service, the answers so far. *)
Fixpoint accepting (evs : list event) (s : t) : bool * t * list (Z * bytes) :=
  match evs with
  | [] => (false, s, [])
  | Stop :: evs => accepting evs (request_stop s)
  | Interrupted :: evs | Failed :: evs => if running_ s then accepting evs s else (true, s, [])
  | Connection fd e srv :: evs =>
      let answer := (fd, response (body s e srv)) in
      if running_ s then let '(ended, s', out) := accepting evs s in (ended, s', answer :: out)
      else (true, s, [answer])
  end.

Definition run (evs : list event) (s : t) : bool * t * list (Z * bytes) :=
  if running_ s then accepting evs s else (true, s, []).

(** ** A reader of the answers *)

(** The line up to the next carriage return and line feed. *)
Fixpoint read_line (l : bytes) : option (bytes * bytes) :=
  match l with
  | 13 :: 10 :: r => Some ([], r)
  | c :: r => '(line, r) ← read_line r; Some (c :: line, r)
  | [] => None
  end.

Fixpoint read_head (fuel : nat) (l : bytes) : option (list bytes * bytes) :=
  match fuel with
  | O => None
  | S fuel =>
      '(line, r) ← read_line l;
      if (length line =? 0)%nat then Some ([], r)
      else '(lines, r) ← read_head fuel r; Some (line :: lines, r)
  end.

Definition content_length (line : bytes) : option Z :=
  let name := bs "Content-Length: " in
  if bool_decide (take (length name) line = name) then Some (digits_val 0 (drop (length name) line)) else None.

Definition read_http (l : bytes) : option bytes :=
  '(lines, r) ← read_head (length l) l;
  n ← head (omap content_length lines);
  if bool_decide (head lines = Some (bs "HTTP/1.0 200 OK")) && (len r =? n) then Some r else None.

(** Octets up to the first that does not satisfy [p]. *)
Fixpoint span (p : Z -> bool) (l : bytes) : bytes * bytes :=
  match l with
  | c :: r => if p c then let '(a, b) := span p r in (c :: a, b) else ([], l)
  | [] => ([], [])
  end.

(** ["name":number], then a comma or the closing brace. *)
Fixpoint read_fields (fuel : nat) (l : bytes) : option (list (bytes * Z)) :=
  match fuel, l with
  | S fuel, 34 :: r =>
      let '(name, r) := span (fun c => negb (c =? 34)) r in
      match r with
      | 34 :: 58 :: r =>
          let '(ds, r) := span is_digit r in
          match r with
          | 44 :: r => if (length ds =? 0)%nat then None else fs ← read_fields fuel r; Some ((name, digits_val 0 ds) :: fs)
          | [125] => if (length ds =? 0)%nat then None else Some [(name, digits_val 0 ds)]
          | _ => None
          end
      | _ => None
      end
  | _, _ => None
  end.

Definition read_json (l : bytes) : option (list (bytes * Z)) :=
  match l with 123 :: r => read_fields (length r) r | _ => None end.

(** The counters a snapshot shows. *)
Definition counters (e : NatServer.env) (srv : NatServer.t) : list (bytes * Z) :=
  let n (x : nat) := Z.of_nat x in
  [(bs "online", n (PeerManager.size_ (NatServer.peers_ srv)));
   (bs "devices", n (PeerManager.device_count (NatServer.peers_ srv)));
   (bs "apps", n (PeerManager.client_count (NatServer.peers_ srv)));
   (bs "authed", n (PeerManager.authed_count (NatServer.now e) (NatServer.peers_ srv)));
   (bs "total_pkts", NatServer.total_pkts_ srv); (bs "connect_ok", NatServer.connect_ok_ srv);
   (bs "connect_fail", NatServer.connect_fail_ srv);
   (bs "blacklist_ips", n (AntiAbuse.ip_blacklist_size (NatServer.abuse_ srv)));
   (bs "proxy_count", n (length (CfgFile.proxy_ips (NatServer.cfg_ srv))))].

Definition counters_ok (srv : NatServer.t) : Prop :=
  u64_ok (NatServer.total_pkts_ srv) /\ u64_ok (NatServer.connect_ok_ srv) /\ u64_ok (NatServer.connect_fail_ srv).

(** ** Reading back *)

Definition plain_line (l : bytes) : Prop := Forall (fun c => c <> 13) l.

Lemma read_line_crlf line r : plain_line line -> read_line (line ++ crlf ++ r) = Some (line, r).
Proof.
  induction 1 as [|c line Hc _ IH]; [done|].
  cbn [app]. assert (read_line (c :: line ++ crlf ++ r) =
    ('(l, r) ← read_line (line ++ crlf ++ r); Some (c :: l, r))) as ->.
  { cbn [read_line]. repeat (case_match; try done). }
  by rewrite IH.
Qed.

Lemma read_head_line fuel line r :
  plain_line line -> line <> [] ->
  read_head (S fuel) (line ++ crlf ++ r) = ('(lines, r) ← read_head fuel r; Some (line :: lines, r)).
Proof. intros H N. cbn [read_head]. rewrite read_line_crlf by done. cbn [mbind option_bind]. by destruct line. Qed.

Lemma read_response b : read_http (response b) = Some b.
Proof.
  assert (plain_line (bs "Content-Length: " ++ dec_u (len b))) as P.
  { apply Forall_app_2; [repeat constructor; discriminate|].
    eapply Forall_impl; [apply dec_u_digits; unfold len; lia|]. intros c Hc ->. discriminate. }
  assert (length (response b) = S (S (S (S (S (length (response b) - 5)))))) as L.
  { unfold response. rewrite !length_app. change (length (bs "HTTP/1.0 200 OK")) with 15%nat. lia. }
  unfold read_http. rewrite L. set (k := (length (response b) - 5)%nat). clearbody k. clear L. unfold response.
  rewrite read_head_line by (discriminate || (repeat constructor; discriminate)).
  rewrite read_head_line by (discriminate || (repeat constructor; discriminate)).
  rewrite read_head_line by (discriminate || (repeat constructor; discriminate)).
  rewrite (app_assoc (bs "Content-Length: ")), read_head_line by (done || discriminate).
  cbn [read_head]. change (crlf ++ b) with ([] ++ crlf ++ b). rewrite read_line_crlf by constructor. cbn [mbind option_bind length Nat.eqb].
  cbn [head omap list_omap].
  assert (content_length (bs "Content-Length: " ++ dec_u (len b)) = Some (len b)) as ->.
  { unfold content_length. rewrite take_app_length, drop_app_length, bool_decide_true by done.
    by rewrite digits_val_dec_u by (unfold len; lia). }
  do 3 match goal with |- context [content_length ?l] => change (content_length l) with (@None Z) end.
  cbn [head mbind option_bind]. rewrite bool_decide_true, Z.eqb_refl by done. done.
Qed.

Lemma span_app p a c r : Forall (fun x => p x = true) a -> p c = false -> span p (a ++ c :: r) = (a, c :: r).
Proof. induction 1 as [|x a Hx _ IH]; intros Hc; cbn [span app]; [by rewrite Hc|]. rewrite Hx. by rewrite IH. Qed.

Definition plain_name (l : bytes) : Prop := Forall (fun c => negb (c =? 34) = true) l.

Lemma read_fields_more fuel name n r :
  plain_name name -> 0 <= n ->
  read_fields (S fuel) (ServerLoop.json_field name n ++ 44 :: r) =
    (fs ← read_fields fuel r; Some ((name, n) :: fs)).
Proof.
  intros P N. unfold ServerLoop.json_field. cbn [app read_fields]. rewrite <- app_assoc. cbn [app].
  rewrite span_app by done.
  rewrite (span_app is_digit (dec_u n) 44) by (done || by apply dec_u_digits).
  rewrite digits_val_dec_u by done. by destruct (dec_u_nonempty n N) as (c & l & -> & _).
Qed.

Lemma read_fields_last fuel name n :
  plain_name name -> 0 <= n -> read_fields (S fuel) (ServerLoop.json_field name n ++ [125]) = Some [(name, n)].
Proof.
  intros P N. unfold ServerLoop.json_field. cbn [app read_fields]. rewrite <- app_assoc. cbn [app].
  rewrite span_app by done.
  rewrite (span_app is_digit (dec_u n) 125) by (done || by apply dec_u_digits).
  rewrite digits_val_dec_u by done. by destruct (dec_u_nonempty n N) as (c & l & -> & _).
Qed.

(** A list of fields as the report writes it. *)
Fixpoint json_fields (l : list (bytes * Z)) : bytes :=
  match l with
  | [] => [125]
  | [f] => ServerLoop.json_field f.1 f.2 ++ [125]
  | f :: l => ServerLoop.json_field f.1 f.2 ++ 44 :: json_fields l
  end.

Lemma read_json_fields fuel l :
  Forall (fun f => plain_name f.1 /\ 0 <= f.2) l -> l <> [] -> (length l <= fuel)%nat ->
  read_fields fuel (json_fields l) = Some l.
Proof.
  intros F. revert fuel. induction F as [|[name n] l [P N] F IH]; intros fuel Hn Hl; [done|].
  destruct fuel as [|fuel]; [cbn in Hl; lia|]. cbn [length] in Hl. cbn [fst snd] in *.
  destruct l as [|f l]; cbn [json_fields fst snd]; [by apply read_fields_last|].
  rewrite read_fields_more by done. rewrite IH by (done || lia). done.
Qed.

Lemma status_json_fields e srv : ServerLoop.status_json e srv = 123 :: json_fields (counters e srv).
Proof. done. Qed.

Lemma json_fields_length l : (length l <= length (json_fields l))%nat.
Proof.
  induction l as [|f l IH]; [cbn; lia|]. destruct l as [|g l].
  - cbn [json_fields]. rewrite length_app. cbn. lia.
  - cbn [json_fields length] in *. rewrite length_app. cbn [length]. lia.
Qed.

Lemma read_status e srv : counters_ok srv -> read_json (ServerLoop.status_json e srv) = Some (counters e srv).
Proof.
  intros (T & O & F). rewrite status_json_fields. cbn [read_json].
  apply read_json_fields; [|done|apply json_fields_length].
  unfold u64_ok in *. unfold counters. repeat constructor; cbn [fst snd]; try discriminate; try done; lia.
Qed.

(** ** The life of the service *)

(** What happens before the request to stop. *)
Definition ordinary (ev : event) : Prop :=
  match ev with Connection _ _ srv => counters_ok srv | Interrupted | Failed => True | Stop => False end.

(** What the clients of these events are told. *)
Definition told (evs : list event) : list (Z * list (bytes * Z)) :=
  omap (fun ev => match ev with Connection fd e srv => Some (fd, counters e srv) | _ => None end) evs.

Definition reads (a : Z * bytes) : option (Z * list (bytes * Z)) :=
  b ← read_http a.2; fs ← read_json b; Some (a.1, fs).

Lemma reads_answer fd s e srv :
  provider_ s = true -> counters_ok srv -> reads (fd, response (body s e srv)) = Some (fd, counters e srv).
Proof.
  intros P C. unfold reads, body. cbn [fst snd]. rewrite P, read_response. cbn [mbind option_bind].
  rewrite read_status by done. done.
Qed.

Lemma accepting_serves evs s :
  running_ s = true -> provider_ s = true -> Forall ordinary evs ->
  exists out, map reads out = map Some (told evs) /\
    forall more, accepting (evs ++ more) s = (let '(ended, s', o) := accepting more s in (ended, s', out ++ o)).
Proof.
  intros R P. induction 1 as [|ev evs Hev _ (out & M & E)].
  { exists []. split; [done|]. intros more. cbn [app]. by destruct (accepting more s) as [[? ?] ?]. }
  destruct ev as [| |fd e srv|]; [| | |done].
  1,2: exists out; split; [done|]; intros more; cbn [app accepting]; by rewrite R.
  exists ((fd, response (body s e srv)) :: out). split.
  - cbn [map]. rewrite M, reads_answer by done. done.
  - intros more. cbn [app accepting]. rewrite R, E. by destruct (accepting more s) as [[? ?] ?].
Qed.

(** C38: the status service tells every client the counters, and ends when asked.
    Once the sockets are set up, whatever [accept] returns, every connection gets, in
    order, an answer that a reader of HTTP and JSON reads as the nine counters of the
    server at that moment, and the loop goes on.  After the request to stop it is still
    waiting in [accept]; the connection that the main thread then opens to itself, or
    an interruption, ends it.  When the set-up failed, the loop returns at once. *)
Theorem status_served (port : Z) (sys : setup) (evs : list event) (fd : Z) (e : NatServer.env) (srv : NatServer.t)
    (Hevs : Forall ordinary evs) (Hsrv : counters_ok srv) :
  let '(r, s) := init port true sys create in
  (r = 0 <-> 0 <= s_socket sys /\ s_bind sys = 0 /\ s_listen sys = 0) /\
  if r =? 0 then
    exists out, map reads out = map Some (told evs) /\ run evs s = (false, s, out) /\
      run (evs ++ [Stop]) s = (false, request_stop s, out) /\
      run (evs ++ [Stop; Interrupted]) s = (true, request_stop s, out) /\
      exists last, run (evs ++ [Stop; Connection fd e srv]) s = (true, request_stop s, out ++ [last]) /\
        reads last = Some (fd, counters e srv)
  else run evs s = (true, s, []).
Proof.
  unfold init. destruct (Z.ltb_spec (s_socket sys) 0); [split; [lia|done]|].
  destruct (Z.eqb_spec (s_bind sys) 0); [|split; [lia|done]].
  destruct (Z.eqb_spec (s_listen sys) 0); cbn [negb orb]; [|split; [lia|done]].
  split; [lia|]. cbn [Z.eqb]. set (s := mk _ port true true). unfold run. change (running_ s) with true. cbn iota.
  destruct (accepting_serves evs s eq_refl eq_refl Hevs) as (out & M & E). exists out.
  pose proof (E []) as E0. rewrite app_nil_r in E0. rewrite E0, !E. cbn [accepting running_ request_stop].
  rewrite app_nil_r. do 4 (split; [done|]). eexists. split; [done|]. by apply reads_answer.
Qed.

Lemma status_served_witness :
  let evs := [Interrupted; Connection 5 ServerSafety.quiet_env NatServer.initial; Failed] in
  let '(r, s) := init 8080 true (mkSetup 3 0 0) create in
  r = 0 /\ exists out, map reads out = [Some (5, counters ServerSafety.quiet_env NatServer.initial)] /\
    run evs s = (false, s, out).
Proof.
  intros evs.
  assert (counters_ok NatServer.initial) as C by (split_and!; vm_compute; intuition discriminate).
  destruct (status_served 8080 (mkSetup 3 0 0) evs 6 ServerSafety.quiet_env NatServer.initial) as (H & out & M & R & _).
  - repeat constructor; apply C.
  - exact C.
  - split; [reflexivity|]. exists out. split; [exact M|exact R].
Defined.

End StatusServer.
