(* ===== verification/ServerRun.v ===== *)
(** * The rendezvous server as a process

    Models [NatServer::run], its threads - [recv_thread], [proc_pool_thread],
    [timer_thread], [NatTypeCheck::run_alt_thread], [StatusServer::run] - and [main]: a
    state with the position of every thread in its code, and a schedule of turns.  A turn
    goes up to the next call that can wait.  What the system has to hand out waits in the
    queues of the threads.  The threads are created together. *)

From S2P Require Import Prelude.
From S2P Require Import Bytes.
From S2P Require Import ProtoDef.
From S2P Require Import NetUtil.
From S2P Require Import Packet.
From S2P Require Import Handler.
From S2P Require Import Fair.
From S2P Require Import CfgFile.
From S2P Require Import NatTypeCheck.
From S2P Require Import NatServer.
From S2P Require Import RecvProcess.
From S2P Require Import ServerSafety.
From S2P Require Import ServerAuth.
From S2P Require Import ServerLoop.
From S2P Require Import StatusServer.

#[local] Open Scope Z_scope.

Module ServerRun.
Import NatServer ServerSafety ServerAuth ServerLoop.

(** ** The threads *)

(** What [recvfrom] has to return: a datagram, or an error. *)
Inductive input := Packet (data : bytes) (from : sockaddr_in) | Failure.

(** What [accept] has to return. *)
Inductive guest := Client (fd : Z) | Interruption | Refusal.

(** Before the loop; at its condition; in the call that waits for a while - [epoll_wait],
    [wait_for], [sleep], [select] -; in the call that waits for ever - [recvfrom], [accept]
    -; returned. *)
Inductive place := Open | Check | Wait | Recv | Exited.

Inductive thread :=
| Receiver (p : place) (q : list input)
| Worker (p : place)
| Timer (p : place) (tm : timers)
| Alt (p : place) (q : list input).

(** The status service has a thread if it has a port. *)
Record service := mkService { sv_place : place; sv_queue : list guest }.

(** The main thread: signal handlers installed; threads created; in the loop; joining the
    thread of that number; joining the status service; returned. *)
Inductive post := Installed | Created | Sleeping | Joining (k : nat) | JoiningStatus | Returned.

Record t := mk {
  srv : NatServer.t;
  running_ : bool;
  status_port_ : Z;
  status_ : StatusServer.t;
  main_ : post;
  threads_ : list thread;
  service_ : option service
}.

Definition set_srv (x : NatServer.t) (s : t) : t :=
  mk x (running_ s) (status_port_ s) (status_ s) (main_ s) (threads_ s) (service_ s).
Definition set_running_ (x : bool) (s : t) : t :=
  mk (srv s) x (status_port_ s) (status_ s) (main_ s) (threads_ s) (service_ s).
Definition set_status_ (x : StatusServer.t) (s : t) : t :=
  mk (srv s) (running_ s) (status_port_ s) x (main_ s) (threads_ s) (service_ s).
Definition set_main_ (x : post) (s : t) : t :=
  mk (srv s) (running_ s) (status_port_ s) (status_ s) x (threads_ s) (service_ s).
Definition set_threads_ (x : list thread) (s : t) : t :=
  mk (srv s) (running_ s) (status_port_ s) (status_ s) (main_ s) x (service_ s).
Definition set_service_ (x : option service) (s : t) : t :=
  mk (srv s) (running_ s) (status_port_ s) (status_ s) (main_ s) (threads_ s) x.

Inductive effect := Server (e : NatServer.effect) | Answer (fd : Z) (data : bytes).

Abbreviation M := (handler t effect).

Definition on_server {A} (m : NatServer.M A) : M A := fun s =>
  match m (srv s) with
  | Done (a, v, o) => Done (a, set_srv v s, map Server o)
  | Fault f => Fault f
  end.

(** How the system answers the call a turn begins in: as it should; interrupted by a
    signal; with another error. *)
Inductive reply := Fine | Interrupted | Broken.

(** [recv_thread]: a datagram of no octets ends the inner loop like an error. *)
Definition receiver_turn (w : world) (r : reply) (p : place) (q : list input) : M thread :=
  match p with
  | Open =>
      match r with
      | Broken => modify (set_running_ false);; mret (Receiver Exited q)
      | _ => mret (Receiver Check q)
      end
  | Check => b ← gets running_; mret (Receiver (if (b : bool) then Wait else Exited) q)
  | Wait => mret (Receiver (match r, q with Fine, _ :: _ => Recv | _, _ => Check end) q)
  | Recv =>
      match q with
      | [] => mret (Receiver Recv q)
      | Failure :: q => mret (Receiver Check q)
      | Packet data from :: q =>
          if (length data =? 0)%nat then mret (Receiver Check q)
          else on_server (receive w data from);; mret (Receiver Recv q)
      end
  | Exited => mret (Receiver Exited q)
  end.

(** [proc_pool_thread] *)
Definition worker_turn (w : world) (p : place) : M thread :=
  match p with
  | Check => b ← gets running_; mret (Worker (if (b : bool) then Wait else Exited))
  | Wait => on_server (process w);; mret (Worker Check)
  | _ => mret (Worker p)
  end.

(** [timer_thread] *)
Definition timer_turn (w : world) (p : place) (tm : timers) : M thread :=
  match p with
  | Check =>
      b ← gets running_;
      if (b : bool) then tm ← on_server (ServerLoop.tick w tm); mret (Timer Wait tm) else mret (Timer Exited tm)
  | Wait => mret (Timer Check tm)
  | _ => mret (Timer p tm)
  end.

(** [run_alt_thread]: an interrupted [select] goes on to [recvfrom]. *)
Definition alt_turn (w : world) (r : reply) (p : place) (q : list input) : M thread :=
  match p with
  | Check => n ← gets (fun s => natcheck_ (srv s)); mret (Alt (if NatTypeCheck.running_ n then Wait else Exited) q)
  | Wait =>
      mret (match r, q with
            | Broken, _ => Alt Exited q
            | Interrupted, _ => Alt Recv q
            | Fine, [] => Alt Check q
            | Fine, _ :: _ => Alt Recv q
            end)
  | Recv =>
      match q with
      | [] => mret (Alt Recv q)
      | Failure :: q => mret (Alt Check q)
      | Packet data from :: q =>
          n ← gets (fun s => natcheck_ (srv s));
          mapM_ (fun d => emit (Server (Send d))) (NatTypeCheck.alt_thread_step (names w) n (take MAX_PKT data) from);;
          mret (Alt Check q)
      end
  | _ => mret (Alt p q)
  end.

Definition thread_turn (w : world) (r : reply) (th : thread) : M thread :=
  match th with
  | Receiver p q => receiver_turn w r p q
  | Worker p => worker_turn w p
  | Timer p tm => timer_turn w p tm
  | Alt p q => alt_turn w r p q
  end.

Definition event_of (w : world) (v : NatServer.t) (g : guest) : StatusServer.event :=
  match g with
  | Client fd => StatusServer.Connection fd (w_env w) v
  | Interruption => StatusServer.Interrupted
  | Refusal => StatusServer.Failed
  end.

(** [StatusServer::run], one return of [accept] at a time. *)
Definition service_turn (w : world) (sv : service) : M service :=
  match sv_place sv, sv_queue sv with
  | Check, q => st ← gets status_; mret (mkService (if StatusServer.running_ st then Recv else Exited) q)
  | Recv, g :: q =>
      s ← gets id;
      let '(ended, st, out) := StatusServer.accepting [event_of w (srv s) g] (status_ s) in
      modify (set_status_ st);;
      mapM_ (fun a => emit (Answer a.1 a.2)) out;;
      mret (mkService (if (ended : bool) then Exited else Recv) q)
  | _, _ => mret sv
  end.

(** ** The main thread *)

Definition place_of (th : thread) : place :=
  match th with Receiver p _ | Worker p | Timer p _ | Alt p _ => p end.

Definition exited (p : place) : bool := match p with Exited => true | _ => false end.

(** The threads [run] starts, in the order in which it joins them. *)
Definition launch (cfg : CfgData) : list thread :=
  replicate (S (Z.to_nat (recv_threads cfg - 1))) (Receiver Open []) ++
  replicate (Z.to_nat (proc_workers cfg)) (Worker Check) ++
  [Timer Check (mkTimers 0 0 0); Alt Check []].

(** The end of the first loop: the second socket's thread is told as well. *)
Definition stop_threads : M unit :=
  modify (set_running_ false);;
  modify (fun s => set_srv (set_natcheck_ (NatTypeCheck.request_stop (natcheck_ (srv s))) (srv s)) s);;
  modify (set_main_ (Joining 0)).

(** All threads joined: the status service is asked to stop and woken by a connection;
    [dialled] is whether that could be made. *)
Definition stop_service (dialled : bool) : M unit :=
  modify (fun s =>
    match service_ s with
    | None => set_main_ Returned s
    | Some sv =>
        set_main_ JoiningStatus (set_status_ (StatusServer.request_stop (status_ s))
          (set_service_ (Some (mkService (sv_place sv) (sv_queue sv ++ (if dialled then [Client 0] else [])))) s))
    end).

Definition main_turn (w : world) (sys : StatusServer.setup) (dialled : bool) : M unit :=
  s ← gets id;
  match main_ s with
  | Installed =>
      modify (set_running_ true);;
      modify (set_threads_ (launch (cfg_ (srv s))));;
      (if 0 <? status_port_ s then
         modify (set_status_ (StatusServer.init (status_port_ s) true sys (status_ s)).2);;
         modify (set_service_ (Some (mkService Check [])))
       else skip);;
      modify (set_main_ Created)
  | Created => on_server (request_sync_snapshot (w_env w));; modify (set_main_ Sleeping)
  | Sleeping => if running_ s then skip else stop_threads
  | Joining k =>
      match threads_ s !! k with
      | Some th => if exited (place_of th) then modify (set_main_ (Joining (S k))) else skip
      | None => stop_service dialled
      end
  | JoiningStatus =>
      match service_ s with
      | Some sv => if exited (sv_place sv) then modify (set_main_ Returned) else skip
      | None => modify (set_main_ Returned)
      end
  | Returned => skip
  end.

(** ** Schedules *)

Inductive action :=
| Turn (i : nat) (w : world) (r : reply)
| Serve (w : world)
| Main (w : world) (sys : StatusServer.setup) (dialled : bool)
| Arrive (i : nat) (x : input)
| Visit (g : guest)
| Signal.

Definition arrive (x : input) (th : thread) : thread :=
  match th with
  | Receiver p q => Receiver p (q ++ [x])
  | Alt p q => Alt p (q ++ [x])
  | _ => th
  end.

Definition step (a : action) : M unit :=
  match a with
  | Turn i w r =>
      s ← gets id;
      match threads_ s !! i with
      | Some th => th ← thread_turn w r th; modify (fun s => set_threads_ (<[i := th]> (threads_ s)) s)
      | None => skip
      end
  | Serve w =>
      s ← gets id;
      match service_ s with
      | Some sv => sv ← service_turn w sv; modify (set_service_ (Some sv))
      | None => skip
      end
  | Main w sys dialled => main_turn w sys dialled
  | Arrive i x => modify (fun s => set_threads_ (alter (arrive x) i (threads_ s)) s)
  | Visit g => modify (fun s => match service_ s with
      | Some sv => set_service_ (Some (mkService (sv_place sv) (sv_queue sv ++ [g]))) s | None => s end)
  | Signal => modify (set_running_ false)
  end.

Definition run (acts : list action) : M unit := mapM_ step acts.

(** ** The program *)

(** The ports, the address, the configuration file; the status port from the environment. *)
Record options := mkOptions { o_nat_port : Z; o_proxy_port : Z; o_wan_ip : bytes; o_cfg_path : bytes; o_status_port : Z }.

Definition parse_args (args : list bytes) (status_env : option bytes) : option options :=
  match args with
  | nat :: proxy :: ip :: rest =>
      Some (mkOptions (u16 (atoi nat)) (u16 (atoi proxy)) ip
        (match rest with path :: _ => path | [] => bs "P2pServers.cfg" end)
        (match status_env with Some sp => u16 (atoi sp) | None => 0 end))
  | _ => None
  end.

Definition started (v : NatServer.t) (status_port : Z) : t :=
  mk v false status_port StatusServer.create Installed [] None.

(** [main] up to [run]: the exit status, or the process before its threads start. *)
Definition boot (w : world) (args : list bytes) (status_env : option bytes) : outcome (Z + t) :=
  match parse_args args status_env with
  | None => Done (inl 1)
  | Some o =>
      match ServerLoop.init w (o_cfg_path o) (o_nat_port o) (o_proxy_port o) (o_wan_ip o) NatServer.initial with
      | Fault f => Fault f
      | Done (r, v, _) => Done (if r =? 0 then inr (started v (o_status_port o)) else inl 1)
      end
  end.

(** ** What a turn leaves alone *)

Abbreviation same_natcheck := (fun v v' : NatServer.t => natcheck_ v = natcheck_ v').

#[export] Instance natcheck_frame : Frame same_natcheck.
Proof. split; try done. split; [done|]. intros s1 s2 s3. congruence. Qed.

(** What happens inside a thread: the server's part of the state may change, not the
    second socket's; [running_] can only fall. *)
Definition local (s s' : t) : Prop :=
  main_ s' = main_ s /\ threads_ s' = threads_ s /\ service_ s' = service_ s /\ status_ s' = status_ s /\
  (running_ s' = true -> running_ s = true) /\ natcheck_ (srv s') = natcheck_ (srv s).

Lemma local_refl s : local s s.
Proof. done. Qed.

Lemma local_set_srv v s : natcheck_ v = natcheck_ (srv s) -> local s (set_srv v s).
Proof. done. Qed.

Lemma on_server_done {A} (m : NatServer.M A) s a s' o :
  on_server m s = Done (a, s', o) -> exists v o', m (srv s) = Done (a, v, o') /\ s' = set_srv v s /\ o = map Server o'.
Proof. unfold on_server. destruct (m (srv s)) as [[[b v] o']|]; [|done]. intros [= -> <- <-]. eauto. Qed.

Lemma on_server_eq {A} (m : NatServer.M A) s a v o :
  m (srv s) = Done (a, v, o) -> on_server m s = Done (a, set_srv v s, map Server o).
Proof. unfold on_server. by intros ->. Qed.

Lemma natcheck_of {A} (m : NatServer.M A) v a v' o :
  keeps same_natcheck m -> m v = Done (a, v', o) -> natcheck_ v' = natcheck_ v.
Proof. intros K E. symmetry. by eapply K. Qed.

Lemma receive_natcheck w data from : keeps same_natcheck (receive w data from).
Proof.
  unfold receive. cbv zeta. apply keeps_if; [apply keeps_skip; apply _|].
  apply keeps_bind; [apply _|by apply keeps_modify|intros _].
  apply keeps_bind; [apply _|apply keeps_on_abuse, _|intros [|]; [apply keeps_skip, _|]].
  apply keeps_bind; [apply _|apply keeps_on_abuse, _|intros [|]; [apply keeps_skip, _|]].
  apply keeps_bind; [apply _|apply keeps_gets, _|intros n].
  destruct (NatTypeCheck.try_fast_handle _ _ _ _) as [[|] out]; [|by apply keeps_modify].
  apply keeps_mapM; [apply _|]. intros d. apply keeps_emit, _.
Qed.

Lemma process_natcheck w : keeps same_natcheck (process w).
Proof.
  unfold process. apply keeps_bind; [apply _|apply keeps_gets, _|]. intros [|pkt q]; [apply keeps_skip, _|].
  apply keeps_bind; [apply _|by apply keeps_modify|intros _]. by apply keeps_handle_packet; [apply _|].
Qed.

Lemma tick_natcheck w tm : keeps same_natcheck (ServerLoop.tick w tm).
Proof.
  unfold ServerLoop.tick. apply keeps_bind; [apply _| |intros _; by apply keeps_upkeep; [apply _|..]].
  unfold expire_peers. apply keeps_bind; [apply _|apply keeps_gets, _|]. intros dead.
  apply keeps_bind; [apply _|by apply keeps_on_peers|]. intros _.
  apply keeps_mapM; [apply _|]. intros u. apply keeps_broadcast, _.
Qed.

(** ** A turn of a thread *)

Definition input_ok (x : input) : Prop := match x with Packet data _ => bytes_ok data | Failure => True end.

(** The places a thread can be at, and octets in its queue. *)
Definition thread_ok (th : thread) : Prop :=
  match th with
  | Receiver _ q => Forall input_ok q
  | Worker p | Timer p _ => p = Check \/ p = Wait \/ p = Exited
  | Alt p q => p <> Open /\ Forall input_ok q
  end.

(** The turn runs past an object: a worker takes one of the three requests. *)
Definition overruns (w : world) (r : reply) (th : thread) (s : t) : Prop :=
  th = Worker Wait /\ head_hazard (srv s) /\ thread_turn w r th s = Fault OutOfBounds.

(** A turn that ends as it should, and what it leaves. *)
Definition turns (w : world) (r : reply) (th : thread) (s : t) : Prop :=
  exists th' s' o, thread_turn w r th s = Done (th', s', o) /\ local s s' /\ loop_inv (srv s') /\ thread_ok th' /\
    (place_of th = Exited -> th' = th).

Lemma turns_same w r th s th' :
  loop_inv (srv s) -> thread_turn w r th s = Done (th', s, []) -> thread_ok th' -> (place_of th = Exited -> th' = th) ->
  turns w r th s.
Proof. intros I E T X. exists th', s, []. split; [done|]. split; [apply local_refl|done]. Qed.

Lemma receiver_turns w r p q s : loop_inv (srv s) -> Forall input_ok q -> turns w r (Receiver p q) s.
Proof.
  intros I Q. destruct p; [destruct r| | |destruct q as [|[data from|] q]|]; try by eapply turns_same.
  - exists (Receiver Exited q), (set_running_ false s), []. by split.
  - apply Forall_cons in Q as [B Q]. destruct (length data =? 0)%nat eqn:E.
    { eapply turns_same; [done|cbn; by rewrite E|done|done]. }
    destruct (receive_ok w data from (srv s) I B) as (v & o & Ev & Iv).
    exists (Receiver Recv q), (set_srv v s). eexists. split; [|split; [|split; [done|by split]]].
    + cbn [thread_turn receiver_turn]. rewrite E. by eapply bind_eq; [apply on_server_eq, Ev|].
    + apply local_set_srv. by eapply natcheck_of; [apply receive_natcheck|].
  - apply Forall_cons in Q as [_ Q]. by eapply turns_same.
Qed.

Lemma worker_turns w r p s :
  loop_inv (srv s) -> thread_ok (Worker p) -> turns w r (Worker p) s \/ overruns w r (Worker p) s.
Proof.
  intros I T. destruct p; try by destruct T as [|[|]]. 3: left; by eapply turns_same.
  - left. eapply turns_same; [done|done| |done]. cbn. destruct (running_ s); eauto.
  - pose proof (process_outcome w (srv s) I) as H. destruct (process w (srv s)) as [[[[] v] o]|f] eqn:Ev.
    + destruct H as (Iv & _). left. exists (Worker Check), (set_srv v s). eexists.
      split; [|split; [|split; [done|by split; [left|]]]].
      * cbn [thread_turn worker_turn]. by eapply bind_eq; [apply on_server_eq, Ev|].
      * apply local_set_srv. by eapply natcheck_of; [apply process_natcheck|].
    + destruct H as [-> H]. right. split; [done|]. split; [done|]. cbn [thread_turn worker_turn].
      unfold mbind, M_bind, on_server. by rewrite Ev.
Qed.

Lemma timer_turns w r p tm s : loop_inv (srv s) -> thread_ok (Timer p tm) -> turns w r (Timer p tm) s.
Proof.
  intros I T. destruct p; try by destruct T as [|[|]].
  2: eapply turns_same; [done|done| |done]; cbn; eauto. 2: by eapply turns_same.
  destruct (running_ s) eqn:E; [|eapply turns_same; [done|cbn; unfold mbind, M_bind, gets; by rewrite E| |done]; cbn; eauto].
  destruct (tick_ok w tm (srv s) I) as (tm' & v & o & Ev & Iv & _).
  exists (Timer Wait tm'), (set_srv v s). eexists. split; [|split; [|split; [done|split; [cbn; eauto|done]]]].
  - cbn [thread_turn timer_turn]. rewrite gets_eq, E. by eapply bind_eq; [apply on_server_eq, Ev|].
  - apply local_set_srv. by eapply natcheck_of; [apply tick_natcheck|].
Qed.

Lemma emit_all {S E A} (f : A -> E) l (s : S) : mapM_ (fun d => emit (f d)) l s = Done (tt, s, map f l).
Proof. induction l as [|d l IH]; [done|]. cbn [mapM_ map]. by apply (bind_eq _ _ _ tt s [f d]). Qed.

Lemma alt_turns w r p q s : loop_inv (srv s) -> thread_ok (Alt p q) -> turns w r (Alt p q) s.
Proof.
  intros I [T Q]. destruct p; [done| | |destruct q as [|[data from|] q]|]; try by eapply turns_same.
  - eapply turns_same; [done|done| |done]. cbn. by destruct (NatTypeCheck.running_ _).
  - eapply turns_same; [done|done| |done]. destruct r, q; cbn; by repeat split.
  - apply Forall_cons in Q as [_ Q]. exists (Alt Check q), s. eexists. split; [|split; [apply local_refl|split; [done|by split]]].
    cbn [thread_turn alt_turn]. rewrite gets_eq. by eapply bind_eq; [apply emit_all|].
  - apply Forall_cons in Q as [_ Q]. by eapply turns_same.
Qed.

Lemma thread_turns w r th s : loop_inv (srv s) -> thread_ok th -> turns w r th s \/ overruns w r th s.
Proof.
  destruct th as [p q|p|p tm|p q]; intros I T;
    [left; by apply receiver_turns|by apply worker_turns|left; by apply timer_turns|left; by apply alt_turns].
Qed.

Definition service_ok (sv : service) : Prop := sv_place sv = Check \/ sv_place sv = Recv \/ sv_place sv = Exited.

Lemma accepting_same w v g st : (StatusServer.accepting [event_of w v g] st).1.2 = st.
Proof. destruct g; cbn; by destruct (StatusServer.running_ st). Qed.

Lemma service_turns w sv s :
  service_ok sv ->
  exists sv' o, service_turn w sv s = Done (sv', s, o) /\ service_ok sv' /\ (sv_place sv = Exited -> sv' = sv) /\
    (sv_place sv = Check -> sv' = mkService (if StatusServer.running_ (status_ s) then Recv else Exited) (sv_queue sv)) /\
    (forall g q, sv_place sv = Recv -> sv_queue sv = g :: q ->
       sv' = mkService (if StatusServer.running_ (status_ s) then Recv else Exited) q) /\
    (sv_place sv = Recv -> sv_queue sv = [] -> sv' = sv).
Proof.
  destruct sv as [p q]. unfold service_ok. cbn [sv_place sv_queue]. intros [->|[->| ->]].
  - eexists _, []. split; [done|]. cbn. destruct (StatusServer.running_ _); repeat split; intros; simplify_eq/=; eauto.
  - destruct q as [|g q]; [eexists _, []; split; [done|]; repeat split; intros; simplify_eq/=; eauto|].
    unfold service_turn. cbn [sv_place sv_queue]. pose proof (accepting_same w (srv s) g (status_ s)) as A.
    assert ((StatusServer.accepting [event_of w (srv s) g] (status_ s)).1.1 = negb (StatusServer.running_ (status_ s))) as B
      by (destruct g; cbn; by destruct (StatusServer.running_ (status_ s))).
    rewrite gets_eq. unfold id. destruct (StatusServer.accepting _ _) as [[ended st] out]. cbn [fst snd] in A, B. subst.
    rewrite modify_eq. do 2 eexists. split.
    + eapply bind_eq; [apply (emit_all (fun a => Answer a.1 a.2))|]. by destruct s.
    + destruct (StatusServer.running_ _); repeat split; intros; simplify_eq/=; eauto.
  - eexists _, []. split; [done|]. repeat split; intros; simplify_eq/=; eauto.
Qed.

(** ** The invariant of the process *)

Definition all_exited (l : list thread) : Prop := Forall (fun th => place_of th = Exited) l.

(** What the main thread has joined has returned, and what it was to stop is stopped. *)
Definition joined (s : t) : Prop :=
  match main_ s with
  | Installed => threads_ s = [] /\ service_ s = None
  | Created | Sleeping => True
  | Joining k => all_exited (take k (threads_ s))
  | JoiningStatus | Returned => all_exited (threads_ s)
  end /\
  match main_ s with
  | Joining _ | JoiningStatus | Returned => running_ s = false /\ NatTypeCheck.running_ (natcheck_ (srv s)) = false
  | _ => True
  end /\
  match main_ s with
  | JoiningStatus => StatusServer.running_ (status_ s) = false
  | Returned => forall sv, service_ s = Some sv -> sv_place sv = Exited
  | _ => True
  end.

Record inv (s : t) : Prop := {
  inv_srv : loop_inv (srv s);
  inv_threads : Forall thread_ok (threads_ s);
  inv_service sv : service_ s = Some sv -> service_ok sv;
  inv_joined : joined s
}.

(** Actions with octets in what arrives. *)
Definition action_ok (a : action) : Prop := match a with Arrive _ x => input_ok x | _ => True end.

(** The action is the turn of a worker that takes one of the three requests [packet_hazard]
    names from the queue, and handling it runs past an object. *)
Definition fatal (s : t) (a : action) : Prop :=
  exists i w r, a = Turn i w r /\ threads_ s !! i = Some (Worker Wait) /\ head_hazard (srv s) /\
    step a s = Fault OutOfBounds.

Lemma all_exited_insert l i th th' :
  all_exited l -> l !! i = Some th -> (place_of th = Exited -> th' = th) -> all_exited (<[i := th']> l).
Proof.
  intros A L E. rewrite E; [by rewrite list_insert_id|]. by eapply (Forall_lookup_1 _ _ _ _ A).
Qed.

Lemma take_exited_insert k l i th th' :
  all_exited (take k l) -> l !! i = Some th -> (place_of th = Exited -> th' = th) -> all_exited (take k (<[i := th']> l)).
Proof.
  intros A L E. destruct (decide (i < k)%nat) as [H|H].
  - rewrite take_insert_lt by done. eapply all_exited_insert; [done| |done]. by rewrite lookup_take_lt.
  - rewrite take_insert_ge by lia. done.
Qed.

Lemma joined_turn s s' i th th' :
  joined s -> local s s' -> threads_ s !! i = Some th -> (place_of th = Exited -> th' = th) ->
  joined (set_threads_ (<[i := th']> (threads_ s')) s').
Proof.
  intros (J1 & J2 & J3) (LM & LT & LS & LU & LR & LN) L E.
  unfold joined. cbn [main_ set_threads_ threads_ service_ running_ status_ srv]. rewrite LM, LT, LS, LU, LN.
  split; [|split; [|done]].
  - destruct (main_ s); try done; try by eapply all_exited_insert.
    + destruct J1 as [J1 _]. by rewrite J1, lookup_nil in L.
    + by eapply take_exited_insert.
  - assert (running_ s = false -> running_ s' = false) by (destruct (running_ s'); [intros; by rewrite LR in *|done]).
    destruct (main_ s); naive_solver.
Qed.

Lemma snapshot_ok e v :
  loop_inv v -> exists v' o, request_sync_snapshot e v = Done (tt, v', o) /\ loop_inv v'.
Proof.
  intros (I & L & F). destruct (request_snapshot_safe e v I) as ([] & v' & o & E & I' & _).
  exists v', o. split; [done|]. split; [done|].
  assert (mq_ v' = mq_ v) as ->; [|done]. eapply mq_of; [|done]. unfold request_sync_snapshot.
  apply keeps_bind; [apply _|apply keeps_gets, _|]. intros en. apply keeps_if; [apply keeps_skip, _|].
  intros; cbv zeta; apply keeps_broadcast, _.
Qed.

Lemma turn_inv s i w r :
  inv s -> (exists s' o, step (Turn i w r) s = Done (tt, s', o) /\ inv s') \/ fatal s (Turn i w r).
Proof.
  intros [I T S J]. unfold fatal. cbn [step]. rewrite gets_eq. unfold id.
  destruct (threads_ s !! i) as [th|] eqn:L; [|left; by exists s, []].
  destruct (thread_turns w r th s I) as [(th' & s1 & o & E & Lo & I1 & T1 & X)|(-> & H & E)].
  { by eapply (Forall_lookup_1 _ _ _ _ T). }
  2:{ right. exists i, w, r. split; [done|]. split; [done|]. split; [done|]. unfold mbind, M_bind. by rewrite E. }
  left. do 2 eexists. split; [by eapply bind_eq; [apply E|]|].
  pose proof Lo as (LM & LT & LS & LU & LR & LN). split; cbn [srv threads_ service_ set_threads_].
  - done.
  - apply Forall_insert; [by rewrite LT|done].
  - rewrite LS. apply S.
  - by eapply joined_turn.
Qed.

Lemma serve_inv s w : inv s -> exists s' o, step (Serve w) s = Done (tt, s', o) /\ inv s'.
Proof.
  intros [I T S J]. cbn [step]. rewrite gets_eq. unfold id. destruct (service_ s) as [sv|] eqn:L; [|exists s, []; by split; [|split; rewrite ?L]].
  destruct (service_turns w sv s (S sv eq_refl)) as (sv' & o & E & K & X & _).
  do 2 eexists. split; [by eapply bind_eq; [apply E|]|].
  split; [done|done|by intros ? [= <-]|]. destruct J as (J1 & J2 & J3). split; [|split; [done|]]; cbn.
  - destruct (main_ s); try done. destruct J1 as [_ J1]. by rewrite J1 in L.
  - destruct (main_ s); try done. intros ? [= <-]. rewrite L in J3. rewrite X; by apply J3.
Qed.

Lemma launch_ok cfg : Forall thread_ok (launch cfg).
Proof.
  unfold launch. apply Forall_app_2; [by apply Forall_replicate; constructor|].
  apply Forall_app_2; [apply Forall_replicate; by left|]. constructor; [by left|]. constructor; [by split|done].
Qed.

Lemma main_inv s w sys dialled : inv s -> exists s' o, step (Main w sys dialled) s = Done (tt, s', o) /\ inv s'.
Proof.
  intros [I T S J]. pose proof J as (J1 & J2 & J3). cbn [step]. unfold main_turn. rewrite gets_eq. unfold id.
  destruct (main_ s) as [| | |k| |] eqn:M.
  - destruct J1 as [J1 J1s]. rewrite !modify_eq. destruct (0 <? status_port_ s).
    all: do 2 eexists; split; [done|]; split; [done|apply launch_ok| |done].
    + intros sv [= <-]. by left.
    + cbn. rewrite J1s. done.
  - destruct (snapshot_ok (w_env w) (srv s) I) as (v & o & E & I').
    do 2 eexists. split; [by eapply bind_eq; [apply on_server_eq, E|]|]. by split.
  - destruct (running_ s) eqn:R; [exists s, []; by split|]. do 2 eexists. split; [done|].
    by split; [|done|done|split; [apply Forall_nil_2|]].
  - destruct (threads_ s !! k) as [th|] eqn:L.
    + destruct (place_of th) eqn:P; cbn [exited]; try (exists s, []; by split).
      do 2 eexists. split; [done|]. split; [done|done|done|]. split; [|done]. cbn.
      erewrite take_S_r by done. apply Forall_app_2; [done|by constructor].
    + apply lookup_ge_None in L. unfold stop_service. do 2 eexists. split; [done|].
      rewrite take_ge in J1 by done.
      destruct (service_ s) as [sv|] eqn:V; [|by split; cbn; rewrite ?V; [..|split; [|split]; cbn; rewrite ?V]].
      split; [done|done|by intros ? [= <-]; apply (S sv)|]. done.
  - destruct (service_ s) as [sv|] eqn:V; [|do 2 eexists; split; [done|]; split; cbn; rewrite ?V; try done].
    + destruct (sv_place sv) eqn:P; cbn [exited]; try (exists s, []; split; [done|by split; rewrite ?V]).
      do 2 eexists. split; [done|]. split; cbn; rewrite ?V; try done. split; [|split]; cbn; rewrite ?V; try done. by intros ? [= <-].
    + split; [|split]; cbn; rewrite ?V; done.
  - exists s, []. by split.
Qed.

Lemma arrive_place x th : place_of (arrive x th) = place_of th.
Proof. by destruct th. Qed.

Lemma arrive_ok x th : input_ok x -> thread_ok th -> thread_ok (arrive x th).
Proof.
  intros X. destruct th as [p q|p|p tm|p q]; try done.
  - intros Q. apply Forall_app_2; [done|by constructor].
  - intros [P Q]. split; [done|]. apply Forall_app_2; [done|by constructor].
Qed.

Lemma exited_arrive x i l : all_exited l -> all_exited (alter (arrive x) i l).
Proof. intros A. apply Forall_alter; [done|]. intros th _ E. by rewrite arrive_place. Qed.

Lemma arrive_inv s i x : inv s -> input_ok x -> inv (set_threads_ (alter (arrive x) i (threads_ s)) s).
Proof.
  intros [I T S (J1 & J2 & J3)] X. split; [done| |done|].
  - apply Forall_alter; [done|]. intros th _ H. by apply arrive_ok.
  - split; [|by split]. cbn. destruct (main_ s); try done; try by apply exited_arrive.
    + destruct J1 as [-> J1]. by destruct i.
    + rewrite take_alter. destruct (decide _); [by apply exited_arrive|done].
Qed.

(** In a state the process can reach, nothing a thread can do fails, but for the three
    requests. *)
Lemma step_goes_on a s : inv s -> action_ok a -> (exists s' o, step a s = Done (tt, s', o) /\ inv s') \/ fatal s a.
Proof.
  intros V A. destruct a as [i w r|w|w sys dialled|i x|g|]; [by apply turn_inv|left..].
  - by apply serve_inv.
  - by apply main_inv.
  - do 2 eexists. split; [done|]. by apply arrive_inv.
  - do 2 eexists. split; [done|]. destruct V as [I T S (J1 & J2 & J3)].
    destruct (service_ s) as [sv|] eqn:E; [|split; [done|done|by rewrite E|split; [|split]; cbn; by rewrite ?E]].
    split; [done|done|intros ? [= <-]; by apply (S sv)|]. split; [|split; [done|]]; cbn.
    + destruct (main_ s); try done. destruct J1 as [_ J1]. congruence.
    + destruct (main_ s); try done. intros ? [= <-]. by apply (J3 sv).
  - do 2 eexists. split; [done|]. destruct V as [I T S (J1 & J2 & J3)]. split; [done|done|done|].
    split; [done|split; [|done]]. cbn. destruct (main_ s); tauto.
Qed.

(** A schedule breaks the server: from a state in order, some worker's turn is [fatal]. *)
Definition breaks (acts : list action) (s0 : t) : Prop :=
  run acts s0 = Fault OutOfBounds /\
  exists pre a post s o, acts = pre ++ a :: post /\ run pre s0 = Done (tt, s, o) /\ inv s /\ fatal s a.

Lemma started_inv v port : loop_inv v -> inv (started v port).
Proof. intros I. by split; [|constructor| |]. Qed.

Lemma run_goes_on acts : forall s, inv s -> Forall action_ok acts ->
  (exists s' o, run acts s = Done (tt, s', o) /\ inv s') \/ breaks acts s.
Proof.
  induction acts as [|a acts IH]; intros s V A; [left; by exists s, []|]. apply Forall_cons in A as [A As].
  destruct (step_goes_on a s V A) as [(s1 & o1 & E1 & V1)|F].
  - destruct (IH s1 V1 As) as [(s2 & o2 & E2 & V2)|(E2 & pre & b & post & s2 & o2 & -> & E3 & V2 & F)].
    + left. exists s2. eexists. split; [|done]. unfold run. cbn [mapM_]. by eapply bind_eq.
    + right. split.
      * unfold run in *. cbn [mapM_]. unfold mbind, M_bind in *. by rewrite E1, E2.
      * exists (a :: pre), b, post, s2, (o1 ++ o2). split; [done|]. split; [|done].
        unfold run. cbn [mapM_]. by eapply bind_eq.
  - right. split; [|by exists [], a, acts, s, []]. destruct F as (i & w & r & _ & _ & _ & E).
    unfold run. cbn [mapM_]. unfold mbind, M_bind. by rewrite E.
Qed.

Lemma run_inv acts s s' o : inv s -> Forall action_ok acts -> run acts s = Done (tt, s', o) -> inv s'.
Proof.
  intros V A E. destruct (run_goes_on acts s V A) as [(s2 & o2 & E2 & V2)|[E2 _]]; [|congruence].
  rewrite E in E2. by injection E2 as <- _.
Qed.

(** C16: the process runs, but for three requests.  From a server that is started up, take
    any schedule - turns of the main thread, of any number of receive threads and workers,
    of the timer, of the second socket's thread and of the status service, in any order,
    with any arrivals, errors, interruptions, clocks and signals.  Either no call in it
    fails, or it [breaks] the server: in a state still in order, a worker takes one of the
    three requests [packet_hazard] names and runs past an object.  If none does, no lock is
    left held, every thread is at a place of its code, and the main thread goes on only
    past threads that have returned: when [run] has returned all of them have, and they
    were told to. *)
Theorem server_runs (v : NatServer.t) (port : Z) (acts : list action)
    (Hv : loop_inv v) (Hacts : Forall action_ok acts) :
  (exists s o, run acts (started v port) = Done (tt, s, o) /\ loop_inv (srv s) /\ Forall thread_ok (threads_ s) /\
    (forall k, main_ s = Joining k -> running_ s = false /\ all_exited (take k (threads_ s))) /\
    (main_ s = Returned -> running_ s = false /\ all_exited (threads_ s) /\
       forall sv, service_ s = Some sv -> sv_place sv = Exited)) \/
  breaks acts (started v port).
Proof.
  destruct (run_goes_on acts _ (started_inv v port Hv) Hacts) as [(s & o & E & [I T S J])|B]; [left|by right].
  exists s, o. split; [done|]. destruct J as (J1 & J2 & J3). split; [done|]. split; [done|]. split.
  - intros k M. rewrite M in *. tauto.
  - intros M. rewrite M in *. tauto.
Qed.

Definition calm_world : world :=
  mkWorld quiet_env (fun _ => None) (fun _ => 0) true true true None (fun _ => None)
    (fun m => map_to_list m) (fun m => map_to_list m).

Lemma server_runs_witness :
  exists s o, run [Main calm_world (StatusServer.mkSetup 5 0 0) true; Arrive 0 (Packet [1; 2] (mkAddr 16777343 9)); Signal]
    (started initial 8080) = Done (tt, s, o) /\ loop_inv (srv s).
Proof.
  destruct (server_runs initial 8080 [Main calm_world (StatusServer.mkSetup 5 0 0) true;
    Arrive 0 (Packet [1; 2] (mkAddr 16777343 9)); Signal]) as [(s & o & E & I & _)|[B _]].
  - apply initial_inv.
  - repeat constructor; by vm_compute.
  - exists s, o. split; [exact E|exact I].
  - exfalso. revert B. vm_compute. discriminate.
Defined.

(** A configuration with more addresses than the answer to a request for the server list
    has room for: anybody who asks for the list breaks the server. *)
Example crowded_breaks :
  let v := set_cfg_ (set_nat_ips (replicate 40 (bs "10.0.0.1")) cfg_default) initial in
  let ask := Packet (frame (msg_id MSG_GET_SERVER_LIST_REQ) []) (mkAddr 16777343 9) in
  let turns i n := replicate n (Turn i calm_world Fine) in
  breaks ([Main calm_world (StatusServer.mkSetup 5 0 0) true; Arrive 0 ask] ++ turns 0%nat 4%nat ++ turns 2%nat 2%nat)
    (started v 8080).
Proof.
  intros v ask turns. edestruct run_goes_on as [(s & o & E & _)|B]; [| |exfalso; revert E|exact B].
  - apply started_inv. exact initial_inv.
  - apply Forall_cons_2; [done|]. apply Forall_cons_2; [decide_now|]. by repeat constructor.
  - vm_compute. discriminate.
Qed.

(** C31: the program starts.  With fewer than three arguments [main] returns 1.  With three
    or more it hangs on the license lock exactly when the white list is on and its file is
    named, can be read and has either format; otherwise it returns 1 if a socket cannot be
    opened, and else goes on to [run] with the ports of its arguments, the status port of
    the environment, the configuration of the named file - [P2pServers.cfg] if none is - and
    a state from which every schedule runs, or ends in a worker that takes one of the three
    requests [packet_hazard] names and runs past an object ([breaks]). *)
Theorem server_boots (w : world) (args : list bytes) (status_env : option bytes) :
  match args with
  | nat :: proxy :: ip :: rest =>
      let path := match rest with p :: _ => p | [] => bs "P2pServers.cfg" end in
      let port := match status_env with Some sp => u16 (atoi sp) | None => 0 end in
      let cfg := (load_server_set cfg_default path (read_file w path)).2 in
      if license_hangs w cfg then boot w args status_env = Fault Deadlock
      else if sockets_open w cfg then
        exists v, boot w args status_env = Done (inr (started v port)) /\ cfg_ v = cfg /\
          forall acts, Forall action_ok acts ->
            (exists s o, run acts (started v port) = Done (tt, s, o)) \/ breaks acts (started v port)
      else boot w args status_env = Done (inl 1)
  | _ => boot w args status_env = Done (inl 1)
  end.
Proof.
  destruct args as [|nat [|proxy [|ip rest]]]; try done. cbv zeta. unfold boot. cbn [parse_args].
  set (path := match rest with [] => _ | _ => _ end). cbn [o_cfg_path o_nat_port o_proxy_port o_wan_ip o_status_port].
  pose proof (init_starts w path ip (u16 (atoi nat)) (u16 (atoi proxy))) as I. cbv zeta in I.
  destruct (license_hangs w _); [by rewrite I|]. destruct I as (r & v & o & -> & -> & L & C & _).
  destruct (sockets_open w _); [|done]. exists v. split; [done|]. split; [done|]. intros acts A.
  match goal with |- context [started v ?p] => destruct (run_goes_on acts _ (started_inv v p L) A) as [(s & o' & E & _)|B] end; eauto.
Qed.

End ServerRun.
