(* ===== verification/ServerStop.v ===== *)
(** * How the rendezvous server stops

    The process of [ServerRun] after a signal: it returns if every receive thread that is
    inside its inner loop still gets a datagram of no octets ([server_stops]), and does not
    return if one of them does not ([server_hangs]). *)

From S2P Require Import Prelude.
From S2P Require Import Bytes.
From S2P Require Import ProtoDef.
From S2P Require Import NetUtil.
From S2P Require Import Packet.
From S2P Require Import Handler.
From S2P Require Import Fair.
From S2P Require Import NatTypeCheck.
From S2P Require Import NatServer.
From S2P Require Import ServerSafety.
From S2P Require Import ServerAuth.
From S2P Require Import ServerLoop.
From S2P Require Import StatusServer.
From S2P Require Import ServerRun.

#[local] Open Scope Z_scope.

Module ServerStop.
Import NatServer ServerSafety ServerAuth ServerLoop ServerRun.

(** ** What wakes a receive thread *)

(** An error or a datagram of no octets: [recvfrom] returns 0 or less. *)
Definition wakes (x : input) : bool :=
  match x with Failure => true | Packet data _ => (length data =? 0)%nat end.

Fixpoint wake_at (q : list input) : nat :=
  match q with
  | [] => 0
  | x :: q => if wakes x then 0 else S (wake_at q)
  end.

Definition has_wake (q : list input) : Prop := existsb wakes q = true.

Lemma has_wake_snoc q x : has_wake q -> has_wake (q ++ [x]) /\ wake_at (q ++ [x]) = wake_at q.
Proof.
  unfold has_wake. induction q as [|y q IH]; [done|]. cbn [existsb app wake_at].
  destruct (wakes y); [done|]. cbn [orb]. intros H. destruct (IH H) as [-> ->]. done.
Qed.

Lemma has_wake_cons x q : has_wake (x :: q) -> wakes x = false -> has_wake q /\ wake_at (x :: q) = S (wake_at q).
Proof. unfold has_wake. cbn. intros H E. by rewrite E in *. Qed.

(** ** The measure *)

(** How many turns a thread has left; the second socket's thread goes round as long as it
    is not told to stop. *)
Definition rank (alt_on : bool) (th : thread) : nat :=
  match th with
  | Receiver p q =>
      match p with Open => 2 | Check => 1 | Wait => 3 + wake_at q | Recv => 2 + wake_at q | Exited => 0 end
  | Worker p | Timer p _ => match p with Check => 1 | Wait => 2 | _ => 0 end
  | Alt p _ =>
      if exited p then 0 else if alt_on then 3
      else match p with Check => 1 | Recv => 2 | _ => 3 end
  end.

Definition alt_on (s : t) : bool := NatTypeCheck.running_ (natcheck_ (srv s)).

Definition main_rank (n : nat) (p : post) : nat :=
  match p with
  | Joining k => 3 + (n - k)
  | JoiningStatus => 2
  | Returned => 0
  | _ => 4 + n
  end.

Definition service_rank (o : option service) : nat :=
  match o with Some sv => if exited (sv_place sv) then 0 else 1 | None => 0 end.

Definition measure (s : t) : nat :=
  match main_ s with
  | Returned => 0
  | p => main_rank (length (threads_ s)) p + sum_list (map (rank (alt_on s)) (threads_ s)) + service_rank (service_ s)
  end.

Lemma rank_alt b th : (rank false th <= rank b th)%nat.
Proof. destruct th as [p q|p|p tm|p q]; cbn; try lia. destruct p, b; cbn; lia. Qed.

(** Who has to have a turn. *)
Inductive who := Thread (i : nat) | Status | Main_thread.

Definition role (a : action) : option who :=
  match a with
  | Turn i _ _ => Some (Thread i)
  | Serve _ => Some Status
  | Main _ _ _ => Some Main_thread
  | _ => None
  end.

Definition due (s : t) : option who :=
  match main_ s with
  | Returned => None
  | Joining k =>
      match threads_ s !! k with
      | Some th => Some (if exited (place_of th) then Main_thread else Thread k)
      | None => Some Main_thread
      end
  | JoiningStatus =>
      match service_ s with
      | Some sv => Some (if exited (sv_place sv) then Main_thread else Status)
      | None => Some Main_thread
      end
  | _ => Some Main_thread
  end.

(** ** A turn stays inside its thread *)

Abbreviation inside := (fun s s' (_ : list effect) => local s s').

#[export] Instance inside_trace : Trace inside.
Proof.
  split; [intros s; apply local_refl|]. intros s1 s2 s3 _ _ (M1 & T1 & S1 & U1 & R1 & N1) (M2 & T2 & S2 & U2 & R2 & N2).
  repeat split; try congruence. auto.
Qed.

Lemma inside_on_server {A} (m : NatServer.M A) : keeps same_natcheck m -> obeys inside (on_server m).
Proof.
  intros K s a s' o (v & o' & E & -> & _)%on_server_done. apply local_set_srv. by eapply natcheck_of.
Qed.

Lemma inside_emits l : obeys inside (mapM_ (fun d => emit (Server (Send d))) l).
Proof. intros s a s' o E. rewrite emit_all in E. injection E as _ <- _. apply local_refl. Qed.

Lemma thread_inside w r th : obeys inside (thread_turn w r th).
Proof.
  destruct th as [p q|p|p tm|p q]; destruct p; cbn [thread_turn receiver_turn worker_turn timer_turn alt_turn].
  all: repeat (intros; first
    [ apply obeys_ret | apply obeys_get | apply inside_emits | apply obeys_bind
    | apply inside_on_server; first [apply receive_natcheck | apply process_natcheck | apply tick_natcheck]
    | apply obeys_modify; done
    | match goal with |- obeys _ (match ?x with _ => _ end) => destruct x end ]); apply _.
Qed.

(** ** Threads that will return *)

Section Stopping.
(** The sockets at which something else than a wake may still arrive. *)
Context (W : nat -> Prop).

Definition free (i : nat) (th : thread) : Prop :=
  match th with
  | Receiver Wait q => has_wake q \/ q = [] /\ ~ W i
  | Receiver Recv q => has_wake q
  | Receiver _ _ => True
  | Worker p | Timer p _ => p = Check \/ p = Wait \/ p = Exited
  | Alt p q => p <> Open /\ (p = Recv -> q <> [])
  end.

Definition quiet (a : action) : Prop :=
  match a with
  | Turn _ _ r => r <> Interrupted
  | Main _ _ dialled => dialled = true
  | Arrive i x => W i \/ wakes x = true
  | _ => True
  end.

Record stopping (s : t) : Prop := {
  st_running : running_ s = false;
  st_started : main_ s <> Installed /\ main_ s <> Created;
  st_free i th : threads_ s !! i = Some th -> free i th;
  st_alt : main_ s <> Sleeping -> alt_on s = false;
  st_service sv : service_ s = Some sv -> service_ok sv;
  st_status sv : main_ s = JoiningStatus -> service_ s = Some sv ->
    StatusServer.running_ (status_ s) = false /\ (sv_place sv = Recv -> sv_queue sv <> [])
}.

(** What a turn of a thread comes to when the server is stopping. *)
Definition falls (i : nat) (th th' : thread) (s s' : t) : Prop :=
  local s s' /\ free i th' /\ (rank (alt_on s) th' <= rank (alt_on s) th)%nat /\ (place_of th = Exited -> th' = th) /\
  (alt_on s = false -> place_of th <> Exited -> (rank false th' < rank false th)%nat).

Lemma falls_same i th th' s :
  free i th' -> (rank (alt_on s) th' <= rank (alt_on s) th)%nat -> (place_of th = Exited -> th' = th) ->
  (alt_on s = false -> place_of th <> Exited -> (rank false th' < rank false th)%nat) -> falls i th th' s s.
Proof. done. Qed.

Lemma receiver_falls i w r p q s th' s' o :
  running_ s = false -> free i (Receiver p q) -> receiver_turn w r p q s = Done (th', s', o) ->
  falls i (Receiver p q) th' s s'.
Proof.
  intros R F. destruct p; cbn [receiver_turn].
  - destruct r; [intros [= <- <- _]| intros [= <- <- _]|cbn; intros [= <- <- _]]; repeat split; try done; cbn; lia.
  - rewrite gets_eq, R. intros [= <- <- _]. apply falls_same; cbn; lia || done.
  - intros [= <- <- _]. apply falls_same; cbn in *; try done; destruct r, q as [|x q]; cbn; try done; try lia.
    all: destruct F as [F|[? _]]; done.
  - destruct q as [|x q]; [done|]. pose proof (has_wake_cons x q F) as N.
    destruct x as [data from|]; [|intros [= <- <- _]; apply falls_same; cbn; lia || done].
    cbn [wakes] in N. destruct (length data =? 0)%nat eqn:E.
    { intros [= <- <- _]. apply falls_same; cbn; rewrite ?E; lia || done. }
    destruct (N eq_refl) as [Hq Hw].
    intros ([] & s1 & o1 & o2 & (v & o3 & Ev & -> & _)%on_server_done & [= <- <- _] & _)%bind_done.
    split; [apply local_set_srv; by eapply natcheck_of; [apply receive_natcheck|]|].
    cbn [free rank]. cbn [wake_at wakes]. rewrite E. repeat split; try done; lia.
  - intros [= <- <- _]. by apply falls_same.
Qed.

Lemma worker_falls i w p s th' s' o :
  running_ s = false -> free i (Worker p) -> worker_turn w p s = Done (th', s', o) -> falls i (Worker p) th' s s'.
Proof.
  intros R F. destruct p; try by destruct F as [|[|]].
  - cbn [worker_turn]. rewrite gets_eq, R. intros [= <- <- _]. apply falls_same; cbn; intros; try done; try lia; eauto.
  - intros ([] & s1 & o1 & o2 & (v & o3 & Ev & -> & _)%on_server_done & [= <- <- _] & _)%bind_done.
    split; [apply local_set_srv; by eapply natcheck_of; [apply process_natcheck|]|].
    cbn. repeat split; intros; try done; try lia; eauto.
  - intros [= <- <- _]. by apply falls_same.
Qed.

Lemma timer_falls i w p tm s th' s' o :
  running_ s = false -> free i (Timer p tm) -> timer_turn w p tm s = Done (th', s', o) -> falls i (Timer p tm) th' s s'.
Proof.
  intros R F. destruct p; try by destruct F as [|[|]].
  - cbn [timer_turn]. rewrite gets_eq, R. intros [= <- <- _]. apply falls_same; cbn; intros; try done; try lia; eauto.
  - intros [= <- <- _]. apply falls_same; cbn; intros; try done; try lia; eauto.
  - intros [= <- <- _]. by apply falls_same.
Qed.

Lemma alt_falls i w r p q s th' s' o :
  r <> Interrupted -> free i (Alt p q) -> alt_turn w r p q s = Done (th', s', o) -> falls i (Alt p q) th' s s'.
Proof.
  intros NI [NO F]. destruct p; try done.
  - cbn [alt_turn]. rewrite gets_eq. fold (alt_on s). intros [= <- <- _].
    destruct (alt_on s) eqn:A; apply falls_same; rewrite ?A; cbn; intros; try done; lia.
  - intros [= <- <- _]. destruct r, q; try done; apply falls_same; destruct (alt_on s); cbn; intros; try done; lia.
  - destruct q as [|[data from|] q]; [by destruct (F eq_refl)| |].
    + cbn [alt_turn]. rewrite gets_eq. intros ([] & s1 & o1 & o2 & E1 & [= <- <- _] & _)%bind_done.
      rewrite emit_all in E1. injection E1 as <- _.
      apply falls_same; destruct (alt_on s); cbn; intros; try done; lia.
    + intros [= <- <- _]. apply falls_same; destruct (alt_on s); cbn; intros; try done; lia.
  - intros [= <- <- _]. by apply falls_same.
Qed.

Lemma thread_falls i w r th s th' s' o :
  running_ s = false -> r <> Interrupted -> free i th -> thread_turn w r th s = Done (th', s', o) -> falls i th th' s s'.
Proof.
  destruct th as [p q|p|p tm|p q]; cbn [thread_turn]; intros R N F E;
    [by eapply receiver_falls|by eapply worker_falls|by eapply timer_falls|by eapply alt_falls].
Qed.

(** What every action does to a stopping process. *)
Definition progress (s s' : t) (strict : Prop) : Prop :=
  stopping s' /\ (measure s' < measure s \/ measure s' = measure s /\ due s' = due s)%nat /\
  (strict -> (measure s' < measure s)%nat).

Lemma turn_stopping s i w r s' o :
  stopping s -> r <> Interrupted -> step (Turn i w r) s = Done (tt, s', o) -> progress s s' (due s = Some (Thread i)).
Proof.
  intros St NI. pose proof St as [R [S1 S2] F A V T]. cbn [step]. rewrite gets_eq. unfold id.
  destruct (threads_ s !! i) as [th|] eqn:L.
  2:{ intros [= <- _]. split; [done|]. split; [by right|]. unfold due. destruct (main_ s); try done.
      - destruct (threads_ s !! k) as [th|] eqn:E; [|done]. destruct (exited _); [done|]. intros [= ->]. congruence.
      - destruct (service_ s); [|done]. by destruct (exited _). }
  intros (th' & s1 & o1 & o2 & E & [= <- _] & _)%bind_done.
  destruct (thread_falls i w r th s th' s1 o1 R NI (F i th L) E) as ((LM & LT & LS & LU & LR & LN) & F' & K & X & D).
  rewrite LT. assert (alt_on s1 = alt_on s) as LA by (unfold alt_on; by rewrite LN).
  pose proof (sum_insert (rank (alt_on s)) (threads_ s) i th th' L) as Su.
  split; [|split].
  - split; cbn [running_ main_ threads_ service_ status_ set_threads_]; rewrite ?LM, ?LS, ?LU; try done.
    + destruct (running_ s1); [|done]. rewrite LR in R; done.
    + intros j thj. destruct (decide (i = j)) as [<-|N].
      * rewrite list_lookup_insert_eq by (by eapply lookup_lt_Some). by intros [= <-].
      * rewrite list_lookup_insert_ne by done. apply F.
    + intros M. change (alt_on s1 = false). rewrite LA. by apply A.
  - unfold measure, due. change (alt_on (set_threads_ _ s1)) with (alt_on s1).
    cbn [main_ threads_ service_ set_threads_]. rewrite LM, LA, LS, length_insert.
    destruct (main_ s) as [| | |k| |] eqn:M; try done; try by (destruct (decide (rank (alt_on s) th' < rank (alt_on s) th)%nat); [left; lia|right; split; [lia|done]]).
    + specialize (A ltac:(done)). rewrite A in *. destruct (decide (k = i)) as [->|N].
      * destruct (exited (place_of th)) eqn:P.
        { rewrite X by (by destruct (place_of th)). rewrite list_insert_id by done. by right. }
        left. assert (rank false th' < rank false th)%nat by (apply D; [done|intros Q; by rewrite Q in P]). lia.
      * rewrite list_lookup_insert_ne by done.
        destruct (decide (rank false th' < rank false th)%nat); [left; lia|right; split; [lia|done]].
    + by right.
  - unfold due, measure. change (alt_on (set_threads_ _ s1)) with (alt_on s1).
    cbn [main_ threads_ service_ set_threads_]. rewrite LM, LA, LS, length_insert.
    destruct (main_ s) as [| | |k| |] eqn:M; try done.
    + destruct (threads_ s !! k) as [thk|] eqn:Lk; [|done]. destruct (exited (place_of thk)) eqn:P; [done|].
      intros [= ->]. rewrite L in Lk. injection Lk as <-. specialize (A ltac:(done)). rewrite A in *.
      assert (rank false th' < rank false th)%nat by (apply D; [done|intros Q; by rewrite Q in P]). lia.
    + destruct (service_ s); [|done]. by destruct (exited _).
Qed.

Lemma progress_same s : stopping s -> (due s = due s) -> forall P : Prop, ~ P -> progress s s P.
Proof. intros St _ P N. split; [done|]. split; [by right|done]. Qed.

Lemma exited_true p : exited p = true -> p = Exited.
Proof. by destruct p. Qed.

Lemma serve_stopping s w s' o :
  stopping s -> step (Serve w) s = Done (tt, s', o) -> progress s s' (due s = Some Status).
Proof.
  intros St. pose proof St as [R [S1 S2] F A V T]. cbn [step]. rewrite gets_eq. unfold id.
  destruct (service_ s) as [sv|] eqn:L.
  2:{ intros [= <- _]. apply progress_same; [done..|]. unfold due. rewrite L. destruct (main_ s); try done.
      destruct (threads_ s !! k) as [th|]; [|done]. by destruct (exited _). }
  intros (sv' & s1 & o1 & o2 & E & [= <- _] & _)%bind_done.
  destruct (service_turns w sv s (V sv eq_refl)) as (sv2 & o3 & E2 & K & X & C & G & B).
  rewrite E in E2. injection E2 as -> -> ->.
  assert (service_rank (Some sv2) <= service_rank (Some sv))%nat as SR.
  { unfold service_rank. destruct (exited (sv_place sv)) eqn:P; [rewrite X by (by apply exited_true); by rewrite P|].
    destruct (exited (sv_place sv2)); lia. }
  assert (main_ s = JoiningStatus -> exited (sv_place sv) = false -> exited (sv_place sv2) = true) as Q.
  { intros M P. destruct (T sv M eq_refl) as [RS NQ]. destruct (V sv eq_refl) as [H|[H|H]]; [| |by rewrite H in P].
    - by rewrite C, RS by done.
    - destruct (sv_queue sv) as [|g q] eqn:Eq; [by destruct (NQ H)|]. by rewrite (G g q), RS by done. }
  split; [|split].
  - split; cbn; try done; [by intros ? [= <-]|]. intros ? M [= <-]. destruct (T sv M eq_refl) as [RS NQ].
    split; [done|]. intros P. destruct (exited (sv_place sv)) eqn:Ex; [|specialize (Q M eq_refl); by rewrite P in Q].
    apply exited_true in Ex. rewrite X in P by done. by rewrite Ex in P.
  - unfold measure, due. cbn [main_ threads_ service_ set_service_]. rewrite L. change (alt_on (set_service_ _ s)) with (alt_on s).
    destruct (main_ s) as [| | |k| |] eqn:M; try done; try (destruct (decide (service_rank (Some sv2) < service_rank (Some sv))%nat); [left; lia|right; split; [lia|done]]).
    + destruct (exited (sv_place sv)) eqn:P; [|left; unfold service_rank; rewrite P, Q by done; lia].
      rewrite X by (by apply exited_true). rewrite P. by right.
    + by right.
  - unfold measure, due. cbn [main_ threads_ service_ set_service_]. rewrite L. change (alt_on (set_service_ _ s)) with (alt_on s).
    destruct (main_ s) as [| | |k| |] eqn:M; try done; [by destruct (threads_ s !! k) as [th|]; [destruct (exited (place_of th))|]|].
    destruct (exited (sv_place sv)) eqn:P; [done|]. intros _. unfold service_rank. rewrite P, Q by done. lia.
Qed.

Lemma stop_falls s :
  (sum_list (map (rank false) (threads_ s)) <= sum_list (map (rank (alt_on s)) (threads_ s)))%nat.
Proof. apply sum_le. intros th. apply rank_alt. Qed.

(** The main thread, when it is the one due. *)
Lemma main_stopping s w sys s' o :
  stopping s -> step (Main w sys true) s = Done (tt, s', o) -> progress s s' (due s = Some Main_thread).
Proof.
  intros St. pose proof St as [R [S1 S2] F A V T]. cbn [step]. unfold main_turn. rewrite gets_eq. unfold id.
  pose proof (stop_falls s) as SF. unfold progress, due. destruct (main_ s) as [| | |k| |] eqn:M; [done|done| | | |].
  - rewrite R. intros [= <- _]. split; [by split|].
    unfold measure. rewrite M. cbn [main_ set_main_ threads_ set_srv set_running_ service_ main_rank].
    change (alt_on (set_main_ _ _)) with false. split; [left|intros _]; lia.
  - specialize (A ltac:(done)). destruct (threads_ s !! k) as [th|] eqn:L.
    + destruct (exited (place_of th)) eqn:P; intros [= <- _]; [|rewrite M, L, P; split; [done|split; [by right|done]]].
      apply lookup_lt_Some in L. split; [by split|].
      unfold measure. rewrite M. cbn [main_ set_main_ threads_ service_ main_rank]. change (alt_on (set_main_ _ s)) with (alt_on s).
      split; [left|intros _]; lia.
    + unfold stop_service. intros [= <- _]. destruct (service_ s) as [sv|] eqn:E.
      * split; [split; try done|].
        { intros ? [= <-]. by apply (V sv). }
        { intros ? _ [= <-]. split; [done|]. intros _. by destruct (sv_queue sv). }
        unfold measure, service_rank. rewrite M, E. cbn [main_ set_main_ set_status_ set_service_ threads_ service_ main_rank sv_place].
        change (alt_on (set_main_ _ _)) with (alt_on s). split; [left|intros _]; lia.
      * split; [by split; cbn; rewrite ?E|]. unfold measure. rewrite M. cbn [main_ set_main_ main_rank]. split; [left|intros _]; lia.
  - specialize (A ltac:(done)). destruct (service_ s) as [sv|] eqn:E.
    + destruct (exited (sv_place sv)) eqn:P; intros [= <- _]; [|rewrite M, E, P; split; [done|split; [by right|done]]].
      split; [by split; cbn; rewrite ?E|]. unfold measure. rewrite M. cbn [main_ set_main_ main_rank]. split; [left|intros _]; lia.
    + intros [= <- _]. split; [by split; cbn; rewrite ?E|].
      unfold measure. rewrite M. cbn [main_ set_main_ main_rank]. split; [left|intros _]; lia.
  - intros [= <- _]. rewrite M. split; [done|split; [by right|done]].
Qed.

Lemma arrive_free i x th : W i \/ wakes x = true -> free i th -> free i (arrive x th) /\ forall b, rank b (arrive x th) = rank b th.
Proof.
  intros X. destruct th as [p q|p|p tm|p q]; try done.
  - destruct p; try done; cbn [free arrive rank].
    + intros [H|[-> N]].
      * split; [left; by apply has_wake_snoc|]. intros b. by destruct (has_wake_snoc q x H) as [_ ->].
      * destruct X as [X|X]; [done|]. cbn. unfold has_wake. cbn. rewrite X. split; [by left|done].
    + intros H. split; [by apply has_wake_snoc|]. intros b. by destruct (has_wake_snoc q x H) as [_ ->].
  - intros [P Q]. cbn [free arrive]. split; [|done]. split; [done|]. intros _. by destruct q.
Qed.

Lemma arrive_stopping s i x : stopping s -> W i \/ wakes x = true -> progress s (set_threads_ (alter (arrive x) i (threads_ s)) s) False.
Proof.
  intros St X. pose proof St as [R S F A V T]. set (s' := set_threads_ _ s).
  assert (measure s' = measure s) as Me.
  { unfold measure. cbn [main_ threads_ service_ set_threads_ s']. change (alt_on s') with (alt_on s).
    rewrite length_alter, sum_alter; [done|]. intros th L. exact (proj2 (arrive_free i x th X (F i th L)) (alt_on s)). }
  split; [|split; [right; split; [done|]|done]].
  - split; try done. intros j th. cbn [threads_ set_threads_ s']. destruct (decide (i = j)) as [<-|N].
    + rewrite list_lookup_alter_eq. destruct (threads_ s !! i) as [th0|] eqn:L; [|done]. intros [= <-].
      exact (proj1 (arrive_free i x th0 X (F i th0 L))).
    + rewrite list_lookup_alter_ne by done. apply F.
  - unfold due. cbn [main_ threads_ service_ set_threads_ s']. destruct (main_ s) as [| | |k| |]; try done.
    destruct (decide (i = k)) as [<-|N]; [|by rewrite list_lookup_alter_ne].
    rewrite list_lookup_alter_eq. destruct (threads_ s !! i) as [th|]; [|done]. cbn. by rewrite arrive_place.
Qed.

(** Every thread by name; [n] threads besides the main thread and the status service. *)
Definition roles (n : nat) : list who := Main_thread :: Status :: map Thread (seq 0 n).

Lemma main_threads w sys dialled s s' o :
  main_ s <> Installed -> main_turn w sys dialled s = Done (tt, s', o) -> threads_ s' = threads_ s.
Proof.
  intros N. unfold main_turn. rewrite gets_eq. unfold id. destruct (main_ s); [done| | | | |].
  - by intros ([] & s1 & o1 & o2 & (v & o3 & _ & -> & _)%on_server_done & [= <- _] & _)%bind_done.
  - destruct (running_ s); by intros [= <- _].
  - destruct (threads_ s !! k) as [th|]; [destruct (exited (place_of th)); by intros [= <- _]|].
    unfold stop_service. intros [= <- _]. by destruct (service_ s).
  - destruct (service_ s) as [sv|]; [destruct (exited (sv_place sv))|]; by intros [= <- _].
  - by intros [= <- _].
Qed.

Lemma serve_threads w s s' o : step (Serve w) s = Done (tt, s', o) -> threads_ s' = threads_ s.
Proof.
  cbn [step]. rewrite gets_eq. unfold id. destruct (service_ s) as [sv|]; [|by intros [= <- _]].
  intros (sv' & s1 & o1 & o2 & E & [= <- _] & _)%bind_done. unfold service_turn in E.
  destruct (sv_place sv), (sv_queue sv) as [|g q]; try (injection E as _ <- _; done).
  rewrite gets_eq in E. destruct (StatusServer.accepting _ _) as [[ended st] out]. rewrite modify_eq in E.
  apply bind_done in E as ([] & s2 & o3 & o4 & E & [= _ <- _] & _). rewrite emit_all in E. by injection E as <- _.
Qed.

Lemma step_length a s s' o :
  main_ s <> Installed -> step a s = Done (tt, s', o) -> length (threads_ s') = length (threads_ s).
Proof.
  intros N E. destruct a as [i w r|w|w sys dialled|i x|g|].
  - revert E. cbn [step]. rewrite gets_eq. destruct (threads_ (id s) !! i) as [th|]; [|by intros [= <- _]].
    intros (th' & s1 & o1 & o2 & E & [= <- _] & _)%bind_done. cbn. rewrite length_insert.
    apply thread_inside in E as (_ & -> & _). done.
  - by rewrite (serve_threads _ _ _ _ E).
  - by rewrite (main_threads _ _ _ _ _ _ N E).
  - cbn in E. injection E as <- _. apply length_alter.
  - cbn in E. injection E as <- _. by destruct (service_ s).
  - cbn in E. by injection E as <- _.
Qed.

Lemma step_stopping a r s s' o :
  stopping s -> quiet a -> step a s = Done (tt, s', o) -> progress s s' (due s = Some r /\ role a = Some r).
Proof.
  intros St Q E. assert (forall P : Prop, progress s s' P -> ((due s = Some r /\ role a = Some r) -> P) ->
    progress s s' (due s = Some r /\ role a = Some r)) as Weak.
  { intros P (S1 & M & D) X. split; [done|]. split; [done|]. intros H. by apply D, X. }
  destruct a as [i w rp|w|w sys dialled|i x|g|]; cbn [role quiet] in *.
  - eapply Weak; [by eapply turn_stopping|]. by intros [-> [= <-]].
  - eapply Weak; [by eapply serve_stopping|]. by intros [-> [= <-]].
  - subst dialled. eapply Weak; [by eapply main_stopping|]. by intros [-> [= <-]].
  - cbn in E. injection E as <- _. eapply Weak; [by apply arrive_stopping|]. by intros [_ ?].
  - cbn in E. injection E as <- _. split; [|split; [right|by intros [_ ?]]].
    + destruct St as [R [S1 S2] F A V T]. destruct (service_ s) as [sv|] eqn:Es; [|by split; rewrite ?Es].
      split; try done; [by intros ? [= <-]; apply (V sv)|]. intros ? M [= <-].
      split; [by apply (T sv)|]. intros _. cbn. by destruct (sv_queue sv).
    + destruct s as [v b port st m l [sv|]]; [|done]. unfold measure, due. by destruct m.
  - cbn in E. injection E as <- _. split; [by destruct St|]. split; [by right|by intros [_ ?]].
Qed.

#[export] Instance server_fair n :
  Fair step role (roles n) (fun s => stopping s /\ length (threads_ s) = n) quiet measure due.
Proof.
  split.
  - intros a s s' o [St L] Q E. destruct (step_stopping a Main_thread s s' o St Q E) as (S' & M & _).
    split; [split; [done|]|done]. rewrite <- L. eapply step_length; [apply St|done].
  - intros a r s s' o [St L] Q D Ro E. destruct (step_stopping a r s s' o St Q E) as (_ & _ & X). by apply X.
  - intros s r [St L]. unfold due, roles. rewrite !elem_of_cons.
    destruct (main_ s) as [| | |k| |]; try (intros [= <-]; tauto).
    + destruct (threads_ s !! k) as [th|] eqn:Lk; [|intros [= <-]; tauto].
      destruct (exited (place_of th)); intros [= <-]; [tauto|]. right; right. apply list_elem_of_fmap. exists k. split; [done|].
      apply elem_of_seq. apply lookup_lt_Some in Lk. lia.
    + destruct (service_ s) as [sv|]; [destruct (exited (sv_place sv))|]; intros [= <-]; tauto.
  - intros s _. unfold due, measure. destruct (main_ s); cbn; split; try done; try lia.
    + by destruct (threads_ s !! k).
    + by destruct (service_ s).
Qed.

End Stopping.

(** ** The two ends *)

Lemma sleeping_stopping W s :
  inv s -> running_ s = false -> main_ s = Sleeping ->
  (forall i q, threads_ s !! i = Some (Receiver Recv q) -> has_wake q) ->
  (forall i q, threads_ s !! i = Some (Receiver Wait q) -> has_wake q \/ q = [] /\ ~ W i) ->
  (forall i q, threads_ s !! i = Some (Alt Recv q) -> q <> []) -> stopping W s.
Proof.
  intros [I T V J] R M HR HW HA. split; try done; rewrite ?M; try done.
  intros i th L. pose proof (Forall_lookup_1 _ _ _ _ T L) as O. destruct th as [p q|p|p tm|p q]; try done.
  - destruct p; try done; [by eapply HW|by eapply HR].
  - destruct O as [O _]. split; [done|]. intros ->. by eapply HA.
Qed.

(** C17: the server stops, under these conditions.  Take any state the process can reach in
    which the main thread is in its loop and a signal has come, and suppose:
    - every receive thread in its inner loop has an error or a datagram of no octets waiting
      at its socket, and every one in [epoll_wait] either has as well, or has nothing waiting
      and nothing else is still to come ([W] are the sockets at which more may come);
    - the second socket's thread, if it is in [recvfrom], has something waiting;
    - from then on no call is interrupted by another signal, nothing but an error or a
      datagram of no octets arrives outside [W], and the connection by which the main thread
      wakes the status service can be made ([quiet]).
    Then every schedule that gives each thread as many turns as [measure] says - in any
    order, with anything in between - ends with [run] returned, and every thread before it;
    or it [breaks] the server: a worker takes one of the three requests [packet_hazard] names
    and runs past an object. *)
Theorem server_stops (v : NatServer.t) (port : Z) (acts : list action) (s : t) (o : list effect) (W : nat -> Prop)
    (rounds : list (list action)) (Hv : loop_inv v) (Hacts : Forall action_ok acts)
    (Hrun : run acts (started v port) = Done (tt, s, o)) (Hsig : running_ s = false) (Hmain : main_ s = Sleeping)
    (Hin : forall i q, threads_ s !! i = Some (Receiver Recv q) -> has_wake q)
    (Hout : forall i q, threads_ s !! i = Some (Receiver Wait q) -> has_wake q \/ q = [] /\ ~ W i)
    (Halt : forall i q, threads_ s !! i = Some (Alt Recv q) -> q <> [])
    (Hquiet : Forall (Forall (quiet W)) rounds) (Hoctets : Forall action_ok (concat rounds))
    (Hfair : Forall (covers role (roles (length (threads_ s)))) rounds) (Hlong : (measure s <= length rounds)%nat) :
  (exists s' o', run (concat rounds) s = Done (tt, s', o') /\ main_ s' = Returned /\ all_exited (threads_ s') /\
    forall sv, service_ s' = Some sv -> sv_place sv = Exited) \/
  breaks (concat rounds) s.
Proof.
  pose proof (run_inv _ _ _ _ (started_inv v port Hv) Hacts Hrun) as V.
  destruct (run_goes_on _ s V Hoctets) as [(s' & o' & E & [_ _ _ (J1 & _ & J3)])|B]; [left|by right].
  destruct (fair_ends step role (roles (length (threads_ s))) (fun s0 => stopping W s0 /\ length (threads_ s0) = length (threads_ s))
    (quiet W) measure due rounds s s' o') as [_ D]; try done.
  { split; [|done]. by apply sleeping_stopping. }
  assert (main_ s' = Returned) as M.
  { revert D. unfold due. destruct (main_ s') as [| | |k| |]; try done; [by destruct (threads_ s' !! k)|by destruct (service_ s')]. }
  exists s', o'. rewrite M in *. done.
Qed.

(** A receive thread in its inner loop that nothing wakes. *)
Definition stuck (i : nat) (s : t) : Prop :=
  exists q, threads_ s !! i = Some (Receiver Recv q) /\ Forall (fun x => wakes x = false) q.

Definition no_wake (i : nat) (a : action) : Prop := forall x : input, a = Arrive i x -> wakes x = false.

Lemma stuck_turn w r q s th' s' o :
  Forall (fun x => wakes x = false) q -> receiver_turn w r Recv q s = Done (th', s', o) ->
  exists q', th' = Receiver Recv q' /\ Forall (fun x => wakes x = false) q'.
Proof.
  intros Q. destruct q as [|x q]; [intros [= <- _ _]; by exists []|]. apply Forall_cons in Q as [X Q].
  destruct x as [data from|]; [|done]. cbn in *. rewrite X.
  intros ([] & s1 & o1 & o2 & _ & [= <- _ _] & _)%bind_done. by exists q.
Qed.

Lemma stuck_step i a s s' o : inv s -> stuck i s -> no_wake i a -> step a s = Done (tt, s', o) -> stuck i s'.
Proof.
  intros V (q & L & Q) N. assert (i < length (threads_ s))%nat as Hi by (by eapply lookup_lt_Some).
  assert (forall s', threads_ s' = threads_ s -> stuck i s') as Same by (intros s2 E; exists q; by rewrite E).
  destruct a as [j w r|w|w sys dialled|j x|g|]; cbn [step].
  - rewrite gets_eq. unfold id. destruct (threads_ s !! j) as [th|] eqn:Lj; [|intros [= <- _]; by exists q].
    intros (th' & s1 & o1 & o2 & E & [= <- _] & _)%bind_done. pose proof (thread_inside w r th _ _ _ _ E) as (_ & T & _).
    unfold stuck. cbn [threads_ set_threads_]. rewrite T. destruct (decide (j = i)) as [->|Ne].
    + rewrite L in Lj. injection Lj as <-. destruct (stuck_turn w r q s th' s1 o1 Q E) as (q' & -> & Q').
      exists q'. by rewrite list_lookup_insert_eq.
    + exists q. by rewrite list_lookup_insert_ne.
  - intros E. apply Same. exact (serve_threads w s s' o E).
  - intros E. apply Same. eapply main_threads, E.
    intros M. destruct V as [_ _ _ (J & _)]. rewrite M in J. destruct J as [J _]. by rewrite J in L.
  - intros [= <- _]. unfold stuck. cbn [threads_ set_threads_]. destruct (decide (j = i)) as [->|Ne].
    + exists (q ++ [x]). rewrite list_lookup_alter_eq, L. split; [done|].
      apply Forall_app_2; [done|constructor; [by apply N|done]].
    + exists q. by rewrite list_lookup_alter_ne.
  - intros [= <- _]. apply Same. by destruct (service_ s).
  - intros [= <- _]. by apply Same.
Qed.

(** The server does not stop.  Once a receive thread is in its inner loop - it is from
    the first datagram it is given on - it leaves it only when [recvfrom] fails or returns a
    datagram of no octets: until that happens, whatever else arrives and however often the
    process is told to stop, the thread stays there and [run] does not return. *)
Theorem server_hangs (v : NatServer.t) (port : Z) (acts more : list action) (s s' : t) (o o' : list effect) (i : nat)
    (q : list input) (Hv : loop_inv v) (Hacts : Forall action_ok acts)
    (Hrun : run acts (started v port) = Done (tt, s, o)) (Hin : threads_ s !! i = Some (Receiver Recv q))
    (Hq : Forall (fun x => wakes x = false) q) (Hoctets : Forall action_ok more)
    (Hno : forall x, Arrive i x ∈ more -> wakes x = false) (Hmore : run more s = Done (tt, s', o')) :
  exists q', threads_ s' !! i = Some (Receiver Recv q') /\ main_ s' <> Returned.
Proof.
  pose proof (run_inv _ _ _ _ (started_inv v port Hv) Hacts Hrun) as V.
  assert (stuck i s) as K by (by exists q). clear Hrun Hin Hq. revert s o' V K Hmore.
  induction more as [|a more IH]; intros s o' V K.
  - intros [= <- _]. destruct K as (q' & L & _). exists q'. split; [done|]. intros M.
    destruct V as [_ _ _ (J & _)]. rewrite M in J. by pose proof (Forall_lookup_1 _ _ _ _ J L).
  - unfold run. cbn [mapM_]. intros ([] & s1 & o1 & o2 & E1 & E2 & _)%bind_done. apply Forall_cons in Hoctets as [A As].
    destruct (step_goes_on a s V A) as [(s2 & o3 & E3 & V1)|(? & ? & ? & _ & _ & _ & F)]; [|congruence].
    rewrite E1 in E3. injection E3 as <- <-.
    apply (IH As (fun x X => Hno x (list_elem_of_further _ _ _ X)) s1 o2 V1); [|exact E2].
    apply (stuck_step i a s s1 o1 V K); [|done]. intros x ->. apply Hno. by left.
Qed.

(** ** Schedules that can be computed *)

Definition octets_b (a : action) : bool :=
  match a with Arrive _ (Packet data _) => bool_decide (bytes_ok data) | _ => true end.

Lemma octets_check acts : forallb octets_b acts = true -> Forall action_ok acts.
Proof.
  rewrite forallb_forall. intros H. apply Forall_forall. intros a Ha%list_elem_of_In. specialize (H a Ha).
  destruct a as [| | |i [data from|]| |]; try done. by apply bool_decide_eq_true in H.
Qed.

Definition after (acts : list action) (s : t) : t := match run acts s with Done (_, s', _) => s' | Fault _ => s end.

(** Start-up, and the first receive thread takes one datagram. *)
Definition opening : list action :=
  [Main calm_world (StatusServer.mkSetup 5 0 0) true; Main calm_world (StatusServer.mkSetup 5 0 0) true;
   Turn 0 calm_world Fine; Turn 0 calm_world Fine; Arrive 0 (Packet [1; 2] (mkAddr 16777343 9));
   Turn 0 calm_world Fine; Turn 0 calm_world Fine; Signal].

(** The same, and a datagram of no octets follows. *)
Definition wakeful : list action := opening ++ [Arrive 0 (Packet [] (mkAddr 16777343 9))].

Definition turn_each (n : nat) : list action :=
  map (fun i => Turn i calm_world Fine) (seq 0 n) ++
  [Serve calm_world; Main calm_world (StatusServer.mkSetup 5 0 0) true].

Lemma covers_turn_each n : covers role (roles n) (turn_each n).
Proof.
  intros r. unfold roles, turn_each. rewrite !elem_of_cons. intros [->|[->|(i & -> & Hi)%list_elem_of_fmap]].
  - eexists. split; [apply elem_of_app; right; right; by left|done].
  - eexists. split; [apply elem_of_app; right; by left|done].
  - exists (Turn i calm_world Fine). split; [|done]. apply elem_of_app. left. apply list_elem_of_fmap. by exists i.
Qed.

Lemma quiet_turn_each W n : Forall (quiet W) (turn_each n).
Proof. apply Forall_app_2; [apply Forall_fmap, Forall_true; done|by repeat constructor]. Qed.

Lemma no_arrivals acts i x :
  forallb (fun a => match a with Arrive _ _ => false | _ => true end) acts = true -> Arrive i x ∉ acts.
Proof. intros F X%list_elem_of_In. rewrite forallb_forall in F. by specialize (F _ X). Qed.

Definition start : t := started NatServer.initial 8080.

Lemma after_run acts : is_done (run acts start) = true -> exists o, run acts start = Done (tt, after acts start, o).
Proof. unfold after. destruct (run acts start) as [[[[] s] o]|]; [by exists o|done]. Qed.

Lemma server_stops_witness :
  exists s', (exists o', run (concat (replicate 23 (turn_each 8))) (after wakeful start) = Done (tt, s', o')) /\ main_ s' = Returned.
Proof.
  destruct (after_run wakeful ltac:(vm_compute; reflexivity)) as [o E].
  destruct (server_stops NatServer.initial 8080 wakeful (after wakeful start) o (fun _ => False) (replicate 23 (turn_each 8)))
    as [(s' & o' & R & M & _)|[B _]].
  - apply initial_inv.
  - apply octets_check. vm_compute. reflexivity.
  - exact E.
  - vm_compute. reflexivity.
  - vm_compute. reflexivity.
  - intros i q. do 9 (destruct i as [|i]; [vm_compute; intros [= <-]; reflexivity|]). vm_compute. discriminate.
  - intros i q. do 9 (destruct i as [|i]; [vm_compute; discriminate|]). vm_compute. discriminate.
  - intros i q. do 9 (destruct i as [|i]; [vm_compute; discriminate|]). vm_compute. discriminate.
  - apply Forall_replicate. apply quiet_turn_each.
  - apply octets_check. vm_compute. reflexivity.
  - apply Forall_replicate. change (length (threads_ (after wakeful start))) with 8%nat. apply covers_turn_each.
  - vm_compute. lia.
  - exists s'. split; [exists o'; exact R|exact M].
  - exfalso. revert B. vm_compute. discriminate.
Defined.

Lemma server_hangs_witness :
  exists q', threads_ (after (Signal :: concat (replicate 100 (turn_each 8))) (after opening start)) !! 0%nat =
    Some (Receiver Recv q').
Proof.
  destruct (after_run opening ltac:(vm_compute; reflexivity)) as [o E].
  assert (exists o', run (Signal :: concat (replicate 100 (turn_each 8))) (after opening start) =
    Done (tt, after (Signal :: concat (replicate 100 (turn_each 8))) (after opening start), o')) as [o' E'].
  { eexists. vm_compute. reflexivity. }
  destruct (server_hangs NatServer.initial 8080 opening (Signal :: concat (replicate 100 (turn_each 8))) (after opening start)
      (after (Signal :: concat (replicate 100 (turn_each 8))) (after opening start)) o o' 0%nat [])
    as (q' & L & _).
  - apply initial_inv.
  - apply octets_check. vm_compute. reflexivity.
  - exact E.
  - vm_compute. reflexivity.
  - constructor.
  - apply octets_check. vm_compute. reflexivity.
  - intros x X. exfalso. revert X. apply no_arrivals. vm_compute. reflexivity.
  - exact E'.
  - exists q'. exact L.
Defined.

End ServerStop.
