(* ===== verification/P2PProxy.v ===== *)
(** * The relay server

    Models [P2PProxy] of [server/proxyserver/src/P2PProxy.cpp]: registrations of
    relay users, the relay of tunnel frames with its table of paths, and the timer
    that ages both.  A handler gives the new state and the datagrams sent; the
    sockets are one, since all are bound to the same port and only the first sends. *)

From S2P Require Import Prelude.
From S2P Require Import Bytes.
From S2P Require Import Wire.
From S2P Require Import ProtoDef.
From S2P Require Import NetUtil.
From S2P Require Import Hmac.
From S2P Require Import Packet.

#[local] Open Scope Z_scope.

Record PathInfo := mkPath {
  pi_dst : sockaddr_in;
  pi_count : Z;
  pi_uuid : bytes;
  pi_last_active : Z
}.

Record UuidEntry := mkEntry { ue_addr : sockaddr_in; ue_last_reg : Z }.

Module P2PProxy.

Definition REG_TTL : Z := 120.
Definition COUNT_TTL : Z := 5.
Definition kProxyAuthKey : bytes := bs "p2p-proxy-auth-2024".

Record t := mk {
  port_ : Z;
  max_proxy_ : Z;
  workers_ : Z;
  fds_ : nat;
  uuid2addr_ : gmap bytes UuidEntry;
  addr2uuid_ : gmap Z bytes;
  srcpaths_ : gmap Z (gmap Z PathInfo);
  running_ : bool;
  relay_pkts_ : Z;
  relay_bytes_ : Z
}.

Definition initial : t := mk 0 0 4 0 ∅ ∅ ∅ false 0 0.

(** The three tables replaced. *)
Definition with_tables (u : gmap bytes UuidEntry) (a : gmap Z bytes) (p : gmap Z (gmap Z PathInfo)) (s : t) : t :=
  mk (port_ s) (max_proxy_ s) (workers_ s) (fds_ s) u a p (running_ s) (relay_pkts_ s) (relay_bytes_ s).

Definition relayed (n : Z) (s : t) : t :=
  mk (port_ s) (max_proxy_ s) (workers_ s) (fds_ s) (uuid2addr_ s) (addr2uuid_ s) (srcpaths_ s) (running_ s)
    (u64 (relay_pkts_ s + 1)) (u64 (relay_bytes_ s + n)).

(** [probe_ok] is whether the port can be bound. *)
Definition init (s : t) (port max_proxy workers : Z) (probe_ok : bool) : Z * t :=
  let workers := if (1 <=? workers) && (workers <=? 64) then workers else 4 in
  let s := mk port max_proxy workers (fds_ s) (uuid2addr_ s) (addr2uuid_ s) (srcpaths_ s) (running_ s)
             (relay_pkts_ s) (relay_bytes_ s) in
  if probe_ok then (0, s) else (-1, s).

(** The sockets [run] opens before its threads start; [bound] of them succeed. *)
Definition start (s : t) (bound : nat) : t :=
  mk (port_ s) (max_proxy_ s) (workers_ s) bound (uuid2addr_ s) (addr2uuid_ s) (srcpaths_ s) true
    (relay_pkts_ s) (relay_bytes_ s).

Definition request_stop (s : t) : t :=
  mk (port_ s) (max_proxy_ s) (workers_ s) (fds_ s) (uuid2addr_ s) (addr2uuid_ s) (srcpaths_ s) false
    (relay_pkts_ s) (relay_bytes_ s).

Definition send (s : t) (to : sockaddr_in) (id : MsgId) (payload : bytes) : list datagram :=
  if (fds_ s =? 0)%nat then []
  else if (MAX_PKT - 8 <? length payload)%nat then []
  else [mkDg MainSock to (frame (msg_id id) payload)].

(** ** Registration *)

Definition reg_rsp (result : Z) (addr : option sockaddr_in) : ProxyRegRsp :=
  mkProxyRegRsp result (match addr with Some a => ip_field (s_addr a) | None => replicate 16 0 end)
    (match addr with Some a => sin_port a | None => 0 end).

Definition proxy_mac (uuid : bytes) : bytes := hmac_sha256 kProxyAuthKey uuid.

Definition full_for (s : t) (uuid : bytes) : bool :=
  (max_proxy_ s <=? Z.of_nat (size (uuid2addr_ s))) && negb (bool_decide (is_Some (uuid2addr_ s !! uuid))).

Definition do_register (now : Z) (s : t) (uuid : bytes) (from : sockaddr_in) (with_rsp : bool)
    (hmac : option bytes) : t * list datagram :=
  let answer s r := if with_rsp then send s from MSG_PROXY_REGISTER_RSP (cenc ProxyRegRsp_codec r) else [] in
  if (length uuid =? 0)%nat then (s, answer s (reg_rsp 2 None))
  else
    match hmac with
    | None => (s, answer s (reg_rsp 3 None))
    | Some hmac =>
        if negb (bool_decide (proxy_mac uuid = hmac)) then (s, answer s (reg_rsp 3 None))
        else if full_for s uuid then (s, answer s (reg_rsp 1 None))
        else
          let key := addr_to_u64 from in
          let u := match addr2uuid_ s !! key with
                   | Some old => if negb (bool_decide (old = uuid)) then delete old (uuid2addr_ s) else uuid2addr_ s
                   | None => uuid2addr_ s
                   end in
          let s := with_tables (<[uuid := mkEntry from now]> u) (<[key := uuid]> (addr2uuid_ s)) (srcpaths_ s) s in
          (s, answer s (reg_rsp 0 (Some from)))
    end.

(** Paths from and to an address are dropped; an emptied source stays. *)
Definition unregister (s : t) (uuid : bytes) (from : sockaddr_in) : t :=
  match uuid2addr_ s !! uuid with
  | None => s
  | Some it =>
      if negb (sockaddr_eq (ue_addr it) from) then s
      else
        let ua := addr_to_u64 (ue_addr it) in
        with_tables (delete uuid (uuid2addr_ s)) (delete ua (addr2uuid_ s))
          (delete ua <$> delete ua (srcpaths_ s)) s
  end.

(** ** Relay *)

(** [srcpaths_[src]] creates the inner map; a hit resets count and time. *)
Definition touch_path (now : Z) (src dst : Z) (to : sockaddr_in) (uuid : bytes) (m : gmap Z (gmap Z PathInfo))
    : gmap Z (gmap Z PathInfo) :=
  let inner := default ∅ (m !! src) in
  let p := match inner !! dst with
           | None => mkPath to 3 uuid now
           | Some p => mkPath (pi_dst p) 3 (pi_uuid p) now
           end in
  <[src := <[dst := p]> inner]> m.

(** Both terminators are written into the packet. *)
Definition terminate_frame (p : bytes) : bytes := take 32 p ++ [0] ++ slice 33 32 p ++ [0] ++ drop 66 p.

Definition on_relay (now : Z) (s : t) (from : sockaddr_in) (p : bytes) : t * list datagram :=
  if (length p <? csize RelayFrame_codec)%nat then (s, [])
  else
    let p := terminate_frame p in
    let src_uuid := c_str (take 33 p) in
    let dst_uuid := c_str (slice 33 33 p) in
    match uuid2addr_ s !! dst_uuid with
    | None => (s, [])
    | Some it =>
        let dst := ue_addr it in
        let dst_key := addr_to_u64 dst in
        let src_key := addr_to_u64 from in
        let paths := touch_path now src_key dst_key dst dst_uuid (srcpaths_ s) in
        let paths := touch_path now dst_key src_key from src_uuid paths in
        let s := with_tables (uuid2addr_ s) (addr2uuid_ s) paths s in
        (relayed (len p) s, send s dst MSG_PROXY_RELAY_DATA p)
    end.

(** Only the second terminator is written. *)
Definition on_punch_helper (s : t) (from : sockaddr_in) (p : bytes) : t * list datagram :=
  if (length p <? csize RelayFrame_codec)%nat then (s, [])
  else
    let dst_uuid := c_str (slice 33 32 p ++ [0]) in
    let rsp := match uuid2addr_ s !! dst_uuid with
               | None => reg_rsp 1 None
               | Some it => reg_rsp 0 (Some (ue_addr it))
               end in
    (s, send s from MSG_PROXY_REGISTER_RSP (cenc ProxyRegRsp_codec rsp)).

Definition avail_rsp (s : t) : ProxyAvailRsp :=
  let used := Z.of_nat (size (uuid2addr_ s)) in
  mkProxyAvailRsp (if used <? max_proxy_ s then 1 else 0) (htons (u16 used)) (htons (max_proxy_ s)).

Definition on_register (now : Z) (s : t) (from : sockaddr_in) (p : bytes) : t * list datagram :=
  if (length p <? csize ProxyRegReq_codec)%nat then (s, [])
  else
    let req := cdec ProxyRegReq_codec p in
    do_register now s (c_str (take 32 (prq_uuid req) ++ [0])) from true (Some (prq_hmac req)).

Definition on_unregister (s : t) (from : sockaddr_in) (p : bytes) : t * list datagram :=
  let req := if (csize ProxyRegReq_codec <=? length p)%nat then cdec ProxyRegReq_codec p
             else zeroed ProxyRegReq_codec in
  (unregister s (c_str (take 32 (prq_uuid req) ++ [0])) from, []).

Definition handle (now : Z) (s : t) (data : bytes) (from : sockaddr_in) : t * list datagram :=
  match parse_frame data with
  | None => (s, [])
  | Some (id, p) =>
      match msg_of id with
      | Some MSG_PROXY_REGISTER_REQ => on_register now s from p
      | Some MSG_PROXY_UNREGISTER_REQ => on_unregister s from p
      | Some MSG_PROXY_RELAY_DATA => on_relay now s from p
      | Some MSG_PROXY_PUNCH_HELPER => on_punch_helper s from p
      | Some MSG_SP_ASK_EXTINFO_REQ =>
          (s, send s from MSG_SP_ASK_EXTINFO_RSP (cenc ProxyAvailRsp_codec (avail_rsp s)))
      | _ => (s, [])
      end
  end.

(** One datagram of [recv_loop]; nothing is handled once the server stops. *)
Definition recv_step (now : Z) (s : t) (data : bytes) (from : sockaddr_in) : t * list datagram :=
  let buf := take MAX_PKT data in
  if (length buf =? 0)%nat || negb (running_ s) then (s, []) else handle now s buf from.

(** ** The timer *)

Definition age (p : PathInfo) : PathInfo :=
  mkPath (pi_dst p) (if 0 <? pi_count p then pi_count p - 1 else pi_count p) (pi_uuid p) (pi_last_active p).

Definition path_dead (now : Z) (p : PathInfo) : bool :=
  (pi_count p =? 0) || (REG_TTL <? now - pi_last_active p).

Definition age_inner (now : Z) (inner : gmap Z PathInfo) : gmap Z PathInfo :=
  omap (fun p => let p := age p in if path_dead now p then None else Some p) inner.

Definition age_paths (now : Z) (m : gmap Z (gmap Z PathInfo)) : gmap Z (gmap Z PathInfo) :=
  omap (fun inner => let inner := age_inner now inner in
                     if bool_decide (inner = ∅) then None else Some inner) m.

Definition expired (now : Z) (e : UuidEntry) : bool := REG_TTL <? now - ue_last_reg e.

(** The addresses of the expired registrations lose their reverse entry. *)
Definition timer_step (now : Z) (s : t) : t :=
  let dead := map (fun kv => addr_to_u64 (ue_addr kv.2))
                (filter (fun kv => expired now kv.2 = true) (map_to_list (uuid2addr_ s))) in
  with_tables (filter (fun kv => expired now kv.2 = false) (uuid2addr_ s))
    (foldr delete (addr2uuid_ s) dead) (age_paths now (srcpaths_ s)) s.

(** ** The table of paths *)

Definition path (m : gmap Z (gmap Z PathInfo)) (a b : Z) : option PathInfo := m !! a ≫= fun inner => inner !! b.

Lemma path_touch now src dst to uuid m a b :
  path (touch_path now src dst to uuid m) a b =
  if decide (a = src /\ b = dst) then
    Some (match path m src dst with
          | None => mkPath to 3 uuid now
          | Some p => mkPath (pi_dst p) 3 (pi_uuid p) now
          end)
  else path m a b.
Proof.
  unfold path, touch_path. destruct (decide (a = src)) as [->|Na].
  - rewrite lookup_insert_eq. cbn [mbind option_bind].
    destruct (decide (b = dst)) as [->|Nb].
    + rewrite decide_True by done. rewrite lookup_insert_eq.
      destruct (m !! src) as [inner|]; cbn; [done|by rewrite lookup_empty].
    + rewrite decide_False by tauto. rewrite lookup_insert_ne by done.
      destruct (m !! src) as [inner|]; cbn; [done|by rewrite lookup_empty].
  - rewrite decide_False by tauto. by rewrite lookup_insert_ne.
Qed.

Lemma path_unregister ua m a b :
  path (delete ua <$> delete ua m) a b = if decide (a = ua \/ b = ua) then None else path m a b.
Proof.
  unfold path. rewrite lookup_fmap. destruct (decide (a = ua)) as [->|Na].
  - rewrite lookup_delete_eq. by rewrite decide_True by tauto.
  - rewrite lookup_delete_ne by done. destruct (m !! a) as [inner|]; cbn; [|by case_decide].
    destruct (decide (b = ua)) as [->|Nb].
    + rewrite lookup_delete_eq. by rewrite decide_True by tauto.
    + rewrite lookup_delete_ne by done. by rewrite decide_False by tauto.
Qed.

Lemma path_age now m a b :
  path (age_paths now m) a b =
  path m a b ≫= fun p => if path_dead now (age p) then None else Some (age p).
Proof.
  unfold path, age_paths. rewrite lookup_omap. destruct (m !! a) as [inner|]; [|done]. cbn.
  assert (age_inner now inner !! b = inner !! b ≫= fun p => if path_dead now (age p) then None else Some (age p)) as E
    by (unfold age_inner; by rewrite lookup_omap).
  destruct (bool_decide_reflect (age_inner now inner = ∅)) as [Em|]; [|exact E].
  rewrite Em, lookup_empty in E. by rewrite <- E.
Qed.

(** ** The invariant *)

(** A path is live, leads to the address it is filed under, and has a path back of
    the same age. *)
Definition paths_wf (m : gmap Z (gmap Z PathInfo)) : Prop :=
  forall a b p, path m a b = Some p ->
    1 <= pi_count p <= 3 /\ addr_to_u64 (pi_dst p) = b /\
    exists q, path m b a = Some q /\ pi_count q = pi_count p /\ pi_last_active q = pi_last_active p.

Definition wf (s : t) : Prop :=
  Z.of_nat (size (uuid2addr_ s)) <= max_proxy_ s /\ paths_wf (srcpaths_ s).

Lemma touch_both_wf now from dst u1 u2 m :
  paths_wf m ->
  paths_wf (touch_path now (addr_to_u64 dst) (addr_to_u64 from) from u2
              (touch_path now (addr_to_u64 from) (addr_to_u64 dst) dst u1 m)).
Proof.
  intros W. set (x := addr_to_u64 from). set (y := addr_to_u64 dst).
  set (m' := touch_path now y x from u2 _).
  assert (forall a b p, path m' a b = Some p ->
    ((a = x /\ b = y) \/ (a = y /\ b = x)) /\ pi_count p = 3 /\ pi_last_active p = now /\ addr_to_u64 (pi_dst p) = b \/
    ~ ((a = x /\ b = y) \/ (a = y /\ b = x)) /\ path m a b = Some p) as C.
  { intros a b p. unfold m'. rewrite !path_touch.
    assert (forall a b p, path m a b = Some p -> addr_to_u64 (pi_dst p) = b) as D by (intros ? ? ? E; by apply W in E as (_ & ? & _)).
    destruct (decide (a = y /\ b = x)) as [[-> ->]|N1].
    - intros [= <-]. left. split; [tauto|].
      destruct (decide (y = x /\ x = y)) as [[Exy _]|].
      + destruct (path m x y) as [q|] eqn:E; cbn; (split; [done|split; [done|]]); [by rewrite (D _ _ _ E)|exact Exy].
      + destruct (path m y x) as [q|] eqn:E; cbn; (split; [done|split; [done|]]); [by apply (D _ _ _ E)|done].
    - destruct (decide (a = x /\ b = y)) as [[-> ->]|N2].
      + intros [= <-]. left. split; [tauto|].
        destruct (path m x y) as [q|] eqn:E; cbn; (split; [done|split; [done|]]); [by apply (D _ _ _ E)|done].
      + intros E. right. tauto. }
  assert (forall a b, (a = x /\ b = y) \/ (a = y /\ b = x) -> is_Some (path m' a b)) as S.
  { intros a b H. unfold m'. rewrite !path_touch. destruct (decide (a = y /\ b = x)); [by eexists|].
    destruct (decide (a = x /\ b = y)); [by eexists|]. tauto. }
  intros a b p E. destruct (C a b p E) as [(H & C1 & C2 & C3)|(H & E')].
  - split; [lia|]. split; [done|]. destruct (S b a) as [q Eq]; [tauto|]. exists q. split; [done|].
    destruct (C b a q Eq) as [(_ & D1 & D2 & _)|(N & _)]; [by split; congruence|tauto].
  - destruct (W a b p E') as (W1 & W2 & q & Eq & W3). split; [done|]. split; [done|]. exists q. split; [|done].
    unfold m'. rewrite !path_touch. rewrite !decide_False by tauto. done.
Qed.

Lemma unregister_paths_wf ua m : paths_wf m -> paths_wf (delete ua <$> delete ua m).
Proof.
  intros W a b p. rewrite path_unregister. destruct (decide (a = ua \/ b = ua)) as [|N]; [done|].
  intros E. destruct (W a b p E) as (W1 & W2 & q & Eq & W3). split; [done|]. split; [done|].
  exists q. rewrite path_unregister, decide_False by tauto. done.
Qed.

Lemma age_paths_wf now m : paths_wf m -> paths_wf (age_paths now m).
Proof.
  intros W a b p. rewrite path_age. destruct (path m a b) as [p0|] eqn:E; [|done]. cbn.
  destruct (path_dead now (age p0)) eqn:D; [done|]. intros [= <-].
  destruct (W a b p0 E) as (W1 & W2 & q & Eq & W3 & W4).
  assert (pi_count (age q) = pi_count (age p0)) as C by (cbn; by rewrite W3).
  unfold path_dead in D. apply orb_false_iff in D as [D1 D2]. apply Z.eqb_neq in D1.
  split; [|split; [done|]].
  - cbn in *. destruct (Z.ltb_spec 0 (pi_count p0)); lia.
  - exists (age q). rewrite path_age, Eq. cbn [mbind option_bind].
    assert (path_dead now (age q) = false) as ->; [|by split].
    unfold path_dead. rewrite C. cbn [pi_last_active age]. rewrite W4. cbn [pi_last_active age] in D2.
    rewrite D2, orb_false_r. by apply Z.eqb_neq.
Qed.

Lemma size_insert_bound (u u' : gmap bytes UuidEntry) uuid e (n : Z) :
  (forall k, is_Some (u' !! k) -> is_Some (u !! k)) -> (size u' <= size u)%nat ->
  (is_Some (u !! uuid) -> is_Some (u' !! uuid)) -> Z.of_nat (size u) <= n ->
  (n <= Z.of_nat (size u) -> is_Some (u !! uuid)) -> Z.of_nat (size (<[uuid := e]> u')) <= n.
Proof.
  intros Hs Hz Hk Hn Hf. destruct (u' !! uuid) as [x|] eqn:E.
  - rewrite map_size_insert_Some by eauto. lia.
  - rewrite map_size_insert_None by done. destruct (Z.le_gt_cases n (Z.of_nat (size u))); [|lia].
    destruct Hk as [? Hk]; [auto|]. congruence.
Qed.

Lemma do_register_wf now s uuid from r mac :
  wf s -> wf (do_register now s uuid from r mac).1.
Proof.
  intros [B P]. unfold do_register. destruct (_ =? _)%nat; [done|]. destruct mac as [mac|]; [|done].
  destruct (negb _); [done|]. destruct (full_for s uuid) eqn:F; [done|]. cbn [fst]. split; [|done].
  cbn [uuid2addr_ with_tables max_proxy_]. unfold full_for in F.
  assert (max_proxy_ s <= Z.of_nat (size (uuid2addr_ s)) -> is_Some (uuid2addr_ s !! uuid)) as Hf.
  { intros H. apply Z.leb_le in H. rewrite H in F. apply negb_false_iff in F. by apply bool_decide_eq_true in F. }
  assert (forall old, old <> uuid -> Z.of_nat (size (<[uuid := mkEntry from now]> (delete old (uuid2addr_ s)))) <= max_proxy_ s) as D.
  { intros old N. apply (size_insert_bound (uuid2addr_ s)); [| | |done|done].
    - intros k [x Hx]. apply lookup_delete_Some in Hx as [_ Hx]. by exists x.
    - apply map_subseteq_size, delete_subseteq.
    - by rewrite lookup_delete_ne. }
  assert (Z.of_nat (size (<[uuid := mkEntry from now]> (uuid2addr_ s))) <= max_proxy_ s) as K
    by (by apply (size_insert_bound (uuid2addr_ s))).
  destruct (addr2uuid_ s !! _) as [old|]; [|done].
  destruct (bool_decide_reflect (old = uuid)); cbn [negb]; [done|by apply D].
Qed.

Lemma unregister_wf s uuid from : wf s -> wf (unregister s uuid from).
Proof.
  intros [B P]. unfold unregister. destruct (uuid2addr_ s !! uuid); [|done]. destruct (negb _); [done|].
  split; [|by apply unregister_paths_wf]. cbn.
  pose proof (map_subseteq_size _ _ (delete_subseteq (uuid2addr_ s) uuid)). lia.
Qed.

Lemma handle_wf now s data from : wf s -> wf (handle now s data from).1.
Proof.
  intros W. unfold handle. destruct (parse_frame data) as [[id p]|]; [|done].
  destruct (msg_of id) as [[]|]; try done.
  - unfold on_register. destruct (_ <? _)%nat; [done|]. by apply do_register_wf.
  - by apply unregister_wf.
  - unfold on_relay. destruct (_ <? _)%nat; [done|]. destruct (uuid2addr_ s !! _); [|done].
    destruct W as [B P]. split; [done|]. by apply touch_both_wf.
  - unfold on_punch_helper. by destruct (_ <? _)%nat.
Qed.

Lemma timer_wf now s : wf s -> wf (timer_step now s).
Proof.
  intros [B P]. split; [|by apply age_paths_wf]. cbn.
  pose proof (map_filter_subseteq (fun kv : bytes * UuidEntry => expired now kv.2 = false) (uuid2addr_ s)) as S.
  apply map_subseteq_size in S. lia.
Qed.

(** What changes the server's state. *)
Inductive step : t -> t -> Prop :=
| step_recv now s data from : step s (recv_step now s data from).1
| step_timer now s : step s (timer_step now s).

Lemma relay_step_wf s s' : step s s' -> wf s -> wf s'.
Proof.
  intros [now s0 data from|now s0] W; [|by apply timer_wf].
  unfold recv_step. destruct (_ || _); [done|by apply handle_wf].
Qed.

(** C24: whatever the relay receives and however its timer runs, from its start it
    never has more registrations than its limit, and its table of paths stays
    consistent: every path leads to the address it is filed under, has one to three
    timer periods left, and has a path back with the same count and time of use. *)
Theorem relay_invariant (port max_proxy workers : Z) (bound : nat) (s : t)
    (Hmax : 0 <= max_proxy) (Hreach : rtc step (start (init initial port max_proxy workers true).2 bound) s) :
  wf s.
Proof.
  assert (wf (start (init initial port max_proxy workers true).2 bound)) as W.
  { split; [done|]. intros a b p. unfold path. cbn. by rewrite lookup_empty. }
  revert W. induction Hreach as [x|x y z Hxy _ IH]; [done|]. intros W. apply IH. by eapply relay_step_wf.
Qed.

Lemma relay_invariant_witness :
  wf (timer_step 5 (start (init initial 7000 10 4 true).2 4)).
Proof.
  apply (relay_invariant 7000 10 4 4 (timer_step 5 (start (init initial 7000 10 4 true).2 4))).
  - lia.
  - apply rtc_once. constructor.
Defined.

(** ** Registering *)

Definition reg_packet (uuid mac : bytes) : bytes :=
  frame (msg_id MSG_PROXY_REGISTER_REQ) (cenc ProxyRegReq_codec (mkProxyRegReq (uuid_field uuid) mac)).

Definition unreg_packet (uuid mac : bytes) : bytes :=
  frame (msg_id MSG_PROXY_UNREGISTER_REQ) (cenc ProxyRegReq_codec (mkProxyRegReq (uuid_field uuid) mac)).

Lemma reg_req_cok uuid mac :
  uuid_ok uuid -> length mac = 32%nat -> bytes_ok mac -> cok ProxyRegReq_codec (mkProxyRegReq (uuid_field uuid) mac).
Proof. intros U L B. split; [exact (uuid_field_cok _ U)|by split]. Qed.

Lemma reg_rsp_cok r a : byte_ok r -> (forall x, a = Some x -> u16_ok (sin_port x)) -> cok ProxyRegRsp_codec (reg_rsp r a).
Proof.
  intros R A. split; [exact R|]. destruct a as [x|]; (split; [|by (apply A || vm_compute)]).
  - apply ip_field_cok.
  - split; [done|apply bytes_ok_replicate].
Qed.

Lemma send_rsp_eq s to id r :
  fds_ s <> 0%nat -> cok ProxyRegRsp_codec r ->
  send s to id (cenc ProxyRegRsp_codec r) = [mkDg MainSock to (frame (msg_id id) (cenc ProxyRegRsp_codec r))].
Proof.
  intros F K. unfold send. destruct (Nat.eqb_spec (fds_ s) 0); [done|].
  rewrite (codec_size _ K). done.
Qed.

Lemma relay_frame now s m p from :
  len p < 4294967296 ->
  handle now s (frame (msg_id m) p) from =
  match m with
  | MSG_PROXY_REGISTER_REQ => on_register now s from p
  | MSG_PROXY_UNREGISTER_REQ => on_unregister s from p
  | MSG_PROXY_RELAY_DATA => on_relay now s from p
  | MSG_PROXY_PUNCH_HELPER => on_punch_helper s from p
  | MSG_SP_ASK_EXTINFO_REQ => (s, send s from MSG_SP_ASK_EXTINFO_RSP (cenc ProxyAvailRsp_codec (avail_rsp s)))
  | _ => (s, [])
  end.
Proof.
  intros H. unfold handle. pose proof (parse_frame_frame (msg_id m) p []) as E. rewrite app_nil_r in E.
  rewrite E; [|apply msg_id_range|done]. by rewrite msg_of_id.
Qed.

Lemma handle_reg now s uuid mac from :
  uuid_ok uuid -> length mac = 32%nat -> bytes_ok mac ->
  handle now s (reg_packet uuid mac) from = do_register now s uuid from true (Some mac).
Proof.
  intros U L B. pose proof (reg_req_cok _ _ U L B) as K. unfold reg_packet.
  rewrite relay_frame by (rewrite (cenc_len _ _ K); reflexivity).
  unfold on_register. rewrite (codec_size _ K), Nat.ltb_irrefl, (cdec_alone _ _ K). cbn [prq_uuid prq_hmac].
  rewrite field_terminated by done. by rewrite c_str_uuid_field by apply U.
Qed.

(** The verdict on a registration. *)
Definition reg_code (s : t) (uuid mac : bytes) : Z :=
  if negb (bool_decide (proxy_mac uuid = mac)) then 3 else if full_for s uuid then 1 else 0.

(** A registration needs the shared key and room: a request whose code is not the
    HMAC of the identifier is refused with 3, one for a new identifier when the limit
    is reached with 1, and neither changes anything; otherwise the identifier is
    registered at the sender's address, the answer tells the sender that address, and
    an identifier other than the one last registered from this address stays as it
    was. *)
Theorem registration_answers (now : Z) (s : t) (uuid mac : bytes) (from : sockaddr_in)
    (Hu : uuid_ok uuid) (Hm : length mac = 32%nat /\ bytes_ok mac) (Hs : fds_ s <> 0%nat)
    (Hf : u16_ok (sin_port from)) :
  exists s' d r,
    handle now s (reg_packet uuid mac) from = (s', [d]) /\ dg_to d = from /\
    reads ProxyRegRsp_codec MSG_PROXY_REGISTER_RSP d r /\ prr_result r = reg_code s uuid mac /\
    (reg_code s uuid mac <> 0 -> s' = s) /\
    (reg_code s uuid mac = 0 ->
       uuid2addr_ s' !! uuid = Some (mkEntry from now) /\
       c_str (prr_pub_ip r) = inet_ntop (s_addr from) /\ prr_pub_port r = sin_port from /\
       forall k, k <> uuid -> addr2uuid_ s !! addr_to_u64 from <> Some k -> uuid2addr_ s' !! k = uuid2addr_ s !! k).
Proof.
  destruct Hm as [L B]. rewrite handle_reg by done. unfold do_register, reg_code.
  destruct (Nat.eqb_spec (length uuid) 0) as [Z0|_]; [destruct Hu as (_ & _ & ?); lia|].
  assert (forall r, byte_ok r -> exists d, send s from MSG_PROXY_REGISTER_RSP (cenc ProxyRegRsp_codec (reg_rsp r None)) = [d] /\
    dg_to d = from /\ reads ProxyRegRsp_codec MSG_PROXY_REGISTER_RSP d (reg_rsp r None)) as N.
  { intros r R. assert (cok ProxyRegRsp_codec (reg_rsp r None)) as K by (by apply reg_rsp_cok).
    eexists. split; [by apply send_rsp_eq|]. split; [done|]. apply reads_frame; [apply _|exact K|reflexivity]. }
  destruct (negb (bool_decide (proxy_mac uuid = mac))).
  { destruct (N 3 ltac:(done)) as (d & E & T & R). cbv zeta. rewrite E. exists s, d, (reg_rsp 3 None). by split_all. }
  destruct (full_for s uuid).
  { destruct (N 1 ltac:(done)) as (d & E & T & R). cbv zeta. rewrite E. exists s, d, (reg_rsp 1 None). by split_all. }
  cbv zeta. set (s' := with_tables _ _ _ s).
  assert (cok ProxyRegRsp_codec (reg_rsp 0 (Some from))) as K by (apply reg_rsp_cok; [done|by intros ? [= <-]]).
  exists s'. eexists _, (reg_rsp 0 (Some from)).
  split; [by rewrite (send_rsp_eq s' from MSG_PROXY_REGISTER_RSP _ Hs K)|]. split; [done|].
  split; [apply reads_frame; [apply _|exact K|reflexivity]|]. split; [done|]. split; [done|]. intros _.
  split; [cbn; by rewrite lookup_insert_eq|]. split; [apply c_str_ip_field|]. split; [done|].
  intros k Nk Hk. cbn. rewrite lookup_insert_ne by done.
  destruct (addr2uuid_ s !! addr_to_u64 from) as [old|]; [|done].
  destruct (bool_decide_reflect (old = uuid)); cbn [negb]; [done|]. rewrite lookup_delete_ne; [done|]. congruence.
Qed.

(** A started relay. *)
Definition running (n : Z) : t := start (init initial 7000 n 4 true).2 4.

Lemma cam_ok : uuid_ok (bs "cam") /\ uuid_ok (bs "app").
Proof. split; (split; [decide_now|split; [decide_now|vm_compute; lia]]). Qed.

Lemma registration_answers_witness :
  exists s' d, handle 100 (running 10) (reg_packet (bs "cam") (replicate 32 0)) (mkAddr 1 1) = (s', [d]) /\
    dg_to d = mkAddr 1 1.
Proof.
  destruct (registration_answers 100 (running 10) (bs "cam") (replicate 32 0) (mkAddr 1 1))
    as (s' & d & r & E & T & _).
  - apply cam_ok.
  - split; [exact eq_refl|apply bytes_ok_replicate].
  - discriminate.
  - by vm_compute.
  - exists s', d. by split.
Defined.

(** A moved user can be thrown out: re-registering from a new address leaves the
    old address pointing at the identifier, so that when somebody else later registers
    from the old address, the moved user's current registration is deleted though it
    is live. *)
Theorem moved_user_evicted (n1 n2 n3 : Z) (s : t) (u v : bytes) (a b : sockaddr_in)
    (Huv : u <> v /\ u <> [] /\ v <> []) (Hab : addr_to_u64 a <> addr_to_u64 b)
    (Hroom : Z.of_nat (size (uuid2addr_ s)) + 2 <= max_proxy_ s) (Hnew : addr2uuid_ s !! addr_to_u64 b = None)
    (Hfree : addr2uuid_ s !! addr_to_u64 a = None) :
  let s1 := (do_register n1 s u a true (Some (proxy_mac u))).1 in
  let s2 := (do_register n2 s1 u b true (Some (proxy_mac u))).1 in
  let s3 := (do_register n3 s2 v a true (Some (proxy_mac v))).1 in
  uuid2addr_ s2 !! u = Some (mkEntry b n2) /\ uuid2addr_ s3 !! u = None.
Proof.
  destruct Huv as (Nuv & Nu & Nv). intros s1 s2 s3.
  assert (forall n x w from, w <> [] -> full_for x w = false -> addr2uuid_ x !! addr_to_u64 from = None \/
     addr2uuid_ x !! addr_to_u64 from = Some w ->
     (do_register n x w from true (Some (proxy_mac w))).1 =
     with_tables (<[w := mkEntry from n]> (uuid2addr_ x)) (<[addr_to_u64 from := w]> (addr2uuid_ x)) (srcpaths_ x) x) as R.
  { intros n x w from Nw F A. unfold do_register.
    destruct (Nat.eqb_spec (length w) 0) as [Z0|_]; [by apply nil_length_inv in Z0|].
    rewrite bool_decide_true by done. cbn [negb]. rewrite F. cbv zeta. cbn [fst].
    destruct A as [-> | ->]; [done|]. by rewrite bool_decide_true by done. }
  assert (full_for s u = false) as F1.
  { unfold full_for. destruct (Z.leb_spec (max_proxy_ s) (Z.of_nat (size (uuid2addr_ s)))); [lia|done]. }
  assert (s1 = with_tables (<[u := mkEntry a n1]> (uuid2addr_ s)) (<[addr_to_u64 a := u]> (addr2uuid_ s)) (srcpaths_ s) s)
    as E1 by (apply R; auto).
  assert (full_for s1 u = false) as F2.
  { rewrite E1. unfold full_for. cbn [uuid2addr_ with_tables]. rewrite bool_decide_true, andb_false_r; [done|].
    rewrite lookup_insert_eq. by eexists. }
  assert (addr2uuid_ s1 !! addr_to_u64 b = None) as A2.
  { rewrite E1. cbn. by rewrite lookup_insert_ne. }
  assert (s2 = with_tables (<[u := mkEntry b n2]> (uuid2addr_ s1)) (<[addr_to_u64 b := u]> (addr2uuid_ s1))
    (srcpaths_ s1) s1) as E2 by (apply R; auto).
  assert (uuid2addr_ s2 !! u = Some (mkEntry b n2)) as G2 by (rewrite E2; cbn; by rewrite lookup_insert_eq).
  split; [done|].
  assert (full_for s2 v = false) as F3.
  { unfold full_for. rewrite E2, E1. cbn [uuid2addr_ with_tables max_proxy_]. rewrite insert_insert_eq.
    pose proof (map_size_insert u (mkEntry b n2) (uuid2addr_ s)) as Sz.
    destruct (Z.leb_spec (max_proxy_ s) (Z.of_nat (size (<[u:=mkEntry b n2]> (uuid2addr_ s))))) as [H|]; [|done].
    rewrite Sz in H. destruct (uuid2addr_ s !! u); cbn in H; lia. }
  assert (addr2uuid_ s2 !! addr_to_u64 a = Some u) as A3.
  { rewrite E2, E1. cbn. rewrite lookup_insert_ne by done. by rewrite lookup_insert_eq. }
  unfold s3, do_register. destruct (Nat.eqb_spec (length v) 0) as [Z0|_]; [by apply nil_length_inv in Z0|].
  rewrite bool_decide_true by done. cbn [negb]. rewrite F3, A3. cbv zeta. cbn [fst uuid2addr_ with_tables].
  rewrite bool_decide_false by done. cbn [negb]. rewrite lookup_insert_ne by done. by rewrite lookup_delete_eq.
Qed.

Lemma moved_user_evicted_witness :
  let s1 := (do_register 1 (running 10) (bs "cam") (mkAddr 1 1) true (Some (proxy_mac (bs "cam")))).1 in
  let s2 := (do_register 2 s1 (bs "cam") (mkAddr 2 2) true (Some (proxy_mac (bs "cam")))).1 in
  let s3 := (do_register 3 s2 (bs "app") (mkAddr 1 1) true (Some (proxy_mac (bs "app")))).1 in
  uuid2addr_ s2 !! bs "cam" = Some (mkEntry (mkAddr 2 2) 2) /\ uuid2addr_ s3 !! bs "cam" = None.
Proof.
  apply (moved_user_evicted 1 2 3 (running 10) (bs "cam") (bs "app") (mkAddr 1 1) (mkAddr 2 2)).
  - split; [discriminate|split; discriminate].
  - by vm_compute.
  - by vm_compute.
  - exact eq_refl.
  - exact eq_refl.
Defined.

(** ** Relaying *)

Definition relay_payload (src dst data : bytes) : bytes :=
  cenc RelayFrame_codec (mkRelayFrame (uuid_field src) (uuid_field dst)) ++ data.

Lemma relay_payload_eq src dst data : relay_payload src dst data = uuid_field src ++ uuid_field dst ++ data.
Proof. unfold relay_payload. cbn [cenc RelayFrame_codec c_iso c_pair c_bytes rf_src_uuid rf_dst_uuid fst snd]. by rewrite app_assoc. Qed.

Lemma length_relay_payload src dst data : length (relay_payload src dst data) = (66 + length data)%nat.
Proof. rewrite relay_payload_eq, !length_app, !length_uuid_field. lia. Qed.

Lemma terminate_relay src dst data :
  uuid_ok src -> uuid_ok dst -> terminate_frame (relay_payload src dst data) = relay_payload src dst data.
Proof.
  intros U V. rewrite relay_payload_eq. unfold terminate_frame, slice.
  rewrite drop_app_exact by apply length_uuid_field.
  change 66%nat with (33 + 33)%nat. rewrite <- drop_drop, drop_app_exact by apply length_uuid_field.
  rewrite drop_app_exact by apply length_uuid_field.
  rewrite !take_app_le by (rewrite length_uuid_field; lia).
  rewrite !app_assoc, <- (app_assoc _ _ (take 32 (uuid_field dst))).
  rewrite <- !app_assoc. rewrite (app_assoc (take 32 (uuid_field dst))). rewrite field_terminated by done.
  rewrite app_assoc. by rewrite field_terminated.
Qed.

Lemma handle_relay now s src dst data from :
  uuid_ok src -> uuid_ok dst -> fds_ s <> 0%nat -> (length data <= 1974)%nat ->
  let p := relay_payload src dst data in
  handle now s (frame (msg_id MSG_PROXY_RELAY_DATA) p) from =
  match uuid2addr_ s !! dst with
  | None => (s, [])
  | Some e =>
      let x := addr_to_u64 from in
      let y := addr_to_u64 (ue_addr e) in
      (relayed (len p) (with_tables (uuid2addr_ s) (addr2uuid_ s)
         (touch_path now y x from src (touch_path now x y (ue_addr e) dst (srcpaths_ s))) s),
       [mkDg MainSock (ue_addr e) (frame (msg_id MSG_PROXY_RELAY_DATA) p)])
  end.
Proof.
  intros Hs Hd Hf Hl p. rewrite relay_frame by (unfold len, p; rewrite length_relay_payload; lia).
  unfold on_relay, p. rewrite length_relay_payload. change (csize RelayFrame_codec) with 66%nat.
  destruct (Nat.ltb_spec (66 + length data) 66); [lia|]. rewrite terminate_relay by done. cbv zeta.
  assert (c_str (take 33 (relay_payload src dst data)) = src) as ->.
  { rewrite relay_payload_eq, take_app_exact by apply length_uuid_field. by apply c_str_uuid_field; apply Hs. }
  assert (c_str (slice 33 33 (relay_payload src dst data)) = dst) as ->.
  { rewrite relay_payload_eq. unfold slice. rewrite drop_app_exact by apply length_uuid_field.
    rewrite take_app_exact by apply length_uuid_field. by apply c_str_uuid_field; apply Hd. }
  destruct (uuid2addr_ s !! dst) as [e|]; [|done].
  f_equal. unfold send. cbn [fds_ with_tables]. destruct (Nat.eqb_spec (fds_ s) 0); [done|].
  rewrite length_relay_payload. change (MAX_PKT - 8)%nat with 2040%nat.
  destruct (Nat.ltb_spec 2040 (66 + length data)); [lia|done].
Qed.

(** C26: a relay frame to a registered identifier is forwarded unchanged, with its
    payload, to the address registered last, and opens or renews the path in both
    directions for three timer periods; one to an unknown identifier is dropped and
    changes nothing.  The sender need not be registered. *)
Theorem relay_forwards (now : Z) (s : t) (src dst data : bytes) (from : sockaddr_in)
    (Hs : uuid_ok src) (Hd : uuid_ok dst) (Hf : fds_ s <> 0%nat) (Hl : (length data <= 1974)%nat) :
  let pkt := frame (msg_id MSG_PROXY_RELAY_DATA) (relay_payload src dst data) in
  match uuid2addr_ s !! dst with
  | None => handle now s pkt from = (s, [])
  | Some e =>
      exists s', handle now s pkt from = (s', [mkDg MainSock (ue_addr e) pkt]) /\
        uuid2addr_ s' = uuid2addr_ s /\ addr2uuid_ s' = addr2uuid_ s /\
        relay_pkts_ s' = u64 (relay_pkts_ s + 1) /\
        let x := addr_to_u64 from in
        let y := addr_to_u64 (ue_addr e) in
        (forall a b, (a = x /\ b = y) \/ (a = y /\ b = x) ->
           exists p, path (srcpaths_ s') a b = Some p /\ pi_count p = 3 /\ pi_last_active p = now) /\
        (forall a b, ~ ((a = x /\ b = y) \/ (a = y /\ b = x)) -> path (srcpaths_ s') a b = path (srcpaths_ s) a b)
  end.
Proof.
  intros pkt. unfold pkt. rewrite (handle_relay now s src dst data from Hs Hd Hf Hl).
  destruct (uuid2addr_ s !! dst) as [e|]; [|done]. cbv zeta.
  set (x := addr_to_u64 from). set (y := addr_to_u64 (ue_addr e)). eexists. split; [reflexivity|].
  split; [done|]. split; [done|]. split; [done|]. cbn [srcpaths_ relayed with_tables]. split.
  - intros a b Hab. rewrite !path_touch. destruct (decide (a = y /\ b = x)) as [[-> ->]|].
    + eexists. split; [done|]. destruct (decide (y = x /\ x = y)); [done|]. by destruct (path (srcpaths_ s) y x).
    + rewrite decide_True by tauto. eexists. split; [done|]. by destruct (path (srcpaths_ s) x y).
  - intros a b Hab. rewrite !path_touch. by rewrite !decide_False by tauto.
Qed.

Lemma relay_forwards_witness :
  let s := with_tables {[ bs "cam" := mkEntry (mkAddr 2 2) 90 ]} ∅ ∅ (running 10) in
  let pkt := frame (msg_id MSG_PROXY_RELAY_DATA) (relay_payload (bs "app") (bs "cam") [1; 2; 3]) in
  exists s', handle 100 s pkt (mkAddr 1 1) = (s', [mkDg MainSock (mkAddr 2 2) pkt]).
Proof.
  intros s pkt. destruct (relay_forwards 100 s (bs "app") (bs "cam") [1; 2; 3] (mkAddr 1 1)) as (s' & E & _).
  - apply cam_ok.
  - apply cam_ok.
  - discriminate.
  - simpl. lia.
  - exists s'. exact E.
Defined.

(** Only its own address unregisters a user: a request from elsewhere changes
    nothing; from the registered address it removes the registration and every path
    from and to that address, and leaves the other registrations and paths. *)
Theorem unregister_owner (now : Z) (s : t) (uuid mac : bytes) (from : sockaddr_in) (e : UuidEntry)
    (Hu : uuid_ok uuid) (Hm : length mac = 32%nat /\ bytes_ok mac) (He : uuid2addr_ s !! uuid = Some e) :
  exists s', handle now s (unreg_packet uuid mac) from = (s', []) /\
    (ue_addr e <> from -> s' = s) /\
    (ue_addr e = from ->
       uuid2addr_ s' = delete uuid (uuid2addr_ s) /\ addr2uuid_ s' !! addr_to_u64 from = None /\
       forall a b, path (srcpaths_ s') a b =
         if decide (a = addr_to_u64 from \/ b = addr_to_u64 from) then None else path (srcpaths_ s) a b).
Proof.
  destruct Hm as [L B]. pose proof (reg_req_cok _ _ Hu L B) as K. unfold unreg_packet.
  rewrite relay_frame by (rewrite (cenc_len _ _ K); reflexivity).
  unfold on_unregister. rewrite (codec_size _ K), Nat.leb_refl, (cdec_alone _ _ K). cbn [prq_uuid].
  rewrite field_terminated by done. rewrite c_str_uuid_field by apply Hu.
  eexists. split; [done|]. unfold unregister. rewrite He. split.
  - intros N. destruct (sockaddr_eq (ue_addr e) from) eqn:E; [|done]. by apply sockaddr_eq_true in E.
  - intros ->. assert (sockaddr_eq from from = true) as -> by (by apply sockaddr_eq_true). cbn [negb].
    cbn. split; [done|]. split; [by rewrite lookup_delete_eq|]. intros a b. apply path_unregister.
Qed.

Lemma unregister_owner_witness :
  let s := with_tables {[ bs "cam" := mkEntry (mkAddr 2 2) 90 ]} ∅ ∅ (running 10) in
  handle 100 s (unreg_packet (bs "cam") (replicate 32 0)) (mkAddr 1 1) = (s, []).
Proof.
  intros s. destruct (unregister_owner 100 s (bs "cam") (replicate 32 0) (mkAddr 1 1) (mkEntry (mkAddr 2 2) 90))
    as (s' & E & N & _).
  - apply cam_ok.
  - split; [exact eq_refl|apply bytes_ok_replicate].
  - exact eq_refl.
  - rewrite E, N by discriminate. exact eq_refl.
Defined.

(** ** Ageing *)

Lemma timer_path now s a b :
  path (srcpaths_ (timer_step now s)) a b =
  path (srcpaths_ s) a b ≫= fun p => if path_dead now (age p) then None else Some (age p).
Proof. apply path_age. Qed.

Lemma timer_path_alive now s a b p :
  path (srcpaths_ s) a b = Some p -> 0 < pi_count p -> now - pi_last_active p <= REG_TTL ->
  path (srcpaths_ (timer_step now s)) a b = if pi_count p =? 1 then None else Some (age p).
Proof.
  intros E C A. rewrite timer_path, E. cbn [mbind option_bind]. unfold path_dead.
  assert (pi_count (age p) = pi_count p - 1) as -> by (cbn; destruct (Z.ltb_spec 0 (pi_count p)); lia).
  cbn [pi_last_active age]. destruct (Z.ltb_spec REG_TTL (now - pi_last_active p)); [lia|]. rewrite orb_false_r.
  destruct (Z.eqb_spec (pi_count p) 1), (Z.eqb_spec (pi_count p - 1) 0); done || lia.
Qed.

(** A path just used, and not used again, survives two timer runs and dies at the
    third, when these fall within 120 seconds of its use.  A registration is dropped by
    a timer run more than 120 seconds after its last refresh and kept by an earlier
    one. *)
Theorem timer_ages (t1 t2 t3 : Z) (s : t) (a b : Z) (p : PathInfo) (uuid : bytes) (e : UuidEntry)
    (Hp : path (srcpaths_ s) a b = Some p) (Hc : pi_count p = 3)
    (Ht : t1 <= t2 <= t3) (Hact : t3 - pi_last_active p <= REG_TTL) (He : uuid2addr_ s !! uuid = Some e) :
  is_Some (path (srcpaths_ (timer_step t2 (timer_step t1 s))) a b) /\
  path (srcpaths_ (timer_step t3 (timer_step t2 (timer_step t1 s)))) a b = None /\
  uuid2addr_ (timer_step t1 s) !! uuid = (if t1 - ue_last_reg e <=? REG_TTL then Some e else None).
Proof.
  assert (path (srcpaths_ (timer_step t1 s)) a b = Some (age p)) as P1
    by (rewrite (timer_path_alive _ _ _ _ _ Hp), Hc; [done|lia|lia]).
  assert (path (srcpaths_ (timer_step t2 (timer_step t1 s))) a b = Some (age (age p))) as P2.
  { rewrite (timer_path_alive _ _ _ _ _ P1); cbn [pi_count pi_last_active age]; rewrite ?Hc; [done|done|lia]. }
  split; [by rewrite P2|]. split.
  { rewrite (timer_path_alive _ _ _ _ _ P2); cbn [pi_count pi_last_active age]; rewrite ?Hc; [done|done|lia]. }
  unfold expired. destruct (Z.leb_spec (t1 - ue_last_reg e) REG_TTL) as [H|H].
  - apply map_lookup_filter_Some. split; [done|]. cbn. apply Z.ltb_ge. lia.
  - apply map_lookup_filter_None. right. intros e' He'. rewrite He in He'. injection He' as <-.
    intros X%Z.ltb_ge. cbn [snd] in X. lia.
Qed.

Lemma timer_ages_witness :
  let s := with_tables {[ bs "cam" := mkEntry (mkAddr 2 2) 90 ]} ∅ {[ 1 := {[ 2 := mkPath (mkAddr 2 2) 3 [] 100 ]} ]} (running 10) in
  is_Some (path (srcpaths_ (timer_step 106 (timer_step 101 s))) 1 2) /\
  path (srcpaths_ (timer_step 111 (timer_step 106 (timer_step 101 s)))) 1 2 = None.
Proof.
  intros s. destruct (timer_ages 101 106 111 s 1 2 (mkPath (mkAddr 2 2) 3 [] 100) (bs "cam") (mkEntry (mkAddr 2 2) 90))
    as (P1 & P2 & _).
  - exact eq_refl.
  - exact eq_refl.
  - lia.
  - unfold REG_TTL. simpl. lia.
  - exact eq_refl.
  - by split.
Defined.

End P2PProxy.
