(* ===== verification/RelayRun.v ===== *)
(** * The relay as a process

    Models [P2PProxy::run], [recv_loop], [timer_loop] and the relay's [main]: the position
    of every thread, and turns up to the next call that can wait.  Nothing in the program
    calls [request_stop]; here it is an action. *)

From S2P Require Import Prelude.
From S2P Require Import Bytes.
From S2P Require Import NetUtil.
From S2P Require Import Packet.
From S2P Require Import Handler.
From S2P Require Import Fair.
From S2P Require Import P2PProxy.

#[local] Open Scope Z_scope.

Module RelayRun.
Import P2PProxy.

(** ** The threads *)

(** A receive thread in [recvfrom], or returned; what waits at its socket, errors as
    [None]. *)
Record receiver := mkReceiver { r_exited : bool; r_queue : list (option (bytes * sockaddr_in)) }.

Inductive clockwork := AtCheck | Asleep | Ended.

(** The main thread: in its loop; joining the timer; about to wake, then joining, the
    receive thread of that number; returned. *)
Inductive post := Sleeping | JoiningTimer | Waking (i : nat) | Joining (i : nat) | Returned.

Record t := mk {
  relay : P2PProxy.t;
  main_ : post;
  receivers : list receiver;
  timer : clockwork
}.

Definition set_relay (x : P2PProxy.t) (s : t) : t := mk x (main_ s) (receivers s) (timer s).
Definition set_main_ (x : post) (s : t) : t := mk (relay s) x (receivers s) (timer s).
Definition set_receivers (x : list receiver) (s : t) : t := mk (relay s) (main_ s) x (timer s).
Definition set_timer (x : clockwork) (s : t) : t := mk (relay s) (main_ s) (receivers s) x.

Abbreviation M := (handler t datagram).

Definition on_proxy (f : P2PProxy.t -> P2PProxy.t * list datagram) : M unit := fun s =>
  let '(r, out) := f (relay s) in Done (tt, set_relay r s, out).

(** [recv_loop], one return of [recvfrom]. *)
Definition receiver_turn (now : Z) (r : receiver) : M receiver :=
  match r_exited r, r_queue r with
  | false, x :: q =>
      b ← gets (fun s => running_ (relay s));
      if negb b then mret (mkReceiver true q)
      else
        match x with
        | None => mret (mkReceiver false q)
        | Some (data, from) => on_proxy (fun s => recv_step now s data from);; mret (mkReceiver false q)
        end
  | _, _ => mret r
  end.

Definition timer_turn (now : Z) : M unit :=
  s ← gets id;
  match timer s with
  | AtCheck => modify (set_timer (if running_ (relay s) then Asleep else Ended))
  | Asleep => on_proxy (fun r => (timer_step now r, []));; modify (set_timer AtCheck)
  | Ended => skip
  end.

Definition arrive (x : option (bytes * sockaddr_in)) (r : receiver) : receiver :=
  mkReceiver (r_exited r) (r_queue r ++ [x]).

(** The address the relay sends its wake-ups to: its own port on the loopback interface. *)
Definition loopback (s : t) : sockaddr_in := mkAddr 16777343 (htons (port_ (relay s))).

(** [pick i] is the socket that gets the empty datagram sent to wake thread [i]: all
    sockets are bound to one port, and the system chooses among them. *)
Definition main_turn (pick : nat -> option nat) : M unit :=
  s ← gets id;
  match main_ s with
  | Sleeping =>
      if running_ (relay s) then skip
      else modify (fun s => set_main_ JoiningTimer (set_relay (request_stop (relay s)) s))
  | JoiningTimer => match timer s with Ended => modify (set_main_ (Waking 0)) | _ => skip end
  | Waking i =>
      if (i <? length (receivers s))%nat then
        emit (mkDg MainSock (loopback s) []);;
        modify (fun s => match pick i with
          | Some j => set_receivers (alter (arrive (Some ([], loopback s))) j (receivers s)) s
          | None => s end);;
        modify (set_main_ (Joining i))
      else modify (set_main_ Returned)
  | Joining i =>
      match receivers s !! i with
      | Some r => if r_exited r then modify (set_main_ (Waking (S i))) else skip
      | None => skip
      end
  | Returned => skip
  end.

Inductive action :=
| Turn (i : nat) (now : Z)
| Tick (now : Z)
| Main (pick : nat -> option nat)
| Arrive (i : nat) (x : option (bytes * sockaddr_in))
| Stop.

Definition step (a : action) : M unit :=
  match a with
  | Turn i now =>
      s ← gets id;
      match receivers s !! i with
      | Some r => r ← receiver_turn now r; modify (fun s => set_receivers (<[i := r]> (receivers s)) s)
      | None => skip
      end
  | Tick now => timer_turn now
  | Main pick => main_turn pick
  | Arrive i x => modify (fun s => set_receivers (alter (arrive x) i (receivers s)) s)
  | Stop => modify (fun s => set_relay (request_stop (relay s)) s)
  end.

Definition run (acts : list action) : M unit := mapM_ step acts.

(** ** The program *)

(** [run] after its sockets are opened; [bound] of them could be. *)
Definition started (r : P2PProxy.t) (bound : nat) : t :=
  mk (start r bound) Sleeping (replicate bound (mkReceiver false [])) AtCheck.

(** [main]: the exit status, or the process. *)
Definition boot (args : list bytes) (probe_ok : bool) (bound : nat) : Z + t :=
  match args with
  | port :: max_proxy :: rest =>
      let workers := match rest with w :: _ => atoi w | [] => 4 end in
      let '(r, p) := init initial (u16 (atoi port)) (u16 (atoi max_proxy)) workers probe_ok in
      if r =? 0 then inr (started p bound) else inl 1
  | _ => inl 1
  end.

(** ** The measure *)

Definition main_rank (n : nat) (p : post) : nat :=
  match p with
  | Sleeping => 2 * n + 3
  | JoiningTimer => 2 * n + 2
  | Waking i => 2 * (n - i) + 1
  | Joining i => 2 * (n - i)
  | Returned => 0
  end.

Definition receiver_rank (r : receiver) : nat := if r_exited r then 0 else 1.
Definition timer_rank (c : clockwork) : nat := match c with AtCheck => 1 | Asleep => 2 | Ended => 0 end.

Definition measure (s : t) : nat :=
  match main_ s with
  | Returned => 0
  | p => main_rank (length (receivers s)) p + sum_list (map receiver_rank (receivers s)) + timer_rank (timer s)
  end.

Inductive who := Thread (i : nat) | Clock | Main_thread.

Definition role (a : action) : option who :=
  match a with
  | Turn i _ => Some (Thread i)
  | Tick _ => Some Clock
  | Main _ => Some Main_thread
  | _ => None
  end.

Definition due (s : t) : option who :=
  match main_ s with
  | Returned => None
  | JoiningTimer => Some (match timer s with Ended => Main_thread | _ => Clock end)
  | Joining i =>
      match receivers s !! i with
      | Some r => Some (if r_exited r then Main_thread else Thread i)
      | None => Some Main_thread
      end
  | _ => Some Main_thread
  end.

Definition roles (n : nat) : list who := Main_thread :: Clock :: map Thread (seq 0 n).

(** ** Every action is possible *)

Definition all_exited (l : list receiver) : Prop := Forall (fun r => r_exited r = true) l.

(** What the main thread has joined has returned. *)
Record inv (s : t) : Prop := {
  inv_wf : wf (relay s);
  inv_told : main_ s <> Sleeping -> running_ (relay s) = false;
  inv_timer : match main_ s with Waking _ | Joining _ | Returned => timer s = Ended | _ => True end;
  inv_joined : match main_ s with
    | Waking i | Joining i => all_exited (take i (receivers s))
    | Returned => all_exited (receivers s)
    | _ => True
    end
}.

Lemma running_recv now r data from : running_ (recv_step now r data from).1 = running_ r.
Proof.
  unfold recv_step. destruct (_ || _); [done|]. unfold handle. destruct (parse_frame _) as [[id p]|]; [|done].
  destruct (ProtoDef.msg_of id) as [[]|]; try done.
  - unfold on_register. destruct (_ <? _)%nat; [done|]. unfold do_register. destruct (_ =? _)%nat; [done|].
    destruct (negb _); [done|]. by destruct (full_for _ _).
  - unfold on_unregister, unregister. cbv zeta. cbn [fst]. destruct (uuid2addr_ r !! _); [|done].
    by destruct (negb _).
  - unfold on_relay. destruct (_ <? _)%nat; [done|]. by destruct (uuid2addr_ r !! _).
  - unfold on_punch_helper. by destruct (_ <? _)%nat.
Qed.

Lemma receiver_turn_spec now r s :
  exists r' s' o, receiver_turn now r s = Done (r', s', o) /\ s' = set_relay (relay s') s /\
    running_ (relay s') = running_ (relay s) /\ (wf (relay s) -> wf (relay s')) /\
    (r_exited r = true -> r' = r) /\
    (running_ (relay s) = false -> r_queue r <> [] -> r_exited r' = true) /\
    (r_queue r = [] -> r' = r).
Proof.
  unfold receiver_turn. destruct r as [[|] q]; cbn [r_exited r_queue].
  { exists (mkReceiver true q), s, []. by destruct s. }
  destruct q as [|x q]; [exists (mkReceiver false []), s, []; by destruct s|].
  rewrite gets_eq. destruct (running_ (relay s)) eqn:R; cbn [negb].
  2:{ exists (mkReceiver true q), s, []. by destruct s. }
  destruct x as [[data from]|]; [|exists (mkReceiver false q), s, []; by destruct s].
  pose proof (running_recv now (relay s) data from) as RR. pose proof (relay_step_wf (relay s) _ (step_recv now (relay s) data from)) as W.
  exists (mkReceiver false q), (set_relay (recv_step now (relay s) data from).1 s). eexists.
  split; [|split; [done|split; [by rewrite <- R|split; [exact W|by repeat split]]]].
  eapply bind_eq; [|done]. unfold on_proxy. by rewrite (surjective_pairing (recv_step _ _ _ _)).
Qed.

Lemma exited_insert l i r r' : all_exited l -> l !! i = Some r -> (r_exited r = true -> r' = r) -> all_exited (<[i := r']> l).
Proof. intros A L E. rewrite E; [by rewrite list_insert_id|]. by eapply (Forall_lookup_1 _ _ _ _ A). Qed.

Lemma exited_take_insert l k i r r' :
  all_exited (take k l) -> l !! i = Some r -> (r_exited r = true -> r' = r) -> all_exited (take k (<[i := r']> l)).
Proof.
  intros A L E. rewrite take_insert. destruct (decide _); [|done].
  eapply exited_insert; [done| |done]. by rewrite lookup_take_lt.
Qed.

Lemma relay_exited_arrive x i l : all_exited l -> all_exited (alter (arrive x) i l).
Proof. intros A. by apply Forall_alter. Qed.

Lemma exited_take_arrive x i k l : all_exited (take k l) -> all_exited (take k (alter (arrive x) i l)).
Proof. intros A. rewrite take_alter. destruct (decide _); [by apply relay_exited_arrive|done]. Qed.

Lemma relay_turn_inv s i now : inv s -> exists s' o, step (Turn i now) s = Done (tt, s', o) /\ inv s'.
Proof.
  intros [W T C J]. cbn [step]. rewrite gets_eq. unfold id.
  destruct (receivers s !! i) as [r|] eqn:L; [|by exists s, []].
  destruct (receiver_turn_spec now r s) as (r' & s1 & o & E & Es & R & W1 & X & _).
  do 2 eexists. split; [by eapply bind_eq; [apply E|]|]. rewrite Es. split; cbn; [auto| |done|].
  - intros M. rewrite R. auto.
  - destruct (main_ s); try done; [by eapply exited_take_insert..|by eapply exited_insert].
Qed.

Lemma relay_main_inv s pick : inv s -> exists s' o, step (Main pick) s = Done (tt, s', o) /\ inv s'.
Proof.
  intros [W T C J]. cbn [step]. unfold main_turn. rewrite gets_eq. unfold id. destruct (main_ s) eqn:M.
  - destruct (running_ (relay s)); do 2 eexists; (split; [done|]); split; rewrite ?M; try done. 
  - destruct (timer s) eqn:E; do 2 eexists; (split; [done|]); split; rewrite ?M; try done.
    + cbn. intros _. by apply T.
    + apply Forall_nil_2.
  - destruct (Nat.ltb_spec i (length (receivers s))).
    + do 2 eexists. split; [done|]. destruct (pick i) as [j|]; split; cbn; try done; try (intros _; by apply T).
      by apply exited_take_arrive.
    + do 2 eexists. split; [done|]. rewrite take_ge in J by done. split; cbn; try done. intros _. by apply T.
  - destruct (receivers s !! i) as [r|] eqn:L; [destruct (r_exited r) eqn:X|].
    all: do 2 eexists; split; [done|]; split; rewrite ?M; try done.
    + cbn. intros _. by apply T.
    + cbn. erewrite take_S_r by done. apply Forall_app_2; [done|by constructor].
  - exists s, []. by split; [|split; rewrite ?M].
Qed.

Lemma relay_step_goes_on a s : inv s -> exists s' o, step a s = Done (tt, s', o) /\ inv s'.
Proof.
  intros V. destruct a as [i now|now|pick|i x|].
  - by apply relay_turn_inv.
  - destruct V as [W T C J]. cbn [step]. unfold timer_turn. rewrite gets_eq. unfold id.
    destruct (timer s) eqn:E; do 2 eexists; (split; [done|]); split; cbn; rewrite ?E; try done.
    + by destruct (main_ s).
    + by apply timer_wf.
    + by destruct (main_ s).
  - by apply relay_main_inv.
  - destruct V as [W T C J]. do 2 eexists. split; [done|]. split; cbn; try done.
    destruct (main_ s); try done; [by apply exited_take_arrive..|by apply relay_exited_arrive].
  - destruct V as [W T C J]. do 2 eexists. split; [done|]. by split.
Qed.

Lemma relay_run_goes_on acts : forall s, inv s -> exists s' o, run acts s = Done (tt, s', o) /\ inv s'.
Proof.
  induction acts as [|a acts IH]; intros s V; [by exists s, []|].
  destruct (relay_step_goes_on a s V) as (s1 & o1 & E1 & V1). destruct (IH s1 V1) as (s2 & o2 & E2 & V2).
  exists s2, (o1 ++ o2). split; [|done]. unfold run. cbn [mapM_]. by eapply bind_eq.
Qed.

(** ** Stopping *)

Record stopping (s : t) : Prop := {
  st_running : running_ (relay s) = false;
  st_bound i : main_ s = Joining i -> (i < length (receivers s))%nat;
  st_woken i r : main_ s = Joining i -> receivers s !! i = Some r -> r_exited r = true \/ r_queue r <> []
}.

(** The system delivers a wake-up to the socket it is meant for. *)
Definition delivered (a : action) : Prop := match a with Main pick => forall i, pick i = Some i | _ => True end.

Definition progress (s s' : t) (strict : Prop) : Prop :=
  stopping s' /\ length (receivers s') = length (receivers s) /\
  (measure s' < measure s \/ measure s' = measure s /\ due s' = due s)%nat /\ (strict -> (measure s' < measure s)%nat).

Lemma relay_progress_same s (P : Prop) : stopping s -> ~ P -> progress s s P.
Proof. intros St N. split; [done|]. split; [done|]. split; [by right|done]. Qed.

Lemma relay_turn_stopping s i now s' o :
  stopping s -> step (Turn i now) s = Done (tt, s', o) -> progress s s' (due s = Some (Thread i)).
Proof.
  intros St. pose proof St as [R B K]. cbn [step]. rewrite gets_eq. unfold id.
  destruct (receivers s !! i) as [r|] eqn:L.
  2:{ intros [= <- _]. apply relay_progress_same; [done|]. unfold due. destruct (main_ s) as [| |k|k|]; try done; [by destruct (timer s)|].
      destruct (receivers s !! k) as [r|] eqn:E; [|done]. destruct (r_exited r); [done|]. intros [= ->]. congruence. }
  destruct (receiver_turn_spec now r s) as (r' & s1 & o1 & E & Es & RR & _ & X & Q & N).
  intros (r2 & s2 & o2 & o3 & E2 & [= <- _] & _)%bind_done. rewrite E in E2. injection E2 as <- <- _. rewrite Es.
  assert (r_exited r' = true \/ r' = r) as D.
  { destruct (r_queue r) eqn:Eq; [right; by apply N|left; by apply Q]. }
  assert (receiver_rank r' <= receiver_rank r)%nat as RL by (unfold receiver_rank; destruct D as [->| ->]; [destruct (r_exited r); lia|lia]).
  pose proof (sum_insert receiver_rank (receivers s) i r r' L) as Su. cbn [receivers set_receivers set_relay main_ relay].
  split; [|split; [apply length_insert|split]].
  - split; cbn; [by rewrite RR|intros k M; rewrite length_insert; by apply B|]. intros k rk M.
    destruct (decide (i = k)) as [->|Ne]; [|rewrite list_lookup_insert_ne by done; by apply K].
    rewrite list_lookup_insert_eq by (by eapply lookup_lt_Some). intros [= <-].
    destruct D as [D| ->]; [by left|by apply (K k)].
  - unfold measure, due. cbn [main_ receivers timer set_receivers set_relay]. rewrite length_insert.
    destruct (decide (receiver_rank r' < receiver_rank r)%nat) as [Lt|Ge]; [destruct (main_ s); try (left; lia); by right|].
    assert (r' = r) as ->; [|rewrite list_insert_id by done; by right].
    destruct D as [D| ->]; [|done]. apply X. revert Ge. unfold receiver_rank. rewrite D. destruct (r_exited r); [done|lia].
  - unfold measure, due. cbn [main_ receivers timer set_receivers set_relay]. rewrite length_insert.
    destruct (main_ s) as [| |k|k|] eqn:M; try done; [by destruct (timer s)|].
    destruct (receivers s !! k) as [rk|] eqn:Lk; [|done]. destruct (r_exited rk) eqn:Ex; [done|]. intros [= ->].
    rewrite L in Lk. injection Lk as <-. destruct (K i r eq_refl L) as [Y|Y]; [congruence|].
    specialize (Q R Y). unfold receiver_rank in *. rewrite Q, Ex in *. lia.
Qed.

Lemma tick_stopping s now s' o :
  stopping s -> step (Tick now) s = Done (tt, s', o) -> progress s s' (due s = Some Clock).
Proof.
  intros St. pose proof St as [R B K]. cbn [step]. unfold timer_turn. rewrite gets_eq. unfold id.
  destruct (timer s) eqn:E; intros [= <- _]; rewrite ?R.
  3:{ apply relay_progress_same; [done|]. unfold due. rewrite E. destruct (main_ s); try done.
      destruct (receivers s !! i) as [r|]; [|done]. by destruct (r_exited r). }
  all: split; [by split|split; [done|]]; unfold measure; cbn [main_ receivers timer set_timer set_relay]; rewrite ?E.
  all: unfold due; cbn [main_ receivers timer set_timer set_relay]; rewrite ?E; destruct (main_ s) as [| |k|k|]; cbn [timer_rank].
  all: first [split; [left|intros _]; lia | split; [by right|done]].
Qed.

Lemma relay_main_stopping s pick s' o :
  stopping s -> (forall i, pick i = Some i) -> step (Main pick) s = Done (tt, s', o) ->
  progress s s' (due s = Some Main_thread).
Proof.
  intros St P. pose proof St as [R B K]. cbn [step]. unfold main_turn. rewrite gets_eq. unfold id.
  unfold progress, due. destruct (main_ s) as [| |i|i|] eqn:M.
  - rewrite R. intros [= <- _]. split; [by split|split; [done|]]. unfold measure. rewrite M. cbn. split; [left|intros _]; lia.
  - destruct (timer s) eqn:E; intros [= <- _]; rewrite ?M, ?E; [split; [done|split; [done|split; [by right|done]]]..|].
    split; [by split|split; [done|]]. unfold measure. rewrite M. cbn. split; [left|intros _]; lia.
  - destruct (Nat.ltb_spec i (length (receivers s))); intros [= <- _]; rewrite ?P.
    + split; [split; cbn|split; [apply length_alter|]].
      * done.
      * intros k [= <-]. by rewrite length_alter.
      * intros k r [= <-]. rewrite list_lookup_alter_eq. destruct (receivers s !! i); [|done]. intros [= <-].
        right. cbn. by destruct (r_queue _).
      * unfold measure. rewrite M. cbn [main_ set_main_ receivers set_receivers timer main_rank].
        rewrite length_alter, sum_alter by done. split; [left|intros _]; lia.
    + split; [by split|split; [done|]]. unfold measure. rewrite M. cbn. split; [left|intros _]; lia.
  - specialize (B i eq_refl). destruct (receivers s !! i) as [r|] eqn:L; [|apply lookup_ge_None in L; lia].
    destruct (r_exited r) eqn:X; intros [= <- _]; [|rewrite M, L, X; split; [done|split; [done|split; [by right|done]]]].
    split; [by split|split; [done|]]. unfold measure. rewrite M. cbn [main_ set_main_ receivers timer main_rank].
    split; [left|intros _]; lia.
  - intros [= <- _]. rewrite M. split; [done|split; [done|split; [by right|done]]].
Qed.

Lemma relay_step_stopping a w s s' o :
  stopping s -> delivered a -> step a s = Done (tt, s', o) -> progress s s' (due s = Some w /\ role a = Some w).
Proof.
  intros St D E. assert (forall P : Prop, progress s s' P -> ((due s = Some w /\ role a = Some w) -> P) ->
    progress s s' (due s = Some w /\ role a = Some w)) as Weak.
  { intros P (S1 & L & M & X) Y. split; [done|]. split; [done|]. split; [done|]. intros H. by apply X, Y. }
  destruct a as [i now|now|pick|i x|]; cbn [role delivered] in *.
  - eapply Weak; [by eapply relay_turn_stopping|]. by intros [-> [= <-]].
  - eapply Weak; [by eapply tick_stopping|]. by intros [-> [= <-]].
  - eapply Weak; [by eapply relay_main_stopping|]. by intros [-> [= <-]].
  - cbn in E. injection E as <- _. destruct St as [R B K]. split; [|split; [apply length_alter|split; [right|by intros [_ ?]]]].
    + split; cbn; [done|intros k M; rewrite length_alter; by apply B|]. intros k r M. rewrite list_lookup_alter.
      destruct (decide (i = k)) as [->|N]; [|by apply K]. destruct (receivers s !! k) as [r0|]; [|done]. intros [= <-].
      right. cbn. by destruct (r_queue r0).
    + unfold measure, due. cbn [main_ receivers set_receivers timer]. rewrite length_alter, sum_alter by done. split; [done|].
      destruct (main_ s) as [| |k|k|]; try done. rewrite list_lookup_alter.
      destruct (decide (i = k)) as [->|]; [|done]. by destruct (receivers s !! k).
  - cbn in E. injection E as <- _. destruct St as [R B K]. split; [by split|]. split; [done|]. split; [by right|by intros [_ ?]].
Qed.

#[export] Instance relay_fair n :
  Fair step role (roles n) (fun s => stopping s /\ length (receivers s) = n) delivered measure due.
Proof.
  split.
  - intros a s s' o [St L] D E. destruct (relay_step_stopping a Clock s s' o St D E) as (S' & L' & M & _).
    split; [split; [done|congruence]|done].
  - intros a r s s' o [St L] D Du Ro E. destruct (relay_step_stopping a r s s' o St D E) as (_ & _ & _ & X). by apply X.
  - intros s r [St L]. unfold due, roles. rewrite !elem_of_cons. destruct (main_ s) as [| |k|k|]; try (intros [= <-]; tauto).
    + destruct (timer s); intros [= <-]; tauto.
    + destruct (receivers s !! k) as [rk|] eqn:Lk; [|intros [= <-]; tauto].
      destruct (r_exited rk); intros [= <-]; [tauto|]. right; right. apply list_elem_of_fmap. exists k. split; [done|].
      apply elem_of_seq. apply lookup_lt_Some in Lk. lia.
  - intros s [[R B K] L]. unfold due, measure. destruct (main_ s) as [| |k|k|] eqn:M; cbn; split; try done; try lia.
    + by destruct (receivers s !! k).
    + specialize (B k eq_refl). lia.
Qed.

(** ** The relay runs, stops, and may not stop *)

Lemma boot_started args probe_ok bound s0 :
  boot args probe_ok bound = inr s0 -> exists r, s0 = started r bound /\ inv s0.
Proof.
  unfold boot. destruct args as [|port [|mx rest]]; [done..|]. cbv zeta. destruct (init _ _ _ _ _) as [z r] eqn:E.
  destruct (z =? 0); [|done]. intros [= <-]. exists r. split; [done|]. split; try done.
  injection E as <- <- || (revert E; unfold init; destruct probe_ok; intros [= <- <-]).
  all: split; [exact (proj1 (u16_range (atoi mx)))|intros a b p; unfold path; cbn; by rewrite lookup_empty].
Qed.

(** The relay runs.  With fewer than two arguments, or if its port cannot be bound, the
    relay ends with 1.  Otherwise it runs, and through every schedule - turns of any number
    of receive threads, of the timer and of the main thread, any arrivals, errors, clocks
    and requests to stop - no call fails, its tables stay within its limit and consistent,
    and its main thread passes only threads that have returned. *)
Theorem relay_runs (args : list bytes) (probe_ok : bool) (bound : nat) (acts : list action) :
  match boot args probe_ok bound with
  | inl code => code = 1 /\ ((length args < 2)%nat \/ probe_ok = false)
  | inr s0 =>
      exists s o, run acts s0 = Done (tt, s, o) /\ wf (relay s) /\
        (forall i, main_ s = Joining i -> timer s = Ended /\ all_exited (take i (receivers s))) /\
        (main_ s = Returned -> running_ (relay s) = false /\ timer s = Ended /\ all_exited (receivers s))
  end.
Proof.
  destruct (boot args probe_ok bound) as [code|s0] eqn:E.
  - revert E. unfold boot, init. destruct args as [|port [|mx rest]]; try (intros [= <-]; split; [done|left; cbn; lia]).
    destruct probe_ok; [done|]. intros [= <-]. by split; [|right].
  - destruct (boot_started _ _ _ _ E) as (r & _ & V). destruct (relay_run_goes_on acts s0 V) as (s & o & R & [W T C J]).
    exists s, o. split; [done|]. split; [done|]. split.
    + intros i M. by rewrite M in *.
    + intros M. rewrite M in *. split; [by apply T|done].
Qed.

(** C25: asked to stop, the relay stops, if its wake-ups arrive.  Take any state it can reach
    in which its main thread is in its loop and the request has come.  If the system hands
    each empty datagram the relay sends itself to the very socket whose thread is to be
    joined next, then once every thread has had as many turns as [measure] says, in any
    order and whatever arrives, [run] has returned and every thread before it. *)
Theorem relay_stops (args : list bytes) (bound : nat) (acts : list action) (rounds : list (list action)) (s0 s : t)
    (o : list datagram) (Hboot : boot args true bound = inr s0) (Hrun : run acts s0 = Done (tt, s, o))
    (Hstop : running_ (relay s) = false) (Hmain : main_ s = Sleeping) (Hwake : Forall (Forall delivered) rounds)
    (Hfair : Forall (covers role (roles (length (receivers s)))) rounds) (Hlong : (measure s <= length rounds)%nat) :
  exists s' o', run (concat rounds) s = Done (tt, s', o') /\ main_ s' = Returned /\ timer s' = Ended /\
    all_exited (receivers s').
Proof.
  destruct (boot_started _ _ _ _ Hboot) as (r & _ & V0). destruct (relay_run_goes_on acts s0 V0) as (s1 & o1 & E1 & V).
  rewrite Hrun in E1. injection E1 as <- <-. destruct (relay_run_goes_on (concat rounds) s V) as (s' & o' & E & [W T C J]).
  destruct (fair_ends step role (roles (length (receivers s)))
    (fun x => stopping x /\ length (receivers x) = length (receivers s)) delivered measure due rounds s s' o') as [_ D]; try done.
  { split; [|done]. split; rewrite ?Hmain; done. }
  assert (main_ s' = Returned) as M.
  { revert D. unfold due. destruct (main_ s') as [| |k|k|]; try done. by destruct (receivers s' !! k). }
  exists s', o'. rewrite M in *. done.
Qed.

(** Nothing waits at socket [i], whose thread is in [recvfrom]. *)
Definition idle (i : nat) (s : t) : Prop := receivers s !! i = Some (mkReceiver false []).

(** Nothing arrives at socket [i], no wake-up either. *)
Definition spares (i : nat) (a : action) : Prop :=
  match a with Arrive j _ => j <> i | Main pick => forall j, pick j <> Some i | _ => True end.

Lemma idle_step i a s s' o : idle i s -> spares i a -> step a s = Done (tt, s', o) -> idle i s'.
Proof.
  unfold idle. intros L N. destruct a as [j now|now|pick|j x|]; cbn [step spares] in *.
  - rewrite gets_eq. unfold id. destruct (receivers s !! j) as [r|] eqn:Lj; [|by intros [= <- _]].
    destruct (receiver_turn_spec now r s) as (r' & s1 & o1 & E & Es & _ & _ & _ & _ & Q).
    intros (r2 & s2 & o2 & o3 & E2 & [= <- _] & _)%bind_done. rewrite E in E2. injection E2 as <- <- _. rewrite Es. cbn.
    destruct (decide (j = i)) as [->|Ne]; [|by rewrite list_lookup_insert_ne].
    rewrite list_lookup_insert_eq by (by eapply lookup_lt_Some). rewrite L in Lj. injection Lj as <-. by rewrite Q.
  - unfold timer_turn. rewrite gets_eq. by destruct (timer (id s)); intros [= <- _].
  - unfold main_turn. rewrite gets_eq. unfold id. destruct (main_ s) as [| |k|k|].
    + by destruct (running_ (relay s)); intros [= <- _].
    + by destruct (timer s); intros [= <- _].
    + destruct (k <? length (receivers s))%nat; intros [= <- _]; [|done]. destruct (pick k) as [j|] eqn:P; [|done].
      cbn. rewrite list_lookup_alter_ne; [done|]. intros ->. by apply (N k).
    + destruct (receivers s !! k) as [r|]; [destruct (r_exited r)|]; by intros [= <- _].
    + by intros [= <- _].
  - intros [= <- _]. cbn. by rewrite list_lookup_alter_ne.
  - by intros [= <- _].
Qed.

(** The relay need not stop.  A receive thread at whose socket nothing waits, nothing
    arrives and no wake-up is delivered stays in [recvfrom], and then [run] does not return,
    whatever is asked and however often: with more than one socket on its port, it is up to
    the system whether the relay's datagrams to itself reach all of them. *)
Theorem relay_hangs (args : list bytes) (bound : nat) (acts more : list action) (s0 s : t) (o : list datagram) (i : nat)
    (Hboot : boot args true bound = inr s0) (Hrun : run acts s0 = Done (tt, s, o)) (Hidle : idle i s)
    (Hspare : Forall (spares i) more) :
  exists s' o', run more s = Done (tt, s', o') /\ idle i s' /\ main_ s' <> Returned.
Proof.
  destruct (boot_started _ _ _ _ Hboot) as (r & _ & V0). destruct (relay_run_goes_on acts s0 V0) as (s1 & o1 & E1 & V).
  rewrite Hrun in E1. injection E1 as <- <-. clear Hrun. revert s V Hidle Hspare.
  induction more as [|a more IH]; intros s V K F.
  - exists s, []. split; [done|]. split; [done|]. intros M. destruct V as [_ _ _ J]. rewrite M in J.
    by pose proof (Forall_lookup_1 _ _ _ _ J K).
  - apply Forall_cons in F as [Fa F]. destruct (relay_step_goes_on a s V) as (s1 & o1 & E1 & V1).
    destruct (IH s1 V1 (idle_step i a s s1 o1 K Fa E1) F) as (s2 & o2 & E2 & P).
    exists s2, (o1 ++ o2). split; [|done]. unfold run. cbn [mapM_]. by eapply bind_eq.
Qed.

(** A relay with two sockets, asked to stop; [one_for_all] is a system that delivers every
    wake-up to the second of them. *)
Definition demo_args : list bytes := [bs "7000"; bs "10"; bs "2"].
Definition demo : t := started (init P2PProxy.initial 7000 10 2 true).2 2.
Definition one_for_all (i : nat) : option nat := Some 1%nat.

Definition turn_each (pick : nat -> option nat) (n : nat) : list action :=
  map (fun i => Turn i 100) (seq 0 n) ++ [Tick 100; Main pick].

Lemma relay_covers_turn_each pick n : covers role (roles n) (turn_each pick n).
Proof.
  intros r. unfold roles, turn_each. rewrite !elem_of_cons. intros [->|[->|(i & -> & Hi)%list_elem_of_fmap]].
  - eexists. split; [apply elem_of_app; right; right; by left|done].
  - eexists. split; [apply elem_of_app; right; by left|done].
  - exists (Turn i 100). split; [|done]. apply elem_of_app. left. apply list_elem_of_fmap. by exists i.
Qed.

Lemma relay_stops_witness :
  exists s' o', run (concat (replicate 10 (turn_each Some 2))) (set_relay (request_stop (relay demo)) demo) = Done (tt, s', o') /\
    main_ s' = Returned.
Proof.
  destruct (relay_stops demo_args 2 [Stop] (replicate 10 (turn_each Some 2)) demo (set_relay (request_stop (relay demo)) demo) [])
    as (s' & o' & E & M & _).
  - vm_compute. reflexivity.
  - reflexivity.
  - reflexivity.
  - reflexivity.
  - apply Forall_replicate. cbn. by repeat constructor.
  - apply Forall_replicate. exact (relay_covers_turn_each Some 2).
  - vm_compute. lia.
  - exists s', o'. split; [exact E|exact M].
Defined.

Lemma relay_hangs_witness :
  exists s' o', run (concat (replicate 50 (turn_each one_for_all 2))) (set_relay (request_stop (relay demo)) demo) =
      Done (tt, s', o') /\ main_ s' <> Returned.
Proof.
  destruct (relay_hangs demo_args 2 [Stop] (concat (replicate 50 (turn_each one_for_all 2))) demo
    (set_relay (request_stop (relay demo)) demo) [] 0%nat) as (s' & o' & E & _ & M).
  - vm_compute. reflexivity.
  - reflexivity.
  - reflexivity.
  - apply Forall_concat, Forall_replicate. cbn. by repeat constructor.
  - exists s', o'. split; [exact E|exact M].
Defined.

End RelayRun.
