(* ===== verification/ServerRelay.v ===== *)
(** * The rendezvous server and the relay together

    The availability query of the server, the relay's answer, and what the server
    then believes of the relay. *)

From S2P Require Import Prelude.
From S2P Require Import Bytes.
From S2P Require Import Wire.
From S2P Require Import ProtoDef.
From S2P Require Import NetUtil.
From S2P Require Import Packet.
From S2P Require Import Handler.
From S2P Require Import CfgFile.
From S2P Require Import NatServer.
From S2P Require Import RecvProcess.
From S2P Require Import ServerSafety.
From S2P Require Import ServerLogin.
From S2P Require Import P2PProxy.

#[local] Open Scope Z_scope.

Module ServerRelay.
Import NatServer RecvProcess ServerSafety ServerLogin.

(** What the server should believe at [now e] of the relay [q] that listens on [ip] and
    [port]: its registrations, its limit, and that it is a candidate exactly when it has
    room. *)
Definition mirrors (e : env) (q : P2PProxy.t) (ip : bytes) (port : Z) (h : ProxyHealth) : Prop :=
  ph_ip h = ip /\ ph_port h = port /\ ph_last_seen h = now e /\ ph_down h = 0 /\
  ph_used h = Z.of_nat (size (P2PProxy.uuid2addr_ q)) /\ ph_max_proxy h = P2PProxy.max_proxy_ q /\
  healthy e h = (Z.of_nat (size (P2PProxy.uuid2addr_ q)) <? P2PProxy.max_proxy_ q).

Lemma length_avail_req wan port :
  length (cenc ProxyAvailReq_codec (mkProxyAvailReq (strncpy_z 16 15 wan) (htons port))) = 18%nat.
Proof.
  cbn [cenc ProxyAvailReq_codec c_iso c_pair c_bytes c_u16 c_uint fst snd paq_nat_ip paq_nat_port].
  by rewrite length_app, length_strncpy_z, length_le_enc.
Qed.

Lemma query_eq ip s :
  exists d, send_proxy_avail_query ip s = Done (tt, s, [Send d]) /\
    dg_to d = mkAddr (default 0 (inet_pton ip)) (htons (proxy_port_ s)) /\
    exists p, dg_data d = frame (msg_id MSG_SP_ASK_EXTINFO_REQ) p /\ length p = 18%nat.
Proof.
  unfold send_proxy_avail_query. rewrite !gets_eq. eexists. split.
  - apply send_msg_eq. rewrite length_avail_req. change (MAX_PKT - 8)%nat with 2040%nat. lia.
  - split; [done|]. eexists. split; [done|apply length_avail_req].
Qed.

Lemma avail_rsp_cok q : cok ProxyAvailRsp_codec (P2PProxy.avail_rsp q).
Proof. split; [by unfold P2PProxy.avail_rsp; destruct (_ <? _)|]. split; apply htons_range. Qed.

Lemma refresh_health_in h l : h ∈ refresh_health h l.
Proof. induction l as [|p l IH]; cbn [refresh_health]; [left|]. destruct (_ && _); [left|by right]. Qed.

(** The server's picture of a relay is the relay's own: the query the server sends
    to a relay, handled by the relay, gives one answer, and the server, on receiving it
    from the relay's address, records for that address the relay's number of
    registrations and limit, as available exactly when there is room, seen now and not
    down; with room it is then a candidate, without it is not. *)
Theorem availability_exchange (e : env) (now_q : Z) (ip : bytes) (s : t) (q : P2PProxy.t) (server relay : sockaddr_in)
    (Hq : P2PProxy.fds_ q <> 0%nat) (Hsize : Z.of_nat (size (P2PProxy.uuid2addr_ q)) < 65536)
    (Hmax : u16_ok (P2PProxy.max_proxy_ q)) :
  exists d d' s' h,
    send_proxy_avail_query ip s = Done (tt, s, [Send d]) /\
    P2PProxy.handle now_q q (dg_data d) server = (q, [d']) /\ dg_to d' = server /\
    handle_packet e (dg_data d') relay s = Done (tt, s', []) /\
    h ∈ proxy_health_ s' /\ mirrors e q (inet_ntop (s_addr relay)) (proxy_port_ s) h.
Proof.
  destruct (query_eq ip s) as (d & E & _ & p & Ed & Lp).
  pose proof (avail_rsp_cok q) as K.
  set (d' := mkDg MainSock server (frame (msg_id MSG_SP_ASK_EXTINFO_RSP)
    (cenc ProxyAvailRsp_codec (P2PProxy.avail_rsp q)))).
  set (h := mkHealth (inet_ntop (s_addr relay)) (proxy_port_ s)
    (if Z.of_nat (size (P2PProxy.uuid2addr_ q)) <? P2PProxy.max_proxy_ q then 1 else 0)
    (Z.of_nat (size (P2PProxy.uuid2addr_ q))) (P2PProxy.max_proxy_ q) (now e) 0).
  exists d, d', (set_proxy_health_ (refresh_health h (proxy_health_ s)) s), h.
  split; [done|]. split.
  { rewrite Ed, P2PProxy.relay_frame by (unfold len; rewrite Lp; reflexivity). f_equal.
    unfold P2PProxy.send. destruct (Nat.eqb_spec (P2PProxy.fds_ q) 0); [done|]. by rewrite (codec_size _ K). }
  split; [done|]. split.
  { cbn [dg_data d']. rewrite handle_frame by (rewrite (cenc_len _ _ K); reflexivity). cbn [dispatch].
    unfold on_proxy_avail. rewrite (codec_size _ K), Nat.ltb_irrefl, (cdec_alone _ _ K).
    unfold collect_proxy_avail, modify. cbn [P2PProxy.avail_rsp par_available par_used par_max_proxy].
    rewrite u16_small by (unfold u16_ok; lia). rewrite !htons_involutive by (done || unfold u16_ok; lia). done. }
  split; [apply refresh_health_in|]. unfold mirrors. do 6 (split; [done|]).
  unfold healthy. cbn [ph_last_seen ph_available ph_down h]. rewrite Z.sub_diag. by destruct (_ <? _).
Qed.

Lemma availability_exchange_witness :
  exists d d' s' h,
    send_proxy_avail_query (bs "10.0.0.1") initial = Done (tt, initial, [Send d]) /\
    P2PProxy.handle 5 (P2PProxy.running 10) (dg_data d) (mkAddr 1 1) = (P2PProxy.running 10, [d']) /\
    handle_packet quiet_env (dg_data d') (mkAddr 2 2) initial = Done (tt, s', []) /\
    h ∈ proxy_health_ s' /\ healthy quiet_env h = true.
Proof.
  destruct (availability_exchange quiet_env 5 (bs "10.0.0.1") initial (P2PProxy.running 10) (mkAddr 1 1) (mkAddr 2 2))
    as (d & d' & s' & h & E1 & E2 & _ & E3 & I & _ & _ & _ & _ & _ & _ & H).
  - discriminate.
  - by vm_compute.
  - by vm_compute.
  - exists d, d', s', h. split; [exact E1|]. split; [exact E2|]. split; [exact E3|]. split; [exact I|].
    rewrite H. exact eq_refl.
Defined.

End ServerRelay.
