(* ===== verification/TunnelCodec.v ===== *)
(** * The client's frame codec

    Models [client/sdk/proto/Codec.h]: the 8-octet message header and the 14-octet
    tunnel frame header, written and read octet by octet.  A buffer is a list of
    octets; a write past its end is the fault [OutOfBounds]. *)

From S2P Require Import Prelude.
From S2P Require Import Bytes.
From S2P Require Import Wire.
From S2P Require Import ProtoDef.
From S2P Require Import NetUtil.
From S2P Require Import Packet.

#[local] Open Scope Z_scope.

Definition p2p_bswap16 (v : Z) : Z := u16 (Z.lor (Z.shiftr v 8) (Z.shiftl v 8)).

Definition p2p_bswap32 (v : Z) : Z :=
  Z.lor (u32 (Z.shiftl (Z.land v 255) 24))
    (Z.lor (u32 (Z.shiftl (Z.land v 65280) 8))
       (Z.lor (Z.shiftr (Z.land v 16711680) 8) (Z.shiftr (Z.land v 4278190080) 24))).

(** [buf[i]] and the 16 bits [(buf[i] << 8) | buf[i+1]]. *)
Definition octet (buf : bytes) (i : nat) : Z := nth i buf 0.
Definition be16 (buf : bytes) (i : nat) : Z := u16 (Z.lor (Z.shiftl (octet buf i) 8) (octet buf (i + 1))).

(** The two octets of a 16-bit value, high first. *)
Definition hi_lo (x : Z) : bytes := [u8 (Z.shiftr x 8); u8 (Z.land x 255)].

(** ** Message header *)

Record WireHead := mkWireHead { wh_magic : Z; wh_version : Z; wh_msg_id : Z; wh_length : Z }.

(** The eight octets written. *)
Definition codec_write_head (msg_id payload_len : Z) : bytes :=
  [u8 (Z.shiftr NAT_MAGIC 8); u8 (Z.land NAT_MAGIC 255); PROTO_VER; msg_id;
   u8 (Z.shiftr payload_len 24); u8 (Z.shiftr payload_len 16); u8 (Z.shiftr payload_len 8);
   u8 (Z.land payload_len 255)].

Definition codec_read_head (buf : bytes) : option WireHead :=
  if (length buf <? 8)%nat then None
  else
    let h := mkWireHead (be16 buf 0) (octet buf 2) (octet buf 3)
               (Z.lor (Z.shiftl (octet buf 4) 24)
                  (Z.lor (Z.shiftl (octet buf 5) 16) (Z.lor (Z.shiftl (octet buf 6) 8) (octet buf 7)))) in
    if negb (wh_magic h =? NAT_MAGIC) then None
    else if negb (wh_version h =? PROTO_VER) then None
    else Some h.

(** ** Tunnel frame *)

Record WireTunnel := mkWireTunnel {
  wt_type : Z;
  wt_session_id : Z;
  wt_channel_id : Z;
  wt_flags : Z;
  wt_seq : Z;
  wt_ack : Z;
  wt_payload : bytes
}.

Definition tunnel_head (type session_id channel_id flags seq ack len : Z) : bytes :=
  [u8 (Z.shiftr TUNNEL_MAGIC 8); u8 (Z.land TUNNEL_MAGIC 255); TUNNEL_VER; type] ++ hi_lo session_id ++
  [channel_id; flags] ++ hi_lo seq ++ hi_lo ack ++ hi_lo len.

(** What is returned, and the buffer after; [payload] is [None] for a null pointer. *)
Definition codec_write_tunnel (buf : bytes) (cap type session_id channel_id flags seq ack : Z)
    (payload : option bytes) (n : Z) : outcome (Z * bytes) :=
  if cap <? 8 + n then Done (-1, buf)
  else if (length buf <? 14)%nat then Fault OutOfBounds
  else
    let head := tunnel_head type session_id channel_id flags seq ack n in
    match payload with
    | Some p =>
        if 0 <? n then
          if len p <? n then Fault OutOfBounds
          else if len buf <? 14 + n then Fault OutOfBounds
          else Done (14 + n, head ++ take (Z.to_nat n) p ++ drop (Z.to_nat (14 + n)) buf)
        else Done (14 + n, head ++ drop 14 buf)
    | None => Done (14 + n, head ++ drop 14 buf)
    end.

Definition codec_read_tunnel (buf : bytes) : option WireTunnel :=
  if (length buf <? 14)%nat then None
  else if negb (octet buf 0 =? u8 (Z.shiftr TUNNEL_MAGIC 8)) || negb (octet buf 1 =? u8 (Z.land TUNNEL_MAGIC 255))
  then None
  else if negb (octet buf 2 =? TUNNEL_VER) then None
  else
    let n := be16 buf 12 in
    if len buf <? 14 + n then None
    else Some (mkWireTunnel (octet buf 3) (be16 buf 4) (octet buf 6) (octet buf 7) (be16 buf 8) (be16 buf 10)
                 (slice 14 (Z.to_nat n) buf)).

(** ** Octets *)

Lemma lor_octets a b : byte_ok b -> Z.lor (Z.shiftl a 8) b = 256 * a + b.
Proof. intros H. rewrite lor_shiftl_add by (unfold byte_ok in H; lia). lia. Qed.

Lemma be16_val buf i :
  byte_ok (octet buf i) -> byte_ok (octet buf (i + 1)) -> be16 buf i = 256 * octet buf i + octet buf (i + 1).
Proof.
  intros A B. unfold be16. rewrite lor_octets by done. apply u16_small. unfold byte_ok, u16_ok in *. lia.
Qed.

Lemma hi_lo_be x : u16_ok x -> hi_lo x = be_enc 2 x.
Proof.
  intros H. unfold hi_lo, be_enc. cbn [le_enc rev app]. unfold u8.
  by rewrite <- !Z.land_assoc, Z.land_diag.
Qed.

Lemma octet_ok buf i : bytes_ok buf -> byte_ok (octet buf i).
Proof.
  intros H. unfold octet. destruct (Nat.lt_ge_cases i (length buf)) as [L|L].
  - rewrite Forall_forall in H. apply H, list_elem_of_In, nth_In, L.
  - rewrite nth_overflow by done. unfold byte_ok. lia.
Qed.

Lemma pair16 x : u16_ok x -> u16 (Z.lor (Z.shiftl (u8 (Z.shiftr x 8)) 8) (u8 (Z.land x 255))) = x.
Proof.
  intros H. rewrite lor_octets by apply u8_range. rewrite !u8_mod, land255, shiftr8. unfold u16_ok in H.
  rewrite u16_small by (unfold u16_ok; zdiv). zdiv.
Qed.

(** ** Agreement with the structures of the protocol *)

Lemma bswap16_htons v : p2p_bswap16 v = htons v.
Proof. done. Qed.

Lemma write_head_bytes id n : u32_ok n -> codec_write_head id n = [88; 78; PROTO_VER; id] ++ be_enc 4 n.
Proof.
  intros H. unfold codec_write_head, be_enc. cbn [le_enc rev app].
  change (u8 (Z.shiftr NAT_MAGIC 8)) with 88. change (u8 (Z.land NAT_MAGIC 255)) with 78.
  unfold u8. rewrite <- !Z.land_assoc, Z.land_diag, !Z.shiftr_shiftr by lia. done.
Qed.

Lemma head_is_frame id p : byte_ok id -> len p < 4294967296 -> codec_write_head id (len p) ++ p = frame id p.
Proof.
  intros Hid Hp. unfold frame, mk_head, len in *. rewrite write_head_bytes by (unfold u32_ok; lia). f_equal.
  rewrite u32_small by (unfold u32_ok; lia).
  cbn [cenc MsgHead_codec c_iso c_pair c_u16 c_u8 c_u32 c_uint fst snd mh_magic mh_version mh_msg_id mh_length].
  rewrite le_enc_htonl, le_enc_htons by (unfold u16_ok, NAT_MAGIC; lia).
  change (be_enc 2 NAT_MAGIC) with [88; 78]. cbn [le_enc app]. unfold byte_ok in Hid.
  change (Z.land PROTO_VER 255) with PROTO_VER. by rewrite (land255 id), (Z.mod_small id) by lia.
Qed.

Lemma ntohs_pair a b : byte_ok a -> byte_ok b -> ntohs (le_dec [a; b]) = 256 * a + b.
Proof. intros A B. unfold byte_ok in *. cbn [le_dec]. rewrite htons_swap by (unfold u16_ok; lia). zdiv. Qed.

Lemma ntohl_quad l : bytes_ok l -> length l = 4%nat -> ntohl (le_dec l) = be_dec l.
Proof. intros H L. unfold htonl, be_dec. rewrite <- L. by rewrite le_enc_dec. Qed.

Lemma lor_quad a b c d : byte_ok a -> byte_ok b -> byte_ok c -> byte_ok d ->
  Z.lor (Z.shiftl a 24) (Z.lor (Z.shiftl b 16) (Z.lor (Z.shiftl c 8) d)) = be_dec [a; b; c; d].
Proof.
  unfold byte_ok. intros A B C D. rewrite (lor_octets c) by (unfold byte_ok; lia).
  rewrite (lor_shiftl_add b) by lia. rewrite (lor_shiftl_add a) by lia. unfold be_dec. cbn [rev app le_dec]. lia.
Qed.

(** The decoded header as the client sees it. *)
Definition head_view (h : MsgHead) : WireHead :=
  mkWireHead (ntohs (mh_magic h)) (mh_version h) (mh_msg_id h) (ntohl (mh_length h)).

Lemma read_head_view buf :
  bytes_ok buf ->
  codec_read_head buf =
  if (length buf <? 8)%nat then None
  else
    let h := head_view (cdec MsgHead_codec buf) in
    if negb (wh_magic h =? NAT_MAGIC) then None else if negb (wh_version h =? PROTO_VER) then None else Some h.
Proof.
  intros H. unfold codec_read_head. destruct (Nat.ltb_spec (length buf) 8) as [L|L]; [done|].
  do 8 (destruct buf as [|? buf]; [cbn [length] in L; lia|]). clear L. repeat rewrite Forall_cons in H.
  destruct H as (? & ? & ? & ? & ? & ? & ? & ? & _).
  assert (forall a b, byte_ok a -> byte_ok b -> u16 (Z.lor (Z.shiftl a 8) b) = ntohs (le_dec [a; b])) as P.
  { intros a b A B. rewrite ntohs_pair, lor_octets by done. apply u16_small. unfold u16_ok, byte_ok in *. lia. }
  unfold be16, octet, head_view.
  cbn [nth Nat.add cdec MsgHead_codec c_iso c_pair c_u16 c_u8 c_u32 c_uint csize take drop
       mh_magic mh_version mh_msg_id mh_length].
  rewrite P, lor_quad by done. rewrite ntohl_quad by (done || (rewrite take_0; repeat (apply Forall_cons; split; [done|]); constructor)). rewrite take_0.
  cbn [le_dec]. by rewrite !Z.mul_0_r, !Z.add_0_r.
Qed.

(** The client and the server speak the same frames.  A header the client writes
    before a payload is the frame of the server's structures, and what the client reads
    from any received octets is what the server's structure decodes: the same
    acceptance, message number and length. *)
Theorem codecs_agree (id : Z) (p data : bytes) (Hid : byte_ok id) (Hp : len p < 4294967296) (Hd : bytes_ok data) :
  codec_write_head id (len p) ++ p = frame id p /\
  parse_frame data =
    match codec_read_head data with
    | Some h => if len data - 8 <? wh_length h then None
                else Some (wh_msg_id h, slice 8 (Z.to_nat (wh_length h)) data)
    | None => None
    end.
Proof.
  split; [by apply head_is_frame|]. rewrite read_head_view by done. unfold parse_frame.
  change (csize MsgHead_codec) with 8%nat. destruct (_ <? _)%nat; [done|]. cbv zeta.
  unfold head_view. cbn [wh_magic wh_version wh_length wh_msg_id].
  destruct (ntohs _ =? NAT_MAGIC); [|done]. by destruct (mh_version _ =? PROTO_VER).
Qed.

Lemma codecs_agree_witness : codec_write_head 5 2 ++ [1; 2] = frame 5 [1; 2].
Proof.
  refine (proj1 (codecs_agree 5 [1; 2] [] _ _ _)); [unfold byte_ok; lia|by vm_compute|constructor].
Defined.

(** ** Tunnel frames *)

(** The fields have their widths. *)
Definition fields_ok (t : WireTunnel) : Prop :=
  byte_ok (wt_type t) /\ u16_ok (wt_session_id t) /\ byte_ok (wt_channel_id t) /\ byte_ok (wt_flags t) /\
  u16_ok (wt_seq t) /\ u16_ok (wt_ack t) /\ len (wt_payload t) < 65536.

(** The octets of a frame. *)
Definition tunnel_bytes (t : WireTunnel) : bytes :=
  tunnel_head (wt_type t) (wt_session_id t) (wt_channel_id t) (wt_flags t) (wt_seq t) (wt_ack t)
    (len (wt_payload t)) ++ wt_payload t.

Lemma read_tunnel_bytes t rest : fields_ok t -> codec_read_tunnel (tunnel_bytes t ++ rest) = Some t.
Proof.
  intros (_ & Hs & _ & _ & Hq & Ha & Hl). destruct t as [ty sid ch fl seq ack p].
  cbn [wt_session_id wt_seq wt_ack wt_payload] in *.
  assert (u16_ok (len p)) as Hp by (unfold u16_ok, len in *; lia).
  unfold codec_read_tunnel, tunnel_bytes, tunnel_head, hi_lo.
  cbn [app wt_type wt_session_id wt_channel_id wt_flags wt_seq wt_ack wt_payload].
  rewrite (proj2 (Nat.ltb_ge _ _)) by (cbn [length]; lia).
  unfold be16, octet. cbn [nth Nat.add].
  rewrite !pair16 by done. rewrite !Z.eqb_refl. cbn [negb orb].
  rewrite (proj2 (Z.ltb_ge _ _)) by (unfold len; cbn [length]; rewrite length_app; lia).
  unfold slice, len. rewrite Nat2Z.id. cbn [drop]. rewrite drop_0, take_app_length. done.
Qed.

Lemma write_tunnel_eq t buf cap :
  cap = len buf -> len buf = 14 + len (wt_payload t) ->
  codec_write_tunnel buf cap (wt_type t) (wt_session_id t) (wt_channel_id t) (wt_flags t) (wt_seq t) (wt_ack t)
    (Some (wt_payload t)) (len (wt_payload t)) = Done (14 + len (wt_payload t), tunnel_bytes t).
Proof.
  intros -> L. unfold codec_write_tunnel, tunnel_bytes, len in *.
  rewrite (proj2 (Z.ltb_ge _ _)) by lia. rewrite (proj2 (Nat.ltb_ge _ _)) by lia.
  destruct (Z.ltb_spec 0 (Z.of_nat (length (wt_payload t)))) as [P|P].
  - rewrite Z.ltb_irrefl, (proj2 (Z.ltb_ge _ _)) by lia. do 2 f_equal.
    rewrite Nat2Z.id, firstn_all, drop_ge, app_nil_r by lia. done.
  - rewrite (drop_ge buf) by lia. destruct (wt_payload t); [done|cbn in P; lia].
Qed.

(** A frame without a payload. *)
Lemma write_empty_tunnel buf ty sid ch fl seq ack :
  length buf = 14%nat ->
  codec_write_tunnel buf (len buf) ty sid ch fl seq ack None 0 =
  Done (14, tunnel_bytes (mkWireTunnel ty sid ch fl seq ack [])).
Proof.
  intros L. unfold codec_write_tunnel, tunnel_bytes, len. rewrite L. cbn [Z.ltb Nat.ltb].
  rewrite drop_ge by lia. done.
Qed.

Lemma length_tunnel_bytes t : length (tunnel_bytes t) = (14 + length (wt_payload t))%nat.
Proof. unfold tunnel_bytes. by rewrite length_app. Qed.

(** A tunnel frame survives the wire.  A frame written into a buffer of its size
    is the header structure in network order and the payload, and reading it, whatever
    follows it, gives back every field and the payload. *)
Theorem tunnel_roundtrip (t : WireTunnel) (buf rest : bytes)
    (Ht : fields_ok t) (Hbuf : len buf = 14 + len (wt_payload t)) :
  exists f,
    codec_write_tunnel buf (len buf) (wt_type t) (wt_session_id t) (wt_channel_id t) (wt_flags t) (wt_seq t)
      (wt_ack t) (Some (wt_payload t)) (len (wt_payload t)) = Done (len f, f) /\
    f = cenc TunnelFrame_codec
          (mkTunnelFrame (htons TUNNEL_MAGIC) TUNNEL_VER (wt_type t) (htons (wt_session_id t)) (wt_channel_id t)
             (wt_flags t) (htons (wt_seq t)) (htons (wt_ack t)) (htons (len (wt_payload t)))) ++ wt_payload t /\
    codec_read_tunnel (f ++ rest) = Some t.
Proof.
  exists (tunnel_bytes t). split; [|split].
  - rewrite write_tunnel_eq by done. do 2 f_equal. unfold len. rewrite length_tunnel_bytes. lia.
  - destruct Ht as (Hty & Hs & Hc & Hf & Hq & Ha & Hl).
    assert (u16_ok (len (wt_payload t))) as Hp by (unfold u16_ok, len in *; lia).
    unfold tunnel_bytes, tunnel_head. f_equal.
    cbn [cenc TunnelFrame_codec c_iso c_pair c_u16 c_u8 c_uint fst snd tf_magic tf_version tf_type tf_session_id
         tf_channel_id tf_flags tf_seq tf_ack tf_len].
    rewrite !le_enc_htons, !hi_lo_be by (done || (unfold u16_ok, TUNNEL_MAGIC; lia)).
    change (u8 (Z.shiftr TUNNEL_MAGIC 8)) with 80. change (u8 (Z.land TUNNEL_MAGIC 255)) with 84.
    change (be_enc 2 TUNNEL_MAGIC) with [80; 84]. cbn [le_enc app]. change (Z.land TUNNEL_VER 255) with TUNNEL_VER.
    unfold byte_ok in *. rewrite !land255, !Z.mod_small by lia. done.
  - by apply read_tunnel_bytes.
Qed.

Lemma tunnel_roundtrip_witness :
  exists f, codec_write_tunnel (replicate 17 0) 17 0 7 1 1 65535 0 (Some [1; 2; 3]) 3 = Done (17, f) /\
    codec_read_tunnel (f ++ [9; 9]) = Some (mkWireTunnel 0 7 1 1 65535 0 [1; 2; 3]).
Proof.
  destruct (tunnel_roundtrip (mkWireTunnel 0 7 1 1 65535 0 [1; 2; 3]) (replicate 17 0) [9; 9])
    as (f & E & F & R).
  - unfold fields_ok, byte_ok, u16_ok, len. cbn. lia.
  - reflexivity.
  - exists f. split; [|exact R]. rewrite F in E |- *. exact E.
Defined.

(** The capacity check of the tunnel writer is six octets short.  A buffer that
    holds at least eight octets more than the payload passes it, but the frame needs
    fourteen: the writer then runs past the end of the buffer. *)
Theorem tunnel_write_overruns (t : WireTunnel) (buf : bytes)
    (Hn : wt_payload t <> []) (Hcap : 8 + len (wt_payload t) <= len buf < 14 + len (wt_payload t)) :
  codec_write_tunnel buf (len buf) (wt_type t) (wt_session_id t) (wt_channel_id t) (wt_flags t) (wt_seq t)
    (wt_ack t) (Some (wt_payload t)) (len (wt_payload t)) = Fault OutOfBounds.
Proof.
  unfold codec_write_tunnel. rewrite (proj2 (Z.ltb_ge _ _)) by lia.
  destruct (Nat.ltb_spec (length buf) 14); [done|].
  destruct (Z.ltb_spec 0 (len (wt_payload t))) as [P|P].
  - rewrite Z.ltb_irrefl, (proj2 (Z.ltb_lt _ _)) by lia. done.
  - unfold len in P. destruct (wt_payload t); [done|cbn in P; lia].
Qed.

Lemma tunnel_write_overruns_witness :
  codec_write_tunnel (replicate 14 0) 14 0 1 0 0 0 0 (Some [1; 2; 3; 4; 5; 6]) 6 = Fault OutOfBounds.
Proof.
  apply (tunnel_write_overruns (mkWireTunnel 0 1 0 0 0 0 [1; 2; 3; 4; 5; 6]) (replicate 14 0)).
  - discriminate.
  - unfold len. cbn. lia.
Defined.
