(* ===== verification/Session.v ===== *)
(** * The reliable session of the client

    Models [Session] of [client/sdk/session/Session.h]: logical channels over
    datagrams, reliable ones with sequence numbers, cumulative acknowledgements,
    retransmission and a reorder buffer.  The callbacks are events of the
    operations; whether each is set is part of the state. *)

From S2P Require Import Prelude.
From S2P Require Import Bytes.
From S2P Require Import ProtoDef.
From S2P Require Import TunnelCodec.

#[local] Open Scope Z_scope.

Module Session.

Record Msg := mkMsg {
  m_seq : Z;
  m_channel_id : Z;
  m_flags : Z;
  m_data : bytes;
  m_sent_ms : Z
}.

(** [on_tx] with a frame, [on_data] with a channel and a payload. *)
Inductive event := Tx (frame : bytes) | Data (channel : Z) (payload : bytes).

(** The ordered map [ooo_] is the list of its entries, keys ascending. *)
Record t := mk {
  session_id_ : Z;
  active_ : bool;
  next_seq_ : Z;
  expected_seq_ : Z;
  rto_ms_ : Z;
  last_ping_ms_ : Z;
  pending_ : list Msg;
  ooo_ : list (Z * bytes);
  slot_channel : gmap Z Z;
  tx_bytes_ : Z;
  rx_bytes_ : Z;
  on_data : bool;
  on_tx : bool
}.

(** The session constructor. *)
Definition create (session_id : Z) (on_data on_tx : bool) : t :=
  mk session_id true 0 0 400 0 [] [] ∅ 0 0 on_data on_tx.

Definition deactivate (s : t) : t :=
  mk (session_id_ s) false (next_seq_ s) (expected_seq_ s) (rto_ms_ s) (last_ping_ms_ s) (pending_ s) (ooo_ s)
    (slot_channel s) (tx_bytes_ s) (rx_bytes_ s) (on_data s) (on_tx s).

Definition set_sender (next : Z) (ping : Z) (pending : list Msg) (s : t) : t :=
  mk (session_id_ s) (active_ s) next (expected_seq_ s) (rto_ms_ s) ping pending (ooo_ s)
    (slot_channel s) (tx_bytes_ s) (rx_bytes_ s) (on_data s) (on_tx s).

Definition set_receiver (expected : Z) (ooo : list (Z * bytes)) (ch : gmap Z Z) (tx rx : Z) (s : t) : t :=
  mk (session_id_ s) (active_ s) (next_seq_ s) expected (rto_ms_ s) (last_ping_ms_ s) (pending_ s) ooo
    ch tx rx (on_data s) (on_tx s).

Definition tx (s : t) (f : bytes) : list event := if on_tx s then [Tx f] else [].

(** A frame of 14 octets and the payload. *)
Definition new_frame (s : t) (type : TunnelType) (channel flags seq ack : Z) (payload : option bytes) (n : nat)
    : outcome bytes :=
  let frame := replicate (14 + n) 0 in
  '(_, f) ← codec_write_tunnel frame (len frame) (tunnel_type type) (session_id_ s) channel flags seq ack
              payload (u16 (Z.of_nat n));
  mret f.

(** ** Sending *)

Definition send (now : Z) (channel_id : Z) (data : bytes) (reliable : bool) (s : t)
    : outcome (Z * t * list event) :=
  if (MAX_TUNNEL_PAYLOAD <? length data)%nat then mret (-1, s, [])
  else if reliable && (64 <=? length (pending_ s))%nat then mret (-2, s, [])
  else
    let flags := if reliable then Z.lor 0 TF_RELIABLE else 0 in
    let seq := if reliable then next_seq_ s else 0 in
    let next := if reliable then u16 (next_seq_ s + 1) else next_seq_ s in
    frame ← new_frame s TT_DATA channel_id flags seq 0 (Some data) (length data);
    let pending := if reliable then pending_ s ++ [mkMsg seq channel_id flags frame now] else pending_ s in
    mret (0, set_sender next (last_ping_ms_ s) pending s, tx s frame).

(** The pending messages with the overdue ones stamped, and the frames sent again. *)
Definition overdue (now : Z) (s : t) (m : Msg) : bool := rto_ms_ s <=? u64 (now - m_sent_ms m).

Definition resend (now : Z) (s : t) : list Msg * list event :=
  (map (fun m => if overdue now s m then mkMsg (m_seq m) (m_channel_id m) (m_flags m) (m_data m) now else m)
     (pending_ s),
   concat (map (fun m => if overdue now s m then tx s (m_data m) else []) (pending_ s))).

Definition tick (now : Z) (s : t) : outcome (t * list event) :=
  let due := 15000 <=? u64 (now - last_ping_ms_ s) in
  ping ← (if due then frame ← new_frame s TT_PING 0 0 0 0 None 0; mret (tx s frame) else mret []);
  let '(pending, again) := resend now s in
  mret (set_sender (next_seq_ s) (if due then now else last_ping_ms_ s) pending s, ping ++ again).

(** ** Receiving *)

(** [len] octets of a payload are counted, and delivered if there are any. *)
Definition deliver (payload : bytes) (channel_id : Z) (s : t) : t * list event :=
  (set_receiver (expected_seq_ s) (ooo_ s) (slot_channel s) (tx_bytes_ s) (u64 (rx_bytes_ s + len payload)) s,
   if on_data s && (0 <? length payload)%nat then [Data channel_id payload] else []).

Definition advance (s : t) : t :=
  set_receiver (u16 (expected_seq_ s + 1)) (ooo_ s) (slot_channel s) (tx_bytes_ s) (rx_bytes_ s) s.

(** The loop that empties the front of the reorder buffer. *)
Fixpoint drain (ooo : list (Z * bytes)) (s : t) : t * list event :=
  match ooo with
  | (seq, d) :: rest =>
      if seq =? expected_seq_ s then
        let ch := default 0 (slot_channel s !! seq) in
        let '(s, ev) := deliver (take (Z.to_nat (u16 (len d))) d) ch s in
        let s := set_receiver (expected_seq_ s) rest (delete seq (slot_channel s)) (tx_bytes_ s) (rx_bytes_ s) s in
        let '(s, more) := drain rest (advance s) in
        (s, ev ++ more)
      else (s, [])
  | [] => (s, [])
  end.

(** [ooo_[k] = v]. *)
Fixpoint slot_insert (k : Z) (v : bytes) (l : list (Z * bytes)) : list (Z * bytes) :=
  match l with
  | [] => [(k, v)]
  | (k', v') :: r =>
      if k <? k' then (k, v) :: l else if k =? k' then (k, v) :: r else (k', v') :: slot_insert k v r
  end.

Definition send_ack (s : t) : outcome (list event) :=
  let ack := if 0 <? expected_seq_ s then u16 (expected_seq_ s - 1) else 0 in
  frame ← new_frame s TT_ACK 0 0 0 ack None 0;
  mret (tx s frame).

Definition handle_data (w : WireTunnel) (s : t) : outcome (t * list event) :=
  let s := set_receiver (expected_seq_ s) (ooo_ s) (slot_channel s) (u64 (tx_bytes_ s + len (wt_payload w)))
             (rx_bytes_ s) s in
  if negb (Z.land (wt_flags w) TF_RELIABLE =? 0) then
    let '(s, ev) :=
      if wt_seq w =? expected_seq_ s then
        let '(s, ev) := deliver (wt_payload w) (wt_channel_id w) s in
        let s := advance s in
        let '(s, more) := drain (ooo_ s) s in
        (s, ev ++ more)
      else if (expected_seq_ s <? wt_seq w) && (length (ooo_ s) <? 64)%nat then
        (set_receiver (expected_seq_ s) (slot_insert (wt_seq w) (wt_payload w) (ooo_ s))
           (<[wt_seq w := wt_channel_id w]> (slot_channel s)) (tx_bytes_ s) (rx_bytes_ s) s, [])
      else (s, []) in
    ack ← send_ack s;
    mret (s, ev ++ ack)
  else mret (deliver (wt_payload w) (wt_channel_id w) s).

Fixpoint pop_acked (ack : Z) (pending : list Msg) : list Msg :=
  match pending with
  | m :: rest => if s16 (m_seq m - ack) <=? 0 then pop_acked ack rest else pending
  | [] => []
  end.

Definition handle_ack (ack : Z) (s : t) : t :=
  set_sender (next_seq_ s) (last_ping_ms_ s) (pop_acked ack (pending_ s)) s.

Definition reply_pong (s : t) : outcome (list event) :=
  frame ← new_frame s TT_PONG 0 0 0 0 None 0;
  mret (tx s frame).

Definition on_frame (buf : bytes) (s : t) : outcome (t * list event) :=
  match codec_read_tunnel buf with
  | None => mret (s, [])
  | Some w =>
      match tunnel_type_of (wt_type w) with
      | Some TT_DATA => handle_data w s
      | Some TT_ACK => mret (handle_ack (wt_ack w) s, [])
      | Some TT_PING => ev ← reply_pong s; mret (s, ev)
      | Some TT_CLOSE => mret (deactivate s, [])
      | Some TT_PONG | None => mret (s, [])
      end
  end.

(** ** Frames *)

Lemma new_frame_payload s ty ch fl seq ack d :
  len d < 65536 ->
  new_frame s ty ch fl seq ack (Some d) (length d) =
  Done (tunnel_bytes (mkWireTunnel (tunnel_type ty) (session_id_ s) ch fl seq ack d)).
Proof.
  intros H. unfold new_frame, len in *. rewrite u16_small by (unfold u16_ok; lia).
  pose proof (write_tunnel_eq (mkWireTunnel (tunnel_type ty) (session_id_ s) ch fl seq ack d)
    (replicate (14 + length d) 0) _ eq_refl) as E.
  cbn [wt_type wt_session_id wt_channel_id wt_flags wt_seq wt_ack wt_payload] in E. unfold len in *.
  rewrite E; [done|]. rewrite length_replicate. lia.
Qed.

Lemma new_frame_empty s ty ack :
  new_frame s ty 0 0 0 ack None 0 =
  Done (tunnel_bytes (mkWireTunnel (tunnel_type ty) (session_id_ s) 0 0 0 ack [])).
Proof. unfold new_frame. by rewrite write_empty_tunnel. Qed.

Definition ack_of (s : t) : Z := if 0 <? expected_seq_ s then u16 (expected_seq_ s - 1) else 0.

Lemma send_ack_eq s :
  send_ack s = Done (tx s (tunnel_bytes (mkWireTunnel (tunnel_type TT_ACK) (session_id_ s) 0 0 0 (ack_of s) []))).
Proof. unfold send_ack. by rewrite new_frame_empty. Qed.

(** ** The reorder buffer *)

(** The messages of a sender by number, and what their delivery shows. *)
Definition deliveries (l : list (Z * bytes)) : list event :=
  concat (map (fun '(ch, d) => if (0 <? length d)%nat then [Data ch d] else []) l).

Definition short (m : Z * bytes) : Prop := len m.2 < 65536.

(** What is buffered from [lo] on is what was sent under that number. *)
Definition slots_ok (sent : list (Z * bytes)) (lo : Z) (s : t) : Prop :=
  StronglySorted (fun x y => x.1 < y.1) (ooo_ s) /\
  Forall (fun e => lo <= e.1 /\ exists ch, sent !! Z.to_nat e.1 = Some (ch, e.2) /\ slot_channel s !! e.1 = Some ch)
    (ooo_ s).

Definition receiving (sent : list (Z * bytes)) (k : nat) (s : t) : Prop :=
  expected_seq_ s = Z.of_nat k /\ (k <= length sent)%nat /\ slots_ok sent (Z.of_nat k + 1) s.

(** A receiver step leaves the sending half alone. *)
Definition same_sender (s s' : t) : Prop :=
  session_id_ s' = session_id_ s /\ next_seq_ s' = next_seq_ s /\ pending_ s' = pending_ s /\
  on_data s' = on_data s /\ on_tx s' = on_tx s /\ rto_ms_ s' = rto_ms_ s.

#[export] Instance same_sender_preorder : PreOrder same_sender.
Proof. split; [by intros s|]. unfold same_sender. intros x y z. intuition congruence. Qed.

Lemma slice_cons {A} (l : list A) k k' x :
  l !! k = Some x -> (S k <= k')%nat -> slice k (k' - k) l = x :: slice (S k) (k' - S k) l.
Proof.
  intros H L. unfold slice. rewrite (drop_S _ _ _ H).
  replace (k' - k)%nat with (S (k' - S k)) by lia. done.
Qed.

Lemma drain_ok sent l s k :
  len sent < 65536 -> Forall short sent -> ooo_ s = l -> on_data s = true ->
  expected_seq_ s = Z.of_nat k -> (k <= length sent)%nat -> slots_ok sent (Z.of_nat k) s ->
  exists k' s', drain l s = (s', deliveries (slice k (k' - k) sent)) /\ (k <= k')%nat /\
    receiving sent k' s' /\ same_sender s s'.
Proof.
  intros Hn Hsh. unfold len in Hn. revert s k. induction l as [|[q d] l IH]; intros s k El Hd Ee Hk [Hs Hf].
  { exists k, s. rewrite Nat.sub_diag. repeat split; try done; rewrite El; constructor. }
  rewrite El in Hs, Hf. apply StronglySorted_inv in Hs as [Hs Hlt]. apply Forall_cons in Hf as [(Hq & ch & Eq & Ec) Hf].
  cbn [fst snd] in *. cbn [drain]. destruct (Z.eqb_spec q (expected_seq_ s)) as [->|N].
  - rewrite Ee in *. rewrite Nat2Z.id in Eq. pose proof (lookup_lt_Some _ _ _ Eq) as Lk.
    pose proof (proj1 (Forall_lookup _ _) Hsh _ _ Eq) as Sd. unfold short, len in Sd. cbn [snd] in Sd.
    rewrite u16_small by (unfold u16_ok, len; lia). unfold len. rewrite Nat2Z.id, firstn_all, Ec. cbn [default].
    unfold deliver. cbn [fst snd].
    set (s1 := advance _).
    destruct (IH s1 (S k)) as (k' & s' & Ed & Hk' & R & SS); [done|done| |lia| |].
    { unfold s1. cbn. rewrite Ee, u16_small by (unfold u16_ok; lia). lia. }
    { split; [exact Hs|]. rewrite Forall_forall in *. intros e He. specialize (Hlt e He). cbn [fst] in Hlt.
      destruct (Hf e He) as (_ & c & E1 & E2). split; [lia|]. exists c. split; [done|].
      unfold s1. cbn. rewrite lookup_delete_ne by lia. done. }
    exists k', s'. rewrite Ed, Hd. split; [|split; [lia|split; [done|]]].
    + rewrite (slice_cons _ _ _ _ Eq) by lia. done.
    + etrans; [|exact SS]. done.
  - exists k, s. rewrite Nat.sub_diag. split; [done|]. split; [lia|]. split; [|done].
    split; [done|]. split; [done|]. split; rewrite El; [by constructor|].
    constructor; [split; [cbn [fst]; lia|by exists ch]|]. rewrite Forall_forall in *. intros e He.
    specialize (Hlt e He). cbn [fst] in Hlt. split; [lia|]. by apply Hf.
Qed.

Lemma slot_insert_sorted k v l :
  StronglySorted (fun x y => x.1 < y.1) l ->
  StronglySorted (fun x y => x.1 < y.1) (slot_insert k v l) /\
  forall e, e ∈ slot_insert k v l -> e = (k, v) \/ (e ∈ l /\ e.1 <> k).
Proof.
  induction l as [|[k' v'] l IH]; cbn [slot_insert]; intros H.
  { split; [by repeat constructor|]. intros e. rewrite list_elem_of_singleton. by left. }
  pose proof (StronglySorted_inv H) as [Hs Hf]. rewrite Forall_forall in Hf. cbn [fst] in Hf.
  destruct (Z.ltb_spec k k') as [L|L]; [|destruct (Z.eqb_spec k k') as [->|N]].
  - split.
    + constructor; [done|]. constructor; [done|]. rewrite Forall_forall. cbn [fst]. intros e He.
      specialize (Hf e He). lia.
    + intros e. rewrite elem_of_cons. intros [->|He]; [by left|]. right. split; [done|].
      apply elem_of_cons in He as [->|He]; [cbn [fst]; lia|]. specialize (Hf e He). lia.
  - split.
    + constructor; [done|]. rewrite Forall_forall. exact Hf.
    + intros e. rewrite elem_of_cons. intros [->|He]; [by left|]. right. split; [by right|].
      specialize (Hf e He). lia.
  - destruct (IH Hs) as [S E]. split.
    + constructor; [done|]. rewrite Forall_forall. intros e He. cbn [fst].
      destruct (E e He) as [->|[He' _]]; [cbn [fst]; lia|]. by apply Hf.
    + intros e. rewrite elem_of_cons. intros [->|He]; [right; split; [by left|cbn [fst]; lia]|].
      destruct (E e He) as [->|[He' ?]]; [by left|]. right. split; [by right|done].
Qed.

(** The acknowledgement a receiver in state [s] sends. *)
Definition ack_frame (s : t) : bytes :=
  tunnel_bytes (mkWireTunnel (tunnel_type TT_ACK) (session_id_ s) 0 0 0 (ack_of s) []).

(** One reliable frame: the receiver delivers a run of messages, none or more, and
    acknowledges; at least one if the frame is the expected one. *)
Lemma receive_reliable sent s k w :
  len sent < 65536 -> Forall short sent -> on_data s = true -> receiving sent k s ->
  wt_flags w = TF_RELIABLE -> 0 <= wt_seq w ->
  sent !! Z.to_nat (wt_seq w) = Some (wt_channel_id w, wt_payload w) ->
  exists k' s', handle_data w s = Done (s', deliveries (slice k (k' - k) sent) ++ tx s' (ack_frame s')) /\
    (k <= k')%nat /\ receiving sent k' s' /\ same_sender s s' /\ (wt_seq w = Z.of_nat k -> (k < k')%nat).
Proof.
  intros Hn Hsh Hd (Ee & Hk & Hs & Hf) Fl Pos Hw. unfold handle_data. rewrite Fl.
  change (negb (Z.land TF_RELIABLE TF_RELIABLE =? 0)) with true. cbv iota.
  set (s0 := set_receiver _ _ _ _ _ s).
  assert (expected_seq_ s0 = Z.of_nat k) as E0 by exact Ee. rewrite E0.
  destruct (Z.eqb_spec (wt_seq w) (Z.of_nat k)) as [Es|Ns]; [|destruct (_ && _) eqn:B].
  - rewrite Es, Nat2Z.id in Hw. pose proof (lookup_lt_Some _ _ _ Hw) as Lk. unfold deliver. cbv zeta.
    set (s1 := advance _).
    destruct (drain_ok sent (ooo_ s1) s1 (S k)) as (k' & s' & Ed & Hk' & R & SS); try done.
    { unfold s1. cbn. rewrite Ee, u16_small by (unfold u16_ok, len in *; lia). lia. }
    { split; [exact Hs|]. eapply Forall_impl; [exact Hf|]. intros e [? ?]. split; [lia|done]. }
    exists k', s'. rewrite Ed, send_ack_eq. cbn [mbind outcome_bind]. split; [|split; [lia|split; [done|split]]].
    + assert (on_data s0 = true) as -> by exact Hd. rewrite (slice_cons _ _ _ _ Hw) by lia.
      unfold deliveries. cbn [map concat andb]. done.
    + etrans; [|exact SS]. done.
    + lia.
  - apply andb_true_iff in B as [B1 _]. apply Z.ltb_lt in B1.
    rewrite send_ack_eq. cbn [mbind outcome_bind]. eexists k, _. rewrite Nat.sub_diag.
    split; [reflexivity|]. split; [lia|]. split; [|split; [done|lia]].
    split; [done|]. split; [done|].
    destruct (slot_insert_sorted (wt_seq w) (wt_payload w) (ooo_ s) Hs) as [So E]. split; [exact So|].
    rewrite Forall_forall in Hf |- *. intros e He. destruct (E e He) as [->|[He' Ne]].
    + cbn [fst snd]. split; [lia|]. exists (wt_channel_id w). split; [done|]. cbn. by rewrite lookup_insert_eq.
    + destruct (Hf e He') as (? & ch & ? & ?). split; [done|]. exists ch. split; [done|].
      cbn. by rewrite lookup_insert_ne.
  - rewrite send_ack_eq. cbn [mbind outcome_bind]. exists k, s0. rewrite Nat.sub_diag.
    split; [reflexivity|]. split; [lia|]. split; [by split|split; [done|lia]].
Qed.

(** ** Acknowledgements *)

(** The pending messages are the last ones sent, from number [p] on. *)
Definition data_frame (sid : Z) (i : nat) (m : Z * bytes) : bytes :=
  tunnel_bytes (mkWireTunnel (tunnel_type TT_DATA) sid m.1 TF_RELIABLE (Z.of_nat i) 0 m.2).

Fixpoint holds (sid : Z) (p : nat) (l : list (Z * bytes)) (pending : list Msg) : Prop :=
  match l, pending with
  | [], [] => True
  | x :: l, m :: pending =>
      m_seq m = Z.of_nat p /\ m_data m = data_frame sid p x /\ holds sid (S p) l pending
  | _, _ => False
  end.

Lemma holds_length sid p l pending : holds sid p l pending -> length pending = length l.
Proof. revert p pending. induction l; intros p [|m ms]; cbn [holds length]; [done..|]. intros (_ & _ & H). f_equal. by eapply IHl. Qed.

Lemma holds_app sid p l pending x m :
  holds sid p l pending -> m_seq m = Z.of_nat (p + length l) -> m_data m = data_frame sid (p + length l) x ->
  holds sid p (l ++ [x]) (pending ++ [m]).
Proof.
  revert p pending. induction l as [|y l IH]; intros p [|n ms]; cbn [holds app length]; try done.
  - rewrite Nat.add_0_r. by intros _ -> ->.
  - intros (? & ? & H) E1 E2. split; [done|]. split; [done|]. apply IH; [done| |].
    + rewrite E1. f_equal. lia.
    + rewrite E2. f_equal. lia.
Qed.

Lemma holds_lookup sid p l pending i x :
  holds sid p l pending -> l !! i = Some x ->
  exists m, pending !! i = Some m /\ m_seq m = Z.of_nat (p + i) /\ m_data m = data_frame sid (p + i) x.
Proof.
  revert p pending i. induction l as [|y l IH]; intros p [|n ms] [|i]; cbn [holds lookup list_lookup]; try done.
  - intros (? & ? & _) [= ->]. exists n. by rewrite Nat.add_0_r.
  - intros (_ & _ & H) E. destruct (IH _ _ _ H E) as (m & ? & ? & ?). exists m.
    by replace (p + S i)%nat with (S p + i)%nat by lia.
Qed.

Lemma s16_small x : -32768 <= x < 32768 -> s16 x = x.
Proof. intros H. unfold s16. rewrite u16_mod. destruct (Z.ltb_spec (x mod 65536) 32768); zdiv. Qed.

Lemma pop_acked_holds sid ack p l pending :
  holds sid p l pending ->
  exists d, (d <= length l)%nat /\ holds sid (p + d) (drop d l) (pop_acked ack pending) /\
    (0 <= ack -> ack < 32768 -> Z.of_nat (p + length l) <= 32768 -> d <> 0%nat -> Z.of_nat (p + d) <= ack + 1).
Proof.
  revert p pending. induction l as [|x l IH]; intros p [|m ms] H; try done.
  { exists 0%nat. split; [lia|]. split; [done|]. lia. }
  destruct H as (E1 & E2 & H). cbn [pop_acked]. destruct (Z.leb_spec (s16 (m_seq m - ack)) 0) as [L|L].
  - destruct (IH _ _ H) as (d & Ld & Hd & Hb). exists (S d). cbn [length drop].
    replace (p + S d)%nat with (S p + d)%nat by lia. split; [lia|]. split; [done|].
    intros A0 A1 A2 _. destruct (decide (d = 0%nat)) as [->|Nd]; [|apply Hb; [done|done|lia|done]].
    rewrite E1, s16_small in L by lia. lia.
  - exists 0%nat. rewrite Nat.add_0_r. split; [lia|]. split; [done|]. lia.
Qed.

End Session.
