(* ===== verification/ReliableLink.v ===== *)
(** * Two sessions over a network

    Two clients' sessions exchange frames over a network that may lose, duplicate
    and reorder them.  A world is the two endpoints; each has everything it put on
    the network, what its application sent on reliable channels, and what was
    delivered to it on reliable channels.  An endpoint may at any time receive any
    frame the other has ever sent. *)

From S2P Require Import Prelude.
From S2P Require Import Bytes.
From S2P Require Import ProtoDef.
From S2P Require Import TunnelCodec.
From S2P Require Import Session.

#[local] Open Scope Z_scope.

Module ReliableLink.
Import Session.

Section Link.

(** Which channels the applications use reliably. *)
Context (rel : Z -> bool).

Record endpoint := mkEnd {
  ss : Session.t;
  out : list bytes;
  sent : list (Z * bytes);
  got : list (Z * bytes)
}.

Definition frames (ev : list event) : list bytes := omap (fun e => match e with Tx f => Some f | _ => None end) ev.

Definition arrived (ev : list event) : list (Z * bytes) :=
  omap (fun e => match e with Data c p => if rel c then Some (c, p) else None | _ => None end) ev.

(** The endpoint after an operation with its events. *)
Definition after (a : endpoint) (s : Session.t) (ev : list event) (new : list (Z * bytes)) : endpoint :=
  mkEnd s (out a ++ frames ev) (sent a ++ new) (got a ++ arrived ev).

(** What an endpoint does: its application sends, its clock ticks, a frame of the
    [inbox] arrives, or the client above it sends a keep-alive or a close frame. *)
Inductive act (inbox : list bytes) (a : endpoint) : endpoint -> Prop :=
| act_send now ch d r s ev :
    byte_ok ch -> Session.send now ch d (rel ch) (ss a) = Done (r, s, ev) ->
    act inbox a (after a s ev (if (r =? 0) && rel ch then [(ch, d)] else []))
| act_tick now s ev : tick now (ss a) = Done (s, ev) -> act inbox a (after a s ev [])
| act_recv f s ev : f ∈ inbox -> on_frame f (ss a) = Done (s, ev) -> act inbox a (after a s ev [])
| act_control ty f :
    ty = TT_PING \/ ty = TT_CLOSE -> new_frame (ss a) ty 0 0 0 0 None 0 = Done f ->
    act inbox a (after a (ss a) [Tx f] []).

Inductive step : endpoint * endpoint -> endpoint * endpoint -> Prop :=
| step_left a a' b : act (out b) a a' -> step (a, b) (a', b)
| step_right a b b' : act (out a) b b' -> step (a, b) (a, b').

(** A session just created, with its callbacks set. *)
Definition fresh (sid : Z) : endpoint := mkEnd (create sid true true) [] [] [].

(** ** The invariant *)

(** How many messages an endpoint has taken in sequence. *)
Definition taken (a : endpoint) : nat := Z.to_nat (expected_seq_ (ss a)).

(** Messages that reach the application: empty ones are not delivered. *)
Definition visible (l : list (Z * bytes)) : list (Z * bytes) := filter (fun m => m.2 <> []) l.

Definition sendable (m : Z * bytes) : Prop := byte_ok m.1 /\ rel m.1 = true /\ (length m.2 <= MAX_TUNNEL_PAYLOAD)%nat.

(** A frame that a sender with these messages, having taken [k], may have sent. *)
Definition frame_ok (l : list (Z * bytes)) (k : nat) (f : bytes) : Prop :=
  exists w, f = tunnel_bytes w /\ fields_ok w /\
    (wt_type w = tunnel_type TT_DATA ->
       (wt_flags w = TF_RELIABLE /\ 0 <= wt_seq w /\
        l !! Z.to_nat (wt_seq w) = Some (wt_channel_id w, wt_payload w)) \/
       (wt_flags w = 0 /\ rel (wt_channel_id w) = false)) /\
    (wt_type w = tunnel_type TT_ACK -> exists j, (j <= k)%nat /\ wt_ack w = Z.of_nat (j - 1)).

Definition sending (l : list (Z * bytes)) (k : nat) (s : Session.t) : Prop :=
  next_seq_ s = len l /\
  exists p, (p <= length l)%nat /\ holds (session_id_ s) p (drop p l) (pending_ s) /\
    (length (pending_ s) <= 64)%nat /\ (len l <= 32768 -> (p <= k `max` 1)%nat).

(** Endpoint [a] with respect to its peer [b]. *)
Record side (a b : endpoint) : Prop := mkSide {
  side_id : u16_ok (session_id_ (ss a));
  side_cb : on_data (ss a) = true;
  side_msgs : Forall sendable (sent a);
  side_rx : receiving (sent b) (taken a) (ss a);
  side_got : got a = visible (take (taken a) (sent b));
  side_tx : sending (sent a) (taken b) (ss a);
  side_out : Forall (frame_ok (sent a) (taken a)) (out a)
}.

(** A sender step leaves the receiving half alone. *)
Definition same_receiver (s s' : Session.t) : Prop :=
  expected_seq_ s' = expected_seq_ s /\ ooo_ s' = ooo_ s /\ slot_channel s' = slot_channel s /\
  session_id_ s' = session_id_ s /\ on_data s' = on_data s.

Definition linked (w : endpoint * endpoint) : Prop :=
  len (sent w.1) < 65536 -> len (sent w.2) < 65536 -> side w.1 w.2 /\ side w.2 w.1.

(** ** Lemmas *)

Lemma frame_ok_mono l l' k k' f :
  l `prefix_of` l' -> (k <= k')%nat -> frame_ok l k f -> frame_ok l' k' f.
Proof.
  intros P K (w & E & F & D & A). exists w. split; [done|]. split; [done|]. split.
  - intros T. destruct (D T) as [(? & ? & L)|?]; [left|by right]. split; [done|]. split; [done|].
    by apply (prefix_lookup_Some l).
  - intros T. destruct (A T) as (j & ? & ?). exists j. split; [lia|done].
Qed.

Lemma slots_ok_mono l l' lo s : l `prefix_of` l' -> slots_ok l lo s -> slots_ok l' lo s.
Proof.
  intros P [S F]. split; [done|]. eapply Forall_impl; [exact F|]. intros e (? & ch & L & ?).
  split; [done|]. exists ch. split; [by apply (prefix_lookup_Some l)|done].
Qed.

(** What the peer did only helps. *)
Lemma side_mono a b b' :
  side a b -> sent b `prefix_of` sent b' -> (taken b <= taken b')%nat -> side a b'.
Proof.
  intros [I C M R G T O] P K. pose proof (prefix_length _ _ P) as L. destruct R as (E & Hk & S).
  constructor; try done.
  - split; [done|]. split; [lia|]. by apply (slots_ok_mono (sent b)).
  - rewrite G. destruct P as [r ->]. by rewrite take_app_le.
  - destruct T as (N & p & ? & ? & ? & B). split; [done|]. exists p. split; [done|]. split; [done|].
    split; [done|]. intros ?. specialize (B ltac:(done)). lia.
Qed.

Lemma arrived_app e1 e2 : arrived (e1 ++ e2) = arrived e1 ++ arrived e2.
Proof. apply omap_app. Qed.
Lemma frames_app e1 e2 : frames (e1 ++ e2) = frames e1 ++ frames e2.
Proof. apply omap_app. Qed.
Lemma arrived_tx s f : arrived (tx s f) = [].
Proof. unfold tx. by destruct (on_tx s). Qed.
Lemma frames_tx s f : frames (tx s f) ⊆ [f].
Proof. unfold tx. destruct (on_tx s); [done|]. apply list_subseteq_nil. Qed.

Lemma arrived_deliveries l : Forall sendable l -> arrived (deliveries l) = visible l.
Proof.
  induction l as [|[c d] l IH]; [done|]. intros [(? & R & _) F]%Forall_cons. unfold deliveries, visible. cbn [map concat].
  rewrite arrived_app. rewrite filter_cons. cbn [snd fst] in *. destruct d as [|x d]; cbn [length Nat.ltb Nat.leb].
  - rewrite decide_False by (intros ?; done). by apply IH.
  - rewrite decide_True by done. cbn. rewrite R. cbn. f_equal. by apply IH.
Qed.

Lemma frames_deliveries l : frames (deliveries l) = [].
Proof.
  induction l as [|[c d] l IH]; [done|]. change (deliveries ((c, d) :: l)) with
    ((if (0 <? length d)%nat then [Data c d] else []) ++ deliveries l).
  rewrite frames_app, IH. by destruct (0 <? length d)%nat.
Qed.

(** An operation of the sending half: the receiving half and the deliveries are as
    before, and every frame it sends is one the messages allow. *)
Lemma side_sender a b s ev new :
  side a b -> same_receiver (ss a) s -> arrived ev = [] ->
  Forall sendable new -> sending (sent a ++ new) (taken b) s ->
  Forall (frame_ok (sent a ++ new) (taken a)) (frames ev) -> side (after a s ev new) b.
Proof.
  intros [I C M R G T O] (E1 & E2 & E3 & E4 & E5) Ev N S F.
  assert (taken (after a s ev new) = taken a) as K by (unfold taken, after; cbn [ss]; by rewrite E1).
  constructor; cbn [after ss sent got out]; rewrite ?K.
  - by rewrite E4.
  - by rewrite E5.
  - by apply Forall_app.
  - destruct R as (X & Y & Z1 & Z2). split; [by rewrite E1|]. split; [done|]. split; by rewrite ?E2, ?E3.
  - by rewrite Ev, app_nil_r.
  - done.
  - apply Forall_app. split; [|done]. eapply Forall_impl; [exact O|]. intros f.
    apply frame_ok_mono; [by eexists|done].
Qed.

(** An operation of the receiving half that takes the messages up to [k]. *)
Lemma side_receiver a b s ev k :
  side a b -> Forall sendable (sent b) -> same_sender (ss a) s -> (taken a <= k)%nat -> receiving (sent b) k s ->
  arrived ev = visible (slice (taken a) (k - taken a) (sent b)) ->
  Forall (frame_ok (sent a) k) (frames ev) -> side (after a s ev []) b.
Proof.
  intros [I C M R G T O] Mb (E1 & E2 & E3 & E4 & E5 & E6) Hk Rk Ev F.
  assert (taken (after a s ev []) = k) as K.
  { unfold taken, after. cbn [ss]. destruct Rk as [-> _]. apply Nat2Z.id. }
  constructor; cbn [after ss sent got out]; rewrite ?K, ?app_nil_r.
  - by rewrite E1.
  - by rewrite E4.
  - done.
  - done.
  - rewrite G, Ev. unfold visible, slice. rewrite <- filter_app.
    replace k with (taken a + (k - taken a))%nat at 2 by lia. by rewrite take_take_drop.
  - destruct T as (N & p & ? & ? & ? & ?). split; [by rewrite E2|]. exists p. by rewrite E1, E3.
  - apply Forall_app. split; [|done]. eapply Forall_impl; [exact O|]. intros f. by apply frame_ok_mono.
Qed.

Lemma control_ok l k s ty ack :
  u16_ok (session_id_ s) -> u16_ok ack -> ty <> TT_DATA ->
  (ty = TT_ACK -> exists j, (j <= k)%nat /\ ack = Z.of_nat (j - 1)) ->
  frame_ok l k (tunnel_bytes (mkWireTunnel (tunnel_type ty) (session_id_ s) 0 0 0 ack [])).
Proof.
  intros I A T J. eexists. split; [reflexivity|]. split; [|split].
  - unfold fields_ok, len, byte_ok, u16_ok in *.
    cbn [wt_type wt_session_id wt_channel_id wt_flags wt_seq wt_ack wt_payload length].
    destruct ty; cbn [tunnel_type]; lia.
  - cbn [wt_type]. by destruct ty.
  - cbn [wt_type wt_ack]. destruct ty; try done. intros _. by apply J.
Qed.

Lemma data_frame_ok l k sid i m :
  u16_ok sid -> sendable m -> l !! i = Some m -> Z.of_nat i < 65536 -> frame_ok l k (data_frame sid i m).
Proof.
  intros I (B & _ & L) E Hi. unfold MAX_TUNNEL_PAYLOAD in L. eexists. split; [reflexivity|]. split; [|split].
  - unfold fields_ok, TF_RELIABLE, byte_ok, u16_ok, len in *.
    cbn [wt_type wt_session_id wt_channel_id wt_flags wt_seq wt_ack wt_payload tunnel_type]. lia.
  - intros _. left. cbn. split; [done|]. split; [lia|]. rewrite Nat2Z.id. by destruct m.
  - done.
Qed.

Lemma frames_tx_ok (P : bytes -> Prop) s f : P f -> Forall P (frames (tx s f)).
Proof. intros H. unfold tx. destruct (on_tx s); by repeat constructor. Qed.

(** Nothing is sent, nothing changes. *)
Lemma side_idle a b s ev :
  side a b -> same_receiver (ss a) s -> next_seq_ s = next_seq_ (ss a) -> pending_ s = pending_ (ss a) ->
  arrived ev = [] -> Forall (frame_ok (sent a) (taken a)) (frames ev) -> side (after a s ev []) b.
Proof.
  intros H R N P Ev F. apply side_sender; try done; rewrite ?app_nil_r; try done.
  destruct (side_tx a b H) as (E & p & ? & ? & ? & ?). destruct R as (_ & _ & _ & I & _).
  split; [by rewrite N|]. exists p. by rewrite I, P.
Qed.

Lemma sending_snoc l k s sid ch d now :
  len (l ++ [(ch, d)]) < 65536 -> session_id_ s = sid -> sending l k s -> (length (pending_ s) < 64)%nat ->
  sending (l ++ [(ch, d)]) k
    (set_sender (u16 (next_seq_ s + 1)) (last_ping_ms_ s)
       (pending_ s ++ [mkMsg (next_seq_ s) ch TF_RELIABLE (data_frame sid (length l) (ch, d)) now]) s).
Proof.
  intros Hn <- (E & p & Hp & Hh & Hw & Hb) Hw'. unfold len in *. rewrite length_app in Hn. cbn [length] in Hn.
  split.
  - cbn [next_seq_ set_sender]. unfold len. rewrite E, length_app, u16_small by (unfold u16_ok; cbn [length]; lia). cbn [length]. lia.
  - exists p. cbn [pending_ session_id_ set_sender]. unfold len. rewrite !length_app. cbn [length].
    split; [lia|]. split; [|split; [lia|intros ?; apply Hb; lia]].
    rewrite drop_app_le by done. apply holds_app; [done| |]; rewrite length_drop; cbn [m_seq m_data].
    + rewrite E. f_equal. lia.
    + f_equal. lia.
Qed.

Lemma side_send a b now ch d r s ev :
  side a b -> byte_ok ch -> Session.send now ch d (rel ch) (ss a) = Done (r, s, ev) ->
  let new := if (r =? 0) && rel ch then [(ch, d)] else [] in
  len (sent a ++ new) < 65536 -> side (after a s ev new) b.
Proof.
  intros H Hc E new Hn. pose proof (side_id _ _ H) as I. revert E. unfold Session.send.
  destruct (Nat.ltb_spec MAX_TUNNEL_PAYLOAD (length d)) as [L|L].
  { intros [= <- <- <-]. by apply side_idle. }
  destruct (rel ch && _) eqn:W.
  { intros [= <- <- <-]. by apply side_idle. }
  assert (len d < 65536) as Ld by (unfold len, MAX_TUNNEL_PAYLOAD in *; lia).
  rewrite new_frame_payload by done. cbn [mbind outcome_bind mret outcome_ret]. intros [= <- <- <-].
  unfold new in *. clear new. cbn [Z.eqb andb] in *. destruct (rel ch) eqn:R.
  - cbn [andb] in W. apply Nat.leb_gt in W. change (Z.lor 0 TF_RELIABLE) with TF_RELIABLE.
    assert (next_seq_ (ss a) = Z.of_nat (length (sent a))) as N by apply (side_tx _ _ H).
    assert (sendable (ch, d)) as Sd by done.
    apply side_sender; try done.
    + apply arrived_tx.
    + by constructor.
    + pose proof (sending_snoc (sent a) (taken b) (ss a) _ ch d now Hn eq_refl (side_tx _ _ H) W) as S.
      unfold data_frame in S. cbn [fst snd] in S. by rewrite <- N in S.
    + apply frames_tx_ok. rewrite N. apply (data_frame_ok _ _ _ _ (ch, d)); try done.
      * rewrite lookup_app_r, Nat.sub_diag by done. done.
      * unfold len in Hn. rewrite length_app in Hn. cbn [length] in Hn. lia.
  - apply side_idle; try done; [apply arrived_tx|]. apply frames_tx_ok. eexists. split; [reflexivity|].
    split; [|split; [by right|done]].
    unfold fields_ok, byte_ok, u16_ok in *.
    cbn [wt_type wt_session_id wt_channel_id wt_flags wt_seq wt_ack wt_payload tunnel_type]. lia.
Qed.

Lemma holds_map sid p l pending f :
  (forall m, m_seq (f m) = m_seq m /\ m_data (f m) = m_data m) ->
  holds sid p l pending -> holds sid p l (map f pending).
Proof.
  intros Hf. revert p pending. induction l as [|x l IH]; intros p [|m ms]; cbn [holds map]; try done.
  intros (? & ? & ?). destruct (Hf m) as [-> ->]. by split_all; auto.
Qed.

(** Every pending message is one of those sent. *)
Lemma pending_frames l k j s :
  u16_ok (session_id_ s) -> Forall sendable l -> len l < 65536 -> sending l k s ->
  Forall (fun m => frame_ok l j (m_data m)) (pending_ s).
Proof.
  intros I M Hn (_ & p & Hp & Hh & _). apply Forall_lookup. intros i m E.
  pose proof (holds_length _ _ _ _ Hh) as L. pose proof (lookup_lt_Some _ _ _ E) as Li.
  destruct (lookup_lt_is_Some_2 (drop p l) i) as [x X]; [lia|].
  destruct (holds_lookup _ _ _ _ _ _ Hh X) as (m' & E' & _ & D). rewrite E' in E. injection E as <-. rewrite D.
  rewrite lookup_drop in X. pose proof (lookup_lt_Some _ _ _ X). unfold len in Hn.
  apply data_frame_ok; try done; [|lia]. by apply (proj1 (Forall_lookup _ _) M _ _ X).
Qed.

Lemma resend_frames P now s :
  Forall (fun m => P (m_data m)) (pending_ s) -> Forall P (frames (resend now s).2) /\ arrived (resend now s).2 = [].
Proof.
  unfold resend. cbn [snd]. induction (pending_ s) as [|m ms IH]; [by split; [constructor|]|]. intros [Hm H]%Forall_cons.
  destruct (IH H) as [A B]. cbn [map concat]. rewrite frames_app, arrived_app, B.
  destruct (overdue now s m); [|exact (conj A eq_refl)].
  split; [apply Forall_app; split; [by apply frames_tx_ok|done]|]. by rewrite arrived_tx.
Qed.

Lemma side_tick a b now s ev :
  side a b -> len (sent a) < 65536 -> tick now (ss a) = Done (s, ev) -> side (after a s ev []) b.
Proof.
  intros H Hn. unfold tick. cbv zeta. pose proof (side_id _ _ H) as I.
  destruct (resend_frames (frame_ok (sent a) (taken a)) now (ss a)) as [F A].
  { apply (pending_frames _ (taken b)); [done|by apply H|done|by apply H]. }
  match goal with |- mbind _ ?p = _ -> _ => set (ping := p) end.
  assert (exists evp, ping = Done evp /\ arrived evp = [] /\
            Forall (frame_ok (sent a) (taken a)) (frames evp)) as (evp & -> & A1 & F1).
  { unfold ping. destruct (_ <=? _); [|by exists []]. rewrite new_frame_empty. eexists. split; [reflexivity|].
    split; [apply arrived_tx|]. by apply frames_tx_ok, control_ok. }
  cbn [mbind outcome_bind mret outcome_ret]. unfold resend in *. cbn [snd] in *. intros [= <- <-].
  apply side_sender; rewrite ?app_nil_r; try done.
  - by rewrite arrived_app, A1, A.
  - destruct (side_tx a b H) as (E & p & Hp & Hh & Hw & Hb). split; [done|]. exists p.
    split; [done|]. split; [|split; [cbn; by rewrite length_map|done]].
    apply holds_map; [|done]. intros m. by destruct (overdue _ _ _).
  - rewrite frames_app. by apply Forall_app.
Qed.

Lemma sendable_short l : Forall sendable l -> Forall short l.
Proof. intros F. eapply Forall_impl; [exact F|]. intros [c d] (_ & _ & L). unfold short, len, MAX_TUNNEL_PAYLOAD in *. lia. Qed.

Lemma side_data a b w s ev :
  side a b -> side b a -> len (sent b) < 65536 -> fields_ok w ->
  (wt_flags w = TF_RELIABLE /\ 0 <= wt_seq w /\
   sent b !! Z.to_nat (wt_seq w) = Some (wt_channel_id w, wt_payload w)) \/
  (wt_flags w = 0 /\ rel (wt_channel_id w) = false) ->
  handle_data w (ss a) = Done (s, ev) -> side (after a s ev []) b /\ (taken a <= taken (after a s ev []))%nat.
Proof.
  intros H Hb Hn Fw [(Fl & Pos & L)|[Fl R]] E.
  - destruct (receive_reliable (sent b) (ss a) (taken a) w) as (k & s' & E' & Hk & Rk & SS & _); try done.
    { apply sendable_short, (side_msgs _ _ Hb). } { apply H. } { apply H. }
    rewrite E' in E. injection E as <- <-.
    assert (taken (after a s' (deliveries (slice (taken a) (k - taken a) (sent b)) ++ tx s' (ack_frame s')) []) = k) as K.
    { unfold taken, after. cbn [ss]. destruct Rk as [-> _]. apply Nat2Z.id. }
    split; [|lia].
    apply (side_receiver _ _ _ _ k); try done.
    + apply (side_msgs _ _ Hb).
    + rewrite arrived_app, arrived_tx, app_nil_r. apply arrived_deliveries.
      apply Forall_slice, (side_msgs _ _ Hb).
    + rewrite frames_app, frames_deliveries. cbn [app]. apply frames_tx_ok, control_ok; try done.
      * rewrite (proj1 SS). apply (side_id _ _ H).
      * unfold ack_of. destruct (_ <? _); [apply u16_range|done].
      * intros _. exists k. split; [done|]. unfold ack_of. destruct Rk as (-> & Lk & _). unfold len in Hn.
        destruct (Z.ltb_spec 0 (Z.of_nat k)); [rewrite u16_small by (unfold u16_ok; lia)|]; lia.
  - revert E. unfold handle_data. rewrite Fl. cbn [Z.land Z.eqb negb]. unfold deliver. intros [= <- <-].
    split; [|done]. apply side_idle; try done.
    + cbn [on_data set_receiver]. destruct (_ && _); [|done]. cbn. by rewrite R.
    + by destruct (_ && _).
Qed.

Lemma side_ack a b ack s :
  side a b -> (exists j, (j <= taken b)%nat /\ ack = Z.of_nat (j - 1)) -> (taken b <= length (sent a))%nat ->
  s = handle_ack ack (ss a) -> side (after a s [] []) b.
Proof.
  intros H (j & Hj & Ea) Hb ->. destruct (side_tx _ _ H) as (E & p & Hp & Hh & Hw & Hb').
  apply side_sender; rewrite ?app_nil_r; try done. split; [done|].
  destruct (pop_acked_holds _ ack _ _ _ Hh) as (d & Ld & Hd & Hbd). rewrite length_drop in Ld, Hbd.
  pose proof (holds_length _ _ _ _ Hh) as L1. pose proof (holds_length _ _ _ _ Hd) as L2.
  rewrite !length_drop in *. exists (p + d)%nat. rewrite drop_drop in Hd. cbn [session_id_ pending_ handle_ack set_sender].
  split; [lia|]. split; [done|]. split; [lia|]. intros Hl. specialize (Hb' Hl). unfold len in Hl.
  destruct (decide (d = 0%nat)) as [->|Nd]; [lia|]. specialize (Hbd ltac:(lia) ltac:(lia) ltac:(lia) Nd). lia.
Qed.

Lemma side_recv a b f s ev :
  side a b -> side b a -> len (sent b) < 65536 -> f ∈ out b -> on_frame f (ss a) = Done (s, ev) ->
  side (after a s ev []) b /\ (taken a <= taken (after a s ev []))%nat.
Proof.
  intros H Hb Hn Hf. pose proof (side_out _ _ Hb) as O. rewrite Forall_forall in O.
  destruct (O f Hf) as (w & -> & Fw & D & A). unfold on_frame.
  rewrite <- (app_nil_r (tunnel_bytes w)), read_tunnel_bytes by done. unfold tunnel_type_of.
  destruct (Z.eqb_spec (wt_type w) 0) as [T|_]; [by apply side_data; auto|].
  destruct (Z.eqb_spec (wt_type w) 1) as [T|_].
  { intros [= <- <-]. split; [|done]. apply (side_ack _ _ (wt_ack w)); try done; [by apply A|].
    apply (side_rx _ _ Hb). }
  destruct (Z.eqb_spec (wt_type w) 2) as [T|_].
  { unfold reply_pong. rewrite new_frame_empty. intros [= <- <-]. split; [|done].
    apply side_idle; try done; [apply arrived_tx|]. apply frames_tx_ok, (control_ok _ _ (ss a) TT_PONG); try done. apply H. }
  destruct (Z.eqb_spec (wt_type w) 3) as [T|_]; [intros [= <- <-]; split; [by apply side_idle|done]|].
  destruct (Z.eqb_spec (wt_type w) 4) as [T|_]; (intros [= <- <-]; split; [by apply side_idle|done]).
Qed.

Lemma send_expected now ch d r0 r s s' ev :
  Session.send now ch d r0 s = Done (r, s', ev) -> expected_seq_ s' = expected_seq_ s.
Proof.
  unfold Session.send. destruct (_ <? _)%nat; [by intros [= <- <- <-]|]. destruct (_ && _); [by intros [= <- <- <-]|].
  destruct (new_frame _ _ _ _ _ _ _ _); [|done]. by intros [= <- <- <-].
Qed.

Lemma tick_expected now s s' ev : tick now s = Done (s', ev) -> expected_seq_ s' = expected_seq_ s.
Proof.
  unfold tick. destruct (_ <=? _).
  - destruct (new_frame _ _ _ _ _ _ _ _); [|done]. by intros [= <- <-].
  - by intros [= <- <-].
Qed.

Lemma act_side a b a' :
  act (out b) a a' -> side a b -> side b a -> len (sent a') < 65536 -> len (sent b) < 65536 ->
  side a' b /\ side b a'.
Proof.
  intros X H Hb Na Nb.
  assert (side a' b /\ sent a `prefix_of` sent a' /\ (taken a <= taken a')%nat) as (S & P & K).
  { destruct X as [now ch d r s ev Hc E|now s ev E|f s ev Hf E|ty f Ht E].
    - split; [by apply (side_send _ _ now)|]. split; [by eexists|]. unfold taken. cbn [after ss].
      by rewrite (send_expected _ _ _ _ _ _ _ _ E).
    - cbn [sent after] in Na. rewrite app_nil_r in Na. split; [by apply (side_tick _ _ now)|]. split; [by eexists|].
      unfold taken. cbn [after ss]. by rewrite (tick_expected _ _ _ _ E).
    - destruct (side_recv _ _ _ _ _ H Hb Nb Hf E) as [S K]. split; [done|]. split; [by eexists|done].
    - split; [|split; [by eexists|done]]. rewrite new_frame_empty in E. injection E as <-.
      apply side_idle; try done. repeat constructor. apply control_ok; try done; [apply H|by destruct Ht as [->| ->]..]. }
  split; [done|]. by apply (side_mono b a).
Qed.

Lemma act_sent inbox a a' : act inbox a a' -> len (sent a) <= len (sent a').
Proof. intros []; unfold len; cbn [after sent]; rewrite length_app; lia. Qed.

Lemma linked_step w w' : step w w' -> linked w -> linked w'.
Proof.
  intros [a a' b X|a b b' X] L; unfold linked in *; cbn [fst snd] in *; intros N1 N2.
  - pose proof (act_sent _ _ _ X). destruct L as [S1 S2]; [lia|done|]. by apply (act_side a b a').
  - pose proof (act_sent _ _ _ X). destruct L as [S1 S2]; [done|lia|].
    destruct (act_side b a b' X S2 S1 N2 N1). done.
Qed.

Lemma fresh_side x y : u16_ok x -> side (fresh x) (fresh y).
Proof.
  intros I. constructor; try done; try constructor; try done.
  - split; [done|]. split; constructor.
  - exists 0%nat. split; [done|]. split; [done|]. split; [cbn; lia|lia].
Qed.

Lemma linked_reachable x y w :
  u16_ok x -> u16_ok y -> rtc step (fresh x, fresh y) w -> linked w.
Proof.
  intros X Y. revert w. apply rtc_ind_r.
  - intros _ _. cbn [fst snd]. split; by apply fresh_side.
  - intros w w' _ S L. by apply (linked_step w).
Qed.

(** C15: reliable channels deliver in order and at most once.  However the network
    loses, repeats or reorders frames, what either application has been given on its
    reliable channels is exactly the non-empty ones of the first messages the other
    sent on them, in the order they were sent, as long as each side has sent fewer
    than 65536. *)
Theorem reliable_in_order (x y : Z) (a b : endpoint) (Hx : u16_ok x) (Hy : u16_ok y)
    (Hreach : rtc step (fresh x, fresh y) (a, b)) (Ha : len (sent a) < 65536) (Hb : len (sent b) < 65536) :
  got b = visible (take (taken b) (sent a)) /\ (taken b <= length (sent a))%nat /\
  got a = visible (take (taken a) (sent b)) /\ (taken a <= length (sent b))%nat.
Proof.
  destruct (linked_reachable x y _ Hx Hy Hreach Ha Hb) as [S1 S2]. cbn [fst snd] in *.
  split; [apply S2|]. split; [apply S2|]. split; [apply S1|apply S1].
Qed.

(** Nothing but the first message is forgotten.  A message the peer has not taken
    yet is still held for retransmission, as the frame that carries it, unless it is
    the first of the session; at most 64 are held.  The bound is half of the sequence
    space, beyond which an old acknowledgement reads as a new one. *)
Theorem held_until_taken (x y : Z) (a b : endpoint) (Hx : u16_ok x) (Hy : u16_ok y)
    (Hreach : rtc step (fresh x, fresh y) (a, b)) (Ha : len (sent a) <= 32768) (Hb : len (sent b) < 65536) :
  (length (pending_ (ss a)) <= 64)%nat /\
  forall i m, sent a !! i = Some m -> (taken b <= i)%nat -> i <> 0%nat ->
    exists p, p ∈ pending_ (ss a) /\ m_seq p = Z.of_nat i /\ m_data p = data_frame (session_id_ (ss a)) i m.
Proof.
  destruct (linked_reachable x y _ Hx Hy Hreach) as [S1 S2]; cbn [fst snd] in *; [lia|done|].
  destruct (side_tx _ _ S1) as (_ & p & Hp & Hh & Hw & Hk). split; [done|]. intros i m E Hi N.
  specialize (Hk Ha). assert ((drop p (sent a)) !! (i - p)%nat = Some m) as E'.
  { rewrite lookup_drop. replace (p + (i - p))%nat with i by lia. done. }
  destruct (holds_lookup _ _ _ _ _ _ Hh E') as (q & Q & Q1 & Q2).
  replace (p + (i - p))%nat with i in * by lia. exists q. split; [by eapply list_elem_of_lookup_2|done].
Qed.

End Link.

(** ** Retransmission completes *)

Fixpoint feed (fs : list bytes) (s : Session.t) : outcome (Session.t * list event) :=
  match fs with
  | [] => mret (s, [])
  | f :: fs => '(s, e1) ← on_frame f s; '(s, e2) ← feed fs s; mret (s, e1 ++ e2)
  end.

Lemma on_data_frame l k s sid i m :
  len l < 65536 -> Forall short l -> u16_ok sid -> byte_ok m.1 -> l !! i = Some m -> on_data s = true ->
  receiving l k s ->
  exists k' s' ev, on_frame (data_frame sid i m) s = Done (s', ev) /\ receiving l k' s' /\ (k <= k')%nat /\
    on_data s' = true /\ (i = k -> (k < k')%nat).
Proof.
  intros Hn Hs I Bm E Hd R. pose proof (lookup_lt_Some _ _ _ E) as Li. unfold len in Hn.
  pose proof (proj1 (Forall_lookup _ _) Hs _ _ E) as Sm.
  unfold on_frame, data_frame. rewrite <- (app_nil_r (tunnel_bytes _)), read_tunnel_bytes.
  2: { unfold fields_ok, short, TF_RELIABLE, byte_ok, u16_ok in *.
       cbn [wt_type wt_session_id wt_channel_id wt_flags wt_seq wt_ack wt_payload tunnel_type]. lia. }
  cbn [wt_type tunnel_type tunnel_type_of Z.eqb].
  match goal with |- context [handle_data ?w _] => set (w0 := w) end.
  destruct (receive_reliable l s k w0) as (k' & s' & E' & Hk & R' & SS & Hlt); try done.
  { cbn [w0 wt_seq]. lia. }
  { cbn [w0 wt_seq wt_channel_id wt_payload]. rewrite Nat2Z.id. by destruct m. }
  exists k', s'. eexists. rewrite E'. split; [reflexivity|]. split; [done|]. split; [done|].
  split; [destruct SS as (_ & _ & _ & -> & _); done|]. cbn [w0 wt_seq] in Hlt. intros ->. by apply Hlt.
Qed.

(** Feeding the frames held from [p] on to a receiver that has taken at least [p]. *)
Lemma feed_held l sid p rest pending k s :
  len l < 65536 -> Forall short l -> Forall (fun m => byte_ok m.1) l -> u16_ok sid ->
  drop p l = rest -> holds sid p rest pending -> on_data s = true -> receiving l k s -> (p <= k)%nat ->
  exists s' ev, feed (map m_data pending) s = Done (s', ev) /\
    ((p <= length l)%nat -> expected_seq_ s' = len l).
Proof.
  intros Hn Hs Hb I. revert p pending k s. induction rest as [|m rest IH]; intros p [|x pending] k s Ed Hh Hd R Hk; try done.
  { exists s, []. split; [done|]. intros Hp. destruct R as (-> & Lk & _). unfold len.
    assert (length (drop p l) = 0%nat) as L0 by (by rewrite Ed). rewrite length_drop in L0. lia. }
  destruct Hh as (_ & Ex & Hh).
  assert (l !! p = Some m) as E by (rewrite <- (Nat.add_0_r p), <- lookup_drop, Ed; done).
  destruct (on_data_frame l k s sid p m) as (k' & s' & ev & E1 & R1 & Hk1 & Hd1 & Hlt); try done.
  { by apply (proj1 (Forall_lookup _ _) Hb _ _ E). }
  destruct (IH (S p) pending k' s') as (s2 & ev2 & E2 & H2); try done.
  { rewrite (drop_S _ _ _ E) in Ed. by injection Ed. }
  { destruct (decide (p = k)) as [->|]; [by apply Hlt|lia]. }
  exists s2, (ev ++ ev2). cbn [map feed]. rewrite Ex, E1. cbn [mbind outcome_bind]. rewrite E2.
  split; [done|]. intros _. apply H2. by apply lookup_lt_Some in E.
Qed.

Lemma frames_tx_set s f : on_tx s = true -> frames (tx s f) = [f].
Proof. unfold tx. by intros ->. Qed.

Lemma resend_all now s :
  on_tx s = true -> Forall (fun m => overdue now s m = true) (pending_ s) ->
  frames (resend now s).2 = map m_data (pending_ s).
Proof.
  intros Ht. unfold resend. cbn [snd]. induction (pending_ s) as [|m ms IH]; [done|].
  intros [Hm H]%Forall_cons. cbn [map concat]. by rewrite frames_app, (IH H), Hm, frames_tx_set.
Qed.

(** C22: retransmission completes the transfer, if the first message is not lost for good.
    In every state the two sessions reach with at most 32768 messages sent by the one and
    fewer than 65536 by the other, if the receiver has taken the first message or the sender
    still holds every message it sent, one tick of the sender once the retransmission time
    of all it holds is over, whose frames arrive in order, gives the receiver every message
    sent so far.  Without that condition it does not: [first_message_lost]. *)
Theorem resend_completes (rel : Z -> bool) (x y now : Z) (a b : endpoint) (Hx : u16_ok x) (Hy : u16_ok y)
    (Hreach : rtc (step rel) (fresh x, fresh y) (a, b)) (Ha : len (sent a) <= 32768) (Hb : len (sent b) < 65536)
    (Htx : on_tx (ss a) = true) (Hdue : Forall (fun m => overdue now (ss a) m = true) (pending_ (ss a)))
    (Hfirst : (0 < taken b)%nat \/ length (pending_ (ss a)) = length (sent a)) :
  exists s ev s' ev', tick now (ss a) = Done (s, ev) /\ feed (frames ev) (ss b) = Done (s', ev') /\
    expected_seq_ s' = len (sent a).
Proof.
  destruct (linked_reachable rel x y _ Hx Hy Hreach) as [S1 S2]; cbn [fst snd] in *; [lia|done|].
  destruct (side_tx _ _ _ S1) as (_ & p & Hp & Hh & Hw & Hk). specialize (Hk Ha).
  assert (p <= taken b)%nat as Hpb.
  { destruct Hfirst as [?|L]; [lia|]. apply holds_length in Hh. rewrite length_drop in Hh. lia. }
  assert (Forall (fun m => byte_ok m.1) (sent a)) as Bs.
  { eapply Forall_impl; [exact (side_msgs _ _ _ S1)|]. by intros m [? _]. }
  destruct (feed_held (sent a) (session_id_ (ss a)) p (drop p (sent a)) (pending_ (ss a)) (taken b) (ss b)) as (s' & ev' & Ef & Hs');
    try done; [lia|apply (sendable_short rel), (side_msgs _ _ _ S1)|apply (side_id _ _ _ S1)|apply (side_cb _ _ _ S2)
              |apply (side_rx _ _ _ S2)|].
  rewrite <- (resend_all now) in Ef by done. unfold tick. destruct (_ <=? _).
  - rewrite new_frame_empty. cbn [mbind outcome_bind mret outcome_ret]. unfold resend in *. cbn [snd] in Ef.
    do 2 eexists. exists s'. eexists. split; [reflexivity|]. split; [|by apply Hs'].
    rewrite frames_app, frames_tx_set by done. cbn [app feed].
    unfold on_frame at 1. rewrite <- (app_nil_r (tunnel_bytes _)), read_tunnel_bytes.
    2: { pose proof (side_id _ _ _ S1). unfold fields_ok, byte_ok, u16_ok, len in *.
         cbn [wt_type wt_session_id wt_channel_id wt_flags wt_seq wt_ack wt_payload tunnel_type length]. lia. }
    cbn [wt_type tunnel_type tunnel_type_of Z.eqb Pos.eqb]. unfold reply_pong. rewrite new_frame_empty.
    cbn [mbind outcome_bind mret outcome_ret]. rewrite Ef. done.
  - cbn [mbind outcome_bind mret outcome_ret]. unfold resend in *. cbn [snd] in Ef.
    do 2 eexists. exists s'. eexists. split; [reflexivity|]. cbn [app]. split; [exact Ef|by apply Hs'].
Qed.

Lemma tunnel_bytes_inj w w' : fields_ok w -> fields_ok w' -> tunnel_bytes w = tunnel_bytes w' -> w = w'.
Proof.
  intros H H' E. pose proof (read_tunnel_bytes w [] H) as R. rewrite E, read_tunnel_bytes in R by done.
  by injection R.
Qed.

Lemma send_reliable_eq now ch d s :
  (length d <= MAX_TUNNEL_PAYLOAD)%nat -> (length (pending_ s) < 64)%nat ->
  let f := tunnel_bytes (mkWireTunnel (tunnel_type TT_DATA) (session_id_ s) ch TF_RELIABLE (next_seq_ s) 0 d) in
  Session.send now ch d true s =
  Done (0, set_sender (u16 (next_seq_ s + 1)) (last_ping_ms_ s)
             (pending_ s ++ [mkMsg (next_seq_ s) ch TF_RELIABLE f now]) s, tx s f).
Proof.
  intros L W f. unfold Session.send. rewrite (proj2 (Nat.ltb_ge _ _)) by done. cbn [andb].
  rewrite (proj2 (Nat.leb_gt _ _)) by done. unfold MAX_TUNNEL_PAYLOAD in L.
  rewrite new_frame_payload by (unfold len; lia). done.
Qed.

Lemma on_frame_bytes w s :
  fields_ok w ->
  on_frame (tunnel_bytes w) s =
  match tunnel_type_of (wt_type w) with
  | Some TT_DATA => handle_data w s
  | Some TT_ACK => mret (handle_ack (wt_ack w) s, [])
  | Some TT_PING => ev ← reply_pong s; mret (s, ev)
  | Some TT_CLOSE => mret (deactivate s, [])
  | Some TT_PONG | None => mret (s, [])
  end.
Proof. intros H. unfold on_frame. by rewrite <- (app_nil_r (tunnel_bytes w)), read_tunnel_bytes. Qed.

(** ** A run *)

(** Every channel reliable; one side sends two messages and the other receives the
    second and then the first. *)
Definition all_reliable (_ : Z) : bool := true.

Definition sends (now ch : Z) (d : bytes) (a : endpoint) : endpoint :=
  match Session.send now ch d true (ss a) with
  | Done (_, s, ev) => after all_reliable a s ev [(ch, d)]
  | Fault _ => a
  end.

Definition receives (f : bytes) (a : endpoint) : endpoint :=
  match on_frame f (ss a) with Done (s, ev) => after all_reliable a s ev [] | Fault _ => a end.

Definition a2 : endpoint := sends 6 1 [9] (sends 5 1 [7; 8] (fresh 1)).
Definition b2 : endpoint := receives (data_frame 1 0 (1, [7; 8])) (receives (data_frame 1 1 (1, [9])) (fresh 2)).

Lemma receives_act inbox f a :
  f ∈ inbox -> is_done (on_frame f (ss a)) = true -> act all_reliable inbox a (receives f a).
Proof. intros Hf. unfold receives. destruct (on_frame f (ss a)) as [[s ev]|] eqn:E; [|done]. intros _.
  by eapply act_recv.
Qed.

Lemma sends_act inbox now ch d a :
  byte_ok ch -> (length d <= MAX_TUNNEL_PAYLOAD)%nat -> (length (pending_ (ss a)) < 64)%nat ->
  act all_reliable inbox a (sends now ch d a).
Proof.
  intros Hc L W. unfold sends. pose proof (send_reliable_eq now ch d (ss a) L W) as E. cbv zeta in E. rewrite E.
  by refine (act_send all_reliable inbox a now ch d 0 _ _ Hc E).
Qed.

Lemma sample_sent : rtc (step all_reliable) (fresh 1, fresh 2) (a2, fresh 2).
Proof.
  apply (rtc_l _ _ (sends 5 1 [7; 8] (fresh 1), fresh 2)); [|apply rtc_once];
    (apply step_left, sends_act; [done|by apply Nat.leb_le|by apply Nat.leb_le]).
Qed.

Lemma sample_run : rtc (step all_reliable) (fresh 1, fresh 2) (a2, b2).
Proof.
  etrans; [apply sample_sent|].
  assert (out a2 = [data_frame 1 0 (1, [7; 8]); data_frame 1 1 (1, [9])]) as O by by vm_compute.
  apply (rtc_l _ _ (a2, receives (data_frame 1 1 (1, [9])) (fresh 2))); [|apply rtc_once];
    (apply step_right, receives_act; [rewrite O; by repeat constructor|by vm_compute]).
Qed.

Lemma reliable_in_order_witness : got b2 = [(1, [7; 8]); (1, [9])].
Proof.
  destruct (reliable_in_order all_reliable 1 2 a2 b2) as [G _].
  - unfold u16_ok. lia.
  - unfold u16_ok. lia.
  - apply sample_run.
  - reflexivity.
  - reflexivity.
  - rewrite G. reflexivity.
Defined.

Lemma held_until_taken_witness :
  exists p, p ∈ pending_ (ss a2) /\ m_seq p = 1 /\ m_data p = data_frame 1 1 (1, [9]).
Proof.
  destruct (held_until_taken all_reliable 1 2 a2 (fresh 2)) as [_ H].
  - unfold u16_ok. lia.
  - unfold u16_ok. lia.
  - apply sample_sent.
  - by vm_compute.
  - reflexivity.
  - apply (H 1%nat (1, [9])).
    + reflexivity.
    + apply Nat.leb_le. reflexivity.
    + discriminate.
Defined.

Lemma resend_completes_witness :
  exists s ev s' ev', tick 1000 (ss a2) = Done (s, ev) /\ feed (frames ev) (ss (fresh 2)) = Done (s', ev') /\
    expected_seq_ s' = 2.
Proof.
  apply (resend_completes all_reliable 1 2 1000 a2 (fresh 2)).
  - unfold u16_ok. lia.
  - unfold u16_ok. lia.
  - apply sample_sent.
  - by vm_compute.
  - reflexivity.
  - reflexivity.
  - by repeat constructor.
  - right. reflexivity.
Defined.

(** ** The first message *)

(** The first message of a session can be lost for good.  When the second one
    overtakes it, the receiver, which has taken nothing, acknowledges number 0; the
    sender then stops holding the first message, and no later tick sends it again,
    while the receiver still waits for it. *)
Theorem first_message_lost (x y t0 t1 ch0 ch1 : Z) (d0 d1 : bytes) (Hx : u16_ok x) (Hy : u16_ok y)
    (Hc : byte_ok ch0 /\ byte_ok ch1)
    (Hl : (length d0 <= MAX_TUNNEL_PAYLOAD)%nat /\ (length d1 <= MAX_TUNNEL_PAYLOAD)%nat) :
  exists s1 f0 s2 f1 r fa s3,
    Session.send t0 ch0 d0 true (create x true true) = Done (0, s1, [Tx f0]) /\
    Session.send t1 ch1 d1 true s1 = Done (0, s2, [Tx f1]) /\
    on_frame f1 (create y true true) = Done (r, [Tx fa]) /\ expected_seq_ r = 0 /\
    on_frame fa s2 = Done (s3, []) /\
    forall now, exists s4 ev, tick now s3 = Done (s4, ev) /\ (Tx f0 ∉ ev) /\ map m_seq (pending_ s4) = [1].
Proof.
  destruct Hc as [C0 C1], Hl as [L0 L1].
  assert (forall ch d seq, byte_ok ch -> (length d <= MAX_TUNNEL_PAYLOAD)%nat -> 0 <= seq <= 1 ->
    fields_ok (mkWireTunnel 0 x ch TF_RELIABLE seq 0 d)) as F.
  { intros ch d seq Hc Hl Hq. unfold fields_ok, byte_ok, u16_ok, len, TF_RELIABLE, MAX_TUNNEL_PAYLOAD in *.
    cbn [wt_type wt_session_id wt_channel_id wt_flags wt_seq wt_ack wt_payload]. lia. }
  assert (forall sid ack ty, u16_ok sid -> 0 <= ack <= 1 -> byte_ok ty -> fields_ok (mkWireTunnel ty sid 0 0 0 ack [])) as FC.
  { intros sid ack ty Hs Ha Ht. unfold fields_ok, byte_ok, u16_ok, len in *.
    cbn [wt_type wt_session_id wt_channel_id wt_flags wt_seq wt_ack wt_payload length]. lia. }
  pose proof (send_reliable_eq t0 ch0 d0 (create x true true) L0 ltac:(cbn; lia)) as E0. cbv zeta in E0.
  cbn [session_id_ next_seq_ last_ping_ms_ pending_ create tx on_tx app Z.add tunnel_type] in E0.
  set (f0 := tunnel_bytes _) in E0. set (s1 := set_sender _ _ _ _) in E0.
  pose proof (send_reliable_eq t1 ch1 d1 s1 L1 ltac:(cbn; lia)) as E1. cbv zeta in E1.
  cbn [session_id_ next_seq_ last_ping_ms_ pending_ create tx on_tx app Z.add tunnel_type s1 set_sender] in E1.
  change (u16 1) with 1 in E1. cbn [Z.add Pos.add] in E1.
  set (f1 := tunnel_bytes _) in E1. set (s2 := set_sender _ _ _ _) in E1.
  set (fa := tunnel_bytes (mkWireTunnel 1 y 0 0 0 0 [])).
  assert (f0 <> f1) as N1.
  { intros E. apply tunnel_bytes_inj in E; [|by apply F..]. done. }
  eexists s1, f0, s2, f1, _, fa, (handle_ack 0 s2).
  split; [exact E0|]. split; [exact E1|].
  split; [unfold f1; rewrite on_frame_bytes by (by apply F); reflexivity|]. split; [reflexivity|].
  split; [unfold fa; rewrite on_frame_bytes by (by apply FC); reflexivity|].
  set (s3 := handle_ack 0 s2). assert (pending_ s3 = [mkMsg 1 ch1 TF_RELIABLE f1 t1]) as P by reflexivity.
  assert (on_tx s3 = true) as T by reflexivity. clearbody s3.
  intros now. unfold tick, resend. rewrite P. cbn [map concat]. rewrite app_nil_r.
  assert (Tx f0 ∉ (if overdue now s3 (mkMsg 1 ch1 TF_RELIABLE f1 t1) then tx s3 f1 else [])) as N2.
  { unfold tx. rewrite T. destruct (overdue _ _ _); [|apply not_elem_of_nil].
    rewrite list_elem_of_singleton. by intros [= E]. }
  destruct (_ <=? _).
  - rewrite new_frame_empty. cbn [mbind outcome_bind mret outcome_ret]. eexists _, _. split; [reflexivity|].
    split; [|by destruct (overdue _ _ _)]. rewrite not_elem_of_app. split; [|exact N2].
    unfold tx. rewrite T, list_elem_of_singleton. by intros [= E].
  - cbn [mbind outcome_bind mret outcome_ret]. eexists _, _. split; [reflexivity|].
    split; [exact N2|by destruct (overdue _ _ _)].
Qed.

Lemma first_message_lost_witness :
  exists s1 f0 s2 f1 r fa s3,
    Session.send 5 1 [7] true (create 1 true true) = Done (0, s1, [Tx f0]) /\
    Session.send 6 1 [8] true s1 = Done (0, s2, [Tx f1]) /\
    on_frame f1 (create 2 true true) = Done (r, [Tx fa]) /\ on_frame fa s2 = Done (s3, []).
Proof.
  destruct (first_message_lost 1 2 5 6 1 1 [7] [8]) as (s1 & f0 & s2 & f1 & r & fa & s3 & E1 & E2 & E3 & _ & E4 & _).
  - unfold u16_ok. lia.
  - unfold u16_ok. lia.
  - unfold byte_ok. lia.
  - unfold MAX_TUNNEL_PAYLOAD. cbn. lia.
  - exists s1, f0, s2, f1, r, fa, s3. split; [exact E1|]. split; [exact E2|]. split; [exact E3|exact E4].
Defined.

End ReliableLink.
