(* ===== verification/NatDetect.v ===== *)
(** * NAT detection, client side

    Models [NatDetect] of [client/sdk/transport/NatDetect.h]: the state machine that
    sends detection requests and classifies the NAT from the answers.  The send
    callback is a list of destinations and octets. *)

From S2P Require Import Prelude.
From S2P Require Import Bytes.
From S2P Require Import Wire.
From S2P Require Import ProtoDef.
From S2P Require Import NetUtil.
From S2P Require Import Packet.
From S2P Require Import NatTypeCheck.
From S2P Require Import TunnelCodec.

#[local] Open Scope Z_scope.

Module NatDetect.

(** [Phase::Done] is [Classified] here. *)
Inductive Phase := Idle | Main | Alt | Classified.

#[export] Instance phase_eq_dec : EqDecision Phase.
Proof. solve_decision. Defined.

Record t := mk {
  phase_ : Phase;
  nattype_ : NatType;
  got_main_idx0_ : bool;
  got_main_idx1_ : bool;
  got_alt_ : bool;
  mapped_ip_main_ : bytes;
  mapped_port_main_ : Z;
  mapped_port_alt_ : Z;
  deadline_ : Z;
  main_timeout_ms_ : Z;
  retry_ms_ : Z
}.

Definition initial : t := mk Idle NAT_UNKNOWN false false false (replicate 16 0) 0 0 0 2500 500.

Definition send_req (ip : bytes) (port : Z) : list (sockaddr_in * bytes) :=
  match inet_pton ip with
  | None => []
  | Some a => [(mkAddr a (htons port), codec_write_head (msg_id MSG_NAT_DETECT_REQ) 0)]
  end.

Definition start (server_ip : bytes) (main_port now_ms : Z) (s : t) : t * list (sockaddr_in * bytes) :=
  (mk Main (nattype_ s) false false false (replicate 16 0) 0 (mapped_port_alt_ s)
     (u64 (now_ms + main_timeout_ms_ s)) (main_timeout_ms_ s) (retry_ms_ s),
   send_req server_ip main_port).

Definition classify (s : t) : t :=
  mk Classified
    (if got_alt_ s && (mapped_port_alt_ s =? mapped_port_main_ s) then NAT_PORT_RESTRICTED else NAT_SYMMETRIC)
    (got_main_idx0_ s) (got_main_idx1_ s) (got_alt_ s) (mapped_ip_main_ s) (mapped_port_main_ s)
    (mapped_port_alt_ s) (deadline_ s) (main_timeout_ms_ s) (retry_ms_ s).

(** [rsp] is the memory at the answer, [n] its length: only three octets are asked
    for, thirty-seven are read. *)
Definition feed (rsp : bytes) (n : Z) (s : t) : outcome t :=
  if n <? 3 then mret s
  else if (length rsp <? 37)%nat then Fault OutOfBounds
  else
    let idx := octet rsp 0 in
    let mapped_port := be16 rsp 35 in
    mret
      match phase_ s with
      | Main =>
          let s :=
            if idx =? 0 then
              mk Main (nattype_ s) true (got_main_idx1_ s) (got_alt_ s) (slice 19 16 rsp) mapped_port
                (mapped_port_alt_ s) (deadline_ s) (main_timeout_ms_ s) (retry_ms_ s)
            else if idx =? 1 then
              mk Main (nattype_ s) (got_main_idx0_ s) true (got_alt_ s) (mapped_ip_main_ s) (mapped_port_main_ s)
                (mapped_port_alt_ s) (deadline_ s) (main_timeout_ms_ s) (retry_ms_ s)
            else s in
          if got_main_idx0_ s && got_main_idx1_ s then
            mk Classified NAT_FULL_CONE (got_main_idx0_ s) (got_main_idx1_ s) (got_alt_ s) (mapped_ip_main_ s)
              (mapped_port_main_ s) (mapped_port_alt_ s) (deadline_ s) (main_timeout_ms_ s) (retry_ms_ s)
          else s
      | Alt =>
          if idx =? 0 then
            classify (mk Alt (nattype_ s) (got_main_idx0_ s) (got_main_idx1_ s) true (mapped_ip_main_ s)
                        (mapped_port_main_ s) mapped_port (deadline_ s) (main_timeout_ms_ s) (retry_ms_ s))
          else s
      | Idle | Classified => s
      end.

Definition expect (p : Phase) (now_ms : Z) (s : t) : t :=
  mk p (nattype_ s) (got_main_idx0_ s) (got_main_idx1_ s) (got_alt_ s) (mapped_ip_main_ s) (mapped_port_main_ s)
    (mapped_port_alt_ s) (u64 (now_ms + main_timeout_ms_ s)) (main_timeout_ms_ s) (retry_ms_ s).

Definition tick (server_ip : bytes) (main_port alt_port now_ms : Z) (s : t) : t * list (sockaddr_in * bytes) :=
  let late := u64 (deadline_ s + retry_ms_ s) <=? now_ms in
  match phase_ s with
  | Main =>
      if late then
        if negb (got_main_idx0_ s) then (expect Main now_ms s, send_req server_ip main_port)
        else (expect Alt now_ms s, send_req server_ip alt_port)
      else (s, [])
  | Alt =>
      if late then
        if got_alt_ s then (classify s, []) else (expect Alt now_ms s, send_req server_ip alt_port)
      else (s, [])
  | Idle | Classified => (s, [])
  end.

Definition done (s : t) : bool := bool_decide (phase_ s = Classified).

Definition set_timeouts (main_timeout_ms retry_ms : Z) (s : t) : t :=
  mk (phase_ s) (nattype_ s) (got_main_idx0_ s) (got_main_idx1_ s) (got_alt_ s) (mapped_ip_main_ s)
    (mapped_port_main_ s) (mapped_port_alt_ s) (deadline_ s) main_timeout_ms retry_ms.

(** The client's dispatch of an answer: header, then [feed] on what follows it in the
    receive buffer. *)
Definition receive (buf : bytes) (s : t) : outcome t :=
  match codec_read_head buf with
  | None => mret s
  | Some h =>
      if wh_msg_id h =? msg_id MSG_NAT_DETECT_RSP then
        feed (drop 8 buf) (if wh_length h <=? len buf - 8 then wh_length h else 0) s
      else mret s
  end.

(** ** What an answer says *)

Lemma be16_slice buf i :
  bytes_ok buf -> (i + 2 <= length buf)%nat -> be16 buf i = ntohs (le_dec (slice i 2 buf)).
Proof.
  intros H L. rewrite be16_val by (by apply octet_ok). unfold slice, octet.
  destruct (drop i buf) as [|a [|b r]] eqn:E.
  { assert (length (drop i buf) = 0%nat) as X by by rewrite E. rewrite length_drop in X. lia. }
  { assert (length (drop i buf) = 1%nat) as X by by rewrite E. rewrite length_drop in X. lia. }
  assert (forall j x, (a :: b :: r) !! j = Some x -> nth (i + j) buf 0 = x) as N.
  { intros j x Hj. apply nth_lookup_Some. by rewrite <- lookup_drop, E. }
  pose proof (N 0%nat a eq_refl) as N0. pose proof (N 1%nat b eq_refl) as N1. rewrite Nat.add_0_r in N0.
  rewrite N0, N1. cbn [take]. rewrite ntohs_pair; [done|..].
  - rewrite <- N0. by apply (octet_ok buf i).
  - rewrite <- N1. by apply (octet_ok buf (i + 1)).
Qed.

(** An answer as the server encodes it, read at the client's offsets. *)
Lemma answer_octets self to i mp ap :
  addr_ok to -> (forall a, self = Some a -> addr_ok a) -> byte_ok i ->
  let p := cenc NatDetectRsp_codec (NatTypeCheck.detect_rsp self to i mp ap) in
  length p = 41%nat /\ bytes_ok p /\ octet p 0 = i /\ be16 p 35 = htons (sin_port to) /\
  slice 19 16 p = ip_field (s_addr to).
Proof.
  intros Ht Hs Hi p. pose proof (NatTypeCheck.detect_rsp_ok self to i mp ap Ht Hs Hi) as K.
  pose proof (codec_size _ K) as L. change (csize NatDetectRsp_codec) with 41%nat in L. fold p in L.
  pose proof (codec_bytes _ K) as B. fold p in B.
  assert (exists x y q, p = (i :: x ++ y) ++ ip_field (s_addr to) ++ le_enc 2 (sin_port to) ++ q /\
            length x = 16%nat /\ length y = 2%nat) as (x & y & q & E & Lx & Ly).
  { set (x := match self with Some a => ip_field (s_addr a) | None => replicate 16 0 end).
    set (y := match self with Some a => sin_port a | None => htons 0 end).
    exists x, (le_enc 2 y), (le_enc 2 (htons mp) ++ le_enc 2 (htons ap)).
    assert (p = le_enc 1 i ++ x ++ le_enc 2 y ++ ip_field (s_addr to) ++ le_enc 2 (sin_port to) ++
                le_enc 2 (htons mp) ++ le_enc 2 (htons ap)) as -> by reflexivity.
    split; [|split; [unfold x; destruct self; [apply length_ip_field|done]|apply length_le_enc]].
    change (le_enc 1 i) with [Z.land i 255]. rewrite land255, Z.mod_small by (unfold byte_ok in Hi; lia).
    cbn [app]. by rewrite <- app_assoc. }
  assert (length (i :: x ++ y) = 19%nat) as L1 by (cbn [length]; rewrite length_app; lia).
  split; [done|]. split; [done|]. split; [by rewrite E|]. split.
  - rewrite be16_slice by (done || lia). rewrite E. unfold slice.
    rewrite app_assoc, drop_app_exact by (rewrite length_app, L1, length_ip_field; done).
    rewrite take_app_exact by apply length_le_enc.
    rewrite le_dec_enc_small by (destruct Ht as [_ ?]; unfold u16_ok in *; cbn; lia). done.
  - rewrite E. unfold slice. rewrite drop_app_exact by done. by rewrite take_app_exact by apply length_ip_field.
Qed.

Lemma receive_answer k self to i mp ap s :
  addr_ok to -> (forall a, self = Some a -> addr_ok a) -> byte_ok i ->
  receive (dg_data (NatTypeCheck.send_rsp k self to i mp ap)) s =
  feed (cenc NatDetectRsp_codec (NatTypeCheck.detect_rsp self to i mp ap)) 41 s.
Proof.
  intros Ht Hs Hi. destruct (answer_octets self to i mp ap Ht Hs Hi) as (L & B & _).
  unfold receive, NatTypeCheck.send_rsp. cbn [dg_data]. set (p := cenc _ _) in *.
  assert (len p = 41) as Lp by (unfold len; by rewrite L).
  rewrite <- head_is_frame by (done || by rewrite Lp). rewrite Lp, write_head_bytes by done.
  unfold codec_read_head. rewrite (proj2 (Nat.ltb_ge _ _)) by (rewrite length_app; cbn; lia).
  change (negb (wh_magic _ =? NAT_MAGIC)) with false. change (negb (wh_version _ =? PROTO_VER)) with false.
  cbv iota zeta. change (wh_msg_id _ =? _) with true. change (wh_length _) with 41. cbv iota.
  rewrite (proj2 (Z.leb_le _ _)) by (unfold len; rewrite length_app, L; cbn; lia). done.
Qed.

(** ** The client, a NAT and the server's two sockets *)

(** What a NAT lets in at a public port of the client: everything; what comes from an
    address the client has contacted from that port, whatever port it is sent from; what
    comes from an address and port it has contacted from there. *)
Inductive filtering := Open | Address_restricted | Port_restricted.

(** A NAT: its public address, the public port (network order) of the client's socket
    towards each server socket, and its filter. *)
Record nat_box := mkBox { box_addr : Z; port_towards : sock -> Z; filtering_of : filtering }.

Definition seen_from (b : nat_box) (k : sock) : sockaddr_in := mkAddr (box_addr b) (port_towards b k).

(** Whether the NAT takes a packet from the second socket for one from the first.  Both
    sockets of the server have one address, so only the filter by port keeps them apart. *)
Definition same_source (f : filtering) (k k' : sock) : bool :=
  match f with Port_restricted => bool_decide (k = k') | _ => true end.

(** A packet passes if the filter is open, or if the client has contacted its source from
    the public port it is sent to. *)
Definition passes (b : nat_box) (contacted : list sock) (d : datagram) : bool :=
  match filtering_of b with
  | Open => true
  | f => existsb (fun k => same_source f k (dg_sock d) && (port_towards b k =? sin_port (dg_to d))) contacted
  end.

Definition request : bytes := codec_write_head (msg_id MSG_NAT_DETECT_REQ) 0.

(** What reaches the client of the server's answers to a request to socket [k]. *)
Definition answers (names : sock -> option sockaddr_in) (srv : NatTypeCheck.t) (b : nat_box) (contacted : list sock)
    (k : sock) : list datagram :=
  filter (fun d => passes b contacted d = true) (NatTypeCheck.try_fast_handle names srv request (seen_from b k)).2.

Fixpoint hear (ds : list datagram) (s : t) : outcome t :=
  match ds with
  | [] => mret s
  | d :: ds => s ← receive (dg_data d) s; hear ds s
  end.

Section Detection.
Context (names : sock -> option sockaddr_in) (srv : NatTypeCheck.t) (b : nat_box).
Hypothesis Hb : u32_ok (box_addr b) /\ forall k, u16_ok (port_towards b k).
Hypothesis Hn : forall k a, names k = Some a -> addr_ok a.

Lemma seen_ok k : addr_ok (seen_from b k).
Proof. destruct Hb as [A P]. split; [done|apply P]. Qed.

Lemma answers_dual contacted k :
  answers names srv b contacted k =
  filter (fun d => passes b contacted d = true) (NatTypeCheck.dual_reply names srv (seen_from b k)).
Proof. done. Qed.

(** The answer from either socket, received. *)
Lemma receive_from k sk i s :
  (sk = MainSock /\ i = 0) \/ (sk = AltSock /\ i = 1) ->
  exists p,
    receive (dg_data (NatTypeCheck.send_rsp sk (names sk) (seen_from b k) i (NatTypeCheck.main_port_ srv)
                        (NatTypeCheck.alt_port_ srv))) s = feed p 41 s /\
    length p = 41%nat /\ octet p 0 = i /\ be16 p 35 = htons (port_towards b k) /\
    slice 19 16 p = ip_field (box_addr b).
Proof.
  intros Hi. assert (byte_ok i) as Bi by (destruct Hi as [[_ ->]|[_ ->]]; done).
  rewrite receive_answer; [|apply seen_ok|apply Hn|done].
  destruct (answer_octets (names sk) (seen_from b k) i (NatTypeCheck.main_port_ srv) (NatTypeCheck.alt_port_ srv)
              (seen_ok k) (Hn sk) Bi) as (L & _ & O & M & S).
  eexists. split; [reflexivity|]. done.
Qed.

(** The answer of one socket to a request to socket [k]. *)
Definition reply (sk k : sock) : datagram :=
  NatTypeCheck.send_rsp sk (names sk) (seen_from b k) (match sk with MainSock => 0 | AltSock => 1 end)
    (NatTypeCheck.main_port_ srv) (NatTypeCheck.alt_port_ srv).

Lemma answers_eq contacted k :
  answers names srv b contacted k =
  (if passes b contacted (reply MainSock k) then [reply MainSock k] else []) ++
  (if passes b contacted (reply AltSock k) then [reply AltSock k] else []).
Proof.
  rewrite answers_dual. unfold NatTypeCheck.dual_reply. fold (reply MainSock k). fold (reply AltSock k).
  rewrite !filter_cons, filter_nil. by destruct (passes b contacted (reply MainSock k)), (passes b contacted (reply AltSock k)).
Qed.

Lemma passes_reply contacted sk k :
  passes b contacted (reply sk k) =
  match filtering_of b with
  | Open => true
  | f => existsb (fun k' => same_source f k' sk && (port_towards b k' =? port_towards b k)) contacted
  end.
Proof. done. Qed.

(** What an answer does to the client. *)
Lemma receive_main k s :
  exists s', receive (dg_data (reply MainSock k)) s = Done s' /\
    match phase_ s with
    | Main =>
        if got_main_idx1_ s then phase_ s' = Classified /\ nattype_ s' = NAT_FULL_CONE
        else s' = mk Main (nattype_ s) true false (got_alt_ s) (ip_field (box_addr b)) (htons (port_towards b k))
                    (mapped_port_alt_ s) (deadline_ s) (main_timeout_ms_ s) (retry_ms_ s)
    | Alt => phase_ s' = Classified /\
             nattype_ s' = (if htons (port_towards b k) =? mapped_port_main_ s then NAT_PORT_RESTRICTED else NAT_SYMMETRIC)
    | _ => s' = s
    end.
Proof.
  destruct (receive_from k MainSock 0 s) as (p & E & L & O & M & S); [by left|].
  unfold reply. rewrite E. unfold feed. rewrite L, O, M, S. cbn [Z.ltb Z.compare Nat.ltb Nat.leb Z.eqb].
  eexists. split; [reflexivity|]. destruct s as [[] ? g0 [] ? ? ? ? ? ? ?]; cbn; try done.
Qed.

Lemma receive_alt k s :
  exists s', receive (dg_data (reply AltSock k)) s = Done s' /\
    match phase_ s with
    | Main =>
        if got_main_idx0_ s then
          s' = mk Classified NAT_FULL_CONE true true (got_alt_ s) (mapped_ip_main_ s) (mapped_port_main_ s)
                 (mapped_port_alt_ s) (deadline_ s) (main_timeout_ms_ s) (retry_ms_ s)
        else s' = mk Main (nattype_ s) false true (got_alt_ s) (mapped_ip_main_ s) (mapped_port_main_ s)
                 (mapped_port_alt_ s) (deadline_ s) (main_timeout_ms_ s) (retry_ms_ s)
    | _ => s' = s
    end.
Proof.
  destruct (receive_from k AltSock 1 s) as (p & E & L & O & M & S); [by right|].
  unfold reply. rewrite E. unfold feed. rewrite L, O, M, S. cbn [Z.ltb Z.compare Nat.ltb Nat.leb Z.eqb].
  eexists. split; [reflexivity|]. destruct s as [[] ? [] ? ? ? ? ? ? ? ?]; cbn; try done.
Qed.

(** Unless it filters by port, the NAT lets in both answers to a first request. *)
Lemma answers_both :
  filtering_of b <> Port_restricted -> answers names srv b [MainSock] MainSock = [reply MainSock MainSock; reply AltSock MainSock].
Proof.
  intros F. rewrite answers_eq, !passes_reply. cbn [existsb]. rewrite Z.eqb_refl. by destruct (filtering_of b).
Qed.

Lemma answers_main :
  filtering_of b = Port_restricted -> answers names srv b [MainSock] MainSock = [reply MainSock MainSock].
Proof. intros F. rewrite answers_eq, !passes_reply, F. cbn [existsb]. by rewrite Z.eqb_refl. Qed.

(** With one public port, both answers to the second request come in. *)
Lemma answers_cone :
  port_towards b AltSock = port_towards b MainSock ->
  answers names srv b [AltSock; MainSock] AltSock = [reply MainSock AltSock; reply AltSock AltSock].
Proof.
  intros C. rewrite answers_eq, !passes_reply. cbn [existsb]. rewrite C, Z.eqb_refl. by destruct (filtering_of b).
Qed.

End Detection.

(** C23: what a cone NAT is classified as.  Against this server, whose two sockets have one
    address, a client behind a NAT that maps it to one public port learns that address and
    port from one exchange with the main socket.  If the NAT filters by address and port,
    the late tick asks the second socket and that exchange classifies it as port
    restricted.  If it does not filter, or only by address, both answers of the first
    exchange come in and classify it as full cone: an address-restricted cone is not told
    from an open one. *)
Theorem cone_detected (names : sock -> option sockaddr_in) (srv : NatTypeCheck.t) (b : nat_box) (s : t)
    (ip : bytes) (a now : Z)
    (Hb : u32_ok (box_addr b) /\ forall k, u16_ok (port_towards b k))
    (Hn : forall k x, names k = Some x -> addr_ok x)
    (Hcone : port_towards b AltSock = port_towards b MainSock) (Hip : inet_pton ip = Some a) :
  let s1 := (start ip (NatTypeCheck.main_port_ srv) now s).1 in
  (start ip (NatTypeCheck.main_port_ srv) now s).2 = [(mkAddr a (htons (NatTypeCheck.main_port_ srv)), request)] /\
  exists s2, hear (answers names srv b [MainSock] MainSock) s1 = Done s2 /\
    c_str (mapped_ip_main_ s2) = inet_ntop (box_addr b) /\ mapped_port_main_ s2 = ntohs (port_towards b MainSock) /\
    match filtering_of b with
    | Open | Address_restricted => done s2 = true /\ nattype_ s2 = NAT_FULL_CONE
    | Port_restricted => forall late, u64 (deadline_ s2 + retry_ms_ s2) <= late ->
      let '(s3, out) := tick ip (NatTypeCheck.main_port_ srv) (NatTypeCheck.alt_port_ srv) late s2 in
      out = [(mkAddr a (htons (NatTypeCheck.alt_port_ srv)), request)] /\
      exists s4, hear (answers names srv b [AltSock; MainSock] AltSock) s3 = Done s4 /\
        done s4 = true /\ nattype_ s4 = NAT_PORT_RESTRICTED
    end.
Proof.
  intros s1. split; [unfold start, send_req; by rewrite Hip|].
  destruct (receive_main names srv b Hb Hn MainSock s1) as (s2 & E2 & S2). cbn in S2.
  assert (filtering_of b <> Port_restricted \/ filtering_of b = Port_restricted) as [Of|Of]
    by (destruct (filtering_of b); first [by left|by right]).
  - rewrite answers_both by done. cbn [hear]. rewrite E2. cbn [mbind outcome_bind].
    destruct (receive_alt names srv b Hb Hn MainSock s2) as (s2' & E2' & S2').
    rewrite E2'. cbn [mbind outcome_bind mret outcome_ret]. exists s2'. split; [done|].
    subst s2. cbn [phase_ got_main_idx0_] in S2'. subst s2'.
    split; [exact (c_str_ip_field _)|]. split; [done|]. by destruct (filtering_of b).
  - rewrite answers_main by done. cbn [hear].
    rewrite E2. cbn [mbind outcome_bind mret outcome_ret]. exists s2. split; [done|]. split; [subst s2; exact (c_str_ip_field _)|].
    split; [by subst s2|]. rewrite Of. intros late Hl. unfold tick, send_req. rewrite Hip.
    assert (phase_ s2 = Main /\ got_main_idx0_ s2 = true /\ mapped_port_main_ s2 = htons (port_towards b MainSock))
      as (P2 & G2 & M2) by (by subst s2).
    rewrite P2, (proj2 (Z.leb_le _ _) Hl), G2. cbn [negb]. split; [done|].
    rewrite answers_cone by done. cbn [hear].
    set (s3 := expect Alt late s2).
    destruct (receive_main names srv b Hb Hn AltSock s3) as (s4 & E4 & P4 & N4). rewrite E4. cbn [mbind outcome_bind].
    destruct (receive_alt names srv b Hb Hn AltSock s4) as (s5 & E5 & S5). rewrite E5. rewrite P4 in S5. subst s5.
    cbn [mbind outcome_bind mret outcome_ret]. exists s4. split; [done|]. unfold done. rewrite P4. split; [done|].
    rewrite N4. cbn [mapped_port_main_ s3 expect]. by rewrite M2, Hcone, Z.eqb_refl.
Qed.

Lemma cone_detected_witness :
  let srv := NatTypeCheck.mk true true 3478 3479 true in
  let s1 := (start (bs "10.0.0.1") 3478 7 initial).1 in
  (exists s2, hear (answers (fun _ => None) srv (mkBox 16909060 (fun _ => 4242) Address_restricted) [MainSock] MainSock) s1 = Done s2 /\
     nattype_ s2 = NAT_FULL_CONE) /\
  (exists s2, hear (answers (fun _ => None) srv (mkBox 16909060 (fun _ => 4242) Port_restricted) [MainSock] MainSock) s1 = Done s2 /\
     mapped_port_main_ s2 = ntohs 4242 /\
     exists s4, hear (answers (fun _ => None) srv (mkBox 16909060 (fun _ => 4242) Port_restricted) [AltSock; MainSock] AltSock)
       (tick (bs "10.0.0.1") 3478 3479 (u64 (deadline_ s2 + retry_ms_ s2)) s2).1 = Done s4 /\ nattype_ s4 = NAT_PORT_RESTRICTED).
Proof.
  intros srv s1.
  pose (fun f => cone_detected (fun _ => None) srv (mkBox 16909060 (fun _ => 4242) f) initial (bs "10.0.0.1") 16777226 7) as D.
  split.
  - destruct (D Address_restricted) as [_ (s2 & E & _ & _ & _ & N)]; [|discriminate|reflexivity|reflexivity|].
    { unfold u32_ok, u16_ok. cbn. split; [lia|intros; lia]. }
    exists s2. split; [exact E|exact N].
  - destruct (D Port_restricted) as [_ (s2 & E & _ & M & L)]; [|discriminate|reflexivity|reflexivity|].
    { unfold u32_ok, u16_ok. cbn. split; [lia|intros; lia]. }
    exists s2. split; [exact E|]. split; [exact M|]. specialize (L _ (Z.le_refl _)). cbn [NatTypeCheck.main_port_ NatTypeCheck.alt_port_ srv] in L.
    destruct (tick _ _ _ _ s2) as [s3 out]. destruct L as [_ (s4 & E4 & _ & N)]. exists s4. split; [exact E4|exact N].
Defined.

Section Symmetric.
Context (names : sock -> option sockaddr_in) (srv : NatTypeCheck.t) (b : nat_box).
Hypothesis Hb : u32_ok (box_addr b) /\ forall k, u16_ok (port_towards b k).
Hypothesis Hn : forall k a, names k = Some a -> addr_ok a.

(** A client behind the NAT: it is started, ticks, or receives any answer of the server
    that the NAT lets in once both server sockets have been contacted, in any order and
    any number of times. *)
Inductive step : t -> t -> Prop :=
| step_start ip port now s : step s (start ip port now s).1
| step_tick ip mp ap now s : step s (tick ip mp ap now s).1
| step_hear sk k s s' :
    passes b [MainSock; AltSock] (reply names srv b sk k) = true ->
    receive (dg_data (reply names srv b sk k)) s = Done s' -> step s s'.

Definition undecided (s : t) : Prop :=
  nattype_ s <> NAT_SYMMETRIC /\
  match phase_ s with
  | Main => (got_main_idx0_ s = true -> mapped_port_main_ s = htons (port_towards b MainSock)) /\ got_alt_ s = false
  | Alt => mapped_port_main_ s = htons (port_towards b MainSock) /\ got_alt_ s = false
  | _ => True
  end.

Hypothesis Hclosed : filtering_of b = Port_restricted.

Lemma passes_main k :
  passes b [MainSock; AltSock] (reply names srv b MainSock k) = true -> port_towards b k = port_towards b MainSock.
Proof.
  rewrite passes_reply, Hclosed. cbn [existsb same_source]. change (bool_decide (AltSock = MainSock)) with false.
  cbn [andb orb]. rewrite orb_false_r. intros E%andb_true_iff. destruct E as [_ E]. apply Z.eqb_eq in E. done.
Qed.

Lemma undecided_step s s' : step s s' -> undecided s -> undecided s'.
Proof.
  intros [ip port now x|ip mp ap now x|sk k x x' P R] [U1 U2].
  - by split.
  - unfold tick. destruct (phase_ x) eqn:Ph.
    + by split; cbn [fst]; rewrite ?Ph.
    + destruct U2 as [M A]. destruct (_ <=? _); [|by split; cbn [fst]; rewrite ?Ph].
      destruct (got_main_idx0_ x) eqn:G; cbn [negb fst]; (split; [done|]);
        cbn [phase_ expect mapped_port_main_ got_alt_ got_main_idx0_].
      * by auto.
      * by rewrite G.
    + destruct U2 as [M A]. rewrite A. destruct (_ <=? _); [by split|by split; cbn [fst]; rewrite ?Ph].
    + by split; cbn [fst]; rewrite ?Ph.
  - destruct sk.
    + destruct (receive_main names srv b Hb Hn k x) as (y & E & S). rewrite E in R. injection R as ->.
      destruct (phase_ x) eqn:Ph; try (subst x'; by split; rewrite ?Ph).
      * destruct U2 as [M A]. destruct (got_main_idx1_ x).
        -- destruct S as [S1 S2]. split; [by rewrite S2|by rewrite S1].
        -- subst x'. split; [done|]. cbn. rewrite (passes_main k P). by auto.
      * destruct U2 as [M A]. destruct S as [S1 S2]. rewrite M, (passes_main k P), Z.eqb_refl in S2.
        split; [by rewrite S2|by rewrite S1].
    + destruct (receive_alt names srv b Hb Hn k x) as (y & E & S). rewrite E in R. injection R as ->.
      destruct (phase_ x) eqn:Ph; try (subst x'; by split; rewrite ?Ph).
      destruct U2 as [M A]. destruct (got_main_idx0_ x) eqn:G; subst x'; (split; [done|]); cbn; by auto.
Qed.

(** A symmetric NAT is never recognised.  The second phase counts only answers with
    index 0, which the server always sends from its main socket, and a NAT that
    filters by port lets those in only at the port used towards that socket: so whatever arrives
    when, no client behind such a NAT reports a symmetric one; and when its ports
    towards the two sockets differ, nothing the second request brings back changes the
    state of a client that waits in that phase. *)
Theorem symmetric_undetected (s : t) (Hreach : rtc step initial s) :
  nattype_ s <> NAT_SYMMETRIC /\
  (port_towards b AltSock <> port_towards b MainSock -> phase_ s = Alt ->
   hear (answers names srv b [AltSock; MainSock] AltSock) s = Done s).
Proof.
  split.
  - cut (undecided s); [by intros []|]. clear -Hreach Hb Hn Hclosed.
    revert s Hreach. apply rtc_ind_r; [by split|]. intros x y _ Hxy. by apply undecided_step.
  - intros Hd Ph. rewrite answers_eq by done. rewrite !passes_reply, Hclosed. cbn [existsb orb same_source].
    rewrite (proj2 (Z.eqb_neq (port_towards b MainSock) (port_towards b AltSock))) by congruence.
    rewrite Z.eqb_refl. change (bool_decide (AltSock = MainSock)) with false.
    change (bool_decide (AltSock = AltSock)) with true. cbn [andb orb app]. rewrite andb_false_r. cbn [orb app hear].
    destruct (receive_alt names srv b Hb Hn AltSock s) as (s' & E & S). rewrite E. rewrite Ph in S. by subst s'.
Qed.

End Symmetric.

Lemma symmetric_undetected_witness :
  let b := mkBox 16909060 (fun k => match k with MainSock => 1 | AltSock => 2 end) Port_restricted in
  nattype_ (start (bs "10.0.0.1") 3478 7 initial).1 <> NAT_SYMMETRIC.
Proof.
  intros b.
  refine (proj1 (symmetric_undetected (fun _ => None) (NatTypeCheck.mk true true 3478 3479 true) b _ _ _ _ _)).
  - unfold u32_ok, u16_ok. cbn. split; [lia|intros []; lia].
  - discriminate.
  - reflexivity.
  - apply rtc_once, step_start.
Defined.

(** An answer of three octets is accepted although thirty-seven are read: what lies
    behind it in the receive buffer becomes the mapped port. *)
Theorem short_answer_reads_on (s : t) (idx x y hi lo : Z) (stale : bytes)
    (Hp : phase_ s = Main) (Hi : idx = 0) (Hs : length stale = 32%nat) (Hb : byte_ok hi /\ byte_ok lo) :
  exists s', feed (idx :: x :: y :: stale ++ [hi; lo]) 3 s = Done s' /\
    (got_main_idx1_ s = false -> got_main_idx0_ s' = true /\ mapped_port_main_ s' = 256 * hi + lo).
Proof.
  subst idx. unfold feed. cbn [Z.ltb Z.compare Pos.compare Pos.compare_cont].
  rewrite (proj2 (Nat.ltb_ge _ _)) by (cbn [length]; rewrite length_app, Hs; cbn; lia).
  assert (be16 (0 :: x :: y :: stale ++ [hi; lo]) 35 = 256 * hi + lo) as M.
  { unfold be16, octet. change 35%nat with (3 + 32)%nat.
    replace (3 + 32 + 1)%nat with (S (S (S (S (length stale))))) by lia.
    replace (3 + 32)%nat with (S (S (S (length stale)))) by lia. cbn [nth].
    rewrite !app_nth2 by lia. rewrite Nat.sub_diag. replace (S (length stale) - length stale)%nat with 1%nat by lia.
    cbn [nth]. rewrite lor_octets by apply Hb. destruct Hb. apply u16_small. unfold u16_ok, byte_ok in *. lia. }
  rewrite M, Hp. eexists. split; [reflexivity|]. intros G. cbn. by rewrite G.
Qed.

Lemma short_answer_reads_on_witness :
  exists s', feed ([0; 0; 0] ++ replicate 32 9 ++ [1; 2]) 3 (start (bs "10.0.0.1") 3478 7 initial).1 = Done s' /\
    (false = false -> got_main_idx0_ s' = true /\ mapped_port_main_ s' = 258).
Proof.
  apply (short_answer_reads_on (start (bs "10.0.0.1") 3478 7 initial).1 0 0 0 1 2 (replicate 32 9)); try reflexivity.
  unfold byte_ok. lia.
Defined.

End NatDetect.
