(* ===== verification/ClientState.v ===== *)
(** * The client's state

    The data of [P2PClient] ([client/sdk/api/P2PClient.h]): configuration, the
    sub-states of a connection, the back-off counter and the fields of the client,
    with what the environment gives a handler and what a handler does outside the
    state. *)

From S2P Require Import Prelude.
From S2P Require Import Bytes.
From S2P Require Import ProtoDef.
From S2P Require Import NetUtil.
From S2P Require Import AesModes.
From S2P Require Import Handler.
From S2P Require Import Session.
From S2P Require Import NatDetect.

#[local] Open Scope Z_scope.

Module ClientState.

(** The port is in host order. *)
Record ServerAddr := mkServer { sv_ip : bytes; sv_port : Z }.

#[export] Instance server_addr_eq_dec : EqDecision ServerAddr.
Proof. solve_decision. Defined.

Record Config := mkConfig {
  uuid : bytes;
  secret : bytes;
  nat_servers : list ServerAddr;
  proxy_servers : list ServerAddr;
  heartbeat_ms : Z;
  heartbeat_retry_ms : Z;
  nat_detect_timeout_ms : Z;
  connect_timeout_ms : Z;
  punch_interval_ms : Z;
  auth_timeout_ms : Z;
  relay_register_ms : Z;
  nat_detect_enabled : bool;
  auto_relay : bool;
  force_relay : bool
}.

(** The default member initialisers, for an identifier, a secret and servers. *)
Definition default_config (uuid secret : bytes) (nats proxies : list ServerAddr) : Config :=
  mkConfig uuid secret nats proxies 20000 3000 2500 6000 1000 3000 1000 true true false.

(** The pool [punch_socks] is a list of socket numbers; [juice] is whether there is an agent. *)
Record PunchState := mkPunch {
  direct : sockaddr_in;
  direct_lan : sockaddr_in;
  have_direct : bool;
  have_lan : bool;
  direct_ok : bool;
  punch_deadline : Z;
  next_punch : Z;
  punch_socks : list nat;
  direct_sock_idx : Z;
  juice : bool;
  local_sdp : bytes;
  remote_sdp : bytes
}.

Definition set_direct (x : sockaddr_in) (p : PunchState) : PunchState :=
  mkPunch x (direct_lan p) (have_direct p) (have_lan p) (direct_ok p) (punch_deadline p) (next_punch p)
    (punch_socks p) (direct_sock_idx p) (juice p) (local_sdp p) (remote_sdp p).

Definition set_direct_lan (x : sockaddr_in) (p : PunchState) : PunchState :=
  mkPunch (direct p) x (have_direct p) (have_lan p) (direct_ok p) (punch_deadline p) (next_punch p)
    (punch_socks p) (direct_sock_idx p) (juice p) (local_sdp p) (remote_sdp p).

Definition set_have_direct (x : bool) (p : PunchState) : PunchState :=
  mkPunch (direct p) (direct_lan p) x (have_lan p) (direct_ok p) (punch_deadline p) (next_punch p)
    (punch_socks p) (direct_sock_idx p) (juice p) (local_sdp p) (remote_sdp p).

Definition set_have_lan (x : bool) (p : PunchState) : PunchState :=
  mkPunch (direct p) (direct_lan p) (have_direct p) x (direct_ok p) (punch_deadline p) (next_punch p)
    (punch_socks p) (direct_sock_idx p) (juice p) (local_sdp p) (remote_sdp p).

Definition set_direct_ok (x : bool) (p : PunchState) : PunchState :=
  mkPunch (direct p) (direct_lan p) (have_direct p) (have_lan p) x (punch_deadline p) (next_punch p)
    (punch_socks p) (direct_sock_idx p) (juice p) (local_sdp p) (remote_sdp p).

Definition set_punch_deadline (x : Z) (p : PunchState) : PunchState :=
  mkPunch (direct p) (direct_lan p) (have_direct p) (have_lan p) (direct_ok p) x (next_punch p)
    (punch_socks p) (direct_sock_idx p) (juice p) (local_sdp p) (remote_sdp p).

Definition set_next_punch (x : Z) (p : PunchState) : PunchState :=
  mkPunch (direct p) (direct_lan p) (have_direct p) (have_lan p) (direct_ok p) (punch_deadline p) x
    (punch_socks p) (direct_sock_idx p) (juice p) (local_sdp p) (remote_sdp p).

Definition set_punch_socks (x : list nat) (p : PunchState) : PunchState :=
  mkPunch (direct p) (direct_lan p) (have_direct p) (have_lan p) (direct_ok p) (punch_deadline p)
    (next_punch p) x (direct_sock_idx p) (juice p) (local_sdp p) (remote_sdp p).

Definition set_direct_sock_idx (x : Z) (p : PunchState) : PunchState :=
  mkPunch (direct p) (direct_lan p) (have_direct p) (have_lan p) (direct_ok p) (punch_deadline p)
    (next_punch p) (punch_socks p) x (juice p) (local_sdp p) (remote_sdp p).

Definition set_juice (x : bool) (p : PunchState) : PunchState :=
  mkPunch (direct p) (direct_lan p) (have_direct p) (have_lan p) (direct_ok p) (punch_deadline p)
    (next_punch p) (punch_socks p) (direct_sock_idx p) x (local_sdp p) (remote_sdp p).

Definition set_local_sdp (x : bytes) (p : PunchState) : PunchState :=
  mkPunch (direct p) (direct_lan p) (have_direct p) (have_lan p) (direct_ok p) (punch_deadline p)
    (next_punch p) (punch_socks p) (direct_sock_idx p) (juice p) x (remote_sdp p).

Definition set_remote_sdp (x : bytes) (p : PunchState) : PunchState :=
  mkPunch (direct p) (direct_lan p) (have_direct p) (have_lan p) (direct_ok p) (punch_deadline p)
    (next_punch p) (punch_socks p) (direct_sock_idx p) (juice p) (local_sdp p) x.

(** The other two fields of [RelayState] are never read. *)
Record RelayState := mkRelay {
  relay_ok : bool;
  next_relay_ping : Z
}.

Definition set_relay_ok (x : bool) (r : RelayState) : RelayState :=
  mkRelay x (next_relay_ping r).

Definition set_next_relay_ping (x : Z) (r : RelayState) : RelayState :=
  mkRelay (relay_ok r) x.

(** [self] is whether the back pointer is set. *)
Record Conn := mkConn {
  peer_uuid : bytes;
  punch : PunchState;
  relay : RelayState;
  connecting : bool;
  connected : bool;
  backoff_attempt : Z;
  self : bool
}.

Definition set_peer_uuid (x : bytes) (c : Conn) : Conn :=
  mkConn x (punch c) (relay c) (connecting c) (connected c) (backoff_attempt c) (self c).

Definition set_punch (x : PunchState) (c : Conn) : Conn :=
  mkConn (peer_uuid c) x (relay c) (connecting c) (connected c) (backoff_attempt c) (self c).

Definition set_relay (x : RelayState) (c : Conn) : Conn :=
  mkConn (peer_uuid c) (punch c) x (connecting c) (connected c) (backoff_attempt c) (self c).

Definition set_connecting (x : bool) (c : Conn) : Conn :=
  mkConn (peer_uuid c) (punch c) (relay c) x (connected c) (backoff_attempt c) (self c).

Definition set_connected (x : bool) (c : Conn) : Conn :=
  mkConn (peer_uuid c) (punch c) (relay c) (connecting c) x (backoff_attempt c) (self c).

Definition set_backoff_attempt (x : Z) (c : Conn) : Conn :=
  mkConn (peer_uuid c) (punch c) (relay c) (connecting c) (connected c) x (self c).

Definition set_self (x : bool) (c : Conn) : Conn :=
  mkConn (peer_uuid c) (punch c) (relay c) (connecting c) (connected c) (backoff_attempt c) x.

(** A value-initialised connection, what [conns_[peer]] inserts. *)
Definition new_conn : Conn :=
  mkConn [] (mkPunch addr_zero addr_zero false false false 0 0 [] (-1) false [] []) (mkRelay false 0) false false 0 false.

(** ** Back-off *)

Record BackOff := mkBackOff { attempt : Z; base_ms : Z; cap_ms : Z }.

Definition backoff_init : BackOff := mkBackOff 0 1000 30000.

(** [for (i = 0; i + 1 < attempt && d < cap; i++) d *= 2], in 32 bits; [n] is the
    number of rounds left. *)
Fixpoint double_while (n : nat) (cap d : Z) : Z :=
  match n with
  | S n => if d <? cap then double_while n cap (u32 (d * 2)) else d
  | O => d
  end.

Definition backoff_delay (attempt base cap : Z) : Z :=
  let d := double_while (Z.to_nat (attempt - 1)) cap base in if cap <? d then cap else d.

Definition next_delay (b : BackOff) : Z * BackOff :=
  (backoff_delay (attempt b) (base_ms b) (cap_ms b), mkBackOff (u32 (attempt b + 1)) (base_ms b) (cap_ms b)).

Definition reset (b : BackOff) : BackOff := mkBackOff 0 (base_ms b) (cap_ms b).

(** ** The client *)

(** Which callbacks the application has set. *)
Record callbacks := mkCallbacks { on_ready : bool; on_connected : bool; on_message : bool; on_disconnected : bool; on_error : bool }.

(** [draws_] counts the reads of the random device so far; [rand_counter_] is the static counter of [plat_rand_bytes]. *)
Record t := mk {
  cfg_ : Config;
  secret_ : bytes;
  cbs_ : callbacks;
  running_ : bool;
  nat_server_ : ServerAddr;
  nat_sock_ : sockaddr_in;
  alt_port_ : Z;
  pub_ip_ : bytes;
  pub_port_ : Z;
  next_heartbeat_ms_ : Z;
  heartbeat_fail_ : Z;
  heartbeat_backoff_ : BackOff;
  authed_ : bool;
  heartbeat_enc_ : bool;
  auth_denied_ : bool;
  auth_nonce_ : bytes;
  next_auth_try_ : Z;
  auth_inflight_ : bool;
  auth_backoff_ : BackOff;
  tunnel_enc_ : bool;
  tunnel_keys_ : gmap bytes bytes;
  tunnel_enc_tx_ : Z;
  tunnel_enc_rx_ : Z;
  nat_detect_ : NatDetect.t;
  nat_type_ : NatType;
  proxies_ : list ServerAddr;
  next_relay_reg_ : Z;
  relay_registered_ : bool;
  conns_ : gmap bytes Conn;
  sessions_ : gmap bytes Session.t;
  addr_to_peer_ : gmap Z bytes;
  next_session_id_ : Z;
  ready_fired_ : bool;
  pending_remote_sdp_ : bytes;
  draws_ : nat;
  rand_counter_ : Z
}.

Definition set_cfg_ (x : Config) (s : t) : t :=
  mk x (secret_ s) (cbs_ s) (running_ s) (nat_server_ s) (nat_sock_ s) (alt_port_ s) (pub_ip_ s)
    (pub_port_ s) (next_heartbeat_ms_ s) (heartbeat_fail_ s) (heartbeat_backoff_ s) (authed_ s)
    (heartbeat_enc_ s) (auth_denied_ s) (auth_nonce_ s) (next_auth_try_ s) (auth_inflight_ s)
    (auth_backoff_ s) (tunnel_enc_ s) (tunnel_keys_ s) (tunnel_enc_tx_ s) (tunnel_enc_rx_ s) (nat_detect_ s)
    (nat_type_ s) (proxies_ s) (next_relay_reg_ s) (relay_registered_ s) (conns_ s) (sessions_ s)
    (addr_to_peer_ s) (next_session_id_ s) (ready_fired_ s) (pending_remote_sdp_ s) (draws_ s)
    (rand_counter_ s).

Definition set_secret_ (x : bytes) (s : t) : t :=
  mk (cfg_ s) x (cbs_ s) (running_ s) (nat_server_ s) (nat_sock_ s) (alt_port_ s) (pub_ip_ s) (pub_port_ s)
    (next_heartbeat_ms_ s) (heartbeat_fail_ s) (heartbeat_backoff_ s) (authed_ s) (heartbeat_enc_ s)
    (auth_denied_ s) (auth_nonce_ s) (next_auth_try_ s) (auth_inflight_ s) (auth_backoff_ s) (tunnel_enc_ s)
    (tunnel_keys_ s) (tunnel_enc_tx_ s) (tunnel_enc_rx_ s) (nat_detect_ s) (nat_type_ s) (proxies_ s)
    (next_relay_reg_ s) (relay_registered_ s) (conns_ s) (sessions_ s) (addr_to_peer_ s)
    (next_session_id_ s) (ready_fired_ s) (pending_remote_sdp_ s) (draws_ s) (rand_counter_ s).

Definition set_cbs_ (x : callbacks) (s : t) : t :=
  mk (cfg_ s) (secret_ s) x (running_ s) (nat_server_ s) (nat_sock_ s) (alt_port_ s) (pub_ip_ s)
    (pub_port_ s) (next_heartbeat_ms_ s) (heartbeat_fail_ s) (heartbeat_backoff_ s) (authed_ s)
    (heartbeat_enc_ s) (auth_denied_ s) (auth_nonce_ s) (next_auth_try_ s) (auth_inflight_ s)
    (auth_backoff_ s) (tunnel_enc_ s) (tunnel_keys_ s) (tunnel_enc_tx_ s) (tunnel_enc_rx_ s) (nat_detect_ s)
    (nat_type_ s) (proxies_ s) (next_relay_reg_ s) (relay_registered_ s) (conns_ s) (sessions_ s)
    (addr_to_peer_ s) (next_session_id_ s) (ready_fired_ s) (pending_remote_sdp_ s) (draws_ s)
    (rand_counter_ s).

Definition set_running_ (x : bool) (s : t) : t :=
  mk (cfg_ s) (secret_ s) (cbs_ s) x (nat_server_ s) (nat_sock_ s) (alt_port_ s) (pub_ip_ s) (pub_port_ s)
    (next_heartbeat_ms_ s) (heartbeat_fail_ s) (heartbeat_backoff_ s) (authed_ s) (heartbeat_enc_ s)
    (auth_denied_ s) (auth_nonce_ s) (next_auth_try_ s) (auth_inflight_ s) (auth_backoff_ s) (tunnel_enc_ s)
    (tunnel_keys_ s) (tunnel_enc_tx_ s) (tunnel_enc_rx_ s) (nat_detect_ s) (nat_type_ s) (proxies_ s)
    (next_relay_reg_ s) (relay_registered_ s) (conns_ s) (sessions_ s) (addr_to_peer_ s)
    (next_session_id_ s) (ready_fired_ s) (pending_remote_sdp_ s) (draws_ s) (rand_counter_ s).

Definition set_nat_server_ (x : ServerAddr) (s : t) : t :=
  mk (cfg_ s) (secret_ s) (cbs_ s) (running_ s) x (nat_sock_ s) (alt_port_ s) (pub_ip_ s) (pub_port_ s)
    (next_heartbeat_ms_ s) (heartbeat_fail_ s) (heartbeat_backoff_ s) (authed_ s) (heartbeat_enc_ s)
    (auth_denied_ s) (auth_nonce_ s) (next_auth_try_ s) (auth_inflight_ s) (auth_backoff_ s) (tunnel_enc_ s)
    (tunnel_keys_ s) (tunnel_enc_tx_ s) (tunnel_enc_rx_ s) (nat_detect_ s) (nat_type_ s) (proxies_ s)
    (next_relay_reg_ s) (relay_registered_ s) (conns_ s) (sessions_ s) (addr_to_peer_ s)
    (next_session_id_ s) (ready_fired_ s) (pending_remote_sdp_ s) (draws_ s) (rand_counter_ s).

Definition set_nat_sock_ (x : sockaddr_in) (s : t) : t :=
  mk (cfg_ s) (secret_ s) (cbs_ s) (running_ s) (nat_server_ s) x (alt_port_ s) (pub_ip_ s) (pub_port_ s)
    (next_heartbeat_ms_ s) (heartbeat_fail_ s) (heartbeat_backoff_ s) (authed_ s) (heartbeat_enc_ s)
    (auth_denied_ s) (auth_nonce_ s) (next_auth_try_ s) (auth_inflight_ s) (auth_backoff_ s) (tunnel_enc_ s)
    (tunnel_keys_ s) (tunnel_enc_tx_ s) (tunnel_enc_rx_ s) (nat_detect_ s) (nat_type_ s) (proxies_ s)
    (next_relay_reg_ s) (relay_registered_ s) (conns_ s) (sessions_ s) (addr_to_peer_ s)
    (next_session_id_ s) (ready_fired_ s) (pending_remote_sdp_ s) (draws_ s) (rand_counter_ s).

Definition set_alt_port_ (x : Z) (s : t) : t :=
  mk (cfg_ s) (secret_ s) (cbs_ s) (running_ s) (nat_server_ s) (nat_sock_ s) x (pub_ip_ s) (pub_port_ s)
    (next_heartbeat_ms_ s) (heartbeat_fail_ s) (heartbeat_backoff_ s) (authed_ s) (heartbeat_enc_ s)
    (auth_denied_ s) (auth_nonce_ s) (next_auth_try_ s) (auth_inflight_ s) (auth_backoff_ s) (tunnel_enc_ s)
    (tunnel_keys_ s) (tunnel_enc_tx_ s) (tunnel_enc_rx_ s) (nat_detect_ s) (nat_type_ s) (proxies_ s)
    (next_relay_reg_ s) (relay_registered_ s) (conns_ s) (sessions_ s) (addr_to_peer_ s)
    (next_session_id_ s) (ready_fired_ s) (pending_remote_sdp_ s) (draws_ s) (rand_counter_ s).

Definition set_pub_ip_ (x : bytes) (s : t) : t :=
  mk (cfg_ s) (secret_ s) (cbs_ s) (running_ s) (nat_server_ s) (nat_sock_ s) (alt_port_ s) x (pub_port_ s)
    (next_heartbeat_ms_ s) (heartbeat_fail_ s) (heartbeat_backoff_ s) (authed_ s) (heartbeat_enc_ s)
    (auth_denied_ s) (auth_nonce_ s) (next_auth_try_ s) (auth_inflight_ s) (auth_backoff_ s) (tunnel_enc_ s)
    (tunnel_keys_ s) (tunnel_enc_tx_ s) (tunnel_enc_rx_ s) (nat_detect_ s) (nat_type_ s) (proxies_ s)
    (next_relay_reg_ s) (relay_registered_ s) (conns_ s) (sessions_ s) (addr_to_peer_ s)
    (next_session_id_ s) (ready_fired_ s) (pending_remote_sdp_ s) (draws_ s) (rand_counter_ s).

Definition set_pub_port_ (x : Z) (s : t) : t :=
  mk (cfg_ s) (secret_ s) (cbs_ s) (running_ s) (nat_server_ s) (nat_sock_ s) (alt_port_ s) (pub_ip_ s) x
    (next_heartbeat_ms_ s) (heartbeat_fail_ s) (heartbeat_backoff_ s) (authed_ s) (heartbeat_enc_ s)
    (auth_denied_ s) (auth_nonce_ s) (next_auth_try_ s) (auth_inflight_ s) (auth_backoff_ s) (tunnel_enc_ s)
    (tunnel_keys_ s) (tunnel_enc_tx_ s) (tunnel_enc_rx_ s) (nat_detect_ s) (nat_type_ s) (proxies_ s)
    (next_relay_reg_ s) (relay_registered_ s) (conns_ s) (sessions_ s) (addr_to_peer_ s)
    (next_session_id_ s) (ready_fired_ s) (pending_remote_sdp_ s) (draws_ s) (rand_counter_ s).

Definition set_next_heartbeat_ms_ (x : Z) (s : t) : t :=
  mk (cfg_ s) (secret_ s) (cbs_ s) (running_ s) (nat_server_ s) (nat_sock_ s) (alt_port_ s) (pub_ip_ s)
    (pub_port_ s) x (heartbeat_fail_ s) (heartbeat_backoff_ s) (authed_ s) (heartbeat_enc_ s)
    (auth_denied_ s) (auth_nonce_ s) (next_auth_try_ s) (auth_inflight_ s) (auth_backoff_ s) (tunnel_enc_ s)
    (tunnel_keys_ s) (tunnel_enc_tx_ s) (tunnel_enc_rx_ s) (nat_detect_ s) (nat_type_ s) (proxies_ s)
    (next_relay_reg_ s) (relay_registered_ s) (conns_ s) (sessions_ s) (addr_to_peer_ s)
    (next_session_id_ s) (ready_fired_ s) (pending_remote_sdp_ s) (draws_ s) (rand_counter_ s).

Definition set_heartbeat_fail_ (x : Z) (s : t) : t :=
  mk (cfg_ s) (secret_ s) (cbs_ s) (running_ s) (nat_server_ s) (nat_sock_ s) (alt_port_ s) (pub_ip_ s)
    (pub_port_ s) (next_heartbeat_ms_ s) x (heartbeat_backoff_ s) (authed_ s) (heartbeat_enc_ s)
    (auth_denied_ s) (auth_nonce_ s) (next_auth_try_ s) (auth_inflight_ s) (auth_backoff_ s) (tunnel_enc_ s)
    (tunnel_keys_ s) (tunnel_enc_tx_ s) (tunnel_enc_rx_ s) (nat_detect_ s) (nat_type_ s) (proxies_ s)
    (next_relay_reg_ s) (relay_registered_ s) (conns_ s) (sessions_ s) (addr_to_peer_ s)
    (next_session_id_ s) (ready_fired_ s) (pending_remote_sdp_ s) (draws_ s) (rand_counter_ s).

Definition set_heartbeat_backoff_ (x : BackOff) (s : t) : t :=
  mk (cfg_ s) (secret_ s) (cbs_ s) (running_ s) (nat_server_ s) (nat_sock_ s) (alt_port_ s) (pub_ip_ s)
    (pub_port_ s) (next_heartbeat_ms_ s) (heartbeat_fail_ s) x (authed_ s) (heartbeat_enc_ s)
    (auth_denied_ s) (auth_nonce_ s) (next_auth_try_ s) (auth_inflight_ s) (auth_backoff_ s) (tunnel_enc_ s)
    (tunnel_keys_ s) (tunnel_enc_tx_ s) (tunnel_enc_rx_ s) (nat_detect_ s) (nat_type_ s) (proxies_ s)
    (next_relay_reg_ s) (relay_registered_ s) (conns_ s) (sessions_ s) (addr_to_peer_ s)
    (next_session_id_ s) (ready_fired_ s) (pending_remote_sdp_ s) (draws_ s) (rand_counter_ s).

Definition set_authed_ (x : bool) (s : t) : t :=
  mk (cfg_ s) (secret_ s) (cbs_ s) (running_ s) (nat_server_ s) (nat_sock_ s) (alt_port_ s) (pub_ip_ s)
    (pub_port_ s) (next_heartbeat_ms_ s) (heartbeat_fail_ s) (heartbeat_backoff_ s) x (heartbeat_enc_ s)
    (auth_denied_ s) (auth_nonce_ s) (next_auth_try_ s) (auth_inflight_ s) (auth_backoff_ s) (tunnel_enc_ s)
    (tunnel_keys_ s) (tunnel_enc_tx_ s) (tunnel_enc_rx_ s) (nat_detect_ s) (nat_type_ s) (proxies_ s)
    (next_relay_reg_ s) (relay_registered_ s) (conns_ s) (sessions_ s) (addr_to_peer_ s)
    (next_session_id_ s) (ready_fired_ s) (pending_remote_sdp_ s) (draws_ s) (rand_counter_ s).

Definition set_heartbeat_enc_ (x : bool) (s : t) : t :=
  mk (cfg_ s) (secret_ s) (cbs_ s) (running_ s) (nat_server_ s) (nat_sock_ s) (alt_port_ s) (pub_ip_ s)
    (pub_port_ s) (next_heartbeat_ms_ s) (heartbeat_fail_ s) (heartbeat_backoff_ s) (authed_ s) x
    (auth_denied_ s) (auth_nonce_ s) (next_auth_try_ s) (auth_inflight_ s) (auth_backoff_ s) (tunnel_enc_ s)
    (tunnel_keys_ s) (tunnel_enc_tx_ s) (tunnel_enc_rx_ s) (nat_detect_ s) (nat_type_ s) (proxies_ s)
    (next_relay_reg_ s) (relay_registered_ s) (conns_ s) (sessions_ s) (addr_to_peer_ s)
    (next_session_id_ s) (ready_fired_ s) (pending_remote_sdp_ s) (draws_ s) (rand_counter_ s).

Definition set_auth_denied_ (x : bool) (s : t) : t :=
  mk (cfg_ s) (secret_ s) (cbs_ s) (running_ s) (nat_server_ s) (nat_sock_ s) (alt_port_ s) (pub_ip_ s)
    (pub_port_ s) (next_heartbeat_ms_ s) (heartbeat_fail_ s) (heartbeat_backoff_ s) (authed_ s)
    (heartbeat_enc_ s) x (auth_nonce_ s) (next_auth_try_ s) (auth_inflight_ s) (auth_backoff_ s)
    (tunnel_enc_ s) (tunnel_keys_ s) (tunnel_enc_tx_ s) (tunnel_enc_rx_ s) (nat_detect_ s) (nat_type_ s)
    (proxies_ s) (next_relay_reg_ s) (relay_registered_ s) (conns_ s) (sessions_ s) (addr_to_peer_ s)
    (next_session_id_ s) (ready_fired_ s) (pending_remote_sdp_ s) (draws_ s) (rand_counter_ s).

Definition set_auth_nonce_ (x : bytes) (s : t) : t :=
  mk (cfg_ s) (secret_ s) (cbs_ s) (running_ s) (nat_server_ s) (nat_sock_ s) (alt_port_ s) (pub_ip_ s)
    (pub_port_ s) (next_heartbeat_ms_ s) (heartbeat_fail_ s) (heartbeat_backoff_ s) (authed_ s)
    (heartbeat_enc_ s) (auth_denied_ s) x (next_auth_try_ s) (auth_inflight_ s) (auth_backoff_ s)
    (tunnel_enc_ s) (tunnel_keys_ s) (tunnel_enc_tx_ s) (tunnel_enc_rx_ s) (nat_detect_ s) (nat_type_ s)
    (proxies_ s) (next_relay_reg_ s) (relay_registered_ s) (conns_ s) (sessions_ s) (addr_to_peer_ s)
    (next_session_id_ s) (ready_fired_ s) (pending_remote_sdp_ s) (draws_ s) (rand_counter_ s).

Definition set_next_auth_try_ (x : Z) (s : t) : t :=
  mk (cfg_ s) (secret_ s) (cbs_ s) (running_ s) (nat_server_ s) (nat_sock_ s) (alt_port_ s) (pub_ip_ s)
    (pub_port_ s) (next_heartbeat_ms_ s) (heartbeat_fail_ s) (heartbeat_backoff_ s) (authed_ s)
    (heartbeat_enc_ s) (auth_denied_ s) (auth_nonce_ s) x (auth_inflight_ s) (auth_backoff_ s)
    (tunnel_enc_ s) (tunnel_keys_ s) (tunnel_enc_tx_ s) (tunnel_enc_rx_ s) (nat_detect_ s) (nat_type_ s)
    (proxies_ s) (next_relay_reg_ s) (relay_registered_ s) (conns_ s) (sessions_ s) (addr_to_peer_ s)
    (next_session_id_ s) (ready_fired_ s) (pending_remote_sdp_ s) (draws_ s) (rand_counter_ s).

Definition set_auth_inflight_ (x : bool) (s : t) : t :=
  mk (cfg_ s) (secret_ s) (cbs_ s) (running_ s) (nat_server_ s) (nat_sock_ s) (alt_port_ s) (pub_ip_ s)
    (pub_port_ s) (next_heartbeat_ms_ s) (heartbeat_fail_ s) (heartbeat_backoff_ s) (authed_ s)
    (heartbeat_enc_ s) (auth_denied_ s) (auth_nonce_ s) (next_auth_try_ s) x (auth_backoff_ s)
    (tunnel_enc_ s) (tunnel_keys_ s) (tunnel_enc_tx_ s) (tunnel_enc_rx_ s) (nat_detect_ s) (nat_type_ s)
    (proxies_ s) (next_relay_reg_ s) (relay_registered_ s) (conns_ s) (sessions_ s) (addr_to_peer_ s)
    (next_session_id_ s) (ready_fired_ s) (pending_remote_sdp_ s) (draws_ s) (rand_counter_ s).

Definition set_auth_backoff_ (x : BackOff) (s : t) : t :=
  mk (cfg_ s) (secret_ s) (cbs_ s) (running_ s) (nat_server_ s) (nat_sock_ s) (alt_port_ s) (pub_ip_ s)
    (pub_port_ s) (next_heartbeat_ms_ s) (heartbeat_fail_ s) (heartbeat_backoff_ s) (authed_ s)
    (heartbeat_enc_ s) (auth_denied_ s) (auth_nonce_ s) (next_auth_try_ s) (auth_inflight_ s) x
    (tunnel_enc_ s) (tunnel_keys_ s) (tunnel_enc_tx_ s) (tunnel_enc_rx_ s) (nat_detect_ s) (nat_type_ s)
    (proxies_ s) (next_relay_reg_ s) (relay_registered_ s) (conns_ s) (sessions_ s) (addr_to_peer_ s)
    (next_session_id_ s) (ready_fired_ s) (pending_remote_sdp_ s) (draws_ s) (rand_counter_ s).

Definition set_tunnel_enc_ (x : bool) (s : t) : t :=
  mk (cfg_ s) (secret_ s) (cbs_ s) (running_ s) (nat_server_ s) (nat_sock_ s) (alt_port_ s) (pub_ip_ s)
    (pub_port_ s) (next_heartbeat_ms_ s) (heartbeat_fail_ s) (heartbeat_backoff_ s) (authed_ s)
    (heartbeat_enc_ s) (auth_denied_ s) (auth_nonce_ s) (next_auth_try_ s) (auth_inflight_ s)
    (auth_backoff_ s) x (tunnel_keys_ s) (tunnel_enc_tx_ s) (tunnel_enc_rx_ s) (nat_detect_ s) (nat_type_ s)
    (proxies_ s) (next_relay_reg_ s) (relay_registered_ s) (conns_ s) (sessions_ s) (addr_to_peer_ s)
    (next_session_id_ s) (ready_fired_ s) (pending_remote_sdp_ s) (draws_ s) (rand_counter_ s).

Definition set_tunnel_keys_ (x : gmap bytes bytes) (s : t) : t :=
  mk (cfg_ s) (secret_ s) (cbs_ s) (running_ s) (nat_server_ s) (nat_sock_ s) (alt_port_ s) (pub_ip_ s)
    (pub_port_ s) (next_heartbeat_ms_ s) (heartbeat_fail_ s) (heartbeat_backoff_ s) (authed_ s)
    (heartbeat_enc_ s) (auth_denied_ s) (auth_nonce_ s) (next_auth_try_ s) (auth_inflight_ s)
    (auth_backoff_ s) (tunnel_enc_ s) x (tunnel_enc_tx_ s) (tunnel_enc_rx_ s) (nat_detect_ s) (nat_type_ s)
    (proxies_ s) (next_relay_reg_ s) (relay_registered_ s) (conns_ s) (sessions_ s) (addr_to_peer_ s)
    (next_session_id_ s) (ready_fired_ s) (pending_remote_sdp_ s) (draws_ s) (rand_counter_ s).

Definition set_tunnel_enc_tx_ (x : Z) (s : t) : t :=
  mk (cfg_ s) (secret_ s) (cbs_ s) (running_ s) (nat_server_ s) (nat_sock_ s) (alt_port_ s) (pub_ip_ s)
    (pub_port_ s) (next_heartbeat_ms_ s) (heartbeat_fail_ s) (heartbeat_backoff_ s) (authed_ s)
    (heartbeat_enc_ s) (auth_denied_ s) (auth_nonce_ s) (next_auth_try_ s) (auth_inflight_ s)
    (auth_backoff_ s) (tunnel_enc_ s) (tunnel_keys_ s) x (tunnel_enc_rx_ s) (nat_detect_ s) (nat_type_ s)
    (proxies_ s) (next_relay_reg_ s) (relay_registered_ s) (conns_ s) (sessions_ s) (addr_to_peer_ s)
    (next_session_id_ s) (ready_fired_ s) (pending_remote_sdp_ s) (draws_ s) (rand_counter_ s).

Definition set_tunnel_enc_rx_ (x : Z) (s : t) : t :=
  mk (cfg_ s) (secret_ s) (cbs_ s) (running_ s) (nat_server_ s) (nat_sock_ s) (alt_port_ s) (pub_ip_ s)
    (pub_port_ s) (next_heartbeat_ms_ s) (heartbeat_fail_ s) (heartbeat_backoff_ s) (authed_ s)
    (heartbeat_enc_ s) (auth_denied_ s) (auth_nonce_ s) (next_auth_try_ s) (auth_inflight_ s)
    (auth_backoff_ s) (tunnel_enc_ s) (tunnel_keys_ s) (tunnel_enc_tx_ s) x (nat_detect_ s) (nat_type_ s)
    (proxies_ s) (next_relay_reg_ s) (relay_registered_ s) (conns_ s) (sessions_ s) (addr_to_peer_ s)
    (next_session_id_ s) (ready_fired_ s) (pending_remote_sdp_ s) (draws_ s) (rand_counter_ s).

Definition set_nat_detect_ (x : NatDetect.t) (s : t) : t :=
  mk (cfg_ s) (secret_ s) (cbs_ s) (running_ s) (nat_server_ s) (nat_sock_ s) (alt_port_ s) (pub_ip_ s)
    (pub_port_ s) (next_heartbeat_ms_ s) (heartbeat_fail_ s) (heartbeat_backoff_ s) (authed_ s)
    (heartbeat_enc_ s) (auth_denied_ s) (auth_nonce_ s) (next_auth_try_ s) (auth_inflight_ s)
    (auth_backoff_ s) (tunnel_enc_ s) (tunnel_keys_ s) (tunnel_enc_tx_ s) (tunnel_enc_rx_ s) x (nat_type_ s)
    (proxies_ s) (next_relay_reg_ s) (relay_registered_ s) (conns_ s) (sessions_ s) (addr_to_peer_ s)
    (next_session_id_ s) (ready_fired_ s) (pending_remote_sdp_ s) (draws_ s) (rand_counter_ s).

Definition set_nat_type_ (x : NatType) (s : t) : t :=
  mk (cfg_ s) (secret_ s) (cbs_ s) (running_ s) (nat_server_ s) (nat_sock_ s) (alt_port_ s) (pub_ip_ s)
    (pub_port_ s) (next_heartbeat_ms_ s) (heartbeat_fail_ s) (heartbeat_backoff_ s) (authed_ s)
    (heartbeat_enc_ s) (auth_denied_ s) (auth_nonce_ s) (next_auth_try_ s) (auth_inflight_ s)
    (auth_backoff_ s) (tunnel_enc_ s) (tunnel_keys_ s) (tunnel_enc_tx_ s) (tunnel_enc_rx_ s) (nat_detect_ s)
    x (proxies_ s) (next_relay_reg_ s) (relay_registered_ s) (conns_ s) (sessions_ s) (addr_to_peer_ s)
    (next_session_id_ s) (ready_fired_ s) (pending_remote_sdp_ s) (draws_ s) (rand_counter_ s).

Definition set_proxies_ (x : list ServerAddr) (s : t) : t :=
  mk (cfg_ s) (secret_ s) (cbs_ s) (running_ s) (nat_server_ s) (nat_sock_ s) (alt_port_ s) (pub_ip_ s)
    (pub_port_ s) (next_heartbeat_ms_ s) (heartbeat_fail_ s) (heartbeat_backoff_ s) (authed_ s)
    (heartbeat_enc_ s) (auth_denied_ s) (auth_nonce_ s) (next_auth_try_ s) (auth_inflight_ s)
    (auth_backoff_ s) (tunnel_enc_ s) (tunnel_keys_ s) (tunnel_enc_tx_ s) (tunnel_enc_rx_ s) (nat_detect_ s)
    (nat_type_ s) x (next_relay_reg_ s) (relay_registered_ s) (conns_ s) (sessions_ s) (addr_to_peer_ s)
    (next_session_id_ s) (ready_fired_ s) (pending_remote_sdp_ s) (draws_ s) (rand_counter_ s).

Definition set_next_relay_reg_ (x : Z) (s : t) : t :=
  mk (cfg_ s) (secret_ s) (cbs_ s) (running_ s) (nat_server_ s) (nat_sock_ s) (alt_port_ s) (pub_ip_ s)
    (pub_port_ s) (next_heartbeat_ms_ s) (heartbeat_fail_ s) (heartbeat_backoff_ s) (authed_ s)
    (heartbeat_enc_ s) (auth_denied_ s) (auth_nonce_ s) (next_auth_try_ s) (auth_inflight_ s)
    (auth_backoff_ s) (tunnel_enc_ s) (tunnel_keys_ s) (tunnel_enc_tx_ s) (tunnel_enc_rx_ s) (nat_detect_ s)
    (nat_type_ s) (proxies_ s) x (relay_registered_ s) (conns_ s) (sessions_ s) (addr_to_peer_ s)
    (next_session_id_ s) (ready_fired_ s) (pending_remote_sdp_ s) (draws_ s) (rand_counter_ s).

Definition set_relay_registered_ (x : bool) (s : t) : t :=
  mk (cfg_ s) (secret_ s) (cbs_ s) (running_ s) (nat_server_ s) (nat_sock_ s) (alt_port_ s) (pub_ip_ s)
    (pub_port_ s) (next_heartbeat_ms_ s) (heartbeat_fail_ s) (heartbeat_backoff_ s) (authed_ s)
    (heartbeat_enc_ s) (auth_denied_ s) (auth_nonce_ s) (next_auth_try_ s) (auth_inflight_ s)
    (auth_backoff_ s) (tunnel_enc_ s) (tunnel_keys_ s) (tunnel_enc_tx_ s) (tunnel_enc_rx_ s) (nat_detect_ s)
    (nat_type_ s) (proxies_ s) (next_relay_reg_ s) x (conns_ s) (sessions_ s) (addr_to_peer_ s)
    (next_session_id_ s) (ready_fired_ s) (pending_remote_sdp_ s) (draws_ s) (rand_counter_ s).

Definition set_conns_ (x : gmap bytes Conn) (s : t) : t :=
  mk (cfg_ s) (secret_ s) (cbs_ s) (running_ s) (nat_server_ s) (nat_sock_ s) (alt_port_ s) (pub_ip_ s)
    (pub_port_ s) (next_heartbeat_ms_ s) (heartbeat_fail_ s) (heartbeat_backoff_ s) (authed_ s)
    (heartbeat_enc_ s) (auth_denied_ s) (auth_nonce_ s) (next_auth_try_ s) (auth_inflight_ s)
    (auth_backoff_ s) (tunnel_enc_ s) (tunnel_keys_ s) (tunnel_enc_tx_ s) (tunnel_enc_rx_ s) (nat_detect_ s)
    (nat_type_ s) (proxies_ s) (next_relay_reg_ s) (relay_registered_ s) x (sessions_ s) (addr_to_peer_ s)
    (next_session_id_ s) (ready_fired_ s) (pending_remote_sdp_ s) (draws_ s) (rand_counter_ s).

Definition set_sessions_ (x : gmap bytes Session.t) (s : t) : t :=
  mk (cfg_ s) (secret_ s) (cbs_ s) (running_ s) (nat_server_ s) (nat_sock_ s) (alt_port_ s) (pub_ip_ s)
    (pub_port_ s) (next_heartbeat_ms_ s) (heartbeat_fail_ s) (heartbeat_backoff_ s) (authed_ s)
    (heartbeat_enc_ s) (auth_denied_ s) (auth_nonce_ s) (next_auth_try_ s) (auth_inflight_ s)
    (auth_backoff_ s) (tunnel_enc_ s) (tunnel_keys_ s) (tunnel_enc_tx_ s) (tunnel_enc_rx_ s) (nat_detect_ s)
    (nat_type_ s) (proxies_ s) (next_relay_reg_ s) (relay_registered_ s) (conns_ s) x (addr_to_peer_ s)
    (next_session_id_ s) (ready_fired_ s) (pending_remote_sdp_ s) (draws_ s) (rand_counter_ s).

Definition set_addr_to_peer_ (x : gmap Z bytes) (s : t) : t :=
  mk (cfg_ s) (secret_ s) (cbs_ s) (running_ s) (nat_server_ s) (nat_sock_ s) (alt_port_ s) (pub_ip_ s)
    (pub_port_ s) (next_heartbeat_ms_ s) (heartbeat_fail_ s) (heartbeat_backoff_ s) (authed_ s)
    (heartbeat_enc_ s) (auth_denied_ s) (auth_nonce_ s) (next_auth_try_ s) (auth_inflight_ s)
    (auth_backoff_ s) (tunnel_enc_ s) (tunnel_keys_ s) (tunnel_enc_tx_ s) (tunnel_enc_rx_ s) (nat_detect_ s)
    (nat_type_ s) (proxies_ s) (next_relay_reg_ s) (relay_registered_ s) (conns_ s) (sessions_ s) x
    (next_session_id_ s) (ready_fired_ s) (pending_remote_sdp_ s) (draws_ s) (rand_counter_ s).

Definition set_next_session_id_ (x : Z) (s : t) : t :=
  mk (cfg_ s) (secret_ s) (cbs_ s) (running_ s) (nat_server_ s) (nat_sock_ s) (alt_port_ s) (pub_ip_ s)
    (pub_port_ s) (next_heartbeat_ms_ s) (heartbeat_fail_ s) (heartbeat_backoff_ s) (authed_ s)
    (heartbeat_enc_ s) (auth_denied_ s) (auth_nonce_ s) (next_auth_try_ s) (auth_inflight_ s)
    (auth_backoff_ s) (tunnel_enc_ s) (tunnel_keys_ s) (tunnel_enc_tx_ s) (tunnel_enc_rx_ s) (nat_detect_ s)
    (nat_type_ s) (proxies_ s) (next_relay_reg_ s) (relay_registered_ s) (conns_ s) (sessions_ s)
    (addr_to_peer_ s) x (ready_fired_ s) (pending_remote_sdp_ s) (draws_ s) (rand_counter_ s).

Definition set_ready_fired_ (x : bool) (s : t) : t :=
  mk (cfg_ s) (secret_ s) (cbs_ s) (running_ s) (nat_server_ s) (nat_sock_ s) (alt_port_ s) (pub_ip_ s)
    (pub_port_ s) (next_heartbeat_ms_ s) (heartbeat_fail_ s) (heartbeat_backoff_ s) (authed_ s)
    (heartbeat_enc_ s) (auth_denied_ s) (auth_nonce_ s) (next_auth_try_ s) (auth_inflight_ s)
    (auth_backoff_ s) (tunnel_enc_ s) (tunnel_keys_ s) (tunnel_enc_tx_ s) (tunnel_enc_rx_ s) (nat_detect_ s)
    (nat_type_ s) (proxies_ s) (next_relay_reg_ s) (relay_registered_ s) (conns_ s) (sessions_ s)
    (addr_to_peer_ s) (next_session_id_ s) x (pending_remote_sdp_ s) (draws_ s) (rand_counter_ s).

Definition set_pending_remote_sdp_ (x : bytes) (s : t) : t :=
  mk (cfg_ s) (secret_ s) (cbs_ s) (running_ s) (nat_server_ s) (nat_sock_ s) (alt_port_ s) (pub_ip_ s)
    (pub_port_ s) (next_heartbeat_ms_ s) (heartbeat_fail_ s) (heartbeat_backoff_ s) (authed_ s)
    (heartbeat_enc_ s) (auth_denied_ s) (auth_nonce_ s) (next_auth_try_ s) (auth_inflight_ s)
    (auth_backoff_ s) (tunnel_enc_ s) (tunnel_keys_ s) (tunnel_enc_tx_ s) (tunnel_enc_rx_ s) (nat_detect_ s)
    (nat_type_ s) (proxies_ s) (next_relay_reg_ s) (relay_registered_ s) (conns_ s) (sessions_ s)
    (addr_to_peer_ s) (next_session_id_ s) (ready_fired_ s) x (draws_ s) (rand_counter_ s).

Definition set_draws_ (x : nat) (s : t) : t :=
  mk (cfg_ s) (secret_ s) (cbs_ s) (running_ s) (nat_server_ s) (nat_sock_ s) (alt_port_ s) (pub_ip_ s)
    (pub_port_ s) (next_heartbeat_ms_ s) (heartbeat_fail_ s) (heartbeat_backoff_ s) (authed_ s)
    (heartbeat_enc_ s) (auth_denied_ s) (auth_nonce_ s) (next_auth_try_ s) (auth_inflight_ s)
    (auth_backoff_ s) (tunnel_enc_ s) (tunnel_keys_ s) (tunnel_enc_tx_ s) (tunnel_enc_rx_ s) (nat_detect_ s)
    (nat_type_ s) (proxies_ s) (next_relay_reg_ s) (relay_registered_ s) (conns_ s) (sessions_ s)
    (addr_to_peer_ s) (next_session_id_ s) (ready_fired_ s) (pending_remote_sdp_ s) x (rand_counter_ s).

Definition set_rand_counter_ (x : Z) (s : t) : t :=
  mk (cfg_ s) (secret_ s) (cbs_ s) (running_ s) (nat_server_ s) (nat_sock_ s) (alt_port_ s) (pub_ip_ s)
    (pub_port_ s) (next_heartbeat_ms_ s) (heartbeat_fail_ s) (heartbeat_backoff_ s) (authed_ s)
    (heartbeat_enc_ s) (auth_denied_ s) (auth_nonce_ s) (next_auth_try_ s) (auth_inflight_ s)
    (auth_backoff_ s) (tunnel_enc_ s) (tunnel_keys_ s) (tunnel_enc_tx_ s) (tunnel_enc_rx_ s) (nat_detect_ s)
    (nat_type_ s) (proxies_ s) (next_relay_reg_ s) (relay_registered_ s) (conns_ s) (sessions_ s)
    (addr_to_peer_ s) (next_session_id_ s) (ready_fired_ s) (pending_remote_sdp_ s) (draws_ s) x.

Definition no_config : Config := default_config [] [] [] [].

(** A client constructed with its callbacks. *)
Definition initial (cbs : callbacks) : t :=
  mk no_config [] cbs false (mkServer [] 0) addr_zero 0 (replicate 16 0) 0 0 0 backoff_init true false false
    (replicate 16 0) 0 false backoff_init false ∅ 0 0 NatDetect.initial NAT_UNKNOWN [] 0 false ∅ ∅ ∅ 1 false [] 0 11400714819323198485.

(** ** Environment and events *)

(** The clock in milliseconds, the local port of the socket, what the n-th read of
    [/dev/urandom] gives, whether [juice_create] succeeds, what
    [juice_get_local_description] gives, and the order a hash table is traversed in. *)
Record env := mkEnv {
  now : Z;
  local_port : Z;
  dev_random : nat -> option bytes;
  juice_create : bool;
  juice_local : option bytes;
  table_order : gset bytes -> list bytes
}.

(** A datagram from the main socket or one of the punching pool, a callback of the
    application, or a call into the ICE library. *)
Inductive event :=
| SendTo (to : sockaddr_in) (data : bytes)
| PunchTo (socket : nat) (to : sockaddr_in) (data : bytes)
| OnReady (ip : bytes) (port : Z) (nattype : NatType)
| OnConnected (peer : bytes) (relay : bool)
| OnMessage (peer : bytes) (channel : Z) (data : bytes)
| OnDisconnected (peer : bytes)
| OnError (text : bytes)
| JuiceCreate (peer : bytes)
| JuiceGather (peer : bytes)
| JuiceSetRemote (peer : bytes) (sdp : bytes)
| JuiceSend (peer : bytes) (data : bytes)
| JuiceDestroy (peer : bytes).

End ClientState.
