(* ===== verification/ClientTunnel.v ===== *)
(** * The client's transport

    Models the part of [client/sdk/api/P2PClient.cpp] that moves frames: framed
    messages, the choice between ICE, the direct path and the relay, the encryption of
    tunnel payloads, the sessions and their callbacks, and the end of a connection. *)

From S2P Require Import Prelude.
From S2P Require Import Bytes.
From S2P Require Import Wire.
From S2P Require Import ProtoDef.
From S2P Require Import NetUtil.
From S2P Require Import Sha256.
From S2P Require Import Hmac.
From S2P Require Import Aes.
From S2P Require Import AesModes.
From S2P Require Import Packet.
From S2P Require Import Handler.
From S2P Require Import TunnelCodec.
From S2P Require Import Session.
From S2P Require Import NatDetect.
From S2P Require Import ClientState.

#[local] Open Scope Z_scope.

Module ClientTunnel.
Import ClientState.

Abbreviation M := (handler t event).

(** ** Helpers *)

Definition addr_key (a : sockaddr_in) : Z := Z.lor (Z.shiftl (ntohl (s_addr a)) 16) (ntohs (sin_port a)).

(** What [sockaddr_from] leaves in its argument, and whether it succeeded. *)
Definition sockaddr_from (ip : bytes) (port : Z) : sockaddr_in * bool :=
  match inet_pton ip with
  | Some a => (mkAddr a (htons port), true)
  | None => (addr_zero, false)
  end.

(** [strncmp(a, b, n) == 0]. *)
Definition strn_eq (n : nat) (a b : bytes) : bool := bool_decide (c_strn n a = c_strn n b).

Definition emit_if (b : bool) (e : event) : M unit := if b then emit e else skip.

Definition error (text : bytes) : M unit :=
  s ← gets cbs_; emit_if (on_error s) (OnError text).

(** ** Random octets *)

Definition read_device (e : env) : M (option bytes) :=
  k ← gets draws_;
  modify (fun s => set_draws_ (S k) s);;
  mret (dev_random e k).

Definition random_bytes (e : env) (n : nat) : M bytes :=
  d ← read_device e; mret (p2p_random_bytes d n).

Definition xorshift (seed : Z) : Z :=
  let seed := Z.lxor seed (u64 (Z.shiftl seed 13)) in
  let seed := Z.lxor seed (Z.shiftr seed 7) in
  Z.lxor seed (u64 (Z.shiftl seed 17)).

Fixpoint xorshift_bytes (n : nat) (seed : Z) : bytes :=
  match n with
  | O => []
  | S n => let seed := xorshift seed in Z.land seed 255 :: xorshift_bytes n seed
  end.

(** [plat_rand_bytes]: a short or failed read falls back on the clock and a counter. *)
Definition plat_rand_bytes (e : env) (n : nat) : M bytes :=
  d ← read_device e;
  let fallback :=
    c ← gets rand_counter_;
    modify (fun s => set_rand_counter_ (u64 (c + 11400714819323198485)) s);;
    mret (xorshift_bytes n (Z.lxor (now e) c)) in
  match d with
  | Some l => if (n <=? length l)%nat then mret (take n l) else fallback
  | None => fallback
  end.

(** ** Framed messages *)

Definition send_proto_to (id : MsgId) (payload : bytes) (to : sockaddr_in) : M unit :=
  if (MAX_PKT <? length payload + 8)%nat then skip
  else emit (SendTo to (codec_write_head (msg_id id) (u32 (len payload)) ++ payload)).

Definition send_proto (id : MsgId) (payload : bytes) : M unit :=
  to ← gets nat_sock_; send_proto_to id payload to.

(** ** Connections *)

(** [auto& c = conns_[peer]]: inserted when missing. *)
Definition conn_at (peer : bytes) : M Conn :=
  s ← gets conns_;
  match s !! peer with
  | Some c => mret c
  | None => modify (fun s => set_conns_ (<[peer := new_conn]> (conns_ s)) s);; mret new_conn
  end.

(** Through a reference or a pointer to the connection [peer]. *)
Definition get_conn (peer : bytes) : M Conn :=
  s ← gets conns_;
  match s !! peer with Some c => mret c | None => lift (Fault UseAfterFree) end.

Definition put_conn (peer : bytes) (c : Conn) : M unit :=
  modify (fun s => set_conns_ (<[peer := c]> (conns_ s)) s).

Definition update_conn (peer : bytes) (f : Conn -> Conn) : M unit :=
  c ← get_conn peer; put_conn peer (f c).

(** ** Tunnel keys *)

Definition get_tunnel_key (peer : bytes) : M (option bytes) :=
  secret ← gets secret_;
  cfg ← gets cfg_;
  if (length secret =? 0)%nat || (length peer =? 0)%nat || bool_decide (peer = uuid cfg) then mret None
  else
    keys ← gets tunnel_keys_;
    match keys !! peer with
    | Some k => mret (Some k)
    | None =>
        let a := if bytes_ltb (uuid cfg) peer then uuid cfg else peer in
        let b := if bytes_ltb (uuid cfg) peer then peer else uuid cfg in
        let key := hmac_sha256 secret (TUNNEL_KEY_PREFIX ++ a ++ [58] ++ b) in
        modify (fun s => set_tunnel_keys_ (<[peer := key]> (tunnel_keys_ s)) s);;
        mret (Some key)
    end.

(** Header octets 7, 12 and 13 replaced. *)
Definition reflag (head : bytes) (flags n : Z) : bytes :=
  take 7 head ++ [flags] ++ slice 8 4 head ++ hi_lo n.

(** The encrypted frame, or nothing if the frame is to be sent as it is. *)
Definition encrypt_tunnel_frame (e : env) (peer frame : bytes) : M (option bytes) :=
  if (length frame <? 14)%nat then mret None
  else
    let plen := Z.to_nat (be16 frame 12) in
    if (plen =? 0)%nat || (MAX_PKT <? 14 + 12 + plen + 16)%nat then mret None
    else
      key ← get_tunnel_key peer;
      match key with
      | None => mret None
      | Some key =>
          nonce ← random_bytes e 12;
          payload ← lift (read_obj plen (drop 14 frame));
          match p2p_aead_encrypt key nonce payload plen with
          | None => mret None
          | Some (cipher, tag) =>
              let nl := u16 (12 + len cipher + 16) in
              modify (fun s => set_tunnel_enc_tx_ (u64 (tunnel_enc_tx_ s + 1)) s);;
              mret (Some (reflag frame (Z.lor (octet frame 7) TF_ENC) nl ++ nonce ++ cipher ++ tag))
          end
      end.

(** [mem] is the memory from the frame to the end of the object it lies in, [n] the
    length of the frame. *)
Definition decrypt_tunnel_frame (peer mem : bytes) (n : nat) : M (option bytes) :=
  if (n <? 14)%nat || (Z.land (octet mem 7) TF_ENC =? 0) then mret None
  else
    let plen := Z.to_nat (be16 mem 12) in
    if (plen <? 12 + 16)%nat || (MAX_PKT <? 14 + plen - 12 - 16)%nat then mret None
    else
      key ← get_tunnel_key peer;
      match key with
      | None => mret None
      | Some key =>
          body ← lift (read_obj plen (drop 14 mem));
          let cipher_len := (plen - 12 - 16)%nat in
          match p2p_aead_decrypt key (take 12 body) (slice 12 cipher_len body) cipher_len
                  (drop (12 + cipher_len) body) with
          | None => mret None
          | Some plain =>
              modify (fun s => set_tunnel_enc_rx_ (u64 (tunnel_enc_rx_ s + 1)) s);;
              mret (Some (reflag mem (Z.land (octet mem 7) (u8 (Z.lnot TF_ENC))) (u16 (len plain)) ++ plain))
          end
      end.

(** ** Sending a tunnel frame *)

Definition relay_packet (src dst tx : bytes) : bytes :=
  codec_write_head (msg_id MSG_PROXY_RELAY_DATA) (u32 (66 + len tx)) ++ uuid_field src ++ uuid_field dst ++ tx.

Definition send_tunnel_via (e : env) (peer frame : bytes) : M unit :=
  c ← get_conn peer;
  s ← gets id;
  let p := punch c in
  let direct_proven := direct_ok p && have_direct p in
  let have_relay := relay_registered_ s && negb (length (proxies_ s) =? 0)%nat in
  let relay_ready := relay_ok (relay c) || (have_relay && (force_relay (cfg_ s) || (punch_deadline p <=? now e))) in
  enc ← (if tunnel_enc_ s then encrypt_tunnel_frame e (peer_uuid c) frame else mret None);
  let tx := default frame enc in
  if juice p && direct_ok p then emit (JuiceSend peer tx)
  else if direct_proven || (negb relay_ready && have_direct p) then
    let out := match nth_error (punch_socks p) (Z.to_nat (direct_sock_idx p)) with
               | Some sk => if 0 <=? direct_sock_idx p then PunchTo sk else SendTo
               | None => SendTo
               end in
    emit (out (direct p) tx);;
    (if have_lan p then emit (out (direct_lan p) tx) else skip)
  else if relay_ready && have_relay then
    if (MAX_PKT <? 8 + csize RelayFrame_codec + length tx)%nat then skip
    else
      match proxies_ s with
      | [] => skip
      | px :: _ =>
          let '(to, ok) := sockaddr_from (sv_ip px) (sv_port px) in
          emit_if ok (SendTo to (relay_packet (uuid (cfg_ s)) (peer_uuid c) tx))
      end
  else skip.

(** ** Sessions *)

Definition session_for (peer : bytes) : M Session.t :=
  ss ← gets sessions_;
  match ss !! peer with
  | Some s => mret s
  | None =>
      id ← gets next_session_id_;
      let s := Session.create id true true in
      modify (fun st => set_next_session_id_ (u16 (id + 1)) (set_sessions_ (<[peer := s]> (sessions_ st)) st));;
      mret s
  end.

(** The callbacks of the session of [peer]. *)
Definition session_event (e : env) (peer : bytes) (ev : Session.event) : M unit :=
  match ev with
  | Session.Tx f =>
      cs ← gets conns_;
      match cs !! peer with Some _ => send_tunnel_via e peer f | None => skip end
  | Session.Data ch d => cb ← gets cbs_; emit_if (on_message cb) (OnMessage peer ch d)
  end.

(** An operation of the session of [peer], and then what it called back. *)
Definition with_session (e : env) (peer : bytes) (s : Session.t) (evs : list Session.event) : M unit :=
  modify (fun st => set_sessions_ (<[peer := s]> (sessions_ st)) st);;
  mapM_ (session_event e peer) evs.

Definition on_tunnel_frame (e : env) (mem : bytes) (n : nat) (peer : bytes) : M unit :=
  enc ← gets tunnel_enc_;
  dec ← (if (enc : bool) then decrypt_tunnel_frame peer mem n else mret None);
  s ← session_for peer;
  r ← lift (Session.on_frame (default (take n mem) dec) s);
  with_session e peer r.1 r.2.

(** A frame without payload that the client itself sends. *)
Definition control_frame (s : Session.t) (ty : TunnelType) : M bytes :=
  lift (Session.new_frame s ty 0 0 0 0 None 0).

(** ** The end of a connection *)

(** [c] is the element of [conns_] under [peer]; after the [erase] by [c.peer_uuid] it
    is gone, if that is its key, and the callback's argument with it. *)
Definition close_conn (peer : bytes) : M unit :=
  c ← get_conn peer;
  let u := peer_uuid c in
  modify (fun s => set_addr_to_peer_ (filter (fun kv => kv.2 <> u) (addr_to_peer_ s)) s);;
  (if juice (punch c) then emit (JuiceDestroy peer) else skip);;
  put_conn peer (set_self false (set_punch (set_juice false (set_direct_sock_idx (-1) (set_punch_socks [] (punch c)))) c));;
  modify (fun s => set_sessions_ (delete u (sessions_ s)) s);;
  modify (fun s => set_conns_ (delete u (conns_ s)) s);;
  cb ← gets cbs_;
  if on_disconnected cb then c ← get_conn peer; emit (OnDisconnected (peer_uuid c)) else skip.

End ClientTunnel.
