(* ===== verification/P2PClient.v ===== *)
(** * The client object

    Models [client/sdk/api/P2PClient.cpp]: the interface, the phases of [tick], the
    dispatch of received packets and every message handler.  The clock read several
    times in one handler is one reading; callbacks of the application do not call back
    into the client. *)

From S2P Require Import Prelude.
From S2P Require Import Bytes.
From S2P Require Import Wire.
From S2P Require Import ProtoDef.
From S2P Require Import NetUtil.
From S2P Require Import Sha256.
From S2P Require Import Hmac.
From S2P Require Import Packet.
From S2P Require Import Handler.
From S2P Require Import TunnelCodec.
From S2P Require Import Session.
From S2P Require Import NatDetect.
From S2P Require Import ClientState.
From S2P Require Import ClientTunnel.

#[local] Open Scope Z_scope.

Module P2PClient.
Import ClientState ClientTunnel.

(** ** [sscanf] and private addresses *)

Fixpoint drop_digits (l : bytes) : bytes :=
  match l with c :: r => if is_digit c then drop_digits r else l | [] => [] end.

(** One [%u]: blanks, a sign, digits; saturated to 64 bits, cut to 32. *)
Definition scan_u (l : bytes) : option (Z * bytes) :=
  let l := skip_space l in
  let '(neg, l) := match l with 45 :: r => (true, r) | 43 :: r => (false, r) | _ => (false, l) end in
  match l with
  | c :: _ =>
      if is_digit c then
        let v := digits_val 0 l in
        let v := if 18446744073709551615 <? v then 18446744073709551615 else if neg then u64 (- v) else v in
        Some (u32 v, drop_digits l)
      else None
  | [] => None
  end.

Definition scan_dot (l : bytes) : option bytes := match l with 46 :: r => Some r | _ => None end.

(** [sscanf(ip, "%u.%u.%u.%u", ...)] when all four are read. *)
Definition scan_quad (l : bytes) : option (Z * Z * Z * Z) :=
  '(a, l) ← scan_u l; l ← scan_dot l; '(b, l) ← scan_u l; l ← scan_dot l;
  '(c, l) ← scan_u l; l ← scan_dot l; '(d, _) ← scan_u l; Some (a, b, c, d).

Definition is_private_ip (ip : bytes) : bool :=
  match scan_quad ip with
  | None => false
  | Some (a, b, _, _) =>
      (a =? 10) || ((a =? 172) && (16 <=? b) && (b <=? 31)) || ((a =? 192) && (b =? 168)) || (a =? 127)
  end.

(** ** Requests *)

Definition connect_req (src dst : bytes) : bytes := cenc ConnectReq_codec (mkConnectReq (uuid_field src) (uuid_field dst)).

(** The milliseconds of a back-off that starts at [base], after [c]'s attempts. *)
Definition conn_backoff (c : Conn) (base : Z) : Z := backoff_delay (backoff_attempt c) base 30000.

Definition do_auth_challenge : M unit :=
  cfg ← gets cfg_;
  send_proto MSG_AUTH_CHALLENGE_REQ (cenc AuthChallengeReq_codec (mkAuthChallengeReq (uuid_field (uuid cfg))));;
  modify (set_auth_inflight_ true).

Definition do_auth_login : M unit :=
  s ← gets id;
  let u := uuid (cfg_ s) in
  let mac := hmac_sha256 (secret_ s) (pad_to 33 u ++ auth_nonce_ s) in
  send_proto MSG_AUTH_LOGIN_REQ (cenc AuthLoginReq_codec (mkAuthLoginReq (uuid_field u) (auth_nonce_ s) mac)).

Definition heartbeat_req (e : env) (s : t) : UuidReq :=
  mkUuidReq (uuid_field (uuid (cfg_ s))) 2 (nat_type (nat_type_ s)) (htons (local_port e)) (htonl 1) 0.

Definition do_heartbeat (e : env) : M unit :=
  s ← gets id;
  let req := cenc UuidReq_codec (heartbeat_req e s) in
  if heartbeat_enc_ s then
    iv ← plat_rand_bytes e 8;
    let id33 := pad_to 33 (uuid (cfg_ s)) in
    send_proto MSG_HEARTBEAT_REQ_ENC (id33 ++ iv ++ p2p_stream_xor (secret_ s) id33 iv req)
  else send_proto MSG_HEARTBEAT_REQ req.

Definition kProxyAuthKey : bytes := bs "p2p-proxy-auth-2024".

Definition relay_register : M unit :=
  s ← gets id;
  match proxies_ s with
  | [] => skip
  | px :: _ =>
      let u := uuid (cfg_ s) in
      let req := mkProxyRegReq (uuid_field u) (hmac_sha256 kProxyAuthKey u) in
      let '(to, ok) := sockaddr_from (sv_ip px) (sv_port px) in
      if (ok : bool) then send_proto_to MSG_PROXY_REGISTER_REQ (cenc ProxyRegReq_codec req) to else skip
  end.

(** ** ICE *)

Definition send_ice_sdp (peer sdp : bytes) : M unit :=
  if (length peer =? 0)%nat || (length sdp =? 0)%nat then skip
  else
    let plen := Nat.min (length sdp) 4096 in
    send_proto MSG_ICE_SDP
      (cenc IceSdpMsg_codec (mkIceSdpMsg (uuid_field peer) 0 (htons (u16 (Z.of_nat plen)))) ++ take plen sdp ++ [0]).

Definition set_juice_of (b : bool) (c : Conn) : Conn := set_punch (set_juice b (punch c)) c.
Definition set_local_of (sdp : bytes) (c : Conn) : Conn := set_punch (set_local_sdp sdp (punch c)) c.

Definition ensure_ice_agent (e : env) (peer : bytes) : M unit :=
  c ← get_conn peer;
  cfg ← gets cfg_;
  if juice (punch c) || force_relay cfg then skip
  else
    emit (JuiceCreate peer);;
    if juice_create e then
      put_conn peer (match juice_local e with
                     | Some sdp => set_local_of (c_str sdp) (set_juice_of true c)
                     | None => set_juice_of true c
                     end);;
      emit (JuiceGather peer)
    else skip.

Definition apply_remote_ice_sdp (peer sdp : bytes) : M unit :=
  c ← get_conn peer;
  if negb (juice (punch c)) || (length sdp =? 0)%nat then skip
  else
    put_conn peer (set_punch (set_remote_sdp sdp (punch c)) c);;
    emit (JuiceSetRemote peer (c_str sdp)).

(** The callbacks of the agent of [peer]; its user pointer is the connection. *)
Definition mark_connected (peer : bytes) (relay : bool) : M unit :=
  c ← get_conn peer;
  cb ← gets cbs_;
  put_conn peer (set_connected true c);;
  emit_if (on_connected cb) (OnConnected (peer_uuid c) relay).

Definition on_juice_state (peer : bytes) (up : bool) : M unit :=
  if negb up then skip
  else
    c ← get_conn peer;
    if negb (self c) then skip
    else
      put_conn peer (set_punch (set_direct_ok true (punch c)) c);;
      if connected c then skip else mark_connected peer false.

Definition on_juice_candidate (peer sdp : bytes) : M unit :=
  c ← get_conn peer;
  if negb (self c) then skip
  else
    let l := local_sdp (punch c) in
    put_conn peer (set_local_of ((if (length l =? 0)%nat then l else l ++ [10]) ++ sdp) c).

Definition on_juice_gathering_done (e : env) (peer : bytes) : M unit :=
  c ← get_conn peer;
  if negb (self c) then skip
  else
    (match juice_local e with
     | Some sdp => put_conn peer (set_local_of (c_str sdp) c)
     | None => skip
     end);;
    c ← get_conn peer;
    send_ice_sdp (peer_uuid c) (local_sdp (punch c)).

Definition on_juice_recv (e : env) (peer data : bytes) : M unit :=
  if (length data =? 0)%nat then skip
  else
    c ← get_conn peer;
    if negb (self c) then skip else on_tunnel_frame e data (length data) (peer_uuid c).

(** ** Interface *)

(** [bound] is whether the socket can be opened.  The agent that is created and destroyed
    at once to see that the library is linked is left out. *)
Definition start (e : env) (cfg : Config) (bound : bool) : M bool :=
  s ← gets id;
  if running_ s then mret false
  else
    match nat_servers cfg with
    | [] => mret false
    | sv :: _ =>
        if (length (uuid cfg) =? 0)%nat || (MAX_UUID_LEN <? length (uuid cfg))%nat then mret false
        else
          let '(to, ok) := sockaddr_from (sv_ip sv) (sv_port sv) in
          modify (fun s => set_nat_sock_ to (set_nat_server_ sv (set_secret_ (secret cfg) (set_cfg_ cfg s))));;
          if negb ok || negb bound then mret false
          else
            let off := (length (secret cfg) =? 0)%nat in
            modify (fun s => set_nat_type_ NAT_UNKNOWN (set_authed_ off (set_heartbeat_enc_ false
              (set_auth_denied_ false (set_auth_inflight_ false (set_tunnel_enc_ (negb off) (set_tunnel_keys_ ∅
              (set_relay_registered_ false (set_heartbeat_fail_ 0 (set_alt_port_ 0 (set_pub_ip_ (replicate 16 0)
              (set_pub_port_ 0 (set_proxies_ (proxy_servers cfg)
              (set_next_relay_reg_ (if (length (proxy_servers cfg) =? 0)%nat then 0 else now e)
              (set_running_ true (set_pending_remote_sdp_ [] s))))))))))))))));;
            mret true
    end.

(** The two halves of [stop], before and after the worker thread is joined. *)
Definition halt : M unit :=
  modify (set_running_ false);;
  s ← gets id;
  match proxies_ s with
  | px :: _ =>
      let '(to, ok) := sockaddr_from (sv_ip px) (sv_port px) in
      if relay_registered_ s && ok then
        send_proto_to MSG_PROXY_UNREGISTER_REQ
          (cenc ProxyRegReq_codec (mkProxyRegReq (uuid_field (uuid (cfg_ s))) (replicate 32 0))) to
      else skip
  | [] => skip
  end.

Definition clear : M unit := modify (fun s => set_addr_to_peer_ ∅ (set_sessions_ ∅ (set_conns_ ∅ s))).

Definition stop : M unit :=
  s ← gets id;
  if negb (running_ s) then skip else halt;; clear.

Definition begin_connect (e : env) (cfg : Config) (c : Conn) : Conn :=
  set_self true
    (set_relay (set_next_relay_ping 0 (set_relay_ok false (relay c)))
       (set_punch
          (set_next_punch 0
             (set_punch_deadline (u64 (now e + connect_timeout_ms cfg))
                (set_direct_ok false (set_have_direct false (punch c)))))
          (set_connecting true c))).

Definition connect (e : env) (peer : bytes) : M unit :=
  s ← gets id;
  if negb (running_ s) || (length peer =? 0)%nat || bool_decide (peer = uuid (cfg_ s)) then skip
  else
    c ← conn_at peer;
    put_conn peer (set_peer_uuid peer c);;
    if connecting c || connected c then skip
    else
      update_conn peer (begin_connect e (cfg_ s));;
      ensure_ice_agent e peer;;
      send_proto MSG_CONNECT_REQ (connect_req (uuid (cfg_ s)) peer).

Definition disconnect (e : env) (peer : bytes) : M unit :=
  cs ← gets conns_;
  match cs !! peer with
  | None => skip
  | Some _ =>
      s ← session_for peer;
      f ← control_frame s TT_CLOSE;
      send_tunnel_via e peer f;;
      close_conn peer
  end.

Definition send (e : env) (peer : bytes) (channel : Z) (data : bytes) (reliable : bool) : M Z :=
  cs ← gets conns_;
  match cs !! peer with
  | Some c =>
      if negb (connected c) then mret (-1)
      else
        s ← session_for peer;
        r ← lift (Session.send (now e) channel data reliable s);
        with_session e peer r.1.2 r.2;;
        mret r.1.1
  | None => mret (-1)
  end.

(** ** Heartbeat and authentication *)

Definition send_all (out : list (sockaddr_in * bytes)) : M unit := mapM_ (fun d => emit (SendTo d.1 d.2)) out.

Definition auth_delay (e : env) : M unit :=
  modify (fun s => let '(d, b) := next_delay (auth_backoff_ s) in
                   set_next_auth_try_ (u64 (now e + d)) (set_auth_backoff_ b s)).

Definition deny_auth (e : env) : M unit :=
  modify (fun s => set_next_auth_try_ (u64 (now e + 3600000)) (set_auth_denied_ true s)).

Definition on_heartbeat_rsp (e : env) (p : bytes) : M unit :=
  if (length p <? 2)%nat then skip
  else
    s ← gets id;
    let result := octet p 0 in
    if result =? 1 then
      if (length (secret_ s) =? 0)%nat then error (bs "server requires auth but no secret configured")
      else if negb (auth_inflight_ s) && negb (auth_denied_ s) then do_auth_challenge
      else skip
    else if result =? 2 then error (bs "server rejected this uuid")
    else if (length p <? csize ExtInfoRsp_codec)%nat then skip
    else
      modify (fun s => set_alt_port_ (be16 p 37) (set_pub_port_ (be16 p 17) (set_pub_ip_ (slice 1 16 p)
        (set_heartbeat_backoff_ (reset (heartbeat_backoff_ s)) (set_heartbeat_fail_ 0 s)))));;
      if negb (authed_ s) && negb (length (secret_ s) =? 0)%nat && negb (auth_inflight_ s) && negb (auth_denied_ s)
      then do_auth_challenge
      else
        (if NatDetect.done (nat_detect_ s) then skip
         else
           let '(d, out) := NatDetect.start (sv_ip (nat_server_ s)) (sv_port (nat_server_ s)) (now e) (nat_detect_ s) in
           modify (set_nat_detect_ d);; send_all out);;
        s ← gets id;
        if on_ready (cbs_ s) && negb (ready_fired_ s) then
          modify (set_ready_fired_ true);;
          emit (OnReady (pub_ip_ s) (pub_port_ s) (nat_type_ s))
        else skip.

Definition on_heartbeat_rsp_enc (e : env) (p : bytes) : M unit :=
  if (length p <? 33 + 8 + 2)%nat || (csize ExtInfoRsp_codec <? length p - 41)%nat then skip
  else
    sec ← gets secret_;
    on_heartbeat_rsp e (p2p_stream_xor sec (take 33 p) (slice 33 8 p) (drop 41 p)).

Definition on_auth_challenge_rsp (e : env) (p : bytes) : M unit :=
  if (length p <? 19)%nat then modify (set_auth_inflight_ false);; auth_delay e
  else
    let result := octet p 0 in
    if negb (result =? 0) then
      modify (set_auth_inflight_ false);;
      (if result =? 1 then error (bs "uuid blacklisted")
       else if result =? 2 then error (bs "uuid not in whitelist") else skip);;
      if (result =? 1) || (result =? 2) then deny_auth e else auth_delay e
    else
      modify (set_auth_nonce_ (slice 1 16 p));;
      do_auth_login.

(** A connection request again, for a connection that waited for the login. *)
Definition resend_connect (peer : bytes) : M unit :=
  c ← get_conn peer;
  if connecting c && negb (have_direct (punch c)) && negb (relay_ok (relay c)) then
    cfg ← gets cfg_;
    send_proto MSG_CONNECT_REQ (connect_req (uuid cfg) (peer_uuid c));;
    put_conn peer (set_backoff_attempt (u32 (backoff_attempt c + 1)) c)
  else skip.

Definition for_conns (e : env) (f : bytes -> M unit) : M unit :=
  cs ← gets conns_; mapM_ f (table_order e (dom cs)).

Definition on_auth_login_rsp (e : env) (p : bytes) : M unit :=
  modify (set_auth_inflight_ false);;
  match p with
  | [] => skip
  | result :: _ =>
      if result =? AUTH_OK then
        modify (fun s => set_next_heartbeat_ms_ (u64 (now e + 100)) (set_heartbeat_enc_ true
          (set_auth_backoff_ (reset (auth_backoff_ s)) (set_authed_ true s))));;
        for_conns e resend_connect
      else
        error (if result =? AUTH_WHITELIST_REJ then bs "uuid rejected by whitelist"
               else if result =? AUTH_BLACKLIST then bs "uuid blacklisted"
               else if result =? AUTH_BAD_MAC then bs "auth login failed (bad secret?)"
               else bs "auth login failed");;
        if negb (result =? AUTH_BAD_NONCE) then deny_auth e else auth_delay e
  end.

(** ** Introduction *)

Definition add_proxy (out : list ServerAddr) (c : ProxyCandidate) : list ServerAddr :=
  let a := mkServer (c_strn 16 (pc_ip c)) (ntohs (pc_port c)) in
  if (length (sv_ip a) =? 0)%nat || (sv_port a =? 0) then out
  else if bool_decide (a ∈ out) then out
  else out ++ [a].

Definition parse_proxies (count : Z) (cands : list ProxyCandidate) (out : list ServerAddr) : list ServerAddr :=
  foldl add_proxy out (take (Z.to_nat count) (take 3 cands)).

(** The end of both handlers: the first candidates seen become the relays. *)
Definition adopt_proxies (e : env) (cands : list ServerAddr) : M unit :=
  modify (fun s =>
    if negb (length (proxies_ s) =? 0)%nat then s
    else if negb (length cands =? 0)%nat then set_next_relay_reg_ (now e) (set_proxies_ cands s)
    else if negb (length (proxy_servers (cfg_ s)) =? 0)%nat then
      set_next_relay_reg_ (now e) (set_proxies_ (proxy_servers (cfg_ s)) s)
    else s).

(** [force_relay]: no punching, the relay at once. *)
Definition no_direct (e : env) (c : Conn) : Conn :=
  set_punch (set_punch_deadline (now e) (set_have_direct false (punch c))) c.

Definition expect_direct (e : env) (a : sockaddr_in) (p : PunchState) : PunchState :=
  set_direct a (set_next_punch (u64 (now e + 100)) (set_have_direct true p)).

Definition route_to (a : sockaddr_in) (peer : bytes) : M unit :=
  modify (fun s => set_addr_to_peer_ (<[addr_key a := peer]> (addr_to_peer_ s)) s).

(** The private address of the target, tried as well when it differs from the public
    one. *)
Definition learn_lan (peer obj : bytes) (ack : ConnectAck) : M unit :=
  update_conn peer (fun c => set_punch (set_have_lan false (punch c)) c);;
  lan ← lift (cstr_in 52 obj);
  if is_private_ip lan && negb (strn_eq 16 (ca_dst_lan_ip ack) (ca_dst_pub_ip ack)) then
    let '(a, ok) := sockaddr_from lan (ntohs (ca_dst_lan_port ack)) in
    update_conn peer (fun c => set_punch (set_direct_lan a (punch c)) c);;
    if (ok : bool) then
      update_conn peer (fun c => set_punch (set_have_lan true (punch c)) c);;
      route_to a peer
    else skip
  else skip.

Definition on_connect_ack (e : env) (p : bytes) : M unit :=
  if (length p <? csize ConnectAck_codec)%nat then skip
  else
    let obj := take (csize ConnectAck_codec) p in
    let ack := cdec ConnectAck_codec p in
    let peer := c_strn 32 (ca_dst_uuid ack) in
    s ← gets id;
    if ca_result ack =? 3 then
      if negb (length (secret_ s) =? 0)%nat && negb (auth_inflight_ s) && negb (auth_denied_ s) then do_auth_challenge
      else skip
    else
      c ← conn_at peer;
      (if connecting c then skip else put_conn peer (set_connecting true (set_peer_uuid peer c)));;
      if negb (ca_result ack =? CONNECT_OK) then
        error (bs "connect " ++ peer ++ bs ": peer offline/not found");;
        close_conn peer
      else
        (if force_relay (cfg_ s) then update_conn peer (no_direct e)
         else
           pub ← lift (cstr_in 34 obj);
           let a := (sockaddr_from pub (ntohs (ca_dst_pub_port ack))).1 in
           update_conn peer (fun c => set_punch (expect_direct e a (punch c)) c);;
           route_to a peer;;
           learn_lan peer obj ack;;
           update_conn peer (fun c =>
             set_punch (set_punch_deadline (u64 (now e + connect_timeout_ms (cfg_ s))) (punch c)) c));;
        adopt_proxies e (parse_proxies (ca_proxy_count ack) (ca_proxies ack) []).

Definition on_connect_invite (e : env) (p : bytes) : M unit :=
  if (length p <? csize ConnectInvite_codec)%nat then skip
  else
    let obj := take (csize ConnectInvite_codec) p in
    let inv := cdec ConnectInvite_codec p in
    let peer := c_strn 32 (ci_src_uuid inv) in
    if (length peer =? 0)%nat then skip
    else
      s ← gets id;
      c ← conn_at peer;
      put_conn peer (set_self true (set_punch (set_direct_ok false (punch c)) (set_connecting true (set_peer_uuid peer c))));;
      (if force_relay (cfg_ s) then update_conn peer (no_direct e)
       else
         pub ← lift (cstr_in 33 obj);
         let a := (sockaddr_from pub (ntohs (ci_src_pub_port inv))).1 in
         update_conn peer (fun c =>
           set_punch (set_punch_deadline (u64 (now e + connect_timeout_ms (cfg_ s))) (expect_direct e a (punch c))) c);;
         route_to a peer;;
         ensure_ice_agent e peer;;
         sdp ← gets pending_remote_sdp_;
         if (length sdp =? 0)%nat then skip
         else apply_remote_ice_sdp peer sdp;; modify (set_pending_remote_sdp_ []));;
      adopt_proxies e (parse_proxies (ci_proxy_count inv) (ci_proxies inv) []).

(** The first connection that waits for a description, in the order of the table. *)
Definition waits_for_sdp (cs : gmap bytes Conn) (peer : bytes) : bool :=
  match cs !! peer with
  | Some c => connecting c && juice (punch c) && (length (remote_sdp (punch c)) =? 0)%nat
  | None => false
  end.

Definition on_ice_sdp (e : env) (p : bytes) : M unit :=
  if (length p <? sizeof_IceSdpMsg - 1)%nat then skip
  else
    let dst := c_strn 32 p in
    let slen := Z.to_nat (ntohs (le_dec (slice 34 2 p))) in
    if (length p <? sizeof_IceSdpMsg - 1 + slen)%nat then skip
    else
      let sdp := slice 36 slen p in
      s ← gets id;
      if bool_decide (dst = uuid (cfg_ s)) then
        match List.find (waits_for_sdp (conns_ s)) (table_order e (dom (conns_ s))) with
        | None => modify (set_pending_remote_sdp_ sdp)
        | Some peer => apply_remote_ice_sdp peer sdp
        end
      else
        match conns_ s !! dst with
        | None => skip
        | Some c =>
            if negb (juice (punch c)) then modify (set_pending_remote_sdp_ sdp)
            else apply_remote_ice_sdp dst sdp
        end.

(** ** Dispatch *)

(** [mem] is the receive buffer from the payload on, [n] the payload's length. *)
Definition on_relay_data (e : env) (mem : bytes) (n : nat) : M unit :=
  if (n <? csize RelayFrame_codec + 14)%nat then skip
  else
    s ← gets id;
    if negb (strn_eq 32 (drop 33 mem) (uuid (cfg_ s))) then skip
    else
      let peer := c_strn 32 mem in
      if (length peer =? 0)%nat then skip
      else
        c ← conn_at peer;
        (if (length (peer_uuid c) =? 0)%nat then put_conn peer (set_peer_uuid peer c) else skip);;
        on_tunnel_frame e (drop 66 mem) (n - 66) peer;;
        c ← get_conn peer;
        if relay_ok (relay c) then skip
        else
          let c := set_relay (set_relay_ok true (relay c)) c in
          put_conn peer c;;
          if negb (connected c) && on_connected (cbs_ s) then
            put_conn peer (set_connected true c);; emit (OnConnected peer true)
          else skip.

Definition on_register_rsp (p : bytes) : M unit :=
  match p with
  | [] => skip
  | result :: _ =>
      if result =? 0 then
        modify (fun s => set_conns_ (set_backoff_attempt 0 <$> conns_ s) (set_relay_registered_ true s))
      else error (bs "relay register failed result=" ++ dec_u result)
  end.

Definition handle_proto (e : env) (id : Z) (mem : bytes) (n : nat) : M unit :=
  let p := take n mem in
  match msg_of id with
  | Some MSG_HEARTBEAT_RSP => on_heartbeat_rsp e p
  | Some MSG_HEARTBEAT_RSP_ENC => on_heartbeat_rsp_enc e p
  | Some MSG_AUTH_CHALLENGE_RSP => on_auth_challenge_rsp e p
  | Some MSG_AUTH_LOGIN_RSP => on_auth_login_rsp e p
  | Some MSG_NAT_DETECT_RSP =>
      d ← gets nat_detect_;
      d ← lift (NatDetect.feed mem (Z.of_nat n) d);
      modify (set_nat_detect_ d)
  | Some MSG_CONNECT_ACK => on_connect_ack e p
  | Some MSG_CONNECT_INVITE => on_connect_invite e p
  | Some MSG_ICE_SDP => on_ice_sdp e p
  | Some MSG_PROXY_REGISTER_RSP => on_register_rsp p
  | Some MSG_PROXY_RELAY_DATA => on_relay_data e mem n
  | _ => skip
  end.

(** A tunnel frame from an address a connection was told of. *)
Definition on_direct_frame (e : env) (mem : bytes) (n : nat) (from : sockaddr_in) : M unit :=
  s ← gets id;
  match addr_to_peer_ s !! addr_key from with
  | None => skip
  | Some peer =>
      _ ← conn_at peer;
      on_tunnel_frame e mem n peer;;
      c ← get_conn peer;
      if direct_ok (punch c) then skip
      else
        let c := set_punch (set_direct_ok true (punch c)) c in
        put_conn peer c;;
        if negb (connected c) && on_connected (cbs_ s) then
          put_conn peer (set_connected true c);; emit (OnConnected (peer_uuid c) false)
        else skip
  end.

(** [mem] is the receive buffer, of which the packet is the first [n] octets. *)
Definition handle_packet (e : env) (mem : bytes) (n : nat) (from : sockaddr_in) : M unit :=
  match codec_read_head (take n mem) with
  | Some h =>
      let plen := if wh_length h <=? Z.of_nat n - 8 then Z.to_nat (wh_length h) else 0%nat in
      handle_proto e (wh_msg_id h) (drop 8 mem) plen
  | None =>
      if (2 <=? n)%nat && (octet mem 0 =? u8 (Z.shiftr TUNNEL_MAGIC 8)) && (octet mem 1 =? u8 (Z.land TUNNEL_MAGIC 255))
      then on_direct_frame e mem n from
      else skip
  end.

(** ** The phases of [tick] *)

Definition tick_heartbeat (e : env) : M unit :=
  s ← gets id;
  if next_heartbeat_ms_ s <=? now e then
    do_heartbeat e;;
    modify (fun s =>
      let '(gap, b) := if 0 <? heartbeat_fail_ s then next_delay (heartbeat_backoff_ s)
                       else (heartbeat_ms (cfg_ s), reset (heartbeat_backoff_ s)) in
      set_next_heartbeat_ms_ (u64 (now e + gap)) (set_heartbeat_backoff_ b s))
  else skip.

Definition tick_auth (e : env) : M unit :=
  s ← gets id;
  if negb (authed_ s) && negb (length (secret_ s) =? 0)%nat && negb (auth_inflight_ s) && negb (auth_denied_ s)
     && (next_auth_try_ s <=? now e)
  then do_auth_challenge else skip.

Definition tick_nat_detect (e : env) : M unit :=
  s ← gets id;
  let d := nat_detect_ s in
  if NatDetect.done d then
    match nat_type_ s with
    | NAT_UNKNOWN => modify (set_nat_type_ (NatDetect.nattype_ d))
    | _ => skip
    end
  else
    let '(d, out) := NatDetect.tick (sv_ip (nat_server_ s)) (sv_port (nat_server_ s)) (alt_port_ s) (now e) d in
    modify (set_nat_detect_ d);; send_all out.

Definition tick_relay (e : env) : M unit :=
  s ← gets id;
  if auto_relay (cfg_ s) && negb (relay_registered_ s) && negb (length (proxies_ s) =? 0)%nat
     && (next_relay_reg_ s <=? now e)
  then
    relay_register;;
    modify (set_next_relay_reg_ (u64 (now e + relay_register_ms (cfg_ s))))
  else skip.

(** A keep-alive to the target from every socket of the pool. *)
Definition do_punch (peer : bytes) : M unit :=
  c ← get_conn peer;
  if juice (punch c) then skip
  else
    s ← session_for (peer_uuid c);
    f ← control_frame s TT_PING;
    let p := punch c in
    mapM_ (fun sk => emit (PunchTo sk (direct p) f);;
                     (if have_lan p then emit (PunchTo sk (direct_lan p) f) else skip)) (punch_socks p).

Definition tick_conn_punch (e : env) (peer : bytes) : M unit :=
  cfg ← gets cfg_;
  c ← get_conn peer;
  let p := punch c in
  (if have_direct p && (now e <? punch_deadline p) && (next_punch p <=? now e) then
     do_punch peer;;
     update_conn peer (fun c => set_punch (set_next_punch (u64 (now e + punch_interval_ms cfg)) (punch c)) c)
   else skip);;
  c ← get_conn peer;
  let p := punch c in
  if negb (force_relay cfg) && negb (have_direct p) && (u64 (punch_deadline p + connect_timeout_ms cfg) <=? now e) then
    error (bs "connect " ++ peer_uuid c ++ bs ": server no response");;
    close_conn peer
  else skip.

(** Punching failed: its time is over. *)
Definition punch_over (e : env) (c : Conn) : bool :=
  have_direct (punch c) && (punch_deadline (punch c) <=? now e) && negb (direct_ok (punch c)).

Definition tick_conn_relay (e : env) (peer : bytes) : M unit :=
  s ← gets id;
  let cfg := cfg_ s in
  c ← get_conn peer;
  if force_relay cfg || punch_over e c then
    (if auto_relay cfg && negb (relay_registered_ s) && negb (length (proxies_ s) =? 0)%nat then
       relay_register;;
       put_conn peer (set_backoff_attempt (u32 (backoff_attempt c + 1)) c);;
       modify (set_next_relay_reg_ (u64 (now e + conn_backoff c (relay_register_ms cfg))))
     else skip);;
    c ← get_conn peer;
    if auto_relay cfg && negb (length (proxies_ s) =? 0)%nat && (next_relay_ping (relay c) <=? now e) then
      x ← session_for (peer_uuid c);
      f ← control_frame x TT_PING;
      send_tunnel_via e peer f;;
      update_conn peer (fun c => set_relay (set_next_relay_ping (u64 (now e + punch_interval_ms cfg)) (relay c)) c)
    else if negb (force_relay cfg) && (negb (auto_relay cfg) || (length (proxies_ s) =? 0)%nat) && punch_over e c then
      error (bs "connect " ++ peer_uuid c ++ bs ": no relay, direct failed");;
      close_conn peer
    else skip
  else skip.

Definition tick_conn_fsm (peer : bytes) : M unit :=
  c ← get_conn peer;
  if relay_ok (relay c) && negb (connected c) then mark_connected peer true else skip.

Definition tick_connections (e : env) : M unit :=
  for_conns e (fun peer =>
    c ← get_conn peer;
    if negb (connecting c) || connected c then skip
    else
      tick_conn_punch e peer;;
      tick_conn_relay e peer;;
      tick_conn_fsm peer).

Definition tick_sessions (e : env) : M unit :=
  ss ← gets sessions_;
  mapM_ (fun peer =>
    ss ← gets sessions_;
    match ss !! peer with
    | Some s => r ← lift (Session.tick (now e) s); with_session e peer r.1 r.2
    | None => lift (Fault UseAfterFree)
    end) (table_order e (dom ss)).

Definition tick (e : env) : M unit :=
  tick_heartbeat e;; tick_auth e;; tick_nat_detect e;; tick_relay e;; tick_connections e;; tick_sessions e.

(** ** The worker thread *)

Definition worker_begin (e : env) : M unit :=
  modify (set_next_heartbeat_ms_ (u64 (now e + 100)));;
  s ← gets secret_;
  if (length s =? 0)%nat then skip
  else do_auth_challenge;; modify (set_next_heartbeat_ms_ (u64 (now e + 500))).

(** A packet on socket [si] of the pool of [peer], the first from a known address
    decides which socket the direct path uses. *)
Definition worker_punch_recv (e : env) (peer : bytes) (si : nat) (mem : bytes) (n : nat) (from : sockaddr_in) : M unit :=
  s ← gets id;
  match conns_ s !! peer with
  | None => skip
  | Some c =>
      match nth_error (punch_socks (punch c)) si with
      | None => skip
      | Some _ =>
          (if (direct_sock_idx (punch c) <? 0) && bool_decide (is_Some (addr_to_peer_ s !! addr_key from)) then
             put_conn peer (set_punch (set_direct_sock_idx (Z.of_nat si) (punch c)) c)
           else skip);;
          handle_packet e mem n from
      end
  end.

End P2PClient.
