(* ===== verification/ClientCrypto.v ===== *)
(** * Encrypted tunnels between two clients

    What the client's transport guarantees of the payloads it encrypts, and what it
    does not: the two ends derive the same key, a frame survives encryption and
    decryption, but nothing makes the receiver insist on it. *)

From S2P Require Import Prelude.
From S2P Require Import Bytes.
From S2P Require Import Wire.
From S2P Require Import ProtoDef.
From S2P Require Import NetUtil.
From S2P Require Import Sha256.
From S2P Require Import Hmac.
From S2P Require Import Aes.
From S2P Require Import AesModes.
From S2P Require Import Packet.
From S2P Require Import Handler.
From S2P Require Import TunnelCodec.
From S2P Require Import Session.
From S2P Require Import ReliableLink.
From S2P Require Import ClientState.
From S2P Require Import ClientTunnel.
From S2P Require Import P2PClient.

#[local] Open Scope Z_scope.

Module ClientCrypto.
Import ClientState ClientTunnel P2PClient.

(** ** Stepping through a handler *)

Lemma get_conn_eq {B} peer c (k : Conn -> M B) s :
  conns_ s !! peer = Some c -> (get_conn peer ≫= k) s = k c s.
Proof. intros E. apply step_eq. unfold get_conn. by rewrite gets_eq, E. Qed.

Lemma put_conn_eq {B} peer c (k : unit -> M B) s :
  (put_conn peer c ≫= k) s = k tt (set_conns_ (<[peer := c]> (conns_ s)) s).
Proof. by apply step_eq. Qed.

Lemma update_conn_eq {B} peer f c (k : unit -> M B) s :
  conns_ s !! peer = Some c ->
  (update_conn peer f ≫= k) s = k tt (set_conns_ (<[peer := f c]> (conns_ s)) s).
Proof. intros E. apply step_eq. unfold update_conn. by rewrite (get_conn_eq _ _ _ _ E). Qed.

Lemma skip_eq {B} (k : unit -> M B) s : (skip ≫= k) s = k tt s.
Proof. by apply step_eq. Qed.

Lemma ret_eq {A B} (a : A) (k : A -> M B) s : (mret a ≫= k) s = k a s.
Proof. by apply step_eq. Qed.

Lemma emit_eq {B} ev (k : unit -> M B) s b s2 o :
  k tt s = Done (b, s2, o) -> (emit ev ≫= k) s = Done (b, s2, ev :: o).
Proof. apply (bind_eq (emit ev) k s tt s [ev]). done. Qed.

Lemma send_proto_to_eq id p to s :
  (length p + 8 <= MAX_PKT)%nat -> send_proto_to id p to s = Done (tt, s, [SendTo to (frame (msg_id id) p)]).
Proof.
  intros H. unfold send_proto_to. rewrite (proj2 (Nat.ltb_ge _ _)) by done. unfold emit. do 4 f_equal.
  unfold MAX_PKT in H. rewrite u32_small by (unfold u32_ok, len; lia).
  apply head_is_frame; [apply msg_id_range|unfold len; lia].
Qed.

Lemma send_proto_eq id p s :
  (length p + 8 <= MAX_PKT)%nat -> send_proto id p s = Done (tt, s, [SendTo (nat_sock_ s) (frame (msg_id id) p)]).
Proof. intros H. unfold send_proto. rewrite gets_eq. by apply send_proto_to_eq. Qed.

(** ** Keys *)

(** The key two identifiers share. *)
Definition tunnel_key (secret a b : bytes) : bytes :=
  hmac_sha256 secret (TUNNEL_KEY_PREFIX ++ (if bytes_ltb a b then a else b) ++ [58] ++ (if bytes_ltb a b then b else a)).

Lemma tunnel_key_sym secret a b : tunnel_key secret a b = tunnel_key secret b a.
Proof.
  unfold tunnel_key. destruct (bytes_ltb a b) eqn:E.
  - by rewrite (bytes_ltb_asym _ _ E).
  - destruct (bytes_ltb b a) eqn:F; [done|].
    by rewrite (bytes_ltb_total a b E F).
Qed.

(** The cache holds derived keys only. *)
Definition keys_ok (s : t) : Prop :=
  map_Forall (fun peer k => k = tunnel_key (secret_ s) (uuid (cfg_ s)) peer) (tunnel_keys_ s).

Lemma get_tunnel_key_eq {B} peer (k : option bytes -> M B) s :
  keys_ok s -> secret_ s <> [] -> peer <> [] -> peer <> uuid (cfg_ s) ->
  exists s', (get_tunnel_key peer ≫= k) s = k (Some (tunnel_key (secret_ s) (uuid (cfg_ s)) peer)) s' /\
    keys_ok s' /\ exists m, s' = set_tunnel_keys_ m s.
Proof.
  intros K Hs Hp Hu. assert ((length (secret_ s) =? 0)%nat = false) as E1 by (destruct (secret_ s); done).
  assert ((length peer =? 0)%nat = false) as E2 by (destruct peer; done).
  destruct (tunnel_keys_ s !! peer) as [key|] eqn:E.
  - exists s. split; [|split; [done|by exists (tunnel_keys_ s); destruct s]]. apply step_eq. unfold get_tunnel_key.
    rewrite !gets_eq, E1, E2, bool_decide_false by done. cbn [orb]. rewrite gets_eq, E. by rewrite (K _ _ E).
  - eexists. split; [apply step_eq; unfold get_tunnel_key; rewrite !gets_eq, E1, E2, bool_decide_false by done; cbn [orb];
                     rewrite gets_eq, E; cbv zeta; rewrite modify_eq; reflexivity|].
    split; [|by eexists]. unfold keys_ok. cbn [tunnel_keys_ secret_ cfg_ set_tunnel_keys_].
    apply map_Forall_insert_2; [|exact K]. unfold tunnel_key. by destruct (bytes_ltb (uuid (cfg_ s)) peer).
Qed.

(** ** Frames *)

Lemma tunnel_head_eq w : take 14 (tunnel_bytes w) =
  tunnel_head (wt_type w) (wt_session_id w) (wt_channel_id w) (wt_flags w) (wt_seq w) (wt_ack w) (len (wt_payload w)).
Proof. done. Qed.

Lemma drop_tunnel_bytes w rest : drop 14 (tunnel_bytes w ++ rest) = wt_payload w ++ rest.
Proof. unfold tunnel_bytes. by rewrite <- app_assoc. Qed.

Lemma frame_fields w rest :
  fields_ok w ->
  octet (tunnel_bytes w ++ rest) 7 = wt_flags w /\ be16 (tunnel_bytes w ++ rest) 12 = len (wt_payload w).
Proof.
  intros (_ & _ & _ & _ & _ & _ & L). split; [done|]. unfold be16, octet, tunnel_bytes, tunnel_head, hi_lo.
  cbn [app nth Nat.add]. apply pair16. unfold u16_ok, len in *. lia.
Qed.

(** [w] with other flags and payload. *)
Definition with_payload (fl : Z) (p : bytes) (w : WireTunnel) : WireTunnel :=
  mkWireTunnel (wt_type w) (wt_session_id w) (wt_channel_id w) fl (wt_seq w) (wt_ack w) p.

Lemma reflag_bytes w rest fl p :
  reflag (tunnel_bytes w ++ rest) fl (len p) ++ p = tunnel_bytes (with_payload fl p w).
Proof. done. Qed.

Lemma p2p_random_length dev n : length (p2p_random_bytes dev n) = n.
Proof.
  unfold p2p_random_bytes. destruct dev as [l|]; [|apply length_replicate].
  destruct (Nat.ltb_spec (length l) n); [apply length_replicate|]. rewrite length_take. lia.
Qed.

Lemma byte_ok_lor a b : byte_ok a -> byte_ok b -> byte_ok (Z.lor a b).
Proof.
  unfold byte_ok. intros Ha Hb. split; [apply Z.lor_nonneg; lia|].
  destruct (Z.eq_dec (Z.lor a b) 0) as [->|N]; [lia|]. apply Z.log2_lt_pow2 with (b := 8).
  - assert (0 <= Z.lor a b) by (apply Z.lor_nonneg; lia). lia.
  - rewrite Z.log2_lor by lia. apply Z.max_lub_lt.
    + destruct (Z.eq_dec a 0) as [->|]; [done|]. apply Z.log2_lt_pow2; lia.
    + destruct (Z.eq_dec b 0) as [->|]; [done|]. apply Z.log2_lt_pow2; lia.
Qed.

(** The encryption flag set and cleared. *)
Lemma flag_set f :
  Z.land f TF_ENC = 0 -> Z.land (Z.lor f TF_ENC) TF_ENC <> 0 /\ (byte_ok f -> Z.land (Z.lor f TF_ENC) 253 = f).
Proof.
  intros H. rewrite !Z.land_lor_distr_l, H. split; [done|]. intros B. change (Z.land TF_ENC 253) with 0.
  rewrite Z.lor_0_r. rewrite <- (u8_small f B) at 2. unfold u8. change 255 with (Z.lor 253 TF_ENC).
  by rewrite Z.land_lor_distr_r, H, Z.lor_0_r.
Qed.

(** What is on the wire instead of a payload. *)
Definition sealed (key nonce plain body : bytes) : Prop :=
  exists c tag, body = nonce ++ c ++ tag /\ length nonce = 12%nat /\ length c = length plain /\ length tag = 16%nat /\
    p2p_aead_decrypt key nonce c (length plain) tag = Some plain.

Lemma sealed_length key nonce plain body : sealed key nonce plain body -> length body = (28 + length plain)%nat.
Proof. intros (c & tag & -> & N & C & T & _). rewrite !length_app. lia. Qed.

Lemma encrypt_eq {B} e peer w (k : option bytes -> M B) s :
  keys_ok s -> secret_ s <> [] -> peer <> [] -> peer <> uuid (cfg_ s) -> fields_ok w ->
  wt_payload w <> [] -> (length (wt_payload w) <= MAX_TUNNEL_PAYLOAD)%nat ->
  exists nonce body s',
    (encrypt_tunnel_frame e peer (tunnel_bytes w) ≫= k) s =
      k (Some (tunnel_bytes (with_payload (Z.lor (wt_flags w) TF_ENC) body w))) s' /\
    sealed (tunnel_key (secret_ s) (uuid (cfg_ s)) peer) nonce (wt_payload w) body /\
    keys_ok s' /\ exists keys n d, s' = set_tunnel_enc_tx_ n (set_draws_ d (set_tunnel_keys_ keys s)).
Proof.
  intros K Hs Hp Hu Fw Hne Hlen. unfold MAX_TUNNEL_PAYLOAD in Hlen.
  destruct (frame_fields w [] Fw) as [F7 F12]. rewrite app_nil_r in F7, F12.
  pose proof (drop_tunnel_bytes w []) as D. rewrite !app_nil_r in D.
  set (pl := wt_payload w) in *. assert (length pl <> 0%nat) as Lne by (by destruct pl).
  unfold encrypt_tunnel_frame. rewrite length_tunnel_bytes. fold pl.
  rewrite (proj2 (Nat.ltb_ge _ _)) by lia. rewrite F12. unfold len. rewrite Nat2Z.id. cbv zeta.
  rewrite (proj2 (Nat.eqb_neq _ _)) by done. rewrite (proj2 (Nat.ltb_ge _ _)) by (unfold MAX_PKT; lia). cbn [orb].
  rewrite bind_assoc.
  match goal with |- context [(get_tunnel_key peer ≫= ?kk) s] =>
    destruct (get_tunnel_key_eq peer kk s K Hs Hp Hu) as (s1 & E & K1 & m & ->); rewrite E end. clear E.
  set (key := tunnel_key _ _ _) in *. set (s1 := set_tunnel_keys_ m s) in *.
  rewrite bind_assoc. set (nonce := p2p_random_bytes (dev_random e (draws_ s1)) 12).
  rewrite (step_eq _ _ s1 nonce (set_draws_ (S (draws_ s1)) s1)) by done.
  rewrite D. unfold read_obj. rewrite Nat.ltb_irrefl, firstn_all, bind_assoc, lift_eq.
  assert (length nonce = 12%nat) as Ln by apply p2p_random_length.
  destruct (aead_roundtrip key nonce pl (length pl) Ln) as (c & tag & Ec & Lc & Lt & Ed); [lia|done|].
  rewrite Ec. cbv zeta. rewrite bind_assoc, modify_eq, ret_eq.
  exists nonce, (nonce ++ c ++ tag).
  pose proof (reflag_bytes w [] (Z.lor (wt_flags w) TF_ENC) (nonce ++ c ++ tag)) as R. rewrite app_nil_r in R.
  rewrite u16_small by (unfold u16_ok, len; lia). rewrite F7, <- R.
  replace (12 + Z.of_nat (length c) + 16) with (len (nonce ++ c ++ tag)) by (unfold len; rewrite !length_app; lia).
  eexists. split; [reflexivity|]. split; [by exists c, tag|]. split; [exact K1|by eexists _, _, _].
Qed.

Lemma decrypt_eq {B} peer w rest plain nonce (k : option bytes -> M B) s :
  keys_ok s -> secret_ s <> [] -> peer <> [] -> peer <> uuid (cfg_ s) -> fields_ok w ->
  Z.land (wt_flags w) TF_ENC <> 0 -> (length plain <= MAX_TUNNEL_PAYLOAD)%nat ->
  sealed (tunnel_key (secret_ s) (uuid (cfg_ s)) peer) nonce plain (wt_payload w) ->
  exists s',
    (decrypt_tunnel_frame peer (tunnel_bytes w ++ rest) (length (tunnel_bytes w)) ≫= k) s =
      k (Some (tunnel_bytes (with_payload (Z.land (wt_flags w) 253) plain w))) s' /\
    keys_ok s' /\ exists keys n, s' = set_tunnel_enc_rx_ n (set_tunnel_keys_ keys s).
Proof.
  intros K Hs Hp Hu Fw Fe Hlen Hsl. unfold MAX_TUNNEL_PAYLOAD in Hlen. pose proof (sealed_length _ _ _ _ Hsl) as Lb.
  destruct (frame_fields w rest Fw) as [F7 F12]. pose proof (drop_tunnel_bytes w rest) as D.
  destruct Hsl as (c & tag & Eb & Ln & Lc & Lt & Ed).
  unfold decrypt_tunnel_frame. rewrite length_tunnel_bytes.
  rewrite (proj2 (Nat.ltb_ge _ _)) by lia. rewrite F7, F12. rewrite (proj2 (Z.eqb_neq _ _)) by done. cbn [orb].
  unfold len. rewrite Nat2Z.id, Lb. cbv zeta.
  rewrite (proj2 (Nat.ltb_ge (28 + length plain) _)) by lia.
  rewrite (proj2 (Nat.ltb_ge _ _)) by (unfold MAX_PKT; lia). cbn [orb]. rewrite bind_assoc.
  match goal with |- context [(get_tunnel_key peer ≫= ?kk) s] =>
    destruct (get_tunnel_key_eq peer kk s K Hs Hp Hu) as (s1 & E & K1 & m & ->); rewrite E end. clear E.
  rewrite D. unfold read_obj. rewrite (proj2 (Nat.ltb_ge _ _)) by (rewrite length_app; lia).
  rewrite bind_assoc, lift_eq. rewrite take_app_exact by done. rewrite Eb.
  replace (28 + length plain - 12 - 16)%nat with (length plain) by lia.
  unfold slice. rewrite take_app_exact by done. rewrite drop_app_exact by done. rewrite take_app_exact by done.
  rewrite <- drop_drop, drop_app_exact by done. rewrite drop_app_exact by done. rewrite Ed.
  rewrite bind_assoc, modify_eq, ret_eq. rewrite u16_small by (unfold u16_ok, len; lia).
  rewrite <- (reflag_bytes w rest (Z.land (wt_flags w) 253) plain).
  eexists. split; [reflexivity|]. split; [exact K1|by eexists _, _].
Qed.

Lemma refuse_eq peer w rest nonce c tag s :
  keys_ok s -> secret_ s <> [] -> peer <> [] -> peer <> uuid (cfg_ s) -> fields_ok w ->
  wt_payload w = nonce ++ c ++ tag -> length nonce = 12%nat -> length tag = 16%nat ->
  tag <> take 16 (aead_mac (tunnel_key (secret_ s) (uuid (cfg_ s)) peer) nonce c) ->
  exists s', decrypt_tunnel_frame peer (tunnel_bytes w ++ rest) (length (tunnel_bytes w)) s = Done (None, s', []) /\
    exists keys, s' = set_tunnel_keys_ keys s.
Proof.
  intros K Hs Hp Hu Fw Eb Ln Lt Hne.
  destruct (frame_fields w rest Fw) as [F7 F12]. pose proof (drop_tunnel_bytes w rest) as D.
  assert (exists keys, s = set_tunnel_keys_ keys s) as Same by (exists (tunnel_keys_ s); by destruct s).
  unfold decrypt_tunnel_frame. destruct (_ || _); [by exists s|].
  rewrite F12. unfold len. rewrite Nat2Z.id, Eb. cbv zeta. destruct (_ || _); [by exists s|].
  match goal with |- context [(get_tunnel_key peer ≫= ?kk) s] =>
    destruct (get_tunnel_key_eq peer kk s K Hs Hp Hu) as (s1 & E & _ & m & ->); rewrite E end.
  rewrite D, Eb. unfold read_obj. rewrite (proj2 (Nat.ltb_ge _ _)) by (rewrite !length_app; lia).
  rewrite lift_eq. rewrite take_app_exact by done. rewrite !length_app, Ln, Lt.
  replace (12 + (length c + 16) - 12 - 16)%nat with (length c) by lia.
  unfold slice. rewrite take_app_exact by done. rewrite drop_app_exact by done. rewrite take_app_exact by done.
  rewrite <- drop_drop, drop_app_exact by done. rewrite drop_app_exact by done.
  rewrite aead_refuses by done. eexists. split; [reflexivity|by eexists].
Qed.

(** C21: the two ends of an encrypted tunnel understand each other.  Clients that share
    the secret derive the same key from the two identifiers, in either role; the frame
    one encrypts has the flag set, is 28 octets longer, and the other turns it back
    into the frame, whatever follows it in the buffer.  A frame whose tag is not the
    MAC of its nonce and ciphertext is not decrypted. *)
Theorem tunnel_agreement (e : env) (w : WireTunnel) (sA sB : t)
    (HA : keys_ok sA) (HB : keys_ok sB) (Hsec : secret_ sA = secret_ sB /\ secret_ sA <> [])
    (Hid : uuid (cfg_ sA) <> [] /\ uuid (cfg_ sB) <> [] /\ uuid (cfg_ sA) <> uuid (cfg_ sB))
    (Hw : fields_ok w) (Hfl : Z.land (wt_flags w) TF_ENC = 0)
    (Hpay : wt_payload w <> [] /\ (length (wt_payload w) <= MAX_TUNNEL_PAYLOAD)%nat) :
  exists ct sA', encrypt_tunnel_frame e (uuid (cfg_ sB)) (tunnel_bytes w) sA = Done (Some ct, sA', []) /\
    keys_ok sA' /\ length ct = (length (tunnel_bytes w) + 28)%nat /\ Z.land (octet ct 7) TF_ENC <> 0 /\
    (forall rest, exists sB',
       decrypt_tunnel_frame (uuid (cfg_ sA)) (ct ++ rest) (length ct) sB = Done (Some (tunnel_bytes w), sB', []) /\
       keys_ok sB') /\
    (forall v rest nonce c tag, fields_ok v -> wt_payload v = nonce ++ c ++ tag -> length nonce = 12%nat ->
       length tag = 16%nat ->
       tag <> take 16 (aead_mac (tunnel_key (secret_ sA) (uuid (cfg_ sA)) (uuid (cfg_ sB))) nonce c) ->
       exists sB', decrypt_tunnel_frame (uuid (cfg_ sA)) (tunnel_bytes v ++ rest) (length (tunnel_bytes v)) sB =
                   Done (None, sB', [])).
Proof.
  destruct Hsec as [Hse Hs], Hid as (IA & IB & Hne), Hpay as [Hp Hl].
  assert (secret_ sB <> []) as SB by (by rewrite <- Hse).
  destruct (encrypt_eq e (uuid (cfg_ sB)) w mret sA HA Hs IB (not_eq_sym Hne) Hw Hp Hl)
    as (nonce & body & sA' & E & Hsl & KA & _).
  rewrite bind_ret_r in E. rewrite E. pose proof (sealed_length _ _ _ _ Hsl) as Lb.
  set (w' := with_payload _ body w).
  assert (fields_ok w') as Fw'.
  { destruct Hw as (? & ? & ? & Bf & ? & ? & ?). unfold MAX_TUNNEL_PAYLOAD in Hl.
    unfold fields_ok, w', with_payload.
    cbn [wt_type wt_session_id wt_channel_id wt_flags wt_seq wt_ack wt_payload].
    assert (len body < 65536) by (unfold len; lia). split_all; try done. by apply byte_ok_lor. }
  destruct (flag_set (wt_flags w) Hfl) as [Fs Fc]. assert (byte_ok (wt_flags w)) as Bf by apply Hw. specialize (Fc Bf).
  exists (tunnel_bytes w'), sA'. split; [done|]. split; [done|].
  split; [rewrite !length_tunnel_bytes; cbn [wt_payload w' with_payload]; lia|]. split; [exact Fs|]. split.
  - intros rest. rewrite Hse, tunnel_key_sym in Hsl.
    destruct (decrypt_eq (uuid (cfg_ sA)) w' rest (wt_payload w) nonce mret sB HB SB IA Hne Fw' Fs Hl Hsl)
      as (sB' & D & KB & _).
    rewrite bind_ret_r in D. exists sB'. split; [|done]. rewrite D.
    replace (with_payload (Z.land (wt_flags w') 253) (wt_payload w) w') with w; [done|].
    destruct w. unfold with_payload, w'. cbn. cbn in Fc. by rewrite Fc.
  - intros v rest n c tag Fv Ev Ln Lt Ht.
    rewrite Hse, tunnel_key_sym in Ht.
    destruct (refuse_eq (uuid (cfg_ sA)) v rest n c tag sB HB SB IA Hne Fv Ev Ln Lt Ht) as (sB' & D & _).
    by exists sB'.
Qed.

(** A client that has only its identifier and its secret. *)
Definition named (u secret : bytes) : t :=
  set_secret_ secret (set_cfg_ (default_config u [] [] []) (initial (mkCallbacks false false false false false))).

Lemma tunnel_agreement_witness :
  let e := mkEnv 1000 5000 (fun _ => Some (replicate 16 9)) true None elements in
  let w := mkWireTunnel 1 1 1 0 1 0 [104; 105] in
  exists ct sA', encrypt_tunnel_frame e (bs "bob") (tunnel_bytes w) (named (bs "alice") (bs "k")) =
      Done (Some ct, sA', []) /\ length ct = 44%nat /\
    exists sB', decrypt_tunnel_frame (bs "alice") (ct ++ [0; 0]) (length ct) (named (bs "bob") (bs "k")) =
      Done (Some (tunnel_bytes w), sB', []).
Proof.
  intros e w.
  destruct (tunnel_agreement e w (named (bs "alice") (bs "k")) (named (bs "bob") (bs "k")))
    as (ct & sA' & E & _ & L & _ & D & _).
  - apply map_Forall_empty.
  - apply map_Forall_empty.
  - split; [reflexivity|discriminate].
  - split; [discriminate|]. split; discriminate.
  - vm_compute. intuition discriminate.
  - reflexivity.
  - split; [discriminate|cbn; unfold MAX_TUNNEL_PAYLOAD; lia].
  - exists ct, sA'. split; [exact E|]. split; [exact L|]. destruct (D [0; 0]) as (sB' & D' & _). by exists sB'.
Defined.

End ClientCrypto.
