(* ===== verification/ClientInvariant.v ===== *)
(** * Every reachable client

    The client as a state machine whose steps are the calls of the application, the
    callbacks of the ICE library, the packets and the turns of its loop; an invariant of
    every state it can reach, and what follows from it. *)

From S2P Require Import Prelude.
From S2P Require Import Bytes.
From S2P Require Import Wire.
From S2P Require Import ProtoDef.
From S2P Require Import NetUtil.
From S2P Require Import Hmac.
From S2P Require Import AesModes.
From S2P Require Import Packet.
From S2P Require Import Handler.
From S2P Require Import TunnelCodec.
From S2P Require Import Session.
From S2P Require Import NatDetect.
From S2P Require Import ClientState.
From S2P Require Import ClientTunnel.
From S2P Require Import P2PClient.
From S2P Require Import ClientCrypto.

#[local] Open Scope Z_scope.

Module ClientInvariant.
Import ClientState ClientTunnel P2PClient ClientCrypto.

(** ** Frames of a session *)

(** Octets that are no message to a server. *)
Definition tunnelled (f : bytes) : Prop := be16 f 0 <> NAT_MAGIC.

Definition tx_ok (ev : Session.event) : Prop := match ev with Session.Tx f => tunnelled f | Session.Data _ _ => True end.

Lemma tunnelled_no_head f n : tunnelled f -> codec_read_head (take n f) = None.
Proof.
  intros H. unfold codec_read_head. destruct (Nat.ltb_spec (length (take n f)) 8) as [|L]; [done|]. cbv zeta.
  rewrite length_take in L. cbn [wh_magic]. destruct (Z.eqb_spec (be16 (take n f) 0) NAT_MAGIC) as [E|]; [|done].
  exfalso. apply H. rewrite <- E. unfold be16, octet. rewrite <- (take_drop n f) at 1 2.
  rewrite !app_nth1 by (rewrite length_take; lia). done.
Qed.

Lemma new_frame_tunnelled x ty ch fl seq ack p n f :
  Session.new_frame x ty ch fl seq ack p n = Done f -> tunnelled f.
Proof.
  unfold Session.new_frame, codec_write_tunnel. set (buf := replicate (14 + n) 0).
  destruct (_ <? _); [intros [= <-]; discriminate|]. destruct (_ <? _)%nat; [done|]. cbv zeta.
  destruct p as [p|]; [|intros [= <-]; discriminate].
  destruct (_ <? _); [|intros [= <-]; discriminate]. destruct (_ <? _); [done|]. destruct (_ <? _); [done|].
  intros [= <-]. discriminate.
Qed.

Lemma tx_tunnelled x f : tunnelled f -> Forall tx_ok (Session.tx x f).
Proof. unfold Session.tx. intros H. destruct (Session.on_tx x); by repeat constructor. Qed.

(** What an operation of a session keeps: its identity, and that all its frames are
    tunnel frames, those it still holds and those it sends. *)
Definition same_ends (x y : Session.t) : Prop :=
  Session.session_id_ y = Session.session_id_ x /\ Session.on_data y = Session.on_data x /\ Session.on_tx y = Session.on_tx x.

Definition holds_frames (x : Session.t) : Prop := Forall (fun m => tunnelled (Session.m_data m)) (Session.pending_ x).

Definition moves (x y : Session.t) (ev : list Session.event) : Prop :=
  same_ends x y /\ (holds_frames x -> holds_frames y /\ Forall tx_ok ev).

Lemma moves_refl x ev : Forall tx_ok ev -> moves x x ev.
Proof. by split. Qed.

Lemma moves_trans x y z ev ev' : moves x y ev -> moves y z ev' -> moves x z (ev ++ ev').
Proof.
  intros [(A1 & A2 & A3) A] [(B1 & B2 & B3) B]. split; [unfold same_ends; split_and!; congruence|].
  intros H. destruct (A H) as [H1 E1], (B H1) as [H2 E2]. split; [done|]. by apply Forall_app_2.
Qed.

Lemma deliver_moves p ch x : moves x (Session.deliver p ch x).1 (Session.deliver p ch x).2.
Proof. split; [done|]. intros H. split; [exact H|]. cbn. destruct (_ && _); by repeat constructor. Qed.

Lemma drain_moves l x : moves x (Session.drain l x).1 (Session.drain l x).2.
Proof.
  revert x. induction l as [|[k d] l IH]; intros x; [by apply moves_refl|]. cbn [Session.drain].
  destruct (k =? Session.expected_seq_ x); [|by apply moves_refl]. cbv zeta.
  match goal with |- context [Session.deliver ?p ?ch x] => pose proof (deliver_moves p ch x) as D; set (dl := Session.deliver p ch x) in * end.
  destruct dl as [z ev]. cbn [fst snd] in D. set (y := Session.advance _).
  specialize (IH y). destruct (Session.drain l y) as [z' more]. cbn [fst snd] in *.
  eapply moves_trans; [exact D|]. exact IH.
Qed.

Lemma send_ack_tunnelled x ev : Session.send_ack x = Done ev -> Forall tx_ok ev.
Proof.
  unfold Session.send_ack. destruct (Session.new_frame _ _ _ _ _ _ _ _) as [f|] eqn:E; [|done].
  intros [= <-]. by eapply tx_tunnelled, new_frame_tunnelled.
Qed.

Lemma handle_data_moves w x y ev : Session.handle_data w x = Done (y, ev) -> moves x y ev.
Proof.
  unfold Session.handle_data. set (x0 := Session.set_receiver _ _ _ _ _ x). intros E.
  assert (moves x0 y ev) as M; [|exact M]. revert E. clearbody x0. clear x.
  destruct (negb _).
  2:{ intros [= <- <-]. exact (deliver_moves (wt_payload w) (wt_channel_id w) x0). }
  destruct (_ =? _).
  - pose proof (deliver_moves (wt_payload w) (wt_channel_id w) x0) as D. destruct (Session.deliver _ _ x0) as [x1 ev1].
    cbn [fst snd] in D. pose proof (drain_moves (Session.ooo_ (Session.advance x1)) (Session.advance x1)) as D2.
    destruct (Session.drain _ _) as [z more]. cbn [fst snd] in D2.
    destruct (Session.send_ack z) as [a|] eqn:A; [|done]. intros [= <- <-].
    eapply moves_trans; [eapply (moves_trans _ x1); [exact D|exact D2]|]. by apply moves_refl, (send_ack_tunnelled z).
  - destruct (_ && _); (match goal with |- context [Session.send_ack ?z] => destruct (Session.send_ack z) as [a|] eqn:A end; [|done]);
      intros [= <- <-]; apply send_ack_tunnelled in A; by apply (moves_refl x0).
Qed.

Lemma pop_acked_frames a l :
  Forall (fun m => tunnelled (Session.m_data m)) l -> Forall (fun m => tunnelled (Session.m_data m)) (Session.pop_acked a l).
Proof.
  induction l as [|m l IH]; [done|]. intros H. cbn [Session.pop_acked]. destruct (_ <=? _); [|exact H].
  apply IH. by apply Forall_cons in H as [_ ?].
Qed.

Lemma on_frame_moves buf x y ev : Session.on_frame buf x = Done (y, ev) -> moves x y ev.
Proof.
  unfold Session.on_frame. destruct (codec_read_tunnel buf) as [w|]; [|intros [= <- <-]; by apply moves_refl].
  destruct (tunnel_type_of _) as [[]|]; try (intros [= <- <-]; by apply moves_refl).
  - apply handle_data_moves.
  - intros [= <- <-]. split; [done|]. intros H. split; [|done]. by apply pop_acked_frames.
  - destruct (Session.reply_pong x) as [p|] eqn:P; [|done]. intros [= <- <-]. apply moves_refl. revert P.
    unfold Session.reply_pong. destruct (Session.new_frame _ _ _ _ _ _ _ _) as [f|] eqn:E; [|done].
    intros [= <-]. by eapply tx_tunnelled, new_frame_tunnelled.
  - intros [= <- <-]. by split.
Qed.

Lemma send_moves t0 ch d r x n y ev : Session.send t0 ch d r x = Done (n, y, ev) -> moves x y ev.
Proof.
  unfold Session.send. destruct (_ <? _)%nat; [intros [= _ <- <-]; by apply moves_refl|].
  destruct (_ && _); [intros [= _ <- <-]; by apply moves_refl|].
  cbv zeta. destruct (Session.new_frame _ _ _ _ _ _ _ _) as [f|] eqn:E; [|done]. apply new_frame_tunnelled in E.
  intros [= _ <- <-]. split; [done|]. intros H. split; [|by apply tx_tunnelled].
  unfold holds_frames. cbn. destruct r; [|exact H]. apply Forall_app_2; [exact H|]. by constructor.
Qed.

Lemma tick_moves t0 x y ev : Session.tick t0 x = Done (y, ev) -> moves x y ev.
Proof.
  unfold Session.tick. cbv zeta. match goal with |- (?m ≫= _) = _ -> _ => destruct m as [ping|] eqn:P end; [|done].
  intros E. assert (Forall tx_ok ping) as Hp.
  { destruct (15000 <=? _); [|by injection P as <-].
    destruct (Session.new_frame _ _ _ _ _ _ _ _) as [f|] eqn:F; [|done]. injection P as <-.
    by eapply tx_tunnelled, new_frame_tunnelled. }
  revert E. unfold Session.resend. intros [= <- <-]. split; [done|]. unfold holds_frames. cbn. intros H. split.
  - apply Forall_map. eapply Forall_impl; [exact H|]. intros m Hm. cbn. by destruct (Session.overdue t0 x m).
  - apply Forall_app_2; [exact Hp|]. apply Forall_concat, Forall_map. eapply Forall_impl; [exact H|].
    intros m Hm. cbn. destruct (Session.overdue t0 x m); [by apply tx_tunnelled|constructor].
Qed.

(** A session that calls back, with an identifier of 16 bits and only tunnel frames. *)
Definition session_ok (x : Session.t) : Prop :=
  Session.on_data x = true /\ Session.on_tx x = true /\ u16_ok (Session.session_id_ x) /\ holds_frames x.

Lemma session_ok_moves x y ev : moves x y ev -> session_ok x -> session_ok y /\ Forall tx_ok ev.
Proof.
  intros [(I & D & T) H] (Hd & Ht & Hi & Hf). destruct (H Hf) as [Hf' He]. unfold session_ok. by rewrite I, D, T.
Qed.

(** ** The invariant *)

(** A connection without punching sockets, filed under its own peer. *)
Definition conn_ok (peer : bytes) (c : Conn) : Prop :=
  punch_socks (punch c) = [] /\ direct_sock_idx (punch c) = -1 /\ (peer_uuid c = peer \/ peer_uuid c = []).

(** What else is watched: a login that has been asked for and not been answered, a
    registration at the relay, or whether the client is running and how it is configured. *)
Inductive watch := Anything | LoginLost | Settled | Steady (running : bool) (cfg : Config).

Definition watched (w : watch) (s : t) : Prop :=
  match w with
  | Anything => True
  | LoginLost => auth_inflight_ s = true /\ authed_ s = false
  | Settled => relay_registered_ s = true
  | Steady b cfg => running_ s = b /\ cfg_ s = cfg
  end.

Lemma watched_free w s s' :
  w <> LoginLost -> (relay_registered_ s = true -> relay_registered_ s' = true) -> running_ s' = running_ s ->
  cfg_ s' = cfg_ s -> watched w s -> watched w s'.
Proof. destruct w; [done..|]. intros _ _ E1 E2. cbn. by rewrite E1, E2. Qed.

Lemma watched_asked w s : watched w s -> watched w (set_auth_inflight_ true s).
Proof. destruct w; [done| |done..]. by intros [_ H]. Qed.

Lemma watched_registered w m s : watched w s -> watched w (set_conns_ m (set_relay_registered_ true s)).
Proof. by destruct w. Qed.

Definition inv (w : watch) (s : t) : Prop :=
  heartbeat_fail_ s = 0 /\
  map_Forall conn_ok (conns_ s) /\
  (u16_ok (next_session_id_ s) /\ map_Forall (fun _ x => session_ok x) (sessions_ s)) /\
  (heartbeat_enc_ s = true -> authed_ s = true) /\
  (running_ s = true ->
     keys_ok s /\ secret_ s = secret (cfg_ s) /\ tunnel_enc_ s = negb (length (secret_ s) =? 0)%nat /\
     (0 < length (uuid (cfg_ s)) <= MAX_UUID_LEN)%nat) /\
  watched w s.

(** No request to register at the relay. *)
Definition no_register (p : bytes) : Prop :=
  forall h, codec_read_head p = Some h -> wh_msg_id h <> msg_id MSG_PROXY_REGISTER_REQ.

Definition quiet (w : watch) (e : event) : Prop :=
  match e with
  | PunchTo _ _ _ => False
  | SendTo _ p => w = Settled -> no_register p
  | _ => True
  end.

Lemma message_no_register id n p : id <> MSG_PROXY_REGISTER_REQ -> no_register (codec_write_head (msg_id id) n ++ p).
Proof.
  intros N h Hh E. apply N.
  assert (wh_msg_id h = msg_id id) as Ei.
  { revert Hh. unfold codec_read_head. destruct (_ <? _)%nat; [done|]. cbv zeta. repeat (case_match; [done|]).
    by intros [= <-]. }
  pose proof (msg_of_id id) as A. rewrite <- Ei, E, msg_of_id in A. congruence.
Qed.

Lemma tunnelled_no_register p : tunnelled p -> no_register p.
Proof. intros H h. pose proof (tunnelled_no_head p (length p) H) as E. rewrite take_ge in E by done. by rewrite E. Qed.

Lemma send_req_no_register ip port : Forall (fun d => no_register d.2) (NatDetect.send_req ip port).
Proof.
  unfold NatDetect.send_req. destruct (inet_pton ip); [|done]. repeat constructor. cbn [snd].
  rewrite <- (app_nil_r (codec_write_head _ _)). by apply message_no_register.
Qed.

Lemma started_no_register ip port now d d' out :
  NatDetect.start ip port now d = (d', out) -> Forall (fun d => no_register d.2) out.
Proof. intros [= _ <-]. apply send_req_no_register. Qed.

Lemma ticked_no_register ip p1 p2 now d d' out :
  NatDetect.tick ip p1 p2 now d = (d', out) -> Forall (fun d => no_register d.2) out.
Proof.
  unfold NatDetect.tick. cbv zeta. repeat case_match; intros [= _ <-]; try done; apply send_req_no_register.
Qed.

Section Keeps.
Context (w : watch).
Let inv := inv w.
Abbreviation quiet := (quiet w).

(** [m] keeps the invariant, sends nothing from the pool, and its result satisfies [V]. *)
Definition gives {A} (V : A -> Prop) (m : M A) : Prop :=
  forall s a s' o, inv s -> m s = Done (a, s', o) -> inv s' /\ V a /\ Forall quiet o.

Abbreviation keeps := (gives (fun _ => True)).

Lemma gives_weaken {A} (V : A -> Prop) m : gives V m -> keeps m.
Proof. intros H s a s' o I E. by destruct (H s a s' o I E) as (? & _ & ?). Qed.

Lemma gives_ret {A} (V : A -> Prop) a : V a -> gives V (mret a).
Proof. intros H s x s' o I [= <- <- <-]. by split_all. Qed.

Lemma kept_ret {A} (a : A) : keeps (mret a).
Proof. by apply gives_ret. Qed.

Lemma kept_skip : keeps skip.
Proof. apply kept_ret. Qed.

Lemma gives_bind {A B} (V : A -> Prop) (W : B -> Prop) (m : M A) (k : A -> M B) :
  gives V m -> (forall a, V a -> gives W (k a)) -> gives W (m ≫= k).
Proof.
  intros Hm Hk s b s' o I E. apply bind_done in E as (a & s1 & o1 & o2 & E1 & E2 & ->).
  destruct (Hm _ _ _ _ I E1) as (I1 & Va & Q1). destruct (Hk a Va _ _ _ _ I1 E2) as (I2 & Wb & Q2).
  split_all; [done..|]. by apply Forall_app_2.
Qed.

Lemma gives_gets {A} (f : t -> A) : gives (fun a => exists s, inv s /\ a = f s) (gets f).
Proof. intros s a s' o I [= <- <- <-]. split_all; [done|by exists s|done]. Qed.

Lemma kept_modify f : (forall s, inv s -> inv (f s)) -> keeps (modify f).
Proof. intros Hf s a s' o I [= <- <- <-]. split_all; [by apply Hf|done..]. Qed.

Lemma kept_emit e : quiet e -> keeps (emit e).
Proof. intros Q s a s' o I [= <- <- <-]. split_all; [done..|by constructor]. Qed.

Lemma gives_lift {A} (x : outcome A) : keeps (lift x).
Proof. intros s a s' o I. unfold lift. destruct x; [|done]. intros [= <- <- <-]. by split_all. Qed.

Lemma gives_if {A} (V : A -> Prop) (b : bool) m m' : gives V m -> gives V m' -> gives V (if b then m else m').
Proof. by destruct b. Qed.

Lemma kept_mapM_all {A} (P : A -> Prop) (f : A -> M unit) l :
  Forall P l -> (forall a, P a -> keeps (f a)) -> keeps (mapM_ f l).
Proof.
  intros H Hf. induction H as [|a l Ha _ IH]; [apply kept_skip|].
  apply (gives_bind (fun _ => True)); [by apply Hf|by intros _ _].
Qed.

Lemma kept_mapM {A} (f : A -> M unit) l : (forall a, keeps (f a)) -> keeps (mapM_ f l).
Proof. intros Hf. apply (kept_mapM_all (fun _ => True)); [by apply Forall_true|by intros a _]. Qed.

(** ** Connections *)

Lemma gives_get_conn peer : gives (conn_ok peer) (get_conn peer).
Proof.
  apply (gives_bind _ _ _ _ (gives_gets conns_)). intros cs (s & I & ->).
  destruct (conns_ s !! peer) as [c|] eqn:E; [|by intros ????].
  apply gives_ret. by apply I in E.
Qed.

Lemma keeps_put_conn peer c : conn_ok peer c -> keeps (put_conn peer c).
Proof.
  intros Hc. apply kept_modify. intros s (F & C & R). split; [exact F|].
  split; [by apply map_Forall_insert_2|exact R].
Qed.

Lemma gives_conn_at peer : gives (conn_ok peer) (conn_at peer).
Proof.
  apply (gives_bind _ _ _ _ (gives_gets conns_)). intros cs (s & I & ->).
  destruct (conns_ s !! peer) as [c|] eqn:E; [apply gives_ret; by apply I in E|].
  assert (conn_ok peer new_conn) as N by (split; [done|split; [done|by right]]).
  apply (gives_bind _ _ _ _ (keeps_put_conn peer new_conn N)). intros _ _. by apply gives_ret.
Qed.

Lemma keeps_update_conn peer f : (forall c, conn_ok peer c -> conn_ok peer (f c)) -> keeps (update_conn peer f).
Proof.
  intros Hf. apply (gives_bind _ _ _ _ (gives_get_conn peer)). intros c Hc. by apply keeps_put_conn, Hf.
Qed.

Lemma keeps_emit_if b e : quiet e -> keeps (emit_if b e).
Proof. intros Q. unfold emit_if. destruct b; [by apply kept_emit|apply kept_skip]. Qed.

(** ** Walking through the handlers *)

Lemma keeps_same f : (forall s, inv s -> inv (f s)) -> keeps (modify f).
Proof. apply kept_modify. Qed.

(** *** Sessions *)

Lemma gives_session_for peer : gives session_ok (session_for peer).
Proof.
  intros s a s' o I. unfold session_for. rewrite gets_eq. destruct (sessions_ s !! peer) as [x|] eqn:E.
  - intros [= <- <- <-]. split; [exact I|]. split; [|done]. destruct I as (_ & _ & (_ & Ss) & _). exact (Ss _ _ E).
  - rewrite gets_eq. cbv zeta. rewrite modify_eq. intros [= <- <- <-]. destruct I as (F & C & (Ni & Ss) & R).
    assert (session_ok (Session.create (next_session_id_ s) true true)) as N
      by (refine (conj eq_refl (conj eq_refl (conj Ni _))); constructor).
    split; [|done]. split; [exact F|]. split; [exact C|]. split; [|exact R]. split; [apply u16_range|].
    by apply map_Forall_insert_2.
Qed.

Lemma gives_on_frame f x : session_ok x -> gives (fun r => session_ok r.1 /\ Forall tx_ok r.2) (lift (Session.on_frame f x)).
Proof.
  intros Hx s [y ev] s' o I. unfold lift. destruct (Session.on_frame f x) as [[y' ev']|] eqn:E; [|done].
  intros [= <- <- <- <-]. split; [done|]. split; [|done]. exact (session_ok_moves _ _ _ (on_frame_moves _ _ _ _ E) Hx).
Qed.

Lemma gives_session_send t0 ch d r x :
  session_ok x -> gives (fun r => session_ok r.1.2 /\ Forall tx_ok r.2) (lift (Session.send t0 ch d r x)).
Proof.
  intros Hx s [[n y] ev] s' o I. unfold lift. destruct (Session.send t0 ch d r x) as [[[n' y'] ev']|] eqn:E; [|done].
  intros [= <- <- <- <- <-]. split; [done|]. split; [|done]. exact (session_ok_moves _ _ _ (send_moves _ _ _ _ _ _ _ _ E) Hx).
Qed.

Lemma gives_session_tick t0 x : session_ok x -> gives (fun r => session_ok r.1 /\ Forall tx_ok r.2) (lift (Session.tick t0 x)).
Proof.
  intros Hx s [y ev] s' o I. unfold lift. destruct (Session.tick t0 x) as [[y' ev']|] eqn:E; [|done].
  intros [= <- <- <- <-]. split; [done|]. split; [|done]. exact (session_ok_moves _ _ _ (tick_moves _ _ _ _ E) Hx).
Qed.

(** A connection changed through the setters is still in order. *)
Ltac conn_kept :=
  repeat match goal with |- conn_ok _ (match ?x with _ => _ end) => destruct x end;
  match goal with
  | H : conn_ok ?p ?c |- conn_ok ?p _ =>
      let S := fresh in let D := fresh in let U := fresh in
      pose proof H as (S & D & U); split; [first [exact S|reflexivity]|]; split; [first [exact D|reflexivity]|];
      first [exact U|left; reflexivity]
  end.

Create HintDb client.
#[local] Hint Resolve kept_ret kept_skip gives_get_conn keeps_put_conn gives_conn_at keeps_update_conn
  keeps_emit_if gives_gets : client.
#[local] Hint Extern 1 (quiet _) => exact Logic.I : client.
#[local] Hint Extern 1 (conn_ok _ _) => conn_kept : client.
#[local] Hint Extern 1 (_ = Settled -> _ <> _) => intros _; discriminate : client.

Ltac walk :=
  repeat first
    [ progress (intros; cbv zeta)
    | solve [eauto 3 with client]
    | match goal with
      | H : exists s, inv s /\ _ = _ |- _ => destruct H as (? & ? & ->)
      | H : ?P _ |- _ => match P with fun _ => _ => cbn beta in H end
      | H : session_ok _ /\ Forall _ _ |- _ => destruct H
      | |- gives _ (modify _) => apply kept_modify; intros; assumption
      | |- gives _ (emit _) => apply kept_emit; exact Logic.I
      | |- gives _ (mbind _ (gets _)) => eapply gives_bind; [apply gives_gets|]
      | |- gives _ (mbind _ (lift _)) =>
          eapply gives_bind;
            [first [eapply gives_on_frame; eassumption|eapply gives_session_send; eassumption|
                    eapply gives_session_tick; eassumption|apply gives_lift]|]
      | |- gives _ (lift _) => apply gives_lift
      | |- gives _ (mbind _ _) => eapply gives_bind; [solve [eauto 3 with client]|]
      | |- gives _ (mbind _ _) => apply (gives_bind (fun _ => True))
      | |- gives _ (if _ then _ else _) => apply gives_if
      | |- gives _ (mapM_ _ _) => apply kept_mapM
      | |- gives _ (let '(_, _) := ?x in _) => destruct x eqn:?
      | |- gives _ (match ?x with _ => _ end) => destruct x eqn:?
      end ].

Lemma keeps_error text : keeps (error text).
Proof. unfold error. walk. Qed.

Lemma keeps_read_device e : keeps (read_device e).
Proof. unfold read_device. walk. Qed.

#[local] Hint Resolve keeps_error keeps_read_device : client.

Lemma keeps_random_bytes e n : keeps (random_bytes e n).
Proof. unfold random_bytes. walk. Qed.

Lemma keeps_plat_rand e n : keeps (plat_rand_bytes e n).
Proof. unfold plat_rand_bytes. walk. Qed.

Lemma keeps_send_proto_to id p to : (w = Settled -> id <> MSG_PROXY_REGISTER_REQ) -> keeps (send_proto_to id p to).
Proof.
  intros H. unfold send_proto_to. destruct (_ <? _)%nat; [apply kept_skip|]. apply kept_emit. intros E.
  by apply message_no_register, H.
Qed.

#[local] Hint Resolve keeps_random_bytes keeps_plat_rand keeps_send_proto_to : client.

Lemma keeps_send_proto id p : (w = Settled -> id <> MSG_PROXY_REGISTER_REQ) -> keeps (send_proto id p).
Proof. intros H. unfold send_proto. walk. Qed.

(** The state as it is read again within one step. *)
Lemma keeps_get_tunnel_key peer : keeps (get_tunnel_key peer).
Proof.
  intros s a s' o I. unfold get_tunnel_key. rewrite !gets_eq.
  destruct (_ || _); [exact (kept_ret None s a s' o I)|]. rewrite gets_eq.
  destruct (tunnel_keys_ s !! peer); [exact (kept_ret _ s a s' o I)|]. cbv zeta. rewrite modify_eq.
  intros [= <- <- <-]. split_all; [|done..]. destruct I as (F & C & SS & En & R & St).
  split; [exact F|]. split; [exact C|]. split; [exact SS|]. split; [exact En|]. split; [|exact St]. intros Hr.
  destruct (R Hr) as (K & R'). split; [|exact R']. unfold keys_ok. cbn [tunnel_keys_ secret_ cfg_ set_tunnel_keys_].
  apply map_Forall_insert_2; [|exact K]. unfold tunnel_key. by destruct (bytes_ltb (uuid (cfg_ s)) peer).
Qed.

#[local] Hint Resolve keeps_send_proto keeps_get_tunnel_key : client.

Definition opt_tunnelled (r : option bytes) : Prop := match r with Some f => tunnelled f | None => True end.

Lemma reflag_tunnelled f fl n p : tunnelled f -> (14 <= length f)%nat -> tunnelled (reflag f fl n ++ p).
Proof.
  unfold tunnelled, be16, octet, reflag. intros H L. rewrite <- !app_assoc, !app_nth1 by (rewrite length_take; lia).
  rewrite <- (take_drop 7 f) in H. by rewrite !app_nth1 in H by (rewrite length_take; lia).
Qed.

Lemma gives_encrypt e peer f : tunnelled f -> gives opt_tunnelled (encrypt_tunnel_frame e peer f).
Proof.
  intros Hf. unfold encrypt_tunnel_frame. destruct (Nat.ltb_spec (length f) 14); [by apply gives_ret|]. cbv zeta.
  destruct (_ || _); [by apply gives_ret|].
  apply (gives_bind (fun _ => True)); [eauto with client|]. intros [k|] _; [|by apply gives_ret].
  apply (gives_bind (fun _ => True)); [eauto with client|]. intros nonce _.
  apply (gives_bind (fun _ => True)); [apply gives_lift|]. intros d _.
  destruct (AesModes.p2p_aead_encrypt _ _ _ _) as [[c tag]|]; [|by apply gives_ret].
  apply (gives_bind (fun _ => True)); [apply kept_modify; done|]. intros _ _. apply gives_ret. by apply reflag_tunnelled.
Qed.

Lemma keeps_decrypt peer mem n : keeps (decrypt_tunnel_frame peer mem n).
Proof. unfold decrypt_tunnel_frame. walk. Qed.

#[local] Hint Resolve keeps_decrypt : client.

Lemma keeps_send_tunnel e peer f : tunnelled f -> keeps (send_tunnel_via e peer f).
Proof.
  intros Hf. unfold send_tunnel_via. apply (gives_bind _ _ _ _ (gives_get_conn peer)). intros c (Hp & _).
  rewrite Hp, (proj2 (nth_error_None [] _) (Nat.le_0_l _)).
  apply (gives_bind _ _ _ _ (gives_gets id)). intros x (s & I & ->). unfold id. cbv zeta.
  apply (gives_bind opt_tunnelled).
  { destruct (tunnel_enc_ s); [by apply gives_encrypt|by apply gives_ret]. }
  intros enc He. assert (tunnelled (default f enc)) as Ht by (by destruct enc).
  assert (forall a, quiet (SendTo a (default f enc))) as Q by (intros a _; by apply tunnelled_no_register).
  destruct (_ && _); [by apply kept_emit|]. destruct (_ || _).
  - apply (gives_bind (fun _ => True)); [by apply kept_emit|]. intros _ _. destruct (have_lan _); [by apply kept_emit|apply kept_skip].
  - destruct (_ && _); [|apply kept_skip]. destruct (_ <? _)%nat; [apply kept_skip|].
    destruct (proxies_ s) as [|px l]; [apply kept_skip|]. destruct (sockaddr_from _ _) as [to ok].
    apply keeps_emit_if. intros _. by apply message_no_register.
Qed.

#[local] Hint Resolve keeps_send_tunnel gives_session_for : client.

Lemma keeps_session_event e peer ev : tx_ok ev -> keeps (session_event e peer ev).
Proof. intros H. unfold session_event. destruct ev as [f|ch d]; [|walk]. cbn in H. walk. Qed.

#[local] Hint Resolve keeps_session_event : client.

Lemma keeps_with_session e peer x ev : session_ok x -> Forall tx_ok ev -> keeps (with_session e peer x ev).
Proof.
  intros Hx He. unfold with_session. apply (gives_bind (fun _ => True)).
  - apply kept_modify. intros s (F & C & (Ni & Ss) & R).
    split; [exact F|]. split; [exact C|]. split; [|exact R]. split; [exact Ni|]. by apply map_Forall_insert_2.
  - intros _ _. apply (kept_mapM_all tx_ok); [exact He|]. apply keeps_session_event.
Qed.

Lemma gives_control s ty : gives tunnelled (control_frame s ty).
Proof.
  intros x f x' o I. unfold control_frame, lift. destruct (Session.new_frame _ _ _ _ _ _ _ _) as [f'|] eqn:E; [|done].
  intros [= <- <- <-]. split_all; [done| |done]. by eapply new_frame_tunnelled.
Qed.

#[local] Hint Resolve keeps_with_session gives_control : client.

Lemma keeps_tunnel_frame e mem n peer : keeps (on_tunnel_frame e mem n peer).
Proof. unfold on_tunnel_frame. walk. Qed.

#[local] Hint Resolve keeps_tunnel_frame : client.

Lemma keeps_close peer : keeps (close_conn peer).
Proof.
  unfold close_conn. walk; apply kept_modify; intros s (F & C & (Ni & Ss) & R); (split; [exact F|]).
  - split; [exact C|]. split; [|exact R]. split; [exact Ni|]. by apply map_Forall_delete.
  - split; [by apply map_Forall_delete|]. split; [by split|exact R].
Qed.

#[local] Hint Resolve keeps_close : client.

Lemma keeps_do_challenge : keeps do_auth_challenge.
Proof.
  unfold do_auth_challenge. walk. apply kept_modify. intros s (F & C & SS & En & R & St).
  split; [exact F|]. split; [exact C|]. split; [exact SS|]. split; [exact En|]. split; [exact R|]. by apply watched_asked.
Qed.

Lemma keeps_do_login : keeps do_auth_login.
Proof. unfold do_auth_login. walk. Qed.

Lemma keeps_do_heartbeat e : keeps (do_heartbeat e).
Proof. unfold do_heartbeat. walk. Qed.

Lemma keeps_relay_register : w <> Settled -> keeps relay_register.
Proof. intros H. unfold relay_register. walk. apply keeps_send_proto_to. by intros. Qed.

(** Who may still have to register. *)
Lemma unsettled s : inv s -> relay_registered_ s = false -> w <> Settled.
Proof. intros (_ & _ & _ & _ & _ & St) E Ew. rewrite Ew in St. cbn in St. congruence. Qed.

Lemma keeps_send_sdp peer sdp : keeps (send_ice_sdp peer sdp).
Proof. unfold send_ice_sdp. walk. Qed.

#[local] Hint Resolve keeps_do_challenge keeps_do_login keeps_do_heartbeat keeps_send_sdp : client.

(** ** ICE *)

Lemma keeps_ensure_ice e peer : keeps (ensure_ice_agent e peer).
Proof. unfold ensure_ice_agent. walk. Qed.

Lemma keeps_apply_sdp peer sdp : keeps (apply_remote_ice_sdp peer sdp).
Proof. unfold apply_remote_ice_sdp. walk. Qed.

Lemma keeps_mark peer r : keeps (mark_connected peer r).
Proof. unfold mark_connected. walk. Qed.

#[local] Hint Resolve keeps_ensure_ice keeps_apply_sdp keeps_mark : client.

Lemma keeps_juice_state peer up : keeps (on_juice_state peer up).
Proof. unfold on_juice_state. walk. Qed.

Lemma keeps_juice_candidate peer sdp : keeps (on_juice_candidate peer sdp).
Proof. unfold on_juice_candidate. walk. Qed.

Lemma keeps_juice_gathering e peer : keeps (on_juice_gathering_done e peer).
Proof. unfold on_juice_gathering_done. walk. Qed.

Lemma keeps_juice_recv e peer d : keeps (on_juice_recv e peer d).
Proof. unfold on_juice_recv. walk. Qed.

(** ** The interface *)

Lemma keeps_connect e peer : keeps (connect e peer).
Proof. unfold connect. walk. Qed.

Lemma keeps_disconnect e peer : keeps (disconnect e peer).
Proof. unfold disconnect. walk. Qed.

Lemma keeps_send e peer ch d r : keeps (send e peer ch d r).
Proof. unfold send. walk. Qed.

(** ** Heartbeat and authentication *)

Lemma keeps_send_all out : Forall (fun d => no_register d.2) out -> keeps (send_all out).
Proof. intros H. unfold send_all. eapply kept_mapM_all; [exact H|]. intros d Hd. apply kept_emit. by intros _. Qed.

Lemma keeps_auth_delay e : keeps (auth_delay e).
Proof. unfold auth_delay. apply kept_modify. intros s I. by destruct (next_delay (auth_backoff_ s)). Qed.

Lemma keeps_deny e : keeps (deny_auth e).
Proof. unfold deny_auth. walk. Qed.

#[local] Hint Resolve keeps_send_all keeps_auth_delay keeps_deny started_no_register
  ticked_no_register : client.

Lemma alive s : inv s -> inv (set_heartbeat_fail_ 0 s).
Proof. intros (F & C & SS & En & R & St). split_and!; [done|exact C|apply SS|apply SS|exact En|exact R|exact St]. Qed.

Lemma keeps_heartbeat_rsp e p : keeps (on_heartbeat_rsp e p).
Proof.
  unfold on_heartbeat_rsp. walk. apply kept_modify. intros s I. apply alive in I. exact I.
Qed.

#[local] Hint Resolve keeps_heartbeat_rsp : client.

Lemma keeps_heartbeat_rsp_enc e p : keeps (on_heartbeat_rsp_enc e p).
Proof. unfold on_heartbeat_rsp_enc. walk. Qed.

Lemma keeps_resend peer : keeps (resend_connect peer).
Proof. unfold resend_connect. walk. Qed.

#[local] Hint Resolve keeps_heartbeat_rsp_enc keeps_resend : client.

Lemma keeps_for_conns e f : (forall peer, keeps (f peer)) -> keeps (for_conns e f).
Proof. intros Hf. unfold for_conns. walk. Qed.

(** The two answers that end a login. *)
Section Unstuck.
Hypothesis Hfree : w <> LoginLost.

Lemma free_inflight s : inv s -> inv (set_auth_inflight_ false s).
Proof. intros (F & C & SS & En & R & St). split_and!; [exact F|exact C|apply SS|apply SS|exact En|exact R|by apply (watched_free w s)]. Qed.

Lemma keeps_challenge_rsp e p : keeps (on_auth_challenge_rsp e p).
Proof. unfold on_auth_challenge_rsp. walk. all: by apply kept_modify, free_inflight. Qed.

Lemma keeps_login_rsp e p : keeps (on_auth_login_rsp e p).
Proof.
  unfold on_auth_login_rsp. apply (gives_bind (fun _ => True)); [by apply kept_modify, free_inflight|]. walk.
  - apply kept_modify. intros s (F & C & SS & En & R & St). split_and!; [exact F|exact C|apply SS|apply SS|done|exact R|by apply (watched_free w s)].
  - apply keeps_for_conns, keeps_resend.
Qed.

End Unstuck.

(** ** Introduction *)

Lemma keeps_adopt e cands : keeps (adopt_proxies e cands).
Proof. unfold adopt_proxies. apply kept_modify. intros s I. by repeat case_match. Qed.

Lemma keeps_route a peer : keeps (route_to a peer).
Proof. unfold route_to. walk. Qed.

#[local] Hint Resolve keeps_adopt keeps_route : client.

Lemma keeps_learn_lan peer obj ack : keeps (learn_lan peer obj ack).
Proof. unfold learn_lan. walk. Qed.

#[local] Hint Resolve keeps_learn_lan : client.

Lemma keeps_connect_ack e p : keeps (on_connect_ack e p).
Proof. unfold on_connect_ack. walk. Qed.

Lemma keeps_connect_invite e p : keeps (on_connect_invite e p).
Proof. unfold on_connect_invite. walk. Qed.

Lemma keeps_ice_sdp e p : keeps (on_ice_sdp e p).
Proof. unfold on_ice_sdp. walk. Qed.

(** ** Packets *)

Lemma keeps_relay_data e mem n : keeps (on_relay_data e mem n).
Proof. unfold on_relay_data. walk. Qed.

Lemma keeps_register_rsp p : keeps (on_register_rsp p).
Proof.
  unfold on_register_rsp. walk. apply kept_modify. intros s (F & C & SS & En & R & St). split; [exact F|].
  split; [|split; [exact SS|split; [exact En|split; [exact R|by apply watched_registered]]]].
  intros peer c. cbn [conns_ set_conns_ set_relay_registered_]. rewrite lookup_fmap.
  destruct (conns_ s !! peer) as [c0|] eqn:E; [|done]. intros [= <-]. exact (C _ _ E).
Qed.

#[local] Hint Resolve keeps_connect_ack keeps_connect_invite keeps_ice_sdp keeps_relay_data keeps_register_rsp : client.

(** The messages that answer a login. *)
Definition auth_answer (id : Z) : Prop :=
  id = msg_id MSG_AUTH_CHALLENGE_RSP \/ id = msg_id MSG_AUTH_LOGIN_RSP.

Lemma keeps_proto e id mem n : (w = LoginLost -> ~ auth_answer id) -> keeps (handle_proto e id mem n).
Proof.
  intros Hst. unfold handle_proto. destruct (msg_of id) as [m|] eqn:E; [|apply kept_skip].
  apply msg_of_some in E as <-.
  destruct m; try solve [walk]; [apply keeps_challenge_rsp|apply keeps_login_rsp].
  all: intros Es; apply (Hst Es); first [by left|by right].
Qed.

Lemma keeps_direct_frame e mem n from : keeps (on_direct_frame e mem n from).
Proof. unfold on_direct_frame. walk. Qed.

(** Which datagrams carry one of them. *)
Definition carries_auth_answer (mem : bytes) (n : nat) : Prop :=
  exists h, codec_read_head (take n mem) = Some h /\ auth_answer (wh_msg_id h).

#[local] Hint Resolve keeps_direct_frame : client.

Lemma keeps_packet e mem n from :
  (w = LoginLost -> ~ carries_auth_answer mem n) -> keeps (handle_packet e mem n from).
Proof.
  intros Hst. unfold handle_packet. destruct (codec_read_head (take n mem)) as [h|] eqn:E; [|walk].
  apply keeps_proto. intros Es A. apply (Hst Es). by exists h.
Qed.

Lemma keeps_punch_recv e peer si mem n from : keeps (worker_punch_recv e peer si mem n from).
Proof.
  unfold worker_punch_recv. apply (gives_bind _ _ _ _ (gives_gets id)). intros x (s & I & ->). cbn [id].
  destruct (conns_ s !! peer) as [c|] eqn:E; [|apply kept_skip]. destruct I as (_ & C & _).
  destruct (C _ _ E) as (Hp & _). rewrite Hp, (proj2 (nth_error_None [] _) (Nat.le_0_l _)). apply kept_skip.
Qed.

(** ** The loop *)

Lemma keeps_tick_heartbeat e : keeps (tick_heartbeat e).
Proof.
  unfold tick_heartbeat. walk. apply kept_modify. intros s I.
  by destruct (0 <? heartbeat_fail_ s); [destruct (next_delay _)|].
Qed.

Lemma keeps_tick_auth e : keeps (tick_auth e).
Proof. unfold tick_auth. walk. Qed.

Lemma keeps_tick_detect e : keeps (tick_nat_detect e).
Proof. unfold tick_nat_detect. walk. Qed.

Lemma keeps_tick_relay e : keeps (tick_relay e).
Proof.
  unfold tick_relay. apply (gives_bind _ _ _ _ (gives_gets id)). intros x (s & I & ->). unfold id.
  destruct (relay_registered_ s) eqn:Er; [rewrite !andb_false_r; apply kept_skip|].
  destruct (_ && _); [|apply kept_skip].
  apply (gives_bind (fun _ => True)); [by apply keeps_relay_register, (unsettled s)|walk].
Qed.

Lemma keeps_do_punch peer : keeps (do_punch peer).
Proof.
  unfold do_punch. apply (gives_bind _ _ _ _ (gives_get_conn peer)). intros c (Hp & _). rewrite Hp. walk.
Qed.

#[local] Hint Resolve keeps_tick_heartbeat keeps_tick_auth keeps_tick_detect keeps_tick_relay keeps_do_punch : client.

Lemma keeps_conn_punch e peer : keeps (tick_conn_punch e peer).
Proof. unfold tick_conn_punch. walk. Qed.

Lemma keeps_conn_relay e peer : keeps (tick_conn_relay e peer).
Proof.
  unfold tick_conn_relay. apply (gives_bind _ _ _ _ (gives_gets id)). intros x (s & I & ->). unfold id.
  destruct (relay_registered_ s) eqn:Er.
  - cbn [negb]. rewrite andb_false_r. cbn [andb]. walk.
  - pose proof (keeps_relay_register (unsettled s I Er)). walk.
Qed.

Lemma keeps_conn_fsm peer : keeps (tick_conn_fsm peer).
Proof. unfold tick_conn_fsm. walk. Qed.

#[local] Hint Resolve keeps_conn_punch keeps_conn_relay keeps_conn_fsm : client.

Lemma keeps_tick_connections e : keeps (tick_connections e).
Proof. unfold tick_connections. apply keeps_for_conns. intros peer. walk. Qed.

Lemma keeps_tick_sessions e : keeps (tick_sessions e).
Proof.
  unfold tick_sessions. apply (gives_bind _ _ _ _ (gives_gets sessions_)). intros a _. apply kept_mapM. intros peer.
  apply (gives_bind _ _ _ _ (gives_gets sessions_)). intros ss (s & I & ->).
  destruct (sessions_ s !! peer) as [x|] eqn:E; [|walk]. destruct I as (_ & _ & (_ & Ss) & _).
  pose proof (Ss _ _ E). walk.
Qed.

#[local] Hint Resolve keeps_tick_connections keeps_tick_sessions : client.

Lemma keeps_tick e : keeps (tick e).
Proof. unfold tick. walk. Qed.

Lemma keeps_begin e : keeps (worker_begin e).
Proof. unfold worker_begin. walk. Qed.

(** ** Start and stop *)

Lemma keeps_halt : (forall b cfg, w <> Steady b cfg) -> keeps halt.
Proof.
  intros N. unfold halt. walk. apply kept_modify. intros s (F & C & SS & En & R & St).
  split_and!; [exact F|exact C|apply SS|apply SS|exact En|done|]. destruct w as [| | |b cfg]; try exact St. by destruct (N b cfg).
Qed.

Lemma keeps_clear : keeps clear.
Proof.
  unfold clear. apply kept_modify. intros s (F & C & SS & En & R & St).
  split_and!; [exact F|done|apply SS|done|exact En|exact R|exact St].
Qed.

Lemma keeps_stop : (forall b cfg, w <> Steady b cfg) -> keeps stop.
Proof. intros N. pose proof (keeps_halt N). pose proof keeps_clear. unfold stop. walk. Qed.

Lemma keeps_start e cfg bound : w = Anything -> keeps (start e cfg bound).
Proof.
  intros Hf s a s' o I. pose proof I as (F & C & SS & En & R & _). unfold start. rewrite gets_eq. unfold id.
  destruct (running_ s) eqn:Er; [exact (kept_ret _ s a s' o I)|].
  destruct (nat_servers cfg) as [|sv svs]; [exact (kept_ret _ s a s' o I)|].
  destruct (_ || _) eqn:Eu; [exact (kept_ret _ s a s' o I)|].
  destruct (sockaddr_from _ _) as [to ok]. rewrite modify_eq. destruct (negb ok || negb bound).
  - intros [= <- <- <-]. split_and!; [|done..]. split_and!; [exact F|exact C|apply SS|apply SS|exact En| |by rewrite Hf].
    cbn [running_ set_nat_sock_ set_nat_server_ set_secret_ set_cfg_]. by rewrite Er.
  - cbv zeta. rewrite modify_eq. intros [= <- <- <-]. split_and!; [|done..].
    split_and!; [done|exact C|apply SS|apply SS|done| |by rewrite Hf]. intros _. split_and!; try done.
    + apply orb_false_iff in Eu as [E1 _]. apply Nat.eqb_neq in E1. cbn. lia.
    + apply orb_false_iff in Eu as [_ E2]. apply Nat.ltb_ge in E2. exact E2.
Qed.

End Keeps.

(** ** Runs of a client *)

Inductive call :=
| Start (e : env) (cfg : Config) (bound : bool)
| Stop
| Halt
| Clear
| Connect (e : env) (peer : bytes)
| Disconnect (e : env) (peer : bytes)
| Send (e : env) (peer : bytes) (channel : Z) (data : bytes) (reliable : bool)
| Begin (e : env)
| Packet (e : env) (mem : bytes) (n : nat) (from : sockaddr_in)
| PunchPacket (e : env) (peer : bytes) (socket : nat) (mem : bytes) (n : nat) (from : sockaddr_in)
| Tick (e : env)
| IceState (peer : bytes) (up : bool)
| IceCandidate (peer sdp : bytes)
| IceGathered (e : env) (peer : bytes)
| IceData (e : env) (peer data : bytes).

Definition perform (c : call) : M unit :=
  match c with
  | Start e cfg bound => _ ← start e cfg bound; skip
  | Stop => stop
  | Halt => halt
  | Clear => clear
  | Connect e peer => connect e peer
  | Disconnect e peer => disconnect e peer
  | Send e peer ch d r => _ ← send e peer ch d r; skip
  | Begin e => worker_begin e
  | Packet e mem n from => handle_packet e mem n from
  | PunchPacket e peer si mem n from => worker_punch_recv e peer si mem n from
  | Tick e => tick e
  | IceState peer up => on_juice_state peer up
  | IceCandidate peer sdp => on_juice_candidate peer sdp
  | IceGathered e peer => on_juice_gathering_done e peer
  | IceData e peer d => on_juice_recv e peer d
  end.

Definition not_start (c : call) : Prop := match c with Start _ _ _ => False | _ => True end.

(** A call that neither restarts the client nor brings an answer to a login. *)
Definition unanswered (c : call) : Prop :=
  match c with
  | Start _ _ _ => False
  | Packet _ mem n _ => ~ carries_auth_answer mem n
  | _ => True
  end.

Definition neutral (c : call) : Prop := match c with Start _ _ _ | Stop | Halt => False | _ => True end.

Definition allowed (w : watch) (c : call) : Prop :=
  match w with Anything => True | LoginLost => unanswered c | Settled => not_start c | Steady _ _ => neutral c end.

Lemma keeps_perform w c : allowed w c -> gives w (fun _ => True) (perform c).
Proof.
  intros Hc. destruct c; cbn [perform].
  - apply (gives_bind _ (fun _ => True)); [|intros; apply kept_skip].
    apply keeps_start. by destruct w.
  - apply keeps_stop. by intros b cfg ->.
  - apply keeps_halt. by intros b cfg ->.
  - apply keeps_clear.
  - apply keeps_connect.
  - apply keeps_disconnect.
  - apply (gives_bind _ (fun _ => True)); [|intros; apply kept_skip]. apply keeps_send.
  - apply keeps_begin.
  - apply keeps_packet. intros ->. exact Hc.
  - apply keeps_punch_recv.
  - apply keeps_tick.
  - apply keeps_juice_state.
  - apply keeps_juice_candidate.
  - apply keeps_juice_gathering.
  - apply keeps_juice_recv.
Qed.

Lemma keeps_run w cs s s' o :
  Forall (allowed w) cs -> inv w s -> mapM_ perform cs s = Done (tt, s', o) -> inv w s' /\ Forall (quiet w) o.
Proof.
  intros Hcs. revert s s' o. induction Hcs as [|c cs Hc _ IH]; intros s s' o I.
  - intros [= <- <-]. by split.
  - cbn [mapM_]. intros E. apply bind_done in E as ([] & s1 & o1 & o2 & E1 & E2 & ->).
    destruct (keeps_perform w c Hc s tt s1 o1 I E1) as (I1 & _ & Q1). destruct (IH s1 s' o2 I1 E2) as (I2 & Q2).
    split; [done|]. by apply Forall_app_2.
Qed.

Lemma inv_initial cbs : inv Anything (initial cbs).
Proof. by split_and!. Qed.

Lemma inv_reachable cbs cs s o :
  mapM_ perform cs (initial cbs) = Done (tt, s, o) -> inv Anything s /\ Forall (quiet Anything) o.
Proof. apply keeps_run; [by apply Forall_true|apply inv_initial]. Qed.

(** ** What follows *)

Lemma plat_rand_eq e n s :
  exists iv c, plat_rand_bytes e n s = Done (iv, set_rand_counter_ c (set_draws_ (S (draws_ s)) s), []) /\
    length iv = n.
Proof.
  assert (forall seed, length (xorshift_bytes n seed) = n) as X by (by induction n as [|k IH]; intros seed; simpl; f_equal).
  unfold plat_rand_bytes.
  rewrite (step_eq (read_device e) _ s (dev_random e (draws_ s)) (set_draws_ (S (draws_ s)) s)) by done. cbv zeta.
  destruct (dev_random e (draws_ s)) as [l|]; [destruct (Nat.leb_spec n (length l))|].
  - exists (take n l), (rand_counter_ s). split; [by destruct s|]. rewrite length_take. lia.
  - rewrite gets_eq, modify_eq. eexists _, _. split; [reflexivity|apply X].
  - rewrite gets_eq, modify_eq. eexists _, _. split; [reflexivity|apply X].
Qed.

Lemma send_proto_to_state id p to s : exists o, send_proto_to id p to s = Done (tt, s, o).
Proof. unfold send_proto_to. destruct (_ <? _)%nat; by eexists. Qed.

Lemma send_proto_state id p s : exists o, send_proto id p s = Done (tt, s, o).
Proof. unfold send_proto. rewrite gets_eq. apply send_proto_to_state. Qed.

(** A heartbeat changes nothing but the sources of random octets. *)
Lemma do_heartbeat_state e s :
  exists c d o, do_heartbeat e s = Done (tt, set_rand_counter_ c (set_draws_ d s), o).
Proof.
  unfold do_heartbeat. rewrite gets_eq. unfold id. cbv zeta. destruct (heartbeat_enc_ s).
  - destruct (plat_rand_eq e 8 s) as (iv & c & E & _). rewrite (step_eq _ _ _ _ _ E).
    destruct (send_proto_state MSG_HEARTBEAT_REQ_ENC (pad_to 33 (uuid (cfg_ s)) ++ iv ++
      p2p_stream_xor (secret_ s) (pad_to 33 (uuid (cfg_ s))) iv (cenc UuidReq_codec (heartbeat_req e s)))
      (set_rand_counter_ c (set_draws_ (S (draws_ s)) s))) as [o Eo].
    exists c, (S (draws_ s)), o. exact Eo.
  - destruct (send_proto_state MSG_HEARTBEAT_REQ (cenc UuidReq_codec (heartbeat_req e s)) s) as [o Eo].
    exists (rand_counter_ s), (draws_ s), o. rewrite Eo. by destruct s.
Qed.

(** The keep-alives of the pool. *)
Lemma punch_sends_nothing peer s s1 o :
  inv Anything s -> do_punch peer s = Done (tt, s1, o) -> o = [].
Proof.
  intros I E. unfold do_punch in E. apply bind_done in E as (c & sa & oa & ob & E1 & E & ->).
  assert (oa = []) as ->.
  { unfold get_conn in E1. rewrite gets_eq in E1. by destruct (conns_ s !! peer); [injection E1 as _ _ <-|]. }
  destruct (gives_get_conn Anything peer s c sa [] I E1) as (Ia & (Hp & _) & _).
  destruct (juice (punch c)); [by injection E as _ <-|].
  apply bind_done in E as (x & sb & oc & od & E2 & E & ->).
  assert (oc = []) as ->.
  { unfold session_for in E2. rewrite gets_eq in E2. destruct (sessions_ sa !! _); [by injection E2 as _ _ <-|].
    rewrite gets_eq in E2. cbv zeta in E2. rewrite modify_eq in E2. by injection E2 as _ _ <-. }
  apply bind_done in E as (f & sd & og & oh & E3 & E & ->).
  assert (og = []) as ->.
  { unfold control_frame, lift in E3. by destruct (Session.new_frame _ _ _ _ _ _ _ _); [injection E3 as _ _ <-|]. }
  rewrite Hp in E. cbn [mapM_] in E. by injection E as _ <-.
Qed.

(** C12: the invariant of the client.  Whatever the application, the network, the
    ICE library and the clock do, in every state a client can reach: a running client
    has a valid identifier, encrypts payloads exactly when it has a secret, and its key
    cache holds the keys derived from that secret and that identifier; it encrypts
    heartbeats only when logged in; connections are filed under their peer.  The pool of
    punching sockets is never filled, so no datagram ever leaves it and a punch sends
    nothing; and the back-off of the heartbeat is never in force: the next heartbeat is
    always one regular interval away. *)
Theorem client_invariant (cbs : callbacks) (cs : list call) (s : t) (o : list event)
    (Hrun : mapM_ perform cs (initial cbs) = Done (tt, s, o)) :
  (running_ s = true ->
     (0 < length (uuid (cfg_ s)) <= MAX_UUID_LEN)%nat /\ secret_ s = secret (cfg_ s) /\
     tunnel_enc_ s = negb (length (secret_ s) =? 0)%nat /\
     map_Forall (fun peer k => k = tunnel_key (secret_ s) (uuid (cfg_ s)) peer) (tunnel_keys_ s)) /\
  (heartbeat_enc_ s = true -> authed_ s = true) /\
  map_Forall (fun peer c => (peer_uuid c = peer \/ peer_uuid c = []) /\ punch_socks (punch c) = []) (conns_ s) /\
  (forall sk to d, PunchTo sk to d ∉ o) /\
  (forall peer s1 o1, do_punch peer s = Done (tt, s1, o1) -> o1 = []) /\
  (forall e, next_heartbeat_ms_ s <= now e -> exists s1 o1, tick_heartbeat e s = Done (tt, s1, o1) /\
     next_heartbeat_ms_ s1 = u64 (now e + heartbeat_ms (cfg_ s))).
Proof.
  destruct (inv_reachable _ _ _ _ Hrun) as (I & Q). pose proof I as (F & C & SS & En & R & _). split_and!.
  - intros Hr. destruct (R Hr) as (K & S & T & U). exact (conj U (conj S (conj T K))).
  - exact En.
  - intros peer c E. destruct (C _ _ E) as (P & _ & U). by split.
  - intros sk to d Hin. by apply (proj1 (Forall_forall _ _) Q) in Hin.
  - intros peer s1 o1. by apply punch_sends_nothing.
  - intros e Hn. unfold tick_heartbeat. rewrite gets_eq. unfold id. rewrite (proj2 (Z.leb_le _ _) Hn).
    destruct (do_heartbeat_state e s) as (c & d & oh & E).
    eexists _, _. split; [eapply bind_eq; [exact E|reflexivity]|].
    cbn [heartbeat_fail_ set_rand_counter_ set_draws_]. by rewrite F.
Qed.

(** ** A client at work *)

(** Every callback set, a clock, random octets, an ICE library with a description. *)
Definition all_callbacks : callbacks := mkCallbacks true true true true true.

Definition env_at (ms : Z) : env :=
  mkEnv ms 5000 (fun _ => Some (replicate 16 7)) true (Some (bs "v=0")) elements.

Definition demo_config (u : bytes) : Config :=
  default_config u (bs "k") [mkServer (bs "10.0.0.1") 8000] [mkServer (bs "10.0.0.2") 9000].

(** Started, asked to connect, and one turn of the loop. *)
Definition demo_run : list call :=
  [Start (env_at 1000) (demo_config (bs "alice")) true; Begin (env_at 1000);
   Connect (env_at 1200) (bs "bob"); Tick (env_at 1600)].

Lemma client_invariant_witness :
  exists s o, mapM_ perform demo_run (initial all_callbacks) = Done (tt, s, o) /\ running_ s = true /\
    tunnel_enc_ s = true /\ (forall sk to d, PunchTo sk to d ∉ o).
Proof.
  let r := eval vm_compute in (mapM_ perform demo_run (initial all_callbacks)) in
  match r with Done (tt, ?s, ?o) => exists s, o end.
  match goal with |- ?run = Done (tt, ?s, ?o) /\ _ =>
    assert (H : run = Done (tt, s, o)) by (vm_compute; reflexivity);
    destruct (client_invariant all_callbacks demo_run s o H) as (Hr & _ & _ & Hp & _)
  end.
  split; [exact H|]. split; [reflexivity|]. split; [apply Hr; reflexivity|exact Hp].
Defined.

End ClientInvariant.
