(* ===== verification/ClientRun.v ===== *)
(** * The client as a process

    Models [P2PClient::worker_loop] with [start] and [stop] around it: the position of the
    worker thread, the calls of the application and the ICE library between its sections,
    and the two halves of [stop] around the join.  A section of the worker, its walk over the
    connections and a call of another thread are one step each; [ClientLock] takes them apart
    and shows when the mutex makes them so.  What holds of every sequence of calls
    ([ClientInvariant]) holds of every run here ([client_serial]). *)

From S2P Require Import Prelude.
From S2P Require Import Bytes.
From S2P Require Import NetUtil.
From S2P Require Import Handler.
From S2P Require Import Fair.
From S2P Require Import ClientState.
From S2P Require Import ClientTunnel.
From S2P Require Import P2PClient.
From S2P Require Import ClientInvariant.

#[local] Open Scope Z_scope.

Module ClientRun.
Import ClientState ClientTunnel P2PClient ClientInvariant.

(** ** The threads *)

(** The worker: started; at the condition of its loop; collecting the sockets; in [select]
    on these; about to tick; returned. *)
Inductive place := Launched | Checking | Gathering | Selecting (fds : list (bytes * nat)) | Ticking | Ended.

(** The application's thread: outside [start] and [stop], or in [stop], joining. *)
Inductive post := Outside | Joining.

Record t := mk { client : ClientState.t; worker : option place; app : post }.

Definition set_client (x : ClientState.t) (s : t) : t := mk x (worker s) (app s).
Definition set_worker (x : option place) (s : t) : t := mk (client s) x (app s).
Definition set_app (x : post) (s : t) : t := mk (client s) (worker s) x.

Abbreviation M := (handler t event).

Definition on_client {A} (m : handler ClientState.t event A) : M A := fun s =>
  match m (client s) with
  | Done (a, c, o) => Done (a, set_client c s, o)
  | Fault f => Fault f
  end.

(** The punching sockets of all connections, as the worker's walk finds them that no other
    thread disturbs; [ClientLock] has the walk. *)
Definition gather (e : env) (s : ClientState.t) : list (bytes * nat) :=
  concat (map (fun peer => match conns_ s !! peer with
                           | Some c => map (pair peer) (punch_socks (punch c))
                           | None => []
                           end) (table_order e (dom (conns_ s)))).

(** A datagram in the receive buffer: what the buffer holds, the length, the sender. *)
Definition datagram : Type := bytes * nat * sockaddr_in.

(** What [recv_from] gives at the socket number [fd] of the pool, if [select] marked it. *)
Definition receive_punch (e : env) (ready : nat -> option datagram) (pf : bytes * nat) : handler ClientState.t event unit :=
  match ready pf.2 with
  | None => skip
  | Some (mem, n, from) =>
      s ← gets id;
      match conns_ s !! pf.1 with
      | None => skip
      | Some c =>
          if (n =? 0)%nat then skip
          else mapM_ (fun si => worker_punch_recv e pf.1 si mem n from)
                 (filter (fun si => nth_error (punch_socks (punch c)) si = Some pf.2) (seq 0 (length (punch_socks (punch c)))))
      end
  end.

(** The section under the lock after [select] found something. *)
Definition receive_all (e : env) (main : option datagram) (ready : nat -> option datagram) (fds : list (bytes * nat)) :
    handler ClientState.t event unit :=
  (match main with
   | Some (mem, n, from) => if (0 <? n)%nat then handle_packet e mem n from else skip
   | None => skip
   end);;
  mapM_ (receive_punch e ready) fds.

(** One section of [worker_loop]; [got] is what [select] and [recv_from] give, if anything. *)
Definition work (e : env) (got : option (option datagram * (nat -> option datagram))) (p : place) : M place :=
  match p with
  | Launched => on_client (worker_begin e);; mret Checking
  | Checking => b ← gets (fun s => running_ (client s)); mret (if (b : bool) then Gathering else Ended)
  | Gathering => fds ← gets (fun s => gather e (client s)); mret (Selecting fds)
  | Selecting fds =>
      (match got with Some (main, ready) => on_client (receive_all e main ready fds) | None => skip end);;
      mret Ticking
  | Ticking => on_client (tick e);; mret Checking
  | Ended => mret Ended
  end.

(** ** Schedules *)

(** What other threads may call at any time. *)
Inductive request :=
| RConnect (peer : bytes)
| RDisconnect (peer : bytes)
| RSend (peer : bytes) (channel : Z) (data : bytes) (reliable : bool)
| RIceState (peer : bytes) (up : bool)
| RIceCandidate (peer sdp : bytes)
| RIceGathered (peer : bytes)
| RIceData (peer data : bytes).

Definition call_of (e : env) (r : request) : call :=
  match r with
  | RConnect peer => Connect e peer
  | RDisconnect peer => Disconnect e peer
  | RSend peer ch d rel => Send e peer ch d rel
  | RIceState peer up => IceState peer up
  | RIceCandidate peer sdp => IceCandidate peer sdp
  | RIceGathered peer => IceGathered e peer
  | RIceData peer d => IceData e peer d
  end.

Inductive action :=
| Work (e : env) (got : option (option datagram * (nat -> option datagram)))
| Request (e : env) (r : request)
| AppStart (e : env) (cfg : Config) (bound : bool)
| AppStop
| Join.

(** The application calls [start] and [stop] from one thread. *)
Definition step (a : action) : M unit :=
  s ← gets id;
  match a with
  | Work e got => match worker s with Some p => p ← work e got p; modify (set_worker (Some p)) | None => skip end
  | Request e r => on_client (perform (call_of e r))
  | AppStart e cfg bound =>
      match app s with
      | Outside => ok ← on_client (start e cfg bound); if (ok : bool) then modify (set_worker (Some Launched)) else skip
      | Joining => skip
      end
  | AppStop =>
      match app s with
      | Outside => if running_ (client s) then on_client halt;; modify (set_app Joining) else skip
      | Joining => skip
      end
  | Join =>
      match app s, worker s with
      | Joining, Some Ended => on_client clear;; modify (set_worker None);; modify (set_app Outside)
      | _, _ => skip
      end
  end.

Definition run (acts : list action) : M unit := mapM_ step acts.

Definition created (cbs : callbacks) : t := mk (initial cbs) None Outside.

(** ** A run is a sequence of calls *)

(** [m] does what some calls do, one after the other, none of them [start] or [stop]. *)
Definition serial {A} (m : handler ClientState.t event A) : Prop :=
  forall c a c' o, m c = Done (a, c', o) -> exists cs, Forall neutral cs /\ mapM_ perform cs c = Done (tt, c', o).

Lemma serial_call {A} (m : handler ClientState.t event A) k :
  neutral k -> (forall c a c' o, m c = Done (a, c', o) -> perform k c = Done (tt, c', o)) -> serial m.
Proof.
  intros N H c a c' o E. exists [k]. split; [by constructor|]. cbn [mapM_]. apply H in E. rewrite <- (app_nil_r o).
  by eapply bind_eq.
Qed.

Lemma serial_none {A} (m : handler ClientState.t event A) :
  (forall c a c' o, m c = Done (a, c', o) -> c' = c /\ o = []) -> serial m.
Proof. intros H c a c' o E. destruct (H _ _ _ _ E) as [-> ->]. by exists []. Qed.

Lemma serial_bind {A B} (m : handler ClientState.t event A) (k : A -> handler ClientState.t event B) :
  serial m -> (forall a, serial (k a)) -> serial (m ≫= k).
Proof.
  intros Hm Hk c b c' o (a & c1 & o1 & o2 & E1 & E2 & ->)%bind_done.
  destruct (Hm _ _ _ _ E1) as (cs1 & N1 & R1), (Hk _ _ _ _ _ E2) as (cs2 & N2 & R2).
  exists (cs1 ++ cs2). split; [by apply Forall_app_2|]. rewrite mapM_app_eq. by eapply bind_eq.
Qed.

Lemma serial_skip : serial skip.
Proof. apply serial_none. by intros c a c' o [= _ <- <-]. Qed.

Lemma serial_mapM {A} (f : A -> handler ClientState.t event unit) l : (forall a, serial (f a)) -> serial (mapM_ f l).
Proof. intros H. induction l as [|a l IH]; [apply serial_skip|]. apply serial_bind; [apply H|by intros _]. Qed.

Lemma serial_receive_all e main ready fds : serial (receive_all e main ready fds).
Proof.
  unfold receive_all. apply serial_bind.
  - destruct main as [[[mem n] from]|]; [|apply serial_skip]. destruct (0 <? n)%nat; [|apply serial_skip].
    apply (serial_call _ (Packet e mem n from)); [done|]. by intros c [] c' o.
  - intros _. apply serial_mapM. intros [peer fd]. unfold receive_punch. cbn [fst snd].
    destruct (ready fd) as [[[mem n] from]|]; [|apply serial_skip].
    apply serial_bind; [apply serial_none; by intros c a c' o [= _ <- <-]|]. intros s.
    destruct (conns_ s !! peer) as [c|]; [|apply serial_skip]. destruct (n =? 0)%nat; [apply serial_skip|].
    apply serial_mapM. intros si. apply (serial_call _ (PunchPacket e peer si mem n from)); [done|]. by intros c0 [] c' o.
Qed.

Lemma on_client_done {A} (m : handler ClientState.t event A) s a s' o :
  on_client m s = Done (a, s', o) -> exists c, m (client s) = Done (a, c, o) /\ s' = set_client c s.
Proof. unfold on_client. destruct (m (client s)) as [[[b c] o']|]; [|done]. intros [= -> <- <-]. eauto. Qed.

(** ** The life of the worker *)

(** The client is running exactly while there is a worker that nobody waits for. *)
Definition lifecycle (s : t) : Prop :=
  match app s with
  | Outside => is_Some (worker s) <-> running_ (client s) = true
  | Joining => is_Some (worker s) /\ running_ (client s) = false
  end.

Lemma steady cs c c' o :
  inv Anything c -> Forall neutral cs -> mapM_ perform cs c = Done (tt, c', o) ->
  running_ c' = running_ c /\ cfg_ c' = cfg_ c.
Proof.
  intros (F & C & SS & En & R & _) N E.
  by destruct (keeps_run (Steady (running_ c) (cfg_ c)) cs c c' o N
    (conj F (conj C (conj SS (conj En (conj R (conj eq_refl eq_refl)))))) E) as ((_ & _ & _ & _ & _ & St) & _).
Qed.

Lemma start_running e cfg bound c ok c' o :
  start e cfg bound c = Done (ok, c', o) -> running_ c' = (ok || running_ c) /\ (ok = true -> running_ c = false).
Proof.
  unfold start. rewrite gets_eq. unfold id. destruct (running_ c) eqn:R; [intros [= <- <- _]; by rewrite R|].
  destruct (nat_servers cfg) as [|sv svs]; [intros [= <- <- _]; by rewrite R|].
  destruct (_ || _); [intros [= <- <- _]; by rewrite R|]. destruct (sockaddr_from _ _) as [to ok']. rewrite modify_eq.
  destruct (negb ok' || negb bound); [by intros [= <- <- _]|]. cbv zeta. rewrite modify_eq. by intros [= <- <- _].
Qed.

Lemma halt_running c c' o : halt c = Done (tt, c', o) -> running_ c' = false.
Proof.
  unfold halt. rewrite modify_eq, gets_eq. unfold id. destruct (proxies_ _); [by intros [= <- _]|].
  destruct (sockaddr_from _ _) as [to ok]. destruct (_ && _); [|by intros [= <- _]].
  match goal with |- send_proto_to ?i ?p ?t ?c = _ -> _ => destruct (send_proto_to_state i p t c) as [o2 E2] end.
  rewrite E2. by intros [= <- _].
Qed.

(** What a section of the worker comes to. *)
Definition next (running : bool) (p p' : place) : Prop :=
  match p, p' with
  | Launched, Checking | Gathering, Selecting _ | Selecting _, Ticking | Ticking, Checking | Ended, Ended => True
  | Checking, Gathering => running = true
  | Checking, Ended => running = false
  | _, _ => False
  end.

Lemma work_spec e got p s p' s' o :
  work e got p s = Done (p', s', o) ->
  s' = set_client (client s') s /\ next (running_ (client s)) p p' /\
  exists cs, Forall neutral cs /\ mapM_ perform cs (client s) = Done (tt, client s', o).
Proof.
  assert (forall (m : handler ClientState.t event unit) (q : place), serial m -> next (running_ (client s)) p q ->
    (on_client m;; mret q) s = Done (p', s', o) -> s' = set_client (client s') s /\ next (running_ (client s)) p p' /\
    exists cs, Forall neutral cs /\ mapM_ perform cs (client s) = Done (tt, client s', o)) as Sec.
  { intros m q S N ([] & s1 & o1 & o2 & E & [= <- <- <-] & ->)%bind_done. rewrite app_nil_r.
    unfold on_client in E. destruct (m (client s)) as [[[[] c] o']|] eqn:Em; [|done]. injection E as <- <-.
    split; [done|]. split; [done|]. by eapply S. }
  assert (forall q, next (running_ (client s)) p q -> Done (q, s, []) = Done (p', s', o) ->
    s' = set_client (client s') s /\ next (running_ (client s)) p p' /\
    exists cs, Forall neutral cs /\ mapM_ perform cs (client s) = Done (tt, client s', o)) as Still.
  { intros q N [= <- <- <-]. split; [by destruct s|]. split; [done|]. by exists []. }
  destruct p as [| | |fds| |]; cbn [work].
  - apply Sec; [|done]. apply (serial_call _ (Begin e)); [done|]. by intros c [] c' o'.
  - rewrite gets_eq. apply Still. by destruct (running_ (client s)).
  - rewrite gets_eq. by apply Still.
  - destruct got as [[main ready]|].
    + apply Sec; [apply serial_receive_all|done].
    + rewrite (step_eq _ _ s tt s) by done. by apply Still.
  - apply Sec; [|done]. apply (serial_call _ (Tick e)); [done|]. by intros c [] c' o'.
  - by apply Still.
Qed.

Lemma call_neutral e r : neutral (call_of e r).
Proof. by destruct r. Qed.

(** Reached by calls, with the worker where it should be. *)
Definition orderly (cbs : callbacks) (s : t) (o : list event) : Prop :=
  lifecycle s /\ exists cs, mapM_ perform cs (initial cbs) = Done (tt, client s, o).

Lemma orderly_more cbs s s' o o' cs :
  orderly cbs s o -> mapM_ perform cs (client s) = Done (tt, client s', o') -> lifecycle s' -> orderly cbs s' (o ++ o').
Proof. intros (_ & cs0 & E0) E L. split; [done|]. exists (cs0 ++ cs). rewrite mapM_app_eq. by eapply bind_eq. Qed.

Lemma orderly_neutral cbs s c' o o' cs :
  orderly cbs s o -> Forall neutral cs -> mapM_ perform cs (client s) = Done (tt, c', o') -> running_ c' = running_ (client s).
Proof. intros (_ & cs0 & E0) N E. eapply steady; [|done|done]. by eapply inv_reachable. Qed.

Lemma single_call k c c' o : perform k c = Done (tt, c', o) -> mapM_ perform [k] c = Done (tt, c', o).
Proof. intros E. rewrite <- (app_nil_r o). cbn [mapM_]. by eapply bind_eq. Qed.

Lemma step_orderly cbs a s s' o o' :
  orderly cbs s o -> step a s = Done (tt, s', o') -> orderly cbs s' (o ++ o').
Proof.
  intros O. pose proof O as (L & _). unfold step. rewrite gets_eq. unfold id. unfold lifecycle in L.
  assert (forall s1, orderly cbs s1 o -> orderly cbs s1 (o ++ [])) as Nil by (intros s1; by rewrite app_nil_r).
  destruct a as [e got|e r|e cfg bound| |].
  - destruct (worker s) as [p|] eqn:W; [|intros [= <- <-]; by apply Nil].
    intros (p' & s1 & o1 & o2 & E & [= <- <-] & ->)%bind_done. rewrite app_nil_r.
    destruct (work_spec _ _ _ _ _ _ _ E) as (Es & Nx & cs & N & R). eapply orderly_more; [done|exact R|].
    pose proof (orderly_neutral _ _ _ _ _ _ O N R) as K. rewrite Es. unfold lifecycle. cbn. rewrite K.
    destruct (app s); [|destruct L as [_ L]; by split; [eexists|]]. rewrite <- L. by split; intros _; eexists.
  - unfold on_client. destruct (perform _ _) as [[[[] c] o1]|] eqn:E; [|done]. intros [= <- <-].
    apply single_call in E. eapply orderly_more; [done|exact E|].
    assert (Forall neutral [call_of e r]) as N by (constructor; [apply call_neutral|done]).
    pose proof (orderly_neutral _ _ _ _ _ _ O N E) as K. unfold lifecycle. cbn. by rewrite K.
  - destruct (app s) eqn:A; [|intros [= <- <-]; by apply Nil].
    intros (ok & s1 & o1 & o2 & E & E2 & ->)%bind_done. unfold on_client in E.
    destruct (start e cfg bound (client s)) as [[[ok' c] o3]|] eqn:Es; [|done]. injection E as -> <- <-.
    destruct (start_running _ _ _ _ _ _ _ Es) as [K K2].
    assert (mapM_ perform [Start e cfg bound] (client s) = Done (tt, c, o3)) as P.
    { apply single_call. cbn [perform]. rewrite <- (app_nil_r o3). by eapply bind_eq. }
    assert (o2 = [] /\ client s' = c) as [-> C] by (destruct ok; by injection E2 as <- <-).
    rewrite app_nil_r. eapply orderly_more; [done|by rewrite C|]. unfold lifecycle. rewrite C, K. revert E2.
    destruct ok; intros [= <-]; cbn; rewrite A; [by split; intros _; [|eexists]|done].
  - destruct (app s) eqn:A; [|intros [= <- <-]; by apply Nil].
    destruct (running_ (client s)) eqn:R; [|intros [= <- <-]; by apply Nil].
    intros ([] & s1 & o1 & o2 & E & [= <- <-] & ->)%bind_done. rewrite app_nil_r. unfold on_client in E.
    destruct (halt (client s)) as [[[[] c] o3]|] eqn:H; [|done]. injection E as <- <-.
    eapply orderly_more; [done|by apply (single_call Halt)|]. unfold lifecycle. cbn. split; [by apply L|].
    by eapply halt_running.
  - destruct (app s) eqn:A; [intros [= <- <-]; by apply Nil|].
    destruct (worker s) as [[| | | | |]|] eqn:W; try (intros [= <- <-]; by apply Nil).
    cbn. intros [= <- <-]. eapply orderly_more; [done|by apply (single_call Clear)|]. unfold lifecycle. cbn.
    destruct L as [_ L]. rewrite L. by split; [intros [? ?]|].
Qed.

Lemma run_orderly cbs acts s o : run acts (created cbs) = Done (tt, s, o) -> orderly cbs s o.
Proof.
  intros Hrun. assert (orderly cbs (created cbs) []) as O by (split; [by split; [intros [? ?]|]|by exists []]).
  change o with ([] ++ o). revert O Hrun. generalize (created cbs) (@nil event).
  revert s o. induction acts as [|a acts IH]; intros s o s0 o0 O.
  - intros [= <- <-]. by rewrite app_nil_r.
  - unfold run. cbn [mapM_]. intros ([] & s1 & o1 & o2 & E1 & E2 & ->)%bind_done. rewrite app_assoc.
    eapply IH; [|exact E2]. by eapply step_orderly.
Qed.

(** The threads of a client do what its calls do, one after another.  Whatever the
    schedule - sections of the worker thread, calls of the application and of the ICE
    library between them, [start], and [stop] in its two halves -, the client ends up where
    some sequence of calls leads, with the same datagrams and callbacks in the same order;
    so what holds of all reachable clients holds of the process.  And it has a worker
    thread exactly while it is running or being stopped: [start] never replaces a thread
    that has not been joined. *)
Theorem client_serial (cbs : callbacks) (acts : list action) (s : t) (o : list event)
    (Hrun : run acts (created cbs) = Done (tt, s, o)) :
  (exists cs, mapM_ perform cs (initial cbs) = Done (tt, client s, o)) /\
  (app s = Outside -> is_Some (worker s) <-> running_ (client s) = true) /\
  (app s = Joining -> is_Some (worker s) /\ running_ (client s) = false) /\
  (forall e cfg bound c' o', app s = Outside -> start e cfg bound (client s) = Done (true, c', o') -> worker s = None).
Proof.
  destruct (run_orderly cbs acts s o Hrun) as (L & C).
  split; [done|]. unfold lifecycle in L. split; [by intros A; rewrite A in L|]. split; [by intros A; rewrite A in L|].
  intros e cfg bound c' o' A E. rewrite A in L. destruct (start_running _ _ _ _ _ _ _ E) as [_ K].
  destruct (worker s) as [p|] eqn:W; [|done]. exfalso. rewrite (K eq_refl) in L. by destruct L as [L _]; specialize (L (mk_is_Some _ _ eq_refl)).
Qed.

(** ** Stopping *)

Definition rank (p : place) : nat :=
  match p with Launched | Ticking => 2 | Checking => 1 | Gathering => 4 | Selecting _ => 3 | Ended => 0 end.

Definition measure (s : t) : nat :=
  match app s with
  | Outside => 0
  | Joining => S (match worker s with Some p => rank p | None => 0 end)
  end.

Inductive who := Worker | Joiner.

Definition role (a : action) : option who := match a with Work _ _ => Some Worker | Join => Some Joiner | _ => None end.

Definition due (s : t) : option who :=
  match app s with
  | Outside => None
  | Joining => Some (match worker s with Some Ended | None => Joiner | Some _ => Worker end)
  end.

(** No other [start] or [stop] meanwhile. *)
Definition meanwhile (a : action) : Prop := match a with AppStart _ _ _ | AppStop => False | _ => True end.

Definition stopping (cbs : callbacks) (s : t) : Prop :=
  (exists o, orderly cbs s o) /\ running_ (client s) = false.

Lemma rank_next p p' : next false p p' -> p <> Ended -> (rank p' < rank p)%nat.
Proof. destruct p, p'; cbn; intros N E; try done; lia. Qed.

Lemma work_stopping cbs e got p s p' s' o :
  stopping cbs s -> work e got p s = Done (p', s', o) -> running_ (client s') = false /\ next false p p' /\
  app s' = app s.
Proof.
  intros [[o0 O] R] E. destruct (work_spec _ _ _ _ _ _ _ E) as (Es & N & cs & Nc & C).
  rewrite R in N. split; [by rewrite (orderly_neutral _ _ _ _ _ _ O Nc C)|]. split; [done|by rewrite Es].
Qed.

#[export] Instance ended_dec p : Decision (p = Ended).
Proof. destruct p; first [by left | by right]. Defined.

(** What every action does to a client being stopped. *)
Definition advances (a : action) (s s' : t) : Prop :=
  running_ (client s') = false /\
  (measure s' < measure s \/ measure s' = measure s /\ due s' = due s)%nat /\
  (forall r, due s = Some r -> role a = Some r -> (measure s' < measure s)%nat).

Lemma advances_none a s : running_ (client s) = false -> due s <> role a \/ due s = None -> advances a s s.
Proof. intros R D. split; [done|]. split; [by right|]. intros r D1 D2. destruct D; congruence. Qed.

Lemma joining_worker cbs s : stopping cbs s -> app s = Joining -> exists p, worker s = Some p.
Proof. intros [[o [L _]] _] A. unfold lifecycle in L. rewrite A in L. by destruct L as [[p ->] _]; exists p. Qed.

Lemma work_advances cbs e got s s' o :
  stopping cbs s -> step (Work e got) s = Done (tt, s', o) -> advances (Work e got) s s'.
Proof.
  intros St. pose proof St as [_ R]. unfold step. rewrite gets_eq. unfold id. destruct (worker s) as [p|] eqn:W.
  2:{ intros [= <- _]. apply advances_none; [done|]. right. unfold due. destruct (app s) eqn:A; [done|].
      destruct (joining_worker cbs s St A) as [p P]. congruence. }
  intros (p' & s1 & o1 & o2 & E & [= <- _] & _)%bind_done.
  destruct (work_stopping _ _ _ _ _ _ _ _ St E) as (R1 & N & A). split; [done|].
  unfold measure, due. cbn [app set_worker worker]. rewrite A, W. destruct (app s); [split; [by right|done]|].
  destruct (decide (p = Ended)) as [->|Ne]; [destruct p'; try done; split; [by right|by intros r [= <-]]|].
  pose proof (rank_next p p' N Ne). split; [left|intros _ _ _]; lia.
Qed.

Lemma request_advances cbs e r s s' o :
  stopping cbs s -> step (Request e r) s = Done (tt, s', o) -> advances (Request e r) s s'.
Proof.
  intros [[o0 O] R]. unfold step. rewrite gets_eq. unfold id, on_client.
  destruct (perform _ _) as [[[[] c] o1]|] eqn:E; [|done]. intros [= <- _].
  assert (Forall neutral [call_of e r]) as N by (constructor; [apply call_neutral|done]).
  split; [exact (eq_trans (orderly_neutral _ _ _ _ _ _ O N (single_call _ _ _ _ E)) R)|]. by split; [right|].
Qed.

Lemma join_advances cbs s s' o : stopping cbs s -> step Join s = Done (tt, s', o) -> advances Join s s'.
Proof.
  intros St. pose proof St as [_ R]. unfold step. rewrite gets_eq. unfold id. destruct (app s) eqn:A.
  { intros [= <- _]. apply advances_none; [done|]. right. unfold due. by rewrite A. }
  destruct (joining_worker cbs s St A) as [p W]. rewrite W. destruct (decide (p = Ended)) as [->|Ne].
  - cbn. intros [= <- _]. split; [done|]. unfold measure. rewrite A. cbn. split; [left|intros _ _ _]; lia.
  - intros E. assert (s' = s) as -> by (by destruct p; injection E as <- _).
    apply advances_none; [done|]. left. unfold due. rewrite A, W. by destruct p.
Qed.

Lemma step_advances cbs a s s' o :
  stopping cbs s -> meanwhile a -> step a s = Done (tt, s', o) -> stopping cbs s' /\ advances a s s'.
Proof.
  intros St Q E. assert (advances a s s') as Ad.
  { destruct a as [e got|e r|e cfg bound| |]; try done.
    - by eapply work_advances.
    - by eapply request_advances.
    - by eapply join_advances. }
  split; [|done]. destruct St as [[o0 O] _]. split; [|apply Ad]. eexists. by eapply step_orderly.
Qed.

#[export] Instance client_fair cbs : Fair step role [Worker; Joiner] (stopping cbs) meanwhile measure due.
Proof.
  split.
  - intros a s s' o St Q E. destruct (step_advances cbs a s s' o St Q E) as (St' & _ & M & _). by split.
  - intros a r s s' o St Q D Ro E. destruct (step_advances cbs a s s' o St Q E) as (_ & _ & _ & X). by eapply X.
  - intros s r _ _. destruct r; [by left|right; by left].
  - intros s _. unfold due, measure. by destruct (app s).
Qed.



(** A client is started, does one turn, is asked to connect, and is stopped before the next. *)
Definition demo_start : list action :=
  [AppStart (env_at 1000) (demo_config (bs "alice")) true; Work (env_at 1000) None; Work (env_at 1000) None;
   Work (env_at 1000) None; Request (env_at 1200) (RConnect (bs "bob")); AppStop].


Lemma client_serial_witness :
  exists s o cs, run demo_start (created all_callbacks) = Done (tt, s, o) /\
    mapM_ perform cs (initial all_callbacks) = Done (tt, client s, o) /\ is_Some (worker s).
Proof.
  let r := eval vm_compute in (run demo_start (created all_callbacks)) in
  match r with Done (tt, ?s, ?o) => exists s, o end.
  match goal with |- exists cs, ?run = Done (tt, ?s, ?o) /\ _ =>
    assert (H : run = Done (tt, s, o)) by (vm_compute; reflexivity);
    destruct (client_serial all_callbacks demo_start s o H) as ((cs & C) & _ & J & _)
  end.
  exists cs. split; [exact H|]. split; [exact C|]. apply J. reflexivity.
Defined.


End ClientRun.
