(* ===== verification/ClientLock.v ===== *)
(** * The mutex of the client

    [ClientRun] runs every section of the worker and every call of another thread in one
    step.  This file takes them apart: it models the recursive mutex [mu_], the sections of
    [P2PClient::worker_loop] as sequences of steps between [lock] and [unlock], the calls of
    other threads with what [connect] reads before it locks, and the walk over [conns_] that
    the worker does without the mutex.  [client_sections_atomic] is what the mutex achieves:
    as long as no access without the mutex meets another thread's section, the threads do
    what a run of [ClientRun] does.  The examples at the end are schedules in which one does.

    A guard that a thread takes while it has the mutex already - in [close_conn] and
    [on_ice_sdp] - does not wait and is not a step of its own.  The callbacks of the ICE
    library read the back pointer of the connection before they lock; it is set before the
    agent exists and stays, and they are modelled as reading it inside. *)

From S2P Require Import Prelude.
From S2P Require Import Bytes.
From S2P Require Import ProtoDef.
From S2P Require Import NetUtil.
From S2P Require Import Handler.
From S2P Require Import ClientState.
From S2P Require Import ClientTunnel.
From S2P Require Import P2PClient.
From S2P Require Import ClientInvariant.
From S2P Require Import ClientRun.

#[local] Open Scope Z_scope.

Module ClientLock.
Import ClientState ClientTunnel P2PClient ClientInvariant.
Import ClientRun(post, Outside, Joining, request, RConnect, RDisconnect, RSend, RIceState, RIceCandidate, RIceGathered,
  RIceData, call_of, datagram, receive_punch, receive_all, gather).

(** ** The threads *)

Inductive who := TheWorker | Caller (i : nat).

#[export] Instance who_eq_dec : EqDecision who.
Proof. solve_decision. Defined.

(** What the worker does under the mutex: after [select] found something, and the ticks. *)
Inductive section :=
| Receiving (e : env) (main : option datagram) (ready : nat -> option datagram) (fds : list (bytes * nat))
| Timing (e : env).

Definition receive_main (e : env) (main : option datagram) : handler ClientState.t event unit :=
  match main with
  | Some (mem, n, from) => if (0 <? n)%nat then handle_packet e mem n from else skip
  | None => skip
  end.

Definition steps_of (sec : section) : list (handler ClientState.t event unit) :=
  match sec with
  | Receiving e main ready fds => receive_main e main :: map (receive_punch e ready) fds
  | Timing e => [tick_heartbeat e; tick_auth e; tick_nat_detect e; tick_relay e; tick_connections e; tick_sessions e]
  end.

(** The worker: as in [ClientRun], with the walk over the connections - those still to visit
    and the sockets found - and with the rest of the section it is in. *)
Inductive place :=
| Launched | Checking | Gathering
| Walking (e : env) (todo : list bytes) (fds : list (bytes * nat))
| Selecting (fds : list (bytes * nat))
| Ticking
| Inside (sec : section) (rest : list (handler ClientState.t event unit))
| Ended.

(** Another thread: outside; past what it reads before it locks; with the mutex, before and
    after what it does with it. *)
Inductive caller := Out | Past (e : env) (r : request) | Held (e : env) (r : request) | Served.

(** [raced]: an access without the mutex has met another thread's section. *)
Record t := mk {
  client : ClientState.t;
  worker : option place;
  app : post;
  owner : option who;
  callers : list caller;
  raced : bool
}.

Definition set_client (x : ClientState.t) (s : t) : t := mk x (worker s) (app s) (owner s) (callers s) (raced s).
Definition set_worker (x : option place) (s : t) : t := mk (client s) x (app s) (owner s) (callers s) (raced s).
Definition set_app (x : post) (s : t) : t := mk (client s) (worker s) x (owner s) (callers s) (raced s).
Definition set_owner (x : option who) (s : t) : t := mk (client s) (worker s) (app s) x (callers s) (raced s).
Definition set_callers (x : list caller) (s : t) : t := mk (client s) (worker s) (app s) (owner s) x (raced s).
Definition set_raced (x : bool) (s : t) : t := mk (client s) (worker s) (app s) (owner s) (callers s) x.

Abbreviation M := (handler t event).

Definition on_client {A} (m : handler ClientState.t event A) : M A := fun s =>
  match m (client s) with
  | Done (a, c, o) => Done (a, set_client c s, o)
  | Fault f => Fault f
  end.

Definition goto (p : place) : M unit := modify (set_worker (Some p)).

(** The worker comes to a section: it waits while another thread has the mutex. *)
Definition enter (sec : section) : M unit :=
  s ← gets id;
  match owner s with
  | None => modify (set_owner (Some TheWorker));; goto (Inside sec (steps_of sec))
  | Some _ => skip
  end.

Definition leave (sec : section) : M unit :=
  modify (set_owner None);; goto (match sec with Receiving _ _ _ _ => Ticking | Timing _ => Checking end).

Definition work (e : env) (got : option (option datagram * (nat -> option datagram))) (p : place) : M unit :=
  s ← gets id;
  match p with
  | Launched => on_client (worker_begin e);; goto Checking
  | Checking => goto (if running_ (client s) then Gathering else Ended)
  | Gathering => goto (Walking e (table_order e (dom (conns_ (client s)))) [])
  | Walking e0 (peer :: todo) fds =>
      match conns_ (client s) !! peer with
      | Some c => goto (Walking e0 todo (fds ++ map (pair peer) (punch_socks (punch c))))
      | None => lift (Fault UseAfterFree)
      end
  | Walking _ [] fds => goto (Selecting fds)
  | Selecting fds =>
      match got with
      | Some (main, ready) => enter (Receiving e main ready fds)
      | None => goto Ticking
      end
  | Ticking => enter (Timing e)
  | Inside sec (m :: rest) => on_client m;; goto (Inside sec rest)
  | Inside sec [] => leave sec
  | Ended => skip
  end.

(** ** The calls *)

(** [connect] looks at the client before it locks. *)
Definition refused (s : ClientState.t) (r : request) : bool :=
  match r with
  | RConnect peer => negb (running_ s) || (length peer =? 0)%nat || bool_decide (peer = uuid (cfg_ s))
  | _ => false
  end.

Definition connect_locked (e : env) (peer : bytes) : handler ClientState.t event unit :=
  s ← gets id;
  c ← conn_at peer;
  put_conn peer (set_peer_uuid peer c);;
  if connecting c || connected c then skip
  else
    update_conn peer (begin_connect e (cfg_ s));;
    ensure_ice_agent e peer;;
    send_proto MSG_CONNECT_REQ (connect_req (uuid (cfg_ s)) peer).

Definition body (e : env) (r : request) : handler ClientState.t event unit :=
  match r with RConnect peer => connect_locked e peer | _ => perform (call_of e r) end.

Definition set_caller (i : nat) (c : caller) : M unit := modify (fun s => set_callers (<[i := c]> (callers s)) s).

(** Thread [i] calls. *)
Definition call (i : nat) (e : env) (r : request) : M unit :=
  s ← gets id;
  match callers s !! i with
  | Some Out => if refused (client s) r then skip else set_caller i (Past e r)
  | _ => skip
  end.

(** Its next step: it takes the mutex, when nobody has it, does what it came for, and
    gives it back. *)
Definition proceed (i : nat) : M unit :=
  s ← gets id;
  match callers s !! i with
  | Some (Past e r) =>
      match owner s with
      | None => modify (set_owner (Some (Caller i)));; set_caller i (Held e r)
      | Some _ => skip
      end
  | Some (Held e r) => on_client (body e r);; set_caller i Served
  | Some Served => modify (set_owner None);; set_caller i Out
  | _ => skip
  end.

(** ** Schedules *)

Inductive action :=
| Work (e : env) (got : option (option datagram * (nat -> option datagram)))
| Call (i : nat) (e : env) (r : request)
| Proceed (i : nat)
| AppStart (e : env) (cfg : Config) (bound : bool)
| AppStop
| Join.

(** [start] and [stop] never lock; whether they get past their first test, and [stop] past
    the join. *)
Definition acts_unlocked (a : action) (s : t) : bool :=
  match a with
  | AppStart _ _ _ => match app s with Outside => negb (running_ (client s)) | Joining => false end
  | AppStop => match app s with Outside => running_ (client s) | Joining => false end
  | Join => match app s, worker s with Joining, Some Ended => true | _, _ => false end
  | _ => false
  end.

Definition act (a : action) : M unit :=
  s ← gets id;
  match a with
  | Work e got => match worker s with Some p => work e got p | None => skip end
  | Call i e r => call i e r
  | Proceed i => proceed i
  | AppStart e cfg bound =>
      if acts_unlocked a s then
        ok ← on_client (start e cfg bound);
        if (ok : bool) then modify (set_worker (Some Launched)) else skip
      else skip
  | AppStop => if acts_unlocked a s then on_client halt;; modify (set_app Joining) else skip
  | Join =>
      if acts_unlocked a s then on_client clear;; modify (set_worker None);; modify (set_app Outside) else skip
  end.

(** Somebody is in a section, or has looked at the client and is about to lock. *)
Definition busy (s : t) : bool :=
  bool_decide (is_Some (owner s)) ||
  existsb (fun c => match c with Past _ (RConnect _) => true | _ => false end) (callers s).

(** In the midst of its walk, the worker meets a caller that has the mutex. *)
Definition met (s : t) : bool :=
  match worker s, owner s with Some (Walking _ _ _), Some (Caller _) => true | _, _ => false end.

Definition step (a : action) : M unit :=
  s ← gets id;
  act a;;
  modify (fun s' => set_raced (raced s || met s' || acts_unlocked a s && busy s) s').

Definition run (acts : list action) : M unit := mapM_ step acts.

(** [n] threads besides the worker and the one that starts and stops the client. *)
Definition created (cbs : callbacks) (n : nat) : t := mk (initial cbs) None Outside None (replicate n Out) false.

(** What a step stands for in [ClientRun]: the end of a walk, of a section of the worker, the
    middle of a call. *)
Definition stands_for (s : t) (a : action) : list ClientRun.action :=
  match a with
  | Work e got =>
      match worker s with
      | Some (Launched | Checking) => [ClientRun.Work e got]
      | Some (Walking e0 [] _) => [ClientRun.Work e0 None]
      | Some (Selecting _) => match got with None => [ClientRun.Work e None] | Some _ => [] end
      | Some (Inside (Receiving e0 main ready _) []) => [ClientRun.Work e0 (Some (main, ready))]
      | Some (Inside (Timing e0) []) => [ClientRun.Work e0 None]
      | _ => []
      end
  | Proceed i => match callers s !! i with Some (Held e r) => [ClientRun.Request e r] | _ => [] end
  | Call _ _ _ => []
  | AppStart e cfg bound => if acts_unlocked a s then [ClientRun.AppStart e cfg bound] else []
  | AppStop => if acts_unlocked a s then [ClientRun.AppStop] else []
  | Join => if acts_unlocked a s then [ClientRun.Join] else []
  end.

Fixpoint trace (acts : list action) (s : t) : list ClientRun.action :=
  match acts with
  | [] => []
  | a :: acts => stands_for s a ++ match step a s with Done (_, s', _) => trace acts s' | Fault _ => [] end
  end.

(** Where the worker is in [ClientRun]. *)
Definition place_of (p : place) : ClientRun.place :=
  match p with
  | Launched => ClientRun.Launched
  | Checking => ClientRun.Checking
  | Gathering | Walking _ _ _ => ClientRun.Gathering
  | Selecting fds | Inside (Receiving _ _ _ fds) _ => ClientRun.Selecting fds
  | Ticking | Inside (Timing _) _ => ClientRun.Ticking
  | Ended => ClientRun.Ended
  end.

(** ** Mutual exclusion *)

(** [w] is between taking the mutex and giving it back. *)
Definition inside (s : t) (w : who) : Prop :=
  match w with
  | TheWorker => exists sec rest, worker s = Some (Inside sec rest)
  | Caller i => (exists e r, callers s !! i = Some (Held e r)) \/ callers s !! i = Some Served
  end.

Definition guarded (s : t) : Prop := forall w, inside s w <-> owner s = Some w.

(** Neither the client nor the flag bears on it. *)
Lemma guarded_same s s' :
  worker s' = worker s -> owner s' = owner s -> callers s' = callers s -> guarded s -> guarded s'.
Proof. unfold guarded, inside. intros -> -> ->. done. Qed.

Lemma free_nobody s w : guarded s -> owner s = None -> ~ inside s w.
Proof. intros G E I. apply G in I. congruence. Qed.

(** The worker moves outside its sections, or within one. *)
Lemma guarded_worker p p' s :
  worker s = Some p -> (exists sec rest, p = Inside sec rest) <-> (exists sec rest, p' = Inside sec rest) ->
  guarded s -> guarded (set_worker (Some p') s).
Proof.
  intros W E G [|i]; rewrite <- (G _); [|done]. cbn. rewrite W. split.
  - intros (sec & rest & [= ->]). destruct (proj2 E) as (sec' & rest' & ->); [eauto|]. eauto.
  - intros (sec & rest & [= ->]). destruct (proj1 E) as (sec' & rest' & ->); [eauto|]. eauto.
Qed.

Lemma guarded_enter sec s p :
  worker s = Some p -> owner s = None -> guarded s ->
  guarded (set_worker (Some (Inside sec (steps_of sec))) (set_owner (Some TheWorker) s)).
Proof.
  intros W O G [|i].
  - split; [done|]. intros _. cbn. eauto.
  - split; [|done]. intros I. destruct (free_nobody s (Caller i) G O I).
Qed.

Lemma guarded_leave p s :
  (forall sec rest, p <> Inside sec rest) -> owner s = Some TheWorker -> guarded s ->
  guarded (set_worker (Some p) (set_owner None s)).
Proof.
  intros N O G [|i].
  - split; [|done]. intros (sec & rest & [= E]). by destruct (N sec rest).
  - split; [|done]. intros I. apply (G (Caller i)) in I. congruence.
Qed.

Lemma guarded_call i c s :
  callers s !! i = Some Out -> c = Out \/ (exists e r, c = Past e r) -> guarded s ->
  guarded (set_callers (<[i := c]> (callers s)) s).
Proof.
  intros E C G [|j]; rewrite <- (G _); [done|]. cbn. destruct (decide (j = i)) as [->|Ne]; [|by rewrite list_lookup_insert_ne].
  rewrite list_lookup_insert_eq by (by eapply lookup_lt_Some). rewrite E.
  destruct C as [->|(e & r & ->)]; split; intros [(? & ? & ?)|?]; congruence.
Qed.

Lemma guarded_take i e r s :
  callers s !! i = Some (Past e r) -> owner s = None -> guarded s ->
  guarded (set_callers (<[i := Held e r]> (callers s)) (set_owner (Some (Caller i)) s)).
Proof.
  intros E O G [|j]; cbn.
  - split; [|done]. intros I. destruct (free_nobody s TheWorker G O I).
  - destruct (decide (j = i)) as [->|Ne].
    + rewrite list_lookup_insert_eq by (by eapply lookup_lt_Some). split; [done|]. intros _. left. eauto.
    + rewrite list_lookup_insert_ne by done. split; [|congruence]. intros I. destruct (free_nobody s (Caller j) G O I).
Qed.

Lemma guarded_serve i e r s :
  callers s !! i = Some (Held e r) -> guarded s -> guarded (set_callers (<[i := Served]> (callers s)) s).
Proof.
  intros E G [|j]; rewrite <- (G _); [done|]. cbn. destruct (decide (j = i)) as [->|Ne]; [|by rewrite list_lookup_insert_ne].
  rewrite list_lookup_insert_eq by (by eapply lookup_lt_Some). rewrite E. split; intros _; [left; eauto|by right].
Qed.

Lemma guarded_give i s :
  callers s !! i = Some Served -> guarded s -> guarded (set_callers (<[i := Out]> (callers s)) (set_owner None s)).
Proof.
  intros E G. assert (owner s = Some (Caller i)) as O by (apply G; by right). intros [|j]; cbn.
  - split; [|done]. intros I. apply (G TheWorker) in I. congruence.
  - split; [|done]. destruct (decide (j = i)) as [->|Ne].
    + rewrite list_lookup_insert_eq by (by eapply lookup_lt_Some). intros [(? & ? & ?)|?]; congruence.
    + rewrite list_lookup_insert_ne by done. intros I. apply (G (Caller j)) in I. congruence.
Qed.

Lemma section_done {A} (m : handler ClientState.t event A) s a s' o :
  on_client m s = Done (a, s', o) -> exists c, m (client s) = Done (a, c, o) /\ s' = set_client c s.
Proof. unfold on_client. destruct (m (client s)) as [[[b c] o']|]; [|done]. intros [= -> <- <-]. eauto. Qed.

(** [on_client m] and then a step of the thread's own. *)
Lemma section_then (m : handler ClientState.t event unit) f s s' o :
  (on_client m;; modify f) s = Done (tt, s', o) -> exists c, m (client s) = Done (tt, c, o) /\ s' = f (set_client c s).
Proof.
  intros ([] & s1 & o1 & o2 & (c & E & ->)%section_done & [= <- <-] & ->)%bind_done. rewrite app_nil_r. eauto.
Qed.

Lemma work_guarded e got p s s' o :
  worker s = Some p -> work e got p s = Done (tt, s', o) -> guarded s -> guarded s'.
Proof.
  intros W. unfold work. rewrite gets_eq. unfold id.
  assert (forall p' s', (exists sec rest, p = Inside sec rest) <-> (exists sec rest, p' = Inside sec rest) ->
    goto p' s = Done (tt, s', o) -> guarded s -> guarded s') as Go.
  { intros p' s2 I [= <- _]. by apply (guarded_worker p). }
  assert (forall sec s', enter sec s = Done (tt, s', o) -> guarded s -> guarded s') as En.
  { intros sec s2. unfold enter. rewrite gets_eq. unfold id. destruct (owner s) eqn:O; [by intros [= <- _]|].
    intros [= <- _]. by apply (guarded_enter sec s p). }
  destruct p as [| | |e0 [|peer todo] fds|fds| |sec [|m rest]|].
  - intros (c & _ & ->)%section_then G. apply (guarded_worker Launched); [done| |by apply (guarded_same s)].
    by split; intros (? & ? & ?).
  - apply Go. by destruct (running_ (client s)); split; intros (? & ? & ?).
  - apply Go. by split; intros (? & ? & ?).
  - apply Go. by split; intros (? & ? & ?).
  - destruct (conns_ (client s) !! peer); [|done]. apply Go. by split; intros (? & ? & ?).
  - destruct got as [[main ready]|]; [apply En|apply Go]. by split; intros (? & ? & ?).
  - apply En.
  - unfold leave, goto. rewrite modify_eq. intros [= <- _] G. apply guarded_leave; [by destruct sec| |done].
    apply G. cbn. eauto.
  - intros (c & _ & ->)%section_then G. apply (guarded_worker (Inside sec (m :: rest))); [done| |by apply (guarded_same s)].
    split; eauto.
  - by intros [= <- _].
Qed.

Lemma proceed_guarded i s s' o : proceed i s = Done (tt, s', o) -> guarded s -> guarded s'.
Proof.
  unfold proceed. rewrite gets_eq. unfold id. destruct (callers s !! i) as [[|e r|e r|]|] eqn:C; try by intros [= <- _].
  - destruct (owner s) eqn:O; [by intros [= <- _]|]. intros [= <- _] G. by apply (guarded_take i e r).
  - intros (c & _ & ->)%section_then G. apply (guarded_serve i e r); [done|]. by apply (guarded_same s).
  - intros [= <- _] G. by apply guarded_give.
Qed.

(** ** What every step keeps *)

(** A step of a section: it keeps the invariant, whether the client is running and its
    configuration. *)
Definition kept (m : handler ClientState.t event unit) : Prop :=
  forall w, w <> LoginLost -> gives w (fun _ => True) m.

Lemma kept_step m c c' o :
  kept m -> inv Anything c -> m c = Done (tt, c', o) ->
  inv Anything c' /\ running_ c' = running_ c /\ cfg_ c' = cfg_ c.
Proof.
  intros K I E. assert (inv (Steady (running_ c) (cfg_ c)) c) as J.
  { destruct I as (F & C & SS & En & R & _). exact (conj F (conj C (conj SS (conj En (conj R (conj eq_refl eq_refl)))))). }
  destruct (K (Steady (running_ c) (cfg_ c)) ltac:(done) _ _ _ _ J E) as ((F & C & SS & En & R & St) & _).
  split; [exact (conj F (conj C (conj SS (conj En (conj R Logic.I)))))|exact St].
Qed.

Lemma kept_receive_main e main : kept (receive_main e main).
Proof.
  intros w N. unfold receive_main. destruct main as [[[mem n] from]|]; [|apply kept_skip].
  destruct (0 <? n)%nat; [|apply kept_skip]. by apply keeps_packet.
Qed.

Lemma kept_receive_punch e ready pf : kept (receive_punch e ready pf).
Proof.
  intros w N. unfold receive_punch. destruct (ready pf.2) as [[[mem n] from]|]; [|apply kept_skip].
  eapply gives_bind; [apply gives_gets|]. intros s _. destruct (conns_ s !! pf.1) as [c|]; [|apply kept_skip].
  destruct (n =? 0)%nat; [apply kept_skip|]. apply kept_mapM. intros si. by apply keeps_punch_recv.
Qed.

Lemma kept_steps sec : Forall kept (steps_of sec).
Proof.
  destruct sec as [e main ready fds|e]; cbn [steps_of].
  - constructor; [apply kept_receive_main|]. apply Forall_fmap, Forall_true. intros pf. apply kept_receive_punch.
  - repeat (apply Forall_cons_2; [intros w N|]); [apply keeps_tick_heartbeat|apply keeps_tick_auth|apply keeps_tick_detect|
      apply keeps_tick_relay|apply keeps_tick_connections|apply keeps_tick_sessions|constructor].
Qed.

Lemma kept_connect_locked e peer : kept (connect_locked e peer).
Proof.
  intros w N. unfold connect_locked. eapply gives_bind; [apply gives_gets|]. intros s _.
  eapply gives_bind; [apply gives_conn_at|]. intros c Hc.
  apply (gives_bind w (fun _ => True)); [apply keeps_put_conn; destruct Hc as (S & D & _); split; [exact S|split; [exact D|by left]]|]. intros _ _.
  destruct (connecting c || connected c); [apply kept_skip|].
  apply (gives_bind w (fun _ => True)); [by apply keeps_update_conn|]. intros _ _.
  apply (gives_bind w (fun _ => True)); [apply keeps_ensure_ice|]. intros _ _. apply keeps_send_proto. discriminate.
Qed.

Lemma kept_body e r : kept (body e r).
Proof.
  intros w N. destruct r; cbn [body]; try (apply keeps_perform; by destruct w). by apply kept_connect_locked.
Qed.

(** The client is running exactly while there is a worker that nobody waits for, and the rest
    of a section is made of steps of sections. *)
Definition living (s : t) : Prop :=
  inv Anything (client s) /\
  match app s with
  | Outside => is_Some (worker s) <-> running_ (client s) = true
  | Joining => is_Some (worker s) /\ running_ (client s) = false
  end /\
  match worker s with Some (Inside _ rest) => Forall kept rest | _ => True end.

(** The client changes in a section, the worker moves on. *)
Lemma living_section m c o s s' :
  kept m -> m (client s) = Done (tt, c, o) -> client s' = c -> app s' = app s ->
  (is_Some (worker s') <-> is_Some (worker s)) ->
  match worker s' with Some (Inside _ rest) => Forall kept rest | _ => True end -> living s -> living s'.
Proof.
  intros K E Ec Ea Ew F (I & L & _). destruct (kept_step _ _ _ _ K I E) as (I' & R & _).
  split; [by rewrite Ec|]. split; [|done]. rewrite Ea, Ec, R. destruct (app s); by rewrite Ew.
Qed.

Lemma living_moves s s' :
  client s' = client s -> app s' = app s -> (is_Some (worker s') <-> is_Some (worker s)) ->
  match worker s' with Some (Inside _ rest) => Forall kept rest | _ => True end -> living s -> living s'.
Proof.
  intros Ec Ea Ew F (I & L & _). split; [by rewrite Ec|]. split; [|done]. rewrite Ea, Ec. destruct (app s); by rewrite Ew.
Qed.

Lemma work_living e got p s s' o :
  worker s = Some p -> work e got p s = Done (tt, s', o) -> living s -> living s'.
Proof.
  intros W. unfold work. rewrite gets_eq. unfold id.
  assert (forall p', is_Some (Some p' : option place) <-> is_Some (worker s)) as Sm
    by (intros p'; rewrite W; by split; intros _; eexists).
  assert (forall p' s2, match p' with Inside _ rest => Forall kept rest | _ => True end ->
    goto p' s = Done (tt, s2, o) -> living s -> living s2) as Go.
  { intros p' s2 F [= <- _]. apply living_moves; [done|done|by apply Sm|]. by destruct p'. }
  assert (forall sec s2, enter sec s = Done (tt, s2, o) -> living s -> living s2) as En.
  { intros sec s2. unfold enter. rewrite gets_eq. unfold id. destruct (owner s); [by intros [= <- _]|].
    intros [= <- _]. apply living_moves; [done|done|by apply Sm|]. apply kept_steps. }
  destruct p as [| | |e0 [|peer todo] fds|fds| |sec [|m rest]|].
  - intros (c & E & ->)%section_then. eapply living_section; [|exact E|done..|by apply Sm|done].
    intros w _. apply keeps_begin.
  - apply Go. by destruct (running_ (client s)).
  - by apply Go.
  - by apply Go.
  - destruct (conns_ (client s) !! peer); [by apply Go|done].
  - destruct got as [[main ready]|]; [apply En|by apply Go].
  - apply En.
  - intros [= <- _]. apply living_moves; [done|done|by apply Sm|]. by destruct sec.
  - intros (c & E & ->)%section_then L. pose proof L as (_ & _ & F). rewrite W in F. apply Forall_cons in F as [F1 F2].
    eapply living_section; [exact F1|exact E|done..|by apply Sm|exact F2|done].
  - by intros [= <- _].
Qed.

Lemma call_same i e r s s' o :
  call i e r s = Done (tt, s', o) -> client s' = client s /\ worker s' = worker s /\ app s' = app s /\ o = [].
Proof.
  unfold call. rewrite gets_eq. unfold id. destruct (callers s !! i) as [[| | |]|]; try by intros [= <- <-].
  by destruct (refused _ _); intros [= <- <-].
Qed.

Lemma proceed_living i s s' o : proceed i s = Done (tt, s', o) -> living s -> living s'.
Proof.
  unfold proceed. rewrite gets_eq. unfold id. intros E L. pose proof L as (_ & _ & F). revert E.
  destruct (callers s !! i) as [[|e r|e r|]|]; try by intros [= <- _].
  - destruct (owner s); [by intros [= <- _]|]. intros [= <- _]. by apply (living_moves s).
  - intros (c & E & ->)%section_then. by apply (living_section (body e r) c o s); [apply kept_body|..].
Qed.

Lemma start_living e cfg bound s s' o :
  acts_unlocked (AppStart e cfg bound) s = true ->
  (ok ← on_client (start e cfg bound); if (ok : bool) then modify (set_worker (Some Launched)) else skip) s = Done (tt, s', o) ->
  living s -> living s' /\ owner s' = owner s /\ callers s' = callers s /\ worker s = None /\
    (worker s' = None \/ worker s' = Some Launched).
Proof.
  cbn [acts_unlocked]. destruct (app s) eqn:A; [|done]. intros R%negb_true_iff E (I & L & _). rewrite A, R in L.
  assert (worker s = None) as W by (destruct (worker s); [by destruct L as [L _]; discriminate L; eexists|done]).
  apply bind_done in E as (ok & s1 & o1 & o2 & (c & E1 & ->)%section_done & E2 & ->).
  destruct (keeps_start Anything e cfg bound eq_refl _ _ _ _ I E1) as (I' & _).
  destruct (ClientRun.start_running _ _ _ _ _ _ _ E1) as [K _]. rewrite R, orb_false_r in K.
  destruct ok; injection E2 as <- _; unfold living; cbn; rewrite ?A, ?W, K.
  - split; [|by auto]. split; [exact I'|]. split; [|done]. by split; [|eexists].
  - split; [|by auto]. split; [exact I'|]. split; [|done]. by split; [intros [? ?]|].
Qed.

Lemma stop_living s s' o :
  acts_unlocked AppStop s = true -> (on_client halt;; modify (set_app Joining)) s = Done (tt, s', o) ->
  living s -> living s' /\ owner s' = owner s /\ callers s' = callers s /\ worker s' = worker s.
Proof.
  cbn [acts_unlocked]. destruct (app s) eqn:A; [|done]. intros R (c & E & ->)%section_then (I & L & F). rewrite A in L.
  destruct (keeps_halt Anything ltac:(done) _ _ _ _ I E) as (I' & _). split; [|done]. split; [exact I'|].
  split; [|exact F]. cbn. split; [by apply L|]. by eapply ClientRun.halt_running.
Qed.

Lemma join_living s s' o :
  acts_unlocked Join s = true ->
  (on_client clear;; modify (set_worker None);; modify (set_app Outside)) s = Done (tt, s', o) ->
  living s -> living s' /\ owner s' = owner s /\ callers s' = callers s /\ worker s = Some Ended /\ worker s' = None.
Proof.
  cbn [acts_unlocked]. destruct (app s) eqn:A; [done|]. destruct (worker s) as [[]|] eqn:W; try done.
  intros _ [= <- _] (I & L & F). rewrite A in L. destruct L as [_ R].
  destruct (keeps_clear Anything _ _ _ _ I eq_refl) as (I' & _). split; [|done]. split; [exact I'|].
  unfold living. cbn. rewrite R. split; [|done]. by split; [intros [? ?]|].
Qed.

Lemma act_kept a s s' o : act a s = Done (tt, s', o) -> guarded s -> living s -> guarded s' /\ living s'.
Proof.
  unfold act. rewrite gets_eq. unfold id. intros E G L. destruct a as [e got|i e r|i|e cfg bound| |].
  - destruct (worker s) as [p|] eqn:W; [|by injection E as <- _]. split; [by eapply work_guarded|by eapply work_living].
  - split.
    + revert E. unfold call. rewrite gets_eq. unfold id.
      destruct (callers s !! i) as [[|e' r'|e' r'|]|] eqn:C; try by intros [= <- _].
      destruct (refused _ _); [by intros [= <- _]|]. intros [= <- _]. apply guarded_call; [done|right; eauto|done].
    + destruct (call_same _ _ _ _ _ _ E) as (Ec & Ew & Ea & _). apply (living_moves s); try done; [by rewrite Ew|].
      rewrite Ew. apply L.
  - split; [by eapply proceed_guarded|by eapply proceed_living].
  - destruct (acts_unlocked _ s) eqn:U; [|by injection E as <- _].
    destruct (start_living _ _ _ _ _ _ U E L) as (L' & Eo & Ec & W & W'). split; [|done].
    intros w. rewrite Eo, <- (G w). unfold inside. rewrite Ec, W. destruct w; [|done].
    by destruct W' as [->| ->]; split; intros (? & ? & ?).
  - destruct (acts_unlocked _ s) eqn:U; [|by injection E as <- _].
    destruct (stop_living _ _ _ U E L) as (L' & Eo & Ec & W). split; [|done]. by apply (guarded_same s).
  - destruct (acts_unlocked _ s) eqn:U; [|by injection E as <- _].
    destruct (join_living _ _ _ U E L) as (L' & Eo & Ec & W & W'). split; [|done].
    intros w. rewrite Eo, <- (G w). unfold inside. rewrite Ec, W, W'. destruct w; [|done]. by split; intros (? & ? & ?).
Qed.

Lemma step_done a s s' o :
  step a s = Done (tt, s', o) ->
  exists s1, act a s = Done (tt, s1, o) /\ s' = set_raced (raced s || met s1 || acts_unlocked a s && busy s) s1.
Proof.
  unfold step. rewrite gets_eq. intros ([] & s1 & o1 & o2 & E & [= <- <-] & ->)%bind_done. rewrite app_nil_r. eauto.
Qed.

Lemma step_kept a s s' o : step a s = Done (tt, s', o) -> guarded s -> living s -> guarded s' /\ living s'.
Proof.
  intros (s1 & E & ->)%step_done G L. destruct (act_kept _ _ _ _ E G L) as [G1 L1].
  split; [by apply (guarded_same s1)|]. apply (living_moves s1); try done. apply L1.
Qed.

(** ** Sections as calls *)

Lemma refused_same c c' r : running_ c' = running_ c -> cfg_ c' = cfg_ c -> refused c' r = refused c r.
Proof. unfold refused. by intros -> ->. Qed.

Lemma body_call e r c : refused c r = false -> body e r c = perform (call_of e r) c.
Proof.
  destruct r as [peer| | | | | |]; try done. cbn [refused body call_of perform]. intros R. unfold connect. rewrite gets_eq.
  unfold id. rewrite R. unfold connect_locked. by rewrite gets_eq.
Qed.

Lemma then_skip (m : handler ClientState.t event unit) c : (m;; skip) c = m c.
Proof. unfold mbind, M_bind. destruct (m c) as [[[[] c1] o1]|]; [|done]. unfold skip, mret, M_ret. by rewrite app_nil_r. Qed.

Lemma steps_receiving e main ready fds c :
  mapM_ (fun m => m) (steps_of (Receiving e main ready fds)) c = receive_all e main ready fds c.
Proof.
  cbn [steps_of mapM_]. unfold receive_all, receive_main.
  assert (forall l c, mapM_ (fun m => m) (map (receive_punch e ready) l) c = mapM_ (receive_punch e ready) l c) as Map.
  { intros l. induction l as [|x l IH]; intros c'; [done|]. cbn [map mapM_]. unfold mbind, M_bind.
    destruct (receive_punch e ready x c') as [[[[] c1] o1]|]; [|done]. by rewrite IH. }
  unfold mbind, M_bind. destruct main as [[[mem n] from]|]; [destruct (0 <? n)%nat|]; cbn;
    try destruct (handle_packet e mem n from c) as [[[[] c1] o1]|]; try done; by rewrite Map.
Qed.

Lemma steps_timing e c : mapM_ (fun m => m) (steps_of (Timing e)) c = tick e c.
Proof.
  cbn [steps_of mapM_]. unfold tick.
  assert (forall (m k k' : handler ClientState.t event unit) c, (forall c, k c = k' c) -> (m;; k) c = (m;; k') c) as Then.
  { intros m k k' c0 K. unfold mbind, M_bind. destruct (m c0) as [[[[] c1] o1]|]; [|done]. by rewrite K. }
  do 5 (apply Then; clear c; intros c). apply then_skip.
Qed.

(** The sockets the walk finds at [peer]. *)
Definition sockets (c : ClientState.t) (peer : bytes) : list (bytes * nat) :=
  match conns_ c !! peer with Some x => map (pair peer) (punch_socks (punch x)) | None => [] end.

Lemma gather_eq e c : gather e c = concat (map (sockets c) (table_order e (dom (conns_ c)))).
Proof. done. Qed.

Lemma halt_conns c c' o : halt c = Done (tt, c', o) -> conns_ c' = conns_ c.
Proof.
  unfold halt. rewrite modify_eq, gets_eq. unfold id. destruct (proxies_ _); [by intros [= <- _]|].
  destruct (sockaddr_from _ _) as [to ok]. destruct (_ && _); [|by intros [= <- _]].
  match goal with |- send_proto_to ?i ?p ?t ?c = _ -> _ => destruct (send_proto_to_state i p t c) as [o2 E2] end.
  rewrite E2. by intros [= <- _].
Qed.

(** ** Following a run of [ClientRun] *)

(** How far the worker is past the state [c]: some steps into its section, or into its walk. *)
Definition progress (s : t) (c : ClientState.t) (od : list event) : Prop :=
  match worker s with
  | Some (Inside sec rest) => exists pre, steps_of sec = pre ++ rest /\ mapM_ (fun m => m) pre c = Done (tt, client s, od)
  | Some (Walking e todo fds) => client s = c /\ od = [] /\ fds ++ concat (map (sockets c) todo) = gather e c
  | _ => client s = c /\ od = []
  end.

(** What [connect] has seen before it locks still holds. *)
Definition checked (s : t) : Prop :=
  forall i e r, callers s !! i = Some (Past e r) \/ callers s !! i = Some (Held e r) -> refused (client s) r = false.

Definition follows (cbs : callbacks) (h : list ClientRun.action) (s : t) (o : list event) : Prop :=
  checked s /\
  exists c oc od, ClientRun.run h (ClientRun.created cbs) = Done (tt, c, oc) /\ o = oc ++ od /\
    ClientRun.app c = app s /\ ClientRun.worker c = option_map place_of (worker s) /\ progress s (ClientRun.client c) od.

Lemma run_more cbs h c oc a c' o1 :
  ClientRun.run h (ClientRun.created cbs) = Done (tt, c, oc) -> ClientRun.step a c = Done (tt, c', o1) ->
  ClientRun.run (h ++ [a]) (ClientRun.created cbs) = Done (tt, c', oc ++ o1).
Proof.
  intros R E. unfold ClientRun.run. rewrite mapM_app_eq. eapply bind_eq; [exact R|].
  rewrite <- (app_nil_r o1). by eapply bind_eq.
Qed.

Lemma coarse_work e got p p' c c1 o1 :
  ClientRun.worker c = Some p -> ClientRun.work e got p c = Done (p', ClientRun.set_client c1 c, o1) ->
  ClientRun.step (ClientRun.Work e got) c = Done (tt, ClientRun.mk c1 (Some p') (ClientRun.app c), o1).
Proof.
  intros W E. unfold ClientRun.step. rewrite gets_eq. unfold id. rewrite W. rewrite <- (app_nil_r o1).
  by eapply bind_eq.
Qed.

Lemma coarse_section (m : handler ClientState.t event unit) (p' : ClientRun.place) c c1 o1 :
  m (ClientRun.client c) = Done (tt, c1, o1) ->
  (ClientRun.on_client m;; mret p') c = Done (p', ClientRun.set_client c1 c, o1).
Proof.
  intros E. rewrite <- (app_nil_r o1). eapply bind_eq; [|done]. unfold ClientRun.on_client. by rewrite E.
Qed.

Lemma set_same_client c : ClientRun.set_client (ClientRun.client c) c = c.
Proof. by destruct c. Qed.

(** The same state of [ClientRun], further on. *)
Lemma follows_on cbs h s s' o :
  follows cbs h s o -> app s' = app s -> option_map place_of (worker s') = option_map place_of (worker s) -> checked s' ->
  (forall c od, progress s c od -> progress s' c od) -> follows cbs (h ++ []) s' (o ++ []).
Proof.
  intros (_ & c & oc & od & R & -> & A & W & P) Ea Ew K H. rewrite !app_nil_r. split; [done|].
  exists c, oc, od. rewrite Ea, Ew. by auto 6.
Qed.

(** One step of [ClientRun], after which the worker is between its sections and walks. *)
Lemma follows_step cbs h (s' : t) o a o' c c' :
  ClientRun.run h (ClientRun.created cbs) = Done (tt, c, o) -> ClientRun.step a c = Done (tt, c', o') -> checked s' ->
  ClientRun.app c' = app s' -> ClientRun.worker c' = option_map place_of (worker s') -> progress s' (ClientRun.client c') [] ->
  follows cbs (h ++ [a]) s' (o ++ o').
Proof.
  intros R E K A W P. split; [done|]. exists c', (o ++ o'), []. rewrite app_nil_r. split; [by eapply run_more|]. done.
Qed.

Lemma checked_same s s' :
  callers s' = callers s -> running_ (client s') = running_ (client s) -> cfg_ (client s') = cfg_ (client s) ->
  checked s -> checked s'.
Proof. intros Ec Er Ef K i e r. rewrite Ec. intros C. rewrite <- (K i e r C). by apply refused_same. Qed.

Lemma checked_section m s c o s' :
  kept m -> living s -> m (client s) = Done (tt, c, o) -> client s' = c -> callers s' = callers s -> checked s -> checked s'.
Proof.
  intros K (I & _) E Ec Ek. destruct (kept_step _ _ _ _ K I E) as (_ & R & F). by apply checked_same; rewrite ?Ec.
Qed.

(** The worker alone with the client moves from place to place. *)
Lemma goto_follows cbs h s o e got p p' :
  worker s = Some p -> follows cbs h s o -> (forall c od, progress s c od -> client s = c /\ od = []) ->
  (forall c, ClientRun.client c = client s -> progress s (client s) [] ->
     ClientRun.work e got (place_of p) c = Done (place_of p', c, [])) ->
  (forall c, progress s c [] -> progress (set_worker (Some p') s) c []) ->
  follows cbs (h ++ [ClientRun.Work e got]) (set_worker (Some p') s) (o ++ []).
Proof.
  intros W (K & c & oc & od & R & -> & A & Ew & P) N Co Pr. destruct (N _ _ P) as [Ec ->]. rewrite app_nil_r.
  assert (ClientRun.step (ClientRun.Work e got) c =
    Done (tt, ClientRun.mk (ClientRun.client c) (Some (place_of p')) (ClientRun.app c), [])) as E.
  { eapply coarse_work; [by rewrite Ew, W|]. rewrite set_same_client. apply Co; [done|by rewrite Ec]. }
  eapply follows_step; [exact R|exact E|exact K|exact A|done|]. apply Pr. exact P.
Qed.

Lemma launched_follows cbs h s o e got s' o' :
  worker s = Some Launched -> living s -> follows cbs h s o -> work e got Launched s = Done (tt, s', o') ->
  follows cbs (h ++ [ClientRun.Work e got]) s' (o ++ o').
Proof.
  intros W L (K & c & oc & od & R & -> & A & Ew & P). unfold work. rewrite gets_eq. unfold id.
  intros (c1 & E & ->)%section_then. unfold progress in P. rewrite W in P. destruct P as [Ec ->]. rewrite app_nil_r.
  eapply follows_step; [exact R|eapply coarse_work; [by rewrite Ew, W|]; apply coarse_section; by rewrite <- Ec| |exact A|done|done].
  eapply (checked_section (worker_begin e)); [|exact L|exact E|done..]. intros w _. apply keeps_begin.
Qed.

(** The next step of the section it is in. *)
Lemma inside_follows cbs h s o e got sec m rest s' o' :
  worker s = Some (Inside sec (m :: rest)) -> living s -> follows cbs h s o ->
  work e got (Inside sec (m :: rest)) s = Done (tt, s', o') -> follows cbs (h ++ []) s' (o ++ o').
Proof.
  intros W L (K & c & oc & od & R & -> & A & Ew & P). unfold work. rewrite gets_eq. unfold id.
  intros (c1 & E & ->)%section_then. unfold progress in P. rewrite W in P. destruct P as (pre & Ep & Em). rewrite app_nil_r.
  pose proof L as (_ & _ & F). rewrite W in F. apply Forall_cons in F as [F _].
  split; [by eapply (checked_section m); [exact F|exact L|exact E|..]|].
  exists c, oc, (od ++ o'). split; [exact R|]. split; [by rewrite app_assoc|]. split; [exact A|].
  split; [by rewrite Ew, W; destruct sec|]. cbn. exists (pre ++ [m]). rewrite <- app_assoc. split; [done|].
  rewrite mapM_app_eq. eapply bind_eq; [exact Em|]. rewrite <- (app_nil_r o'). by eapply bind_eq.
Qed.

(** The end of a section: all its steps are the section of [ClientRun]. *)
Lemma leave_follows cbs h s o e got sec s' o' :
  worker s = Some (Inside sec []) -> follows cbs h s o -> work e got (Inside sec []) s = Done (tt, s', o') ->
  follows cbs (h ++ stands_for s (Work e got)) s' (o ++ o').
Proof.
  intros W (K & c & oc & od & R & -> & A & Ew & P). unfold work. rewrite gets_eq. unfold id, leave, goto. rewrite modify_eq.
  intros [= <- <-]. unfold progress in P. rewrite W in P. destruct P as (pre & Ep & Em). rewrite app_nil_r in Ep. subst pre.
  rewrite app_nil_r. cbn [stands_for]. rewrite W in Ew |- *. destruct sec as [e0 main ready fds|e0].
  - rewrite steps_receiving in Em.
    eapply follows_step; [exact R|eapply coarse_work; [exact Ew|]; by apply coarse_section|exact K|exact A|done|done].
  - rewrite steps_timing in Em.
    eapply follows_step; [exact R|eapply coarse_work; [exact Ew|]; by apply coarse_section|exact K|exact A|done|done].
Qed.

Lemma enter_follows cbs h s o sec p s' o' :
  worker s = Some p -> place_of p = place_of (Inside sec (steps_of sec)) ->
  (forall c od, progress s c od -> client s = c /\ od = []) ->
  follows cbs h s o -> enter sec s = Done (tt, s', o') -> follows cbs (h ++ []) s' (o ++ o').
Proof.
  intros W Ep N F. unfold enter. rewrite gets_eq. unfold id.
  destruct (owner s) as [w|]; intros [= <- <-]; eapply follows_on; try done; try apply F.
  - by rewrite W; cbn; rewrite Ep.
  - cbn. intros c od P. destruct (N c od P) as [-> ->]. by exists [].
Qed.

Lemma walk_follows cbs h s o e got e0 peer todo fds s' o' :
  worker s = Some (Walking e0 (peer :: todo) fds) -> follows cbs h s o ->
  work e got (Walking e0 (peer :: todo) fds) s = Done (tt, s', o') -> follows cbs (h ++ []) s' (o ++ o').
Proof.
  intros W F. unfold work. rewrite gets_eq. unfold id. destruct (conns_ (client s) !! peer) as [x|] eqn:E; [|done].
  intros [= <- <-]. eapply follows_on; [exact F|done|by rewrite W|apply F|].
  intros c od. unfold progress. rewrite W. cbn. intros (Ec & -> & G). split; [done|]. split; [done|].
  rewrite <- G, <- app_assoc. do 2 f_equal. unfold sockets. by rewrite <- Ec, E.
Qed.

Lemma work_follows cbs h s o e got p s' o' :
  worker s = Some p -> living s -> follows cbs h s o -> work e got p s = Done (tt, s', o') ->
  follows cbs (h ++ stands_for s (Work e got)) s' (o ++ o').
Proof.
  intros W L F E.
  assert ((forall sec rest, p <> Inside sec rest) -> forall c od, progress s c od -> client s = c /\ od = []) as N.
  { intros Np c od. unfold progress. rewrite W. destruct p; try done; [by intros (? & ? & _)|by destruct (Np sec rest)]. }
  destruct p as [| | |e0 [|peer todo] fds|fds| |sec [|m rest]|]; cbn [stands_for]; rewrite W.
  - by eapply launched_follows.
  - revert E. unfold work. rewrite gets_eq. intros [= <- <-].
    apply (goto_follows _ _ _ _ _ _ Checking); [done|done|by apply N| |unfold progress; rewrite W; by destruct (running_ _)].
    intros c Ec _. cbn [place_of ClientRun.work]. rewrite gets_eq, Ec. unfold id. by destruct (running_ _).
  - revert E. unfold work. rewrite gets_eq. intros [= <- <-]. eapply follows_on; [exact F|done|by rewrite W|apply F|].
    intros c od P. destruct (N ltac:(done) _ _ P) as [Ec ->]. cbn. by rewrite Ec.
  - revert E. unfold work. rewrite gets_eq. intros [= <- <-].
    apply (goto_follows _ _ _ _ _ _ (Walking e0 [] fds)); [done|done|by apply N| |].
    + intros c Ec. unfold progress. rewrite W. intros (_ & _ & G). cbn [place_of ClientRun.work]. rewrite gets_eq.
      unfold mret, M_ret. by rewrite Ec, <- G, app_nil_r.
    + intros c. unfold progress. rewrite W. cbn. by intros (? & ? & _).
  - by eapply walk_follows.
  - revert E. unfold work. rewrite gets_eq. destruct got as [[main ready]|]; cbn [stands_for].
    + by eapply (enter_follows _ _ _ _ _ (Selecting fds)); [| |apply N|].
    + intros [= <- <-]. apply (goto_follows _ _ _ _ _ _ (Selecting fds)); [done|done|by apply N|done|].
      intros c. unfold progress. by rewrite W.
  - revert E. unfold work. rewrite gets_eq. by eapply (enter_follows _ _ _ _ _ Ticking); [| |apply N|].
  - assert (follows cbs (h ++ stands_for s (Work e got)) s' (o ++ o')) as X by (by eapply leave_follows).
    cbn [stands_for] in X. by rewrite W in X.
  - assert (follows cbs (h ++ []) s' (o ++ o')) as X by (by eapply inside_follows). by destruct sec.
  - revert E. unfold work. rewrite gets_eq. intros [= <- <-]. by eapply follows_on; [exact F|..|apply F|].
Qed.

(** A caller that moves on without touching the client. *)
Lemma checked_caller i c s s' :
  client s' = client s -> callers s' = <[i := c]> (callers s) ->
  (forall e r, c = Past e r \/ c = Held e r -> refused (client s) r = false) -> checked s -> checked s'.
Proof.
  intros Ec Ek H K j e r. rewrite Ec, Ek. destruct (decide (j = i)) as [->|Ne].
  - intros [X|X]; apply list_lookup_insert_Some in X as [(_ & -> & _)|[? _]]; try done; eapply H; by eauto.
  - rewrite list_lookup_insert_ne by done. apply K.
Qed.

Lemma call_follows cbs h s o i e r s' o' :
  follows cbs h s o -> call i e r s = Done (tt, s', o') -> follows cbs (h ++ []) s' (o ++ o').
Proof.
  intros F E. destruct (call_same _ _ _ _ _ _ E) as (Ec & Ew & Ea & ->). apply (follows_on _ _ s); try done; [by rewrite Ew| |].
  - revert E. unfold call. rewrite gets_eq. unfold id. destruct F as [K _].
    destruct (callers s !! i) as [[| | |]|]; try by intros [= <-].
    destruct (refused _ _) eqn:R; intros [= <-]; [done|]. eapply checked_caller; [done|done| |exact K].
    by intros e' r' [[= <- <-]|?].
  - intros c od. unfold progress. rewrite Ew, Ec. done.
Qed.

Lemma proceed_follows cbs h s o i s' o' :
  guarded s -> living s -> follows cbs h s o -> proceed i s = Done (tt, s', o') -> met s' = false ->
  follows cbs (h ++ stands_for s (Proceed i)) s' (o ++ o').
Proof.
  intros G L F. pose proof F as [K _]. unfold proceed. rewrite gets_eq. unfold id. cbn [stands_for].
  destruct (callers s !! i) as [[|e r|e r|]|] eqn:C;
    try (intros [= <- <-] _; eapply follows_on; [exact F|done|done|exact K|done]).
  - destruct (owner s); intros [= <- <-] _; (eapply follows_on; [exact F|done|done| |done]); [done|].
    eapply (checked_caller i (Held e r) s); [done|done| |exact K]. intros e' r' [?|[= <- <-]]; [done|]. apply (K i e). by left.
  - intros (c1 & E & ->)%section_then Hm. destruct F as (_ & c & oc & od & R & -> & A & Ew & P).
    assert (owner s = Some (Caller i)) as O by (apply G; left; eauto).
    assert (client s = ClientRun.client c /\ od = []) as [Ec ->].
    { revert P Hm. unfold progress, met. cbn. rewrite O. destruct (worker s) as [[]|] eqn:W; try done.
      intros _ _. assert (owner s = Some TheWorker) by (apply G; cbn; eauto). congruence. }
    rewrite body_call in E by (apply (K i e); by right). rewrite app_nil_r.
    eapply (follows_step _ _ _ _ _ _ c (ClientRun.set_client c1 c)); [exact R| | |exact A|exact Ew|].
    + unfold ClientRun.step. rewrite gets_eq. unfold ClientRun.on_client. by rewrite <- Ec, E.
    + eapply (checked_caller i Served (set_client c1 s)); [done|done|by intros e' r' [?|?]|].
      apply (checked_section (body e r) s c1 o'); [apply kept_body|done| |done..].
      rewrite body_call; [exact E|]. apply (K i e). by right.
    + revert Hm. unfold progress, met. cbn. rewrite O. destruct (worker s) as [[]|] eqn:W; try done. intros _.
      assert (owner s = Some TheWorker) by (apply G; cbn; eauto). congruence.
  - intros [= <- <-] _. eapply follows_on; [exact F|done|done| |done]. apply (checked_caller i Out s); [done|done|by intros e r [[=]|[=]]|exact K].
Qed.

(** Nobody is in a section and no [connect] has looked: whatever changes, nothing seen is
    outdated. *)
Lemma checked_unbusy s s' : busy s = false -> guarded s -> callers s' = callers s -> checked s'.
Proof.
  intros [O B]%orb_false_iff G E i e r. rewrite E. apply bool_decide_eq_false in O. intros [C|C].
  - destruct r; try done. exfalso. apply list_elem_of_lookup_2, list_elem_of_In in C. apply not_true_iff_false in B. apply B.
    apply existsb_exists. by exists (Past e (RConnect peer)).
  - exfalso. apply O. exists (Caller i). apply G. left. eauto.
Qed.

Lemma unbusy_outside s c od : busy s = false -> guarded s -> progress s c od -> client s = c /\ od = [].
Proof.
  intros [O _]%orb_false_iff G. apply bool_decide_eq_false in O. unfold progress.
  destruct (worker s) as [[]|] eqn:W; try done; [by intros (? & ? & _)|].
  exfalso. apply O. exists TheWorker. apply G. cbn. eauto.
Qed.

Lemma start_follows cbs h s o e cfg bound s' o' :
  acts_unlocked (AppStart e cfg bound) s = true -> busy s = false -> guarded s -> living s -> follows cbs h s o ->
  (ok ← on_client (start e cfg bound); if (ok : bool) then modify (set_worker (Some Launched)) else skip) s = Done (tt, s', o') ->
  follows cbs (h ++ [ClientRun.AppStart e cfg bound]) s' (o ++ o').
Proof.
  intros U B G L (K & c & oc & od & R & -> & A & Ew & P) E.
  destruct (start_living _ _ _ _ _ _ U E L) as (_ & _ & Ek & W & _).
  destruct (unbusy_outside _ _ _ B G P) as [Ec ->]. rewrite app_nil_r. revert U E. cbn [acts_unlocked].
  destruct (app s) eqn:Ea; [|done]. intros _ (ok & s1 & o1 & o2 & (c1 & E1 & ->)%section_done & E2 & ->)%bind_done.
  assert (o2 = []) as -> by (by destruct ok; injection E2 as _ <-). rewrite app_nil_r.
  assert (ClientRun.step (ClientRun.AppStart e cfg bound) c =
    Done (tt, ClientRun.mk c1 (if ok then Some ClientRun.Launched else None) Outside, o1)) as E.
  { clear R P. destruct c as [cc cw ca]. cbn in A, Ew, Ec. rewrite W in Ew. subst. unfold ClientRun.step.
    rewrite gets_eq. cbn. rewrite <- (app_nil_r o1). eapply bind_eq; [unfold ClientRun.on_client; cbn; by rewrite E1|].
    by destruct ok. }
  eapply follows_step; [exact R|exact E|by eapply checked_unbusy|..]; destruct ok; injection E2 as <-;
    try done; unfold progress; cbn; by rewrite W.
Qed.

Lemma stop_follows cbs h s o s' o' :
  acts_unlocked AppStop s = true -> busy s = false -> guarded s -> living s -> follows cbs h s o ->
  (on_client halt;; modify (set_app Joining)) s = Done (tt, s', o') ->
  follows cbs (h ++ [ClientRun.AppStop]) s' (o ++ o').
Proof.
  intros U B G L (K & c & oc & od & R & -> & A & Ew & P) (c1 & E & ->)%section_then.
  destruct (unbusy_outside _ _ _ B G P) as [Ec ->]. rewrite app_nil_r. revert U. cbn [acts_unlocked].
  destruct (app s) eqn:Ea; [|done]. intros Ru.
  assert (ClientRun.step ClientRun.AppStop c = Done (tt, ClientRun.mk c1 (ClientRun.worker c) Joining, o')) as E1.
  { unfold ClientRun.step. rewrite gets_eq. unfold id. rewrite A, <- Ec, Ru. rewrite <- (app_nil_r o').
    eapply bind_eq; [unfold ClientRun.on_client; by rewrite <- Ec, E|done]. }
  eapply follows_step; [exact R|exact E1|by eapply (checked_unbusy s)|done|exact Ew|].
  revert P. unfold progress. cbn. pose proof (halt_conns _ _ _ E) as Cs.
  destruct (worker s) as [[| | |e0 todo fds| | |sec rest|]|] eqn:W; try done.
  - intros (_ & _ & Ga). split; [done|]. split; [done|]. unfold gather, sockets in *. by rewrite Cs, Ec.
  - apply orb_false_iff in B as [O _]. apply bool_decide_eq_false in O. destruct O. exists TheWorker. apply G. cbn. eauto.
Qed.

Lemma join_follows cbs h s o s' o' :
  acts_unlocked Join s = true -> busy s = false -> guarded s -> living s -> follows cbs h s o ->
  (on_client clear;; modify (set_worker None);; modify (set_app Outside)) s = Done (tt, s', o') ->
  follows cbs (h ++ [ClientRun.Join]) s' (o ++ o').
Proof.
  intros U B G L (K & c & oc & od & R & -> & A & Ew & P). destruct (unbusy_outside _ _ _ B G P) as [Ec ->].
  rewrite app_nil_r. revert U. cbn [acts_unlocked]. destruct (app s) eqn:Ea; [done|].
  destruct (worker s) as [[]|] eqn:W; try done. intros _ [= <- <-].
  destruct c as [cc cw ca]. cbn in A, Ew, Ec. subst.
  eapply (follows_step _ _ _ _ _ _ _ (ClientRun.mk (set_addr_to_peer_ ∅ (set_sessions_ ∅ (set_conns_ ∅ (client s)))) None Outside));
    [exact R|done|by eapply (checked_unbusy s)|done|done|done].
Qed.

Lemma step_follows cbs h s o a s' o' :
  guarded s -> living s -> follows cbs h s o -> step a s = Done (tt, s', o') -> raced s' = false ->
  follows cbs (h ++ stands_for s a) s' (o ++ o').
Proof.
  intros G L F (s1 & E & ->)%step_done. cbn [raced set_raced]. intros [[_ Hm]%orb_false_iff Hu]%orb_false_iff.
  enough (follows cbs (h ++ stands_for s a) s1 (o ++ o')) as X by exact X.
  assert (follows cbs (h ++ []) s (o ++ [])) as Still by (by rewrite !app_nil_r).
  revert E. unfold act. rewrite gets_eq. unfold id. destruct a as [e got|i e r|i|e cfg bound| |].
  - destruct (worker s) as [p|] eqn:W; [by apply work_follows|]. intros [= <- <-]. cbn [stands_for]. by rewrite W.
  - by apply call_follows.
  - intros E. by apply proceed_follows.
  - cbn [stands_for]. destruct (acts_unlocked _ s) eqn:U; [|by intros [= <- <-]]. by apply start_follows.
  - cbn [stands_for]. destruct (acts_unlocked _ s) eqn:U; [|by intros [= <- <-]]. by apply stop_follows.
  - cbn [stands_for]. destruct (acts_unlocked _ s) eqn:U; [|by intros [= <- <-]]. by apply join_follows.
Qed.

Lemma raced_stays acts s s' o : run acts s = Done (tt, s', o) -> raced s = true -> raced s' = true.
Proof.
  revert s o. induction acts as [|a acts IH]; intros s o; [by intros [= <- _]|].
  unfold run. cbn [mapM_]. intros ([] & s1 & o1 & o2 & (s2 & _ & ->)%step_done & E & _)%bind_done R.
  apply (IH _ _ E). cbn. by rewrite R.
Qed.

Lemma run_kept acts s s' o : run acts s = Done (tt, s', o) -> guarded s -> living s -> guarded s' /\ living s'.
Proof.
  revert s o. induction acts as [|a acts IH]; intros s o; [by intros [= <- _]|].
  unfold run. cbn [mapM_]. intros ([] & s1 & o1 & o2 & E1 & E2 & _)%bind_done G L.
  destruct (step_kept _ _ _ _ E1 G L) as [G1 L1]. by eapply IH.
Qed.

Lemma run_follows cbs acts h s o s' o' :
  guarded s -> living s -> follows cbs h s o -> run acts s = Done (tt, s', o') -> raced s' = false ->
  follows cbs (h ++ trace acts s) s' (o ++ o').
Proof.
  revert h s o o'. induction acts as [|a acts IH]; intros h s o o' G L F.
  - intros [= <- <-] _. cbn [trace]. by rewrite !app_nil_r.
  - unfold run. cbn [mapM_]. intros ([] & s1 & o1 & o2 & E1 & E2 & ->)%bind_done N.
    destruct (step_kept _ _ _ _ E1 G L) as [G1 L1]. cbn [trace]. rewrite E1, !app_assoc.
    apply (IH _ s1); [done|done| |done|done]. eapply step_follows; [done|done|done|done|].
    destruct (raced s1) eqn:R; [|done]. by rewrite (raced_stays _ _ _ _ E2 R) in N.
Qed.

Lemma created_kept cbs n : guarded (created cbs n) /\ living (created cbs n) /\ checked (created cbs n).
Proof.
  assert (forall i c, replicate n Out !! i = Some c -> c = Out) as Rep by (by intros i c [-> _]%lookup_replicate).
  split; [|split].
  - intros [|i]; cbn; [by split; [intros (? & ? & ?)|]|]. split; [|done].
    intros [(e & r & X)|X]; by apply Rep in X.
  - split; [apply inv_initial|]. split; [|done]. by split; [intros [? ?]|].
  - intros i e r [X|X]; by apply Rep in X.
Qed.

(** C13: the mutex makes the sections of the client atomic.  In every schedule of the steps of
    the worker and of any number of calling threads - the sections of the worker taken apart,
    the calls waiting for the mutex - at most one thread is between taking the mutex and
    giving it back.  And as long as no access without the mutex meets another thread's section
    ([raced]: [start] and both halves of [stop] while a thread has the mutex or a [connect] has
    looked at the client and not yet locked, the worker's walk over the connections while a
    caller has the mutex), the threads do what a run of whole sections and calls does, each
    finished one once, in the order in which they are finished, with the same datagrams and
    callbacks in the same order: hence what some sequence of calls does.  Outside its sections
    the worker has left the client in the state of that run; inside one, in that state after
    the steps of the section it has done. *)
Theorem client_sections_atomic (cbs : callbacks) (n : nat) (acts : list action) (s : t) (o : list event)
    (Hrun : run acts (created cbs n) = Done (tt, s, o)) :
  (forall a b, inside s a -> inside s b -> a = b) /\
  (raced s = false ->
   exists c oc od, ClientRun.run (trace acts (created cbs n)) (ClientRun.created cbs) = Done (tt, c, oc) /\
     o = oc ++ od /\ ClientRun.app c = app s /\ ClientRun.worker c = option_map place_of (worker s) /\
     (exists cs, mapM_ perform cs (initial cbs) = Done (tt, ClientRun.client c, oc)) /\
     match worker s with
     | Some (Inside sec rest) =>
         exists pre, steps_of sec = pre ++ rest /\
           mapM_ (fun m => m) pre (ClientRun.client c) = Done (tt, client s, od)
     | _ => client s = ClientRun.client c /\ od = []
     end).
Proof.
  destruct (created_kept cbs n) as (G & L & K). destruct (run_kept _ _ _ _ Hrun G L) as [G' _]. split.
  - intros a b Ia Ib. apply G' in Ia, Ib. congruence.
  - intros N. assert (follows cbs [] (created cbs n) []) as F.
    { split; [exact K|]. by exists (ClientRun.created cbs), [], []. }
    destruct (run_follows _ _ _ _ _ _ _ G L F Hrun N) as (_ & c & oc & od & R & Eo & A & W & P).
    exists c, oc, od. split; [exact R|]. split; [exact Eo|]. split; [exact A|]. split; [exact W|].
    split; [by destruct (ClientRun.run_orderly _ _ _ _ R)|].
    revert P. unfold progress. by destruct (worker s) as [[]|]; try done; intros (? & ? & _).
Qed.

(** ** Schedules *)

Definition tick_at (ms : Z) : action := Work (env_at ms) None.

(** Started; the worker is half through its ticks. *)
Definition ticking : list action :=
  [AppStart (env_at 1000) (demo_config (bs "alice")) true] ++ replicate 9 (tick_at 1000).

(** A thread connects meanwhile: it waits for the end of the ticks, then it has the mutex. *)
Definition contended : list action :=
  ticking ++ [Call 0 (env_at 1001) (RConnect (bs "bob")); Proceed 0] ++ replicate 4 (tick_at 1001) ++
  replicate 3 (Proceed 0).

Lemma client_sections_atomic_witness :
  exists s o c cs, run contended (created all_callbacks 2) = Done (tt, s, o) /\ raced s = false /\
    is_Some (conns_ (client s) !! bs "bob") /\
    ClientRun.run (trace contended (created all_callbacks 2)) (ClientRun.created all_callbacks) = Done (tt, c, o) /\
    mapM_ perform cs (initial all_callbacks) = Done (tt, client s, o).
Proof.
  let r := eval vm_compute in (run contended (created all_callbacks 2)) in
  match r with Done (tt, ?s, ?o) => exists s, o end.
  match goal with |- exists c cs, ?run = Done (tt, ?s, ?o) /\ _ =>
    assert (H : run = Done (tt, s, o)) by (vm_compute; reflexivity);
    destruct (client_sections_atomic all_callbacks 2 contended s o H) as [_ F];
    destruct (F eq_refl) as (c & oc & od & R & Eo & _ & _ & (cs & C) & P)
  end.
  cbn [worker] in P. destruct P as [Ec Ed]. rewrite Ed, app_nil_r in Eo. exists c, cs.
  split; [exact H|]. split; [reflexivity|]. split; [vm_compute; eexists; reflexivity|]. rewrite Eo. split; [exact R|].
  rewrite Ec. exact C.
Defined.

(** What a schedule comes to. *)
Definition ends (acts : list action) (P : t -> bool) : bool :=
  match run acts (created all_callbacks 2) with Done (_, s, _) => P s | Fault _ => false end.

(** In the midst of the ticks the mutex keeps the caller out. *)
Example caller_waits :
  ends (ticking ++ [Call 0 (env_at 1001) (RConnect (bs "bob")); Proceed 0; Proceed 0])
    (fun s => bool_decide (owner s = Some TheWorker) && (length (elements (dom (conns_ (client s)))) =? 0)%nat) = true.
Proof. vm_compute. reflexivity. Qed.

(** The walk over [conns_] needs no mutex: a second [connect] adds to the table the worker is
    in the midst of. *)
Example walk_meets_connect :
  ends (contended ++ [tick_at 1002; tick_at 1002] ++ [Call 1 (env_at 1002) (RConnect (bs "carol")); Proceed 1; Proceed 1])
    (fun s => raced s && match worker s with Some (Walking _ _ _) => true | _ => false end &&
              (length (elements (dom (conns_ (client s)))) =? 2)%nat) = true.
Proof. vm_compute. reflexivity. Qed.

(** [stop] reads and writes the client in the midst of a section of the worker. *)
Example stop_meets_ticks :
  ends (ticking ++ [AppStop])
    (fun s => raced s && negb (running_ (client s)) && bool_decide (owner s = Some TheWorker)) = true.
Proof. vm_compute. reflexivity. Qed.

(** A [connect] that has seen the client running locks after [stop] has returned: the stopped
    client opens a connection, which the next [start] finds. *)
Example late_connect :
  ends ([AppStart (env_at 1000) (demo_config (bs "alice")) true; tick_at 1000;
         Call 0 (env_at 1001) (RConnect (bs "bob")); AppStop; tick_at 1002; tick_at 1002; Join] ++ replicate 3 (Proceed 0))
    (fun s => negb (running_ (client s)) && bool_decide (worker s = None) &&
              bool_decide (is_Some (conns_ (client s) !! bs "bob"))) = true.
Proof. vm_compute. reflexivity. Qed.

End ClientLock.
