(* ===== verification/ClientFaults.v ===== *)
(** * Where the client gets stuck

    Two ways a client stops working that no later message repairs: a login whose answer
    is lost, and a connection that ends. *)

From S2P Require Import Prelude.
From S2P Require Import Bytes.
From S2P Require Import Wire.
From S2P Require Import ProtoDef.
From S2P Require Import NetUtil.
From S2P Require Import Packet.
From S2P Require Import Handler.
From S2P Require Import TunnelCodec.
From S2P Require Import Session.
From S2P Require Import ClientState.
From S2P Require Import ClientTunnel.
From S2P Require Import P2PClient.
From S2P Require Import ClientCrypto.
From S2P Require Import ClientInvariant.

#[local] Open Scope Z_scope.

Module ClientFaults.
Import ClientState ClientTunnel P2PClient ClientCrypto ClientInvariant.

(** ** A lost answer *)

Lemma waiting_tick e s : auth_inflight_ s = true -> tick_auth e s = Done (tt, s, []).
Proof.
  intros H. unfold tick_auth. rewrite gets_eq. unfold id. rewrite H. cbn [negb]. by rewrite !andb_false_r.
Qed.

Lemma waiting_heartbeat e p s :
  auth_inflight_ s = true -> secret_ s <> [] -> octet p 0 = 1 -> on_heartbeat_rsp e p s = Done (tt, s, []).
Proof.
  intros H Hs Hp. unfold on_heartbeat_rsp. destruct (_ <? _)%nat; [done|]. rewrite gets_eq. unfold id.
  rewrite Hp, H. cbn [Z.eqb Pos.eqb]. destruct (secret_ s); [done|]. done.
Qed.

(** A client whose login request or its answer is lost never logs in.  From any
    reachable state in which a login has been asked for, whatever happens next short of
    a restart and of the answers themselves - calls of the application, other messages,
    any number of turns of the loop at any time - the client is still waiting and not
    logged in, its heartbeats stay in the clear, no turn asks again, and the server's
    demand for a login is ignored. *)
Theorem login_stuck (cbs : callbacks) (cs later : list call) (s s' : t) (o o' : list event)
    (Hrun : mapM_ perform cs (initial cbs) = Done (tt, s, o))
    (Hwait : auth_inflight_ s = true /\ authed_ s = false)
    (Hlost : Forall unanswered later) (Hlater : mapM_ perform later s = Done (tt, s', o')) :
  auth_inflight_ s' = true /\ authed_ s' = false /\ heartbeat_enc_ s' = false /\
  (forall e, tick_auth e s' = Done (tt, s', [])) /\
  (forall e p, secret_ s' <> [] -> octet p 0 = 1 -> on_heartbeat_rsp e p s' = Done (tt, s', [])).
Proof.
  destruct (inv_reachable _ _ _ _ Hrun) as ((F & C & SS & En & R & _) & _).
  assert (inv LoginLost s) as I by exact (conj F (conj C (conj SS (conj En (conj R Hwait))))).
  destruct (keeps_run LoginLost later s s' o') as ((_ & _ & _ & En' & _ & St) & _); [done..|].
  destruct St as [Hi Ha]. split_and!; [done|done| |..].
  - apply not_true_is_false. intros H. rewrite (En' H) in Ha. done.
  - intros e. by apply waiting_tick.
  - intros e p. by apply waiting_heartbeat.
Qed.

(** A challenge goes out; for an hour nothing but a demand for a login comes back. *)
Definition asked : list call := [Start (env_at 1000) (demo_config (bs "alice")) true; Begin (env_at 1000)].

Definition silence : list call :=
  [Tick (env_at 2000); Packet (env_at 2100) (frame (msg_id MSG_HEARTBEAT_RSP) [1; 0]) 10 addr_zero;
   Tick (env_at 3602000)].

Lemma silence_unanswered : Forall unanswered silence.
Proof.
  constructor; [exact I|]. constructor; [|by repeat constructor].
  intros (h & Hh & A). vm_compute in Hh. injection Hh as <-. by destruct A.
Qed.

Lemma login_stuck_witness :
  exists s o s' o', mapM_ perform asked (initial all_callbacks) = Done (tt, s, o) /\
    mapM_ perform silence s = Done (tt, s', o') /\ auth_inflight_ s' = true /\ authed_ s' = false.
Proof.
  let r := eval vm_compute in (mapM_ perform asked (initial all_callbacks)) in
  match r with Done (tt, ?s, ?o) =>
    let r' := eval vm_compute in (mapM_ perform silence s) in
    match r' with Done (tt, ?s', ?o') =>
      exists s, o, s', o';
      assert (H1 : mapM_ perform asked (initial all_callbacks) = Done (tt, s, o)) by (vm_compute; reflexivity);
      assert (H2 : mapM_ perform silence s = Done (tt, s', o')) by (vm_compute; reflexivity);
      destruct (login_stuck all_callbacks asked silence s s' o o' H1 (conj eq_refl eq_refl) silence_unanswered H2)
        as (Hi & Ha & _)
    end end.
  split; [exact H1|]. split; [exact H2|]. split; [exact Hi|exact Ha].
Defined.

(** ** The end of a connection *)

(** Without the callback, what is left. *)
Definition without (peer : bytes) (s : t) : t :=
  set_conns_ (delete peer (conns_ s)) (set_sessions_ (delete peer (sessions_ s))
    (set_addr_to_peer_ (filter (fun kv => kv.2 <> peer) (addr_to_peer_ s)) s)).

Lemma close_conn_eq peer c s :
  conns_ s !! peer = Some c -> peer_uuid c = peer ->
  close_conn peer s =
    if on_disconnected (cbs_ s) then Fault UseAfterFree
    else Done (tt, without peer s, if juice (punch c) then [JuiceDestroy peer] else []).
Proof.
  intros E U. unfold close_conn. rewrite (get_conn_eq _ _ _ _ E). cbv zeta. rewrite U, modify_eq.
  set (s1 := set_addr_to_peer_ _ s).
  match goal with |- ((if _ then _ else _) ≫= ?k) s1 = _ => set (kk := k) end.
  assert (kk tt s1 = if on_disconnected (cbs_ s) then Fault UseAfterFree else Done (tt, without peer s, [])) as K.
  { unfold kk. rewrite put_conn_eq, !modify_eq, gets_eq. cbn [cbs_ set_conns_ set_sessions_ set_addr_to_peer_ s1].
    destruct (on_disconnected (cbs_ s)).
    - unfold get_conn. unfold mbind, M_bind, gets.
      cbn [conns_ set_conns_ set_sessions_]. by rewrite lookup_delete_eq.
    - unfold skip, mret, M_ret, without. cbn [conns_ set_conns_ set_sessions_]. by rewrite delete_insert_eq. }
  destruct (juice (punch c)); [|by rewrite skip_eq].
  unfold mbind at 1, M_bind at 1. unfold emit at 1. rewrite K. by destruct (on_disconnected (cbs_ s)).
Qed.

(** ** A request without answer *)

(** What [connect] leaves when there was no connection: [c] waits for an answer. *)
Definition waiting (e : env) (peer : bytes) (cfg : Config) (c : Conn) : Prop :=
  peer_uuid c = peer /\ connecting c = true /\ connected c = false /\ have_direct (punch c) = false /\
  relay_ok (relay c) = false /\ punch_deadline (punch c) = u64 (now e + connect_timeout_ms cfg).

Definition with_agent (j : bool) (l : bytes) (c : Conn) : Conn := set_punch (set_local_sdp l (set_juice j (punch c))) c.

Lemma ensure_ice_done e peer c s :
  conns_ s !! peer = Some c ->
  exists j l o, ensure_ice_agent e peer s = Done (tt, set_conns_ (<[peer := with_agent j l c]> (conns_ s)) s, o).
Proof.
  intros E.
  assert (set_conns_ (<[peer := with_agent (juice (punch c)) (local_sdp (punch c)) c]> (conns_ s)) s = s) as Same.
  { replace (with_agent _ _ c) with c by (by destruct c as [? []]). rewrite insert_id by done. by destruct s. }
  unfold ensure_ice_agent. rewrite (get_conn_eq _ _ _ _ E), gets_eq. destruct (_ || _).
  { exists (juice (punch c)), (local_sdp (punch c)), []. by rewrite Same. }
  destruct (juice_create e).
  - destruct (juice_local e) as [sdp|].
    + exists true, (c_str sdp). eexists. reflexivity.
    + exists true, (local_sdp (punch c)). eexists. reflexivity.
  - exists (juice (punch c)), (local_sdp (punch c)). eexists. rewrite Same. reflexivity.
Qed.

Lemma connect_waits e peer s :
  running_ s = true -> peer <> [] -> peer <> uuid (cfg_ s) -> conns_ s = ∅ ->
  exists s1 o c, connect e peer s =
      Done (tt, s1, o ++ [SendTo (nat_sock_ s) (frame (msg_id MSG_CONNECT_REQ) (connect_req (uuid (cfg_ s)) peer))]) /\ cfg_ s1 = cfg_ s /\ cbs_ s1 = cbs_ s /\
    conns_ s1 = {[peer := c]} /\ waiting e peer (cfg_ s) c.
Proof.
  intros Hr Hp Hu Hc. unfold connect. rewrite gets_eq. unfold id. rewrite Hr, bool_decide_false by done.
  assert ((length peer =? 0)%nat = false) as -> by (by destruct peer). cbn [negb orb].
  unfold conn_at. rewrite bind_assoc, gets_eq, Hc, lookup_empty, bind_assoc, modify_eq, ret_eq, put_conn_eq.
  cbn [connecting connected set_peer_uuid new_conn orb].
  set (s0 := set_conns_ _ _). set (c0 := set_peer_uuid peer new_conn).
  assert (conns_ s0 = {[peer := c0]}) as E0.
  { unfold s0. cbn [conns_ set_conns_]. rewrite Hc. by rewrite insert_insert_eq, insert_empty. }
  rewrite (update_conn_eq _ _ c0) by (by rewrite E0, lookup_singleton_eq). rewrite E0.
  set (c1 := begin_connect e (cfg_ s) c0). set (s1 := set_conns_ _ _).
  assert (conns_ s1 = {[peer := c1]}) as E1 by (unfold s1; cbn [conns_ set_conns_]; by rewrite insert_singleton_eq).
  destruct (ensure_ice_done e peer c1 s1) as (j & l & o & Ei); [by rewrite E1, lookup_singleton_eq|].
  rewrite E1, insert_singleton_eq in Ei. set (s2 := set_conns_ _ s1) in Ei.
  exists s2, o, (with_agent j l c1). split; [|done]. apply (bind_eq _ _ _ _ _ _ _ _ _ Ei).
  refine (send_proto_eq _ _ s2 _).
  change (length (uuid_field (uuid (cfg_ s)) ++ uuid_field peer) + 8 <= MAX_PKT)%nat.
  rewrite length_app, !length_uuid_field. unfold MAX_PKT. lia.
Qed.

Lemma bind_fault {A B} (m : M A) (k : A -> M B) s f : m s = Fault f -> (m ≫= k) s = Fault f.
Proof. unfold mbind, M_bind. by intros ->. Qed.

Lemma bind_then_fault {A B} (m : M A) (k : A -> M B) s a s1 o f :
  m s = Done (a, s1, o) -> k a s1 = Fault f -> (m ≫= k) s = Fault f.
Proof. unfold mbind, M_bind. by intros -> ->. Qed.

Lemma error_eq text s : exists o, error text s = Done (tt, s, o).
Proof. unfold error. rewrite gets_eq. destruct (on_error (cbs_ s)); by eexists. Qed.

(** A connection closed in the middle of its turn. *)
Lemma closed_turn e peer c text s :
  conns_ s !! peer = Some c -> peer_uuid c = peer ->
  ((error text;; close_conn peer) ≫= fun _ => tick_conn_relay e peer ≫= fun _ => tick_conn_fsm peer) s = Fault UseAfterFree.
Proof.
  intros E U. pose proof (close_conn_eq peer c s E U) as C. destruct (error_eq text s) as [o Et].
  destruct (on_disconnected (cbs_ s)).
  - apply bind_fault. by apply (bind_then_fault _ _ _ _ _ _ _ Et).
  - apply (bind_then_fault _ _ _ tt (without peer s) (o ++ if juice (punch c) then [JuiceDestroy peer] else [])).
    { by apply (bind_eq _ _ _ _ _ _ _ _ _ Et). }
    apply bind_fault. unfold tick_conn_relay. rewrite gets_eq. cbv zeta. apply bind_fault.
    unfold get_conn. rewrite gets_eq. cbn [conns_ without set_conns_]. by rewrite lookup_delete_eq.
Qed.

Lemma u64_small x : u64_ok x -> u64 x = x.
Proof. rewrite u64_mod. apply Z.mod_small. Qed.

(** While it waits, and when the wait is over. *)
Lemma waiting_turn e e2 peer c s :
  conns_ s = {[peer := c]} -> waiting e peer (cfg_ s) c -> force_relay (cfg_ s) = false ->
  table_order e2 {[peer]} = [peer] ->
  tick_connections e2 s =
    if u64 (punch_deadline (punch c) + connect_timeout_ms (cfg_ s)) <=? now e2 then Fault UseAfterFree
    else Done (tt, s, []).
Proof.
  intros Ec (U & Hg & Hd & Hh & Hro & _) Hf Ho.
  assert (conns_ s !! peer = Some c) as E by (by rewrite Ec, lookup_singleton_eq).
  unfold tick_connections, for_conns. rewrite gets_eq, Ec, dom_singleton_L, Ho. cbn [mapM_].
  rewrite !bind_assoc, (get_conn_eq _ _ _ _ E), Hg, Hd. cbn [negb orb].
  unfold tick_conn_punch. rewrite !bind_assoc, gets_eq, !bind_assoc, (get_conn_eq _ _ _ _ E). cbv zeta.
  rewrite Hh, Hf. cbn [andb negb]. rewrite !bind_assoc, skip_eq, !bind_assoc, (get_conn_eq _ _ _ _ E). cbv zeta.
  rewrite Hh. cbn [andb negb]. destruct (_ <=? now e2).
  - rewrite <- bind_assoc. apply bind_fault. by apply (closed_turn _ _ c).
  - rewrite skip_eq. unfold tick_conn_relay. rewrite !bind_assoc, gets_eq. cbv zeta. unfold id.
    rewrite !bind_assoc, (get_conn_eq _ _ _ _ E), Hf. unfold punch_over. rewrite Hh. cbn [andb orb].
    rewrite skip_eq. unfold tick_conn_fsm. rewrite !bind_assoc, (get_conn_eq _ _ _ _ E), Hro. done.
Qed.

(** C30: what the end of a connection does.  Closing a connection removes it, its
    session and its routes and destroys its agent; but the callback for the end is given
    a reference into the connection just erased.  And when the server never answers a
    request, every turn of the loop leaves the client as it is until twice the time for
    a connection has passed, and the next turn closes the connection and goes on using
    it, with or without the callback. *)
Theorem unanswered_connect (e : env) (peer : bytes) (s : t)
    (Hrun : running_ s = true) (Hpeer : peer <> [] /\ peer <> uuid (cfg_ s)) (Hnone : conns_ s = ∅)
    (Hdirect : force_relay (cfg_ s) = false) (Htime : 0 <= connect_timeout_ms (cfg_ s) /\ 0 <= now e)
    (Hclock : now e + 2 * connect_timeout_ms (cfg_ s) < 2 ^ 64) :
  exists s1 o c, connect e peer s = Done (tt, s1, o) /\ conns_ s1 = {[peer := c]} /\
    close_conn peer s1 = (if on_disconnected (cbs_ s) then Fault UseAfterFree
                          else Done (tt, without peer s1, if juice (punch c) then [JuiceDestroy peer] else [])) /\
    (forall e2 s2, conns_ s2 = conns_ s1 -> cfg_ s2 = cfg_ s1 -> table_order e2 {[peer]} = [peer] ->
       tick_connections e2 s2 =
         if now e + 2 * connect_timeout_ms (cfg_ s) <=? now e2 then Fault UseAfterFree else Done (tt, s2, [])).
Proof.
  destruct Hpeer as [Hp Hu]. destruct (connect_waits e peer s Hrun Hp Hu Hnone) as (s1 & o & c & E & Ecfg & Ecb & Ec & W).
  exists s1. eexists. exists c. split; [exact E|]. split; [done|]. split.
  - rewrite <- Ecb. apply close_conn_eq; [by rewrite Ec, lookup_singleton_eq|apply W].
  - intros e2 s2 Ec2 Ecfg2 Ho. rewrite (waiting_turn e e2 peer c s2); [|by rewrite Ec2| | |done].
    + rewrite Ecfg2, Ecfg. destruct W as (_ & _ & _ & _ & _ & ->). 
      change (2 ^ 64) with 18446744073709551616 in Hclock. rewrite (u64_small (now e + _)) by (unfold u64_ok; lia).
      rewrite u64_small by (unfold u64_ok; lia). by replace (_ + _ + _) with (now e + 2 * connect_timeout_ms (cfg_ s)) by lia.
    + by rewrite Ecfg2, Ecfg.
    + by rewrite Ecfg2, Ecfg.
Qed.

(** A client just started asks for a peer; nobody answers. *)
Lemma unanswered_connect_witness :
  exists s o s1 o1 c, mapM_ perform asked (initial all_callbacks) = Done (tt, s, o) /\
    connect (env_at 2000) (bs "bob") s = Done (tt, s1, o1) /\ conns_ s1 = {[bs "bob" := c]} /\
    tick_connections (env_at 13999) s1 = Done (tt, s1, []) /\ tick_connections (env_at 14000) s1 = Fault UseAfterFree.
Proof.
  let r := eval vm_compute in (mapM_ perform asked (initial all_callbacks)) in
  match r with Done (tt, ?s, ?o) =>
    exists s, o;
    assert (H : mapM_ perform asked (initial all_callbacks) = Done (tt, s, o)) by (vm_compute; reflexivity);
    destruct (unanswered_connect (env_at 2000) (bs "bob") s) as (s1 & o1 & c & E & Ec & _ & Ht)
  end; [reflexivity|split; discriminate|reflexivity|reflexivity|split; discriminate|reflexivity|].
  exists s1, o1, c. split; [exact H|]. split; [exact E|]. split; [exact Ec|].
  split; (rewrite Ht; [reflexivity|reflexivity|reflexivity|vm_compute; reflexivity]).
Defined.

End ClientFaults.
