(* ===== verification/ClientRelay.v ===== *)
(** * Messages through the relay

    A message handed to one client, through its session, its encryption, the relay
    server and the other client, to the other application; and what the receiving client
    makes of a message nobody encrypted. *)

From S2P Require Import Prelude.
From S2P Require Import Bytes.
From S2P Require Import Wire.
From S2P Require Import ProtoDef.
From S2P Require Import NetUtil.
From S2P Require Import Sha256.
From S2P Require Import Hmac.
From S2P Require Import AesModes.
From S2P Require Import Packet.
From S2P Require Import Handler.
From S2P Require Import P2PProxy.
From S2P Require Import TunnelCodec.
From S2P Require Import Session.
From S2P Require Import ClientState.
From S2P Require Import ClientTunnel.
From S2P Require Import P2PClient.
From S2P Require Import ClientCrypto.
From S2P Require Import ClientInvariant.

#[local] Open Scope Z_scope.

Module ClientRelay.
Import ClientState ClientTunnel P2PClient ClientCrypto ClientInvariant.

(** ** Sending *)

(** An unreliable message. *)
Definition datagram_frame (sid ch : Z) (d : bytes) : WireTunnel := mkWireTunnel (tunnel_type TT_DATA) sid ch 0 0 0 d.

Lemma datagram_fields sid ch d :
  u16_ok sid -> byte_ok ch -> (length d <= MAX_TUNNEL_PAYLOAD)%nat -> fields_ok (datagram_frame sid ch d).
Proof.
  intros Hs Hc Hl. unfold MAX_TUNNEL_PAYLOAD in Hl. unfold fields_ok, datagram_frame.
  cbn [wt_type wt_session_id wt_channel_id wt_flags wt_seq wt_ack wt_payload].
  unfold byte_ok, u16_ok, len in *. change (tunnel_type TT_DATA) with 0. split_and!; lia.
Qed.

Lemma send_datagram_eq t0 ch d x :
  Session.on_tx x = true -> (length d <= MAX_TUNNEL_PAYLOAD)%nat ->
  exists y, Session.send t0 ch d false x =
    Done (0, y, [Session.Tx (tunnel_bytes (datagram_frame (Session.session_id_ x) ch d))]).
Proof.
  intros Ht Hl. unfold Session.send. rewrite (proj2 (Nat.ltb_ge _ _)) by done. cbn [andb]. cbv zeta.
  rewrite Session.new_frame_payload by (unfold MAX_TUNNEL_PAYLOAD, len in *; lia).
  eexists. cbn [mbind outcome_bind]. unfold Session.tx. by rewrite Ht.
Qed.

(** The session of a peer, found or made. *)
Lemma session_for_eq {B} peer (k : Session.t -> M B) s :
  inv Anything s ->
  exists x n m, (session_for peer ≫= k) s = k x (set_next_session_id_ n (set_sessions_ m s)) /\ session_ok x /\
    inv Anything (set_next_session_id_ n (set_sessions_ m s)).
Proof.
  intros I.
  assert (exists x n m, session_for peer s = Done (x, set_next_session_id_ n (set_sessions_ m s), [])) as (x & n & m & E).
  { unfold session_for. rewrite gets_eq. destruct (sessions_ s !! peer) as [x|].
    - exists x, (next_session_id_ s), (sessions_ s). by destruct s.
    - rewrite gets_eq. cbv zeta. rewrite modify_eq. by eexists _, _, _. }
  exists x, n, m. rewrite (step_eq _ _ _ _ _ E). destruct (gives_session_for Anything peer s _ _ _ I E) as (I' & X & _). done.
Qed.

(** Through the relay, because nothing direct has been proven and the relay is up. *)
Definition on_relay_path (e : env) (s : t) (c : Conn) (to : sockaddr_in) : Prop :=
  direct_ok (punch c) = false /\ relay_registered_ s = true /\
  (relay_ok (relay c) = true \/ force_relay (cfg_ s) = true \/ punch_deadline (punch c) <= now e) /\
  exists px rest, proxies_ s = px :: rest /\ sockaddr_from (sv_ip px) (sv_port px) = (to, true).

Lemma relay_packet_eq src dst tx :
  (length tx <= 1974)%nat ->
  relay_packet src dst tx = frame (msg_id MSG_PROXY_RELAY_DATA) (P2PProxy.relay_payload src dst tx).
Proof.
  intros L. unfold relay_packet. rewrite P2PProxy.relay_payload_eq.
  assert (66 + len tx = len (uuid_field src ++ uuid_field dst ++ tx)) as E.
  { unfold len. rewrite !length_app, !length_uuid_field. lia. }
  rewrite E. rewrite <- E at 1. rewrite u32_small by (unfold u32_ok, len; lia). rewrite E.
  apply head_is_frame; [apply msg_id_range|]. rewrite <- E. unfold len. lia.
Qed.

Lemma send_tunnel_relayed e peer c to w s :
  inv Anything s -> running_ s = true -> secret_ s <> [] -> peer <> [] -> peer <> uuid (cfg_ s) ->
  conns_ s !! peer = Some c -> peer_uuid c = peer -> on_relay_path e s c to ->
  fields_ok w -> wt_payload w <> [] -> (length (wt_payload w) <= MAX_TUNNEL_PAYLOAD)%nat ->
  exists nonce body s',
    send_tunnel_via e peer (tunnel_bytes w) s =
      Done (tt, s', [SendTo to (frame (msg_id MSG_PROXY_RELAY_DATA)
        (P2PProxy.relay_payload (uuid (cfg_ s)) peer
           (tunnel_bytes (with_payload (Z.lor (wt_flags w) TF_ENC) body w))))]) /\
    sealed (tunnel_key (secret_ s) (uuid (cfg_ s)) peer) nonce (wt_payload w) body.
Proof.
  intros I Hr Hs Hp Hu E U (Hd & Hreg & Hup & px & rest & Hpx & Hto) Fw Hne Hlen.
  pose proof I as (_ & _ & _ & _ & R & _). destruct (R Hr) as (K & _ & Te & _).
  unfold send_tunnel_via. rewrite (get_conn_eq _ _ _ _ E), gets_eq. cbv zeta. unfold id.
  assert (tunnel_enc_ s = true) as -> by (rewrite Te; by destruct (secret_ s)).
  rewrite U, Hd, Hreg, Hpx, Hto. rewrite !andb_false_r. cbn [andb orb negb length Nat.eqb].
  assert (relay_ok (relay c) || (force_relay (cfg_ s) || (punch_deadline (punch c) <=? now e)) = true) as ->.
  { destruct Hup as [->|[->|Hup]]; [done|by rewrite orb_true_r|].
    rewrite (proj2 (Z.leb_le _ _) Hup). by rewrite !orb_true_r. }
  cbn [negb andb orb].
  match goal with |- context [(encrypt_tunnel_frame e peer (tunnel_bytes w) ≫= ?kk) s] =>
    destruct (encrypt_eq e peer w kk s K Hs Hp Hu Fw Hne Hlen) as (nonce & body & s' & Ee & Hsl & _) end.
  rewrite Ee. cbn [default option_rect]. set (ct := tunnel_bytes _).
  assert (length ct = (42 + length (wt_payload w))%nat) as Lc.
  { unfold ct. rewrite length_tunnel_bytes. cbn [wt_payload with_payload]. rewrite (sealed_length _ _ _ _ Hsl). lia. }
  unfold MAX_TUNNEL_PAYLOAD in Hlen. rewrite (proj2 (Nat.ltb_ge _ _)) by (change (csize RelayFrame_codec) with 66%nat; unfold MAX_PKT; lia).
  exists nonce, body, s'. split; [|done]. cbn [emit_if]. unfold emit. rewrite relay_packet_eq by lia. done.
Qed.

Lemma inv_with_session peer y s :
  inv Anything s -> session_ok y -> inv Anything (set_sessions_ (<[peer := y]> (sessions_ s)) s).
Proof.
  intros I Y. destruct I as (F & C & (Ni & Ss) & R). split; [exact F|]. split; [exact C|]. split; [|exact R].
  split; [exact Ni|]. by apply map_Forall_insert_2.
Qed.

Lemma send_relayed e peer c to ch d s :
  inv Anything s -> running_ s = true -> secret_ s <> [] -> peer <> [] -> peer <> uuid (cfg_ s) ->
  conns_ s !! peer = Some c -> peer_uuid c = peer -> connected c = true -> on_relay_path e s c to ->
  byte_ok ch -> d <> [] -> (length d <= MAX_TUNNEL_PAYLOAD)%nat ->
  exists sid nonce body s',
    send e peer ch d false s =
      Done (0, s', [SendTo to (frame (msg_id MSG_PROXY_RELAY_DATA)
        (P2PProxy.relay_payload (uuid (cfg_ s)) peer
           (tunnel_bytes (with_payload TF_ENC body (datagram_frame sid ch d)))))]) /\
    u16_ok sid /\ sealed (tunnel_key (secret_ s) (uuid (cfg_ s)) peer) nonce d body.
Proof.
  intros I Hr Hs Hp Hu E U Hg Hpath Hch Hne Hl. unfold send. rewrite gets_eq, E, Hg. cbn [negb].
  match goal with |- context [(session_for peer ≫= ?kk) s] =>
    destruct (session_for_eq peer kk s I) as (x & n & m & -> & Xok & I1) end.
  pose proof Xok as (Xd & Xt & Xi & _).
  set (s1 := set_next_session_id_ _ _) in *.
  destruct (send_datagram_eq (now e) ch d x Xt Hl) as (y & Ey). rewrite Ey, lift_eq. cbn [fst snd].
  assert (session_ok y) as Y by (by destruct (session_ok_moves _ _ _ (send_moves _ _ _ _ _ _ _ _ Ey) Xok)).
  unfold with_session. rewrite bind_assoc, modify_eq. cbn [mapM_].
  set (s2 := set_sessions_ (<[peer := y]> (sessions_ s1)) s1).
  pose proof (inv_with_session peer y s1 I1 Y) as I2. fold s2 in I2.
  rewrite bind_assoc. unfold session_event. rewrite bind_assoc, gets_eq.
  change (conns_ s2) with (conns_ s). rewrite E.
  destruct (send_tunnel_relayed e peer c to (datagram_frame (Session.session_id_ x) ch d) s2)
    as (nonce & body & s' & Et & Hsl); try done; [by apply datagram_fields|].
  exists (Session.session_id_ x), nonce, body, s'. split; [|done].
  eapply (bind_eq _ _ _ _ _ [_]); [exact Et|]. reflexivity.
Qed.

(** ** Receiving *)

Lemma read_head_frame id p rest :
  byte_ok id -> len p < 4294967296 -> codec_read_head (frame id p ++ rest) = Some (mkWireHead NAT_MAGIC PROTO_VER id (len p)).
Proof.
  intros Hid Hp. rewrite <- head_is_frame by done. rewrite <- app_assoc.
  assert (be_dec (be_enc 4 (len p)) = len p) as D by (apply be_dec_enc_small; unfold len in *; lia).
  pose proof (bytes_ok_be_enc 4 (len p)) as B. rewrite write_head_bytes by (unfold u32_ok, len in *; lia).
  pose proof (length_be_enc 4 (len p)) as L. destruct (be_enc 4 (len p)) as [|a [|b [|c [|x []]]]]; try done.
  repeat rewrite Forall_cons in B. destruct B as (? & ? & ? & ? & _).
  unfold codec_read_head. rewrite (proj2 (Nat.ltb_ge _ _)) by (cbn [length app]; lia).
  unfold be16, octet. cbn [app nth Nat.add]. rewrite lor_quad, D by done. done.
Qed.

(** A framed message reaches its handler, whatever follows it in the buffer. *)
Lemma packet_frame e m p rest from s :
  len p < 4294967296 ->
  handle_packet e (frame (msg_id m) p ++ rest) (length (frame (msg_id m) p)) from s =
  handle_proto e (msg_id m) (p ++ rest) (length p) s.
Proof.
  intros Hp. unfold handle_packet. rewrite take_app_exact by done.
  pose proof (read_head_frame (msg_id m) p [] (msg_id_range _) Hp) as Rh. rewrite app_nil_r in Rh. rewrite Rh.
  cbn [wh_length wh_msg_id]. rewrite frame_length. rewrite (proj2 (Z.leb_le _ _)) by (unfold len; lia).
  unfold len. rewrite Nat2Z.id, drop_app_le by (rewrite frame_length; lia). done.
Qed.

Lemma c_strn_field u rest : uuid_ok u -> c_strn 32 (uuid_field u ++ rest) = u.
Proof.
  intros H. unfold c_strn. rewrite take_app_le by (rewrite length_uuid_field; lia). pose proof H as (N & _ & L1 & L2).
  rewrite uuid_field_eq by done. destruct (Nat.eq_dec (length u) 32%nat) as [E|E].
  - rewrite take_app_exact by done. by apply c_str_id.
  - rewrite take_app, take_ge, take_replicate by lia.
    replace (Nat.min _ _) with (S (31 - length u)) by lia. by apply c_str_app_nul.
Qed.

Lemma c_strn_id u : uuid_ok u -> c_strn 32 u = u.
Proof. intros (N & _ & _ & L). unfold c_strn. rewrite take_ge by lia. by apply c_str_id. Qed.

(** A frame with an unreliable message. *)
Definition carries (w : WireTunnel) (ch : Z) (d : bytes) : Prop :=
  fields_ok w /\ wt_type w = tunnel_type TT_DATA /\ Z.land (wt_flags w) TF_RELIABLE = 0 /\
  wt_channel_id w = ch /\ wt_payload w = d /\ d <> [].

Lemma on_datagram w ch d x :
  carries w ch d -> session_ok x ->
  exists y, Session.on_frame (tunnel_bytes w) x = Done (y, [Session.Data ch d]).
Proof.
  intros (Fw & Ty & Fl & Ch & Pl & Hne) (Xd & _). unfold Session.on_frame.
  pose proof (read_tunnel_bytes w [] Fw) as R. rewrite app_nil_r in R. rewrite R, Ty.
  change (tunnel_type_of (tunnel_type TT_DATA)) with (Some TT_DATA). cbv iota. unfold Session.handle_data.
  rewrite Fl, Pl, Ch. cbn [Z.eqb negb]. unfold Session.deliver. cbn [Session.on_data Session.set_receiver].
  rewrite Xd. destruct d; [done|]. by eexists.
Qed.

(** The session is given the frame [w]. *)
Lemma session_datagram e peer w ch d s :
  inv Anything s -> carries w ch d ->
  exists s', (x ← session_for peer; r ← lift (Session.on_frame (tunnel_bytes w) x); with_session e peer r.1 r.2) s =
      Done (tt, s', if on_message (cbs_ s) then [OnMessage peer ch d] else []) /\ conns_ s' = conns_ s /\ cbs_ s' = cbs_ s.
Proof.
  intros I Hw.
  match goal with |- context [(session_for peer ≫= ?kk) s] =>
    destruct (session_for_eq peer kk s I) as (x & n & m & E & X & I1) end.
  rewrite E. clear E. set (s1 := set_next_session_id_ _ _) in *. destruct (on_datagram w ch d x Hw X) as (y & Ey).
  rewrite Ey, lift_eq. cbn [fst snd]. unfold with_session. rewrite modify_eq. cbn [mapM_].
  set (s2 := set_sessions_ _ s1). unfold session_event. rewrite bind_assoc, gets_eq.
  change (cbs_ s2) with (cbs_ s). exists s2. split; [|done]. by destruct (on_message (cbs_ s)).
Qed.

(** What a client makes of the octets of a frame from [peer]. *)
Definition reads_as (peer tx : bytes) (w : WireTunnel) (s : t) : Prop :=
  forall rest m, exists r s2, let s1 := set_conns_ m s in
    (if tunnel_enc_ s1 then decrypt_tunnel_frame peer (tx ++ rest) (length tx) else mret None) s1 = Done (r, s2, []) /\
    default tx r = tunnel_bytes w /\ conns_ s2 = m /\ cbs_ s2 = cbs_ s.

Lemma frame_arrives e peer tx w ch d rest m s :
  inv Anything (set_conns_ m s) -> reads_as peer tx w s -> carries w ch d ->
  exists s', on_tunnel_frame e (tx ++ rest) (length tx) peer (set_conns_ m s) =
      Done (tt, s', if on_message (cbs_ s) then [OnMessage peer ch d] else []) /\ conns_ s' = m /\ cbs_ s' = cbs_ s.
Proof.
  intros I Hr Hw. destruct (Hr rest m) as (r & s2 & E & Ed & Ec & Eb). set (s1 := set_conns_ m s) in *.
  assert (inv Anything s2) as I2.
  { assert (gives Anything (fun _ => True) (if tunnel_enc_ s1 then decrypt_tunnel_frame peer (tx ++ rest) (length tx)
                                        else mret None)) as G
      by (destruct (tunnel_enc_ s1); [apply keeps_decrypt|apply kept_ret]).
    by destruct (G s1 r s2 [] I E). }
  unfold on_tunnel_frame. rewrite gets_eq, (step_eq _ _ _ _ _ E), take_app_exact by done. rewrite Ed.
  destruct (session_datagram e peer w ch d s2 I2 Hw) as (s' & Es & Ec' & Eb'). exists s'. rewrite Es, Eb, Ec', Eb'.
  by rewrite Ec.
Qed.

Lemma file_conn {B} peer (k : Conn -> M B) s :
  inv Anything s ->
  exists c m, (conn_at peer ≫= fun c =>
      (if (length (peer_uuid c) =? 0)%nat then put_conn peer (set_peer_uuid peer c) else skip) ≫= fun _ => k c) s =
    k c (set_conns_ m s) /\ m !! peer = Some (if (length (peer_uuid c) =? 0)%nat then set_peer_uuid peer c else c) /\
    inv Anything (set_conns_ m s).
Proof.
  intros I.
  assert (exists c m, conn_at peer s = Done (c, set_conns_ m s, []) /\ m !! peer = Some c) as (c & m & E & L).
  { unfold conn_at. rewrite gets_eq. destruct (conns_ s !! peer) as [c|] eqn:L.
    - exists c, (conns_ s). split; [by destruct s|done].
    - rewrite modify_eq. eexists new_conn, _. split; [reflexivity|]. by rewrite lookup_insert_eq. }
  destruct (gives_conn_at Anything peer s _ _ _ I E) as (I1 & Hc & _). rewrite (step_eq _ _ _ _ _ E).
  destruct (length (peer_uuid c) =? 0)%nat eqn:El.
  - rewrite put_conn_eq. exists c. eexists. split; [reflexivity|]. rewrite lookup_insert_eq, El. split; [done|].
    assert (conn_ok peer (set_peer_uuid peer c)) as Hc' by (destruct Hc as (? & ? & _); split_and!; [done|done|by left]).
    by destruct (keeps_put_conn Anything peer _ Hc' _ _ _ _ I1 eq_refl).
  - rewrite skip_eq. exists c, m. by rewrite El.
Qed.

Lemma relay_data_arrives e src dst tx w ch d rest s :
  inv Anything s -> uuid_ok src -> uuid_ok dst -> uuid (cfg_ s) = dst ->
  (14 <= length tx)%nat -> reads_as src tx w s -> carries w ch d ->
  exists s' up, on_relay_data e (P2PProxy.relay_payload src dst tx ++ rest) (66 + length tx) s =
      Done (tt, s', (if on_message (cbs_ s) then [OnMessage src ch d] else []) ++ up) /\
    (up = [] \/ up = [OnConnected src true]) /\
    exists c, conns_ s' !! src = Some c /\ relay_ok (relay c) = true.
Proof.
  intros I Us Ud Eid Ltx Hr Hw. rewrite P2PProxy.relay_payload_eq, <- !app_assoc. unfold on_relay_data.
  change (csize RelayFrame_codec) with 66%nat. rewrite (proj2 (Nat.ltb_ge _ _)) by lia. rewrite gets_eq. unfold id.
  rewrite drop_app_exact by apply length_uuid_field. unfold strn_eq.
  rewrite (c_strn_field dst), Eid, (c_strn_id dst), bool_decide_true by done. cbn [negb].
  rewrite (c_strn_field src) by done.
  assert ((length src =? 0)%nat = false) as -> by (destruct Us as (_ & _ & L & _); destruct src; [cbn in L; lia|done]).
  assert (drop 66 (uuid_field src ++ uuid_field dst ++ tx ++ rest) = tx ++ rest) as ->.
  { change 66%nat with (33 + 33)%nat. by rewrite <- drop_drop, !drop_app_exact by apply length_uuid_field. }
  replace (66 + length tx - 66)%nat with (length tx) by lia.
  match goal with |- context [(conn_at src ≫= fun c : Conn => (if _ then _ else _) ≫= fun _ : unit => ?k) s] =>
    destruct (file_conn src (fun _ : Conn => k) s I) as (c0 & m & E & Lm & I1) end.
  rewrite E. clear E. match type of Lm with _ = Some ?x => set (c := x) in * end.
  destruct (frame_arrives e src tx w ch d rest m s I1 Hr Hw) as (s2 & Ef & Ec & Eb).
  match goal with |- context [(on_tunnel_frame e _ _ src ≫= ?k) _] => set (kk := k) end.
  assert (exists s' up, kk tt s2 = Done (tt, s', up) /\ (up = [] \/ up = [OnConnected src true]) /\
    exists c, conns_ s' !! src = Some c /\ relay_ok (relay c) = true) as (s' & up & Ek & Hup & Hc).
  { unfold kk. rewrite (get_conn_eq _ c) by (by rewrite Ec). destruct (relay_ok (relay c)) eqn:Ro.
    - exists s2, []. split; [done|]. split; [by left|]. exists c. by rewrite Ec.
    - cbv zeta. rewrite put_conn_eq. destruct (_ && _).
      + rewrite put_conn_eq. eexists _, [OnConnected src true]. split; [reflexivity|]. split; [by right|].
        eexists. split; [cbn [conns_ set_conns_]; by rewrite lookup_insert_eq|done].
      + eexists _, []. split; [reflexivity|]. split; [by left|].
        eexists. split; [cbn [conns_ set_conns_]; by rewrite lookup_insert_eq|done]. }
  exists s', up. split; [|done]. by apply (bind_eq _ _ _ _ _ _ _ _ _ Ef).
Qed.

Lemma relay_packet_arrives e src dst tx w ch d rest from s :
  inv Anything s -> uuid_ok src -> uuid_ok dst -> uuid (cfg_ s) = dst ->
  (14 <= length tx <= 1974)%nat -> reads_as src tx w s -> carries w ch d ->
  let pkt := frame (msg_id MSG_PROXY_RELAY_DATA) (P2PProxy.relay_payload src dst tx) in
  exists s' up, handle_packet e (pkt ++ rest) (length pkt) from s =
      Done (tt, s', (if on_message (cbs_ s) then [OnMessage src ch d] else []) ++ up) /\
    (up = [] \/ up = [OnConnected src true]) /\
    exists c, conns_ s' !! src = Some c /\ relay_ok (relay c) = true.
Proof.
  intros I Us Ud Eid Ltx Hr Hw pkt. pose proof (P2PProxy.length_relay_payload src dst tx) as Lp.
  unfold pkt. rewrite packet_frame by (unfold len; lia). unfold handle_proto. rewrite msg_of_id, Lp.
  exact (relay_data_arrives e src dst tx w ch d rest s I Us Ud Eid (proj1 Ltx) Hr Hw).
Qed.

(** ** Encrypted and in the clear *)

Lemma reads_sealed s peer w nonce plain :
  inv Anything s -> running_ s = true -> secret_ s <> [] -> peer <> [] -> peer <> uuid (cfg_ s) -> fields_ok w ->
  Z.land (wt_flags w) TF_ENC <> 0 -> (length plain <= MAX_TUNNEL_PAYLOAD)%nat ->
  sealed (tunnel_key (secret_ s) (uuid (cfg_ s)) peer) nonce plain (wt_payload w) ->
  reads_as peer (tunnel_bytes w) (with_payload (Z.land (wt_flags w) 253) plain w) s.
Proof.
  intros I Hr Hs Hp Hu Fw Fe Hl Hsl rest m. pose proof I as (_ & _ & _ & _ & R & _). destruct (R Hr) as (K & _ & Te & _).
  assert (keys_ok (set_conns_ m s)) as K1 by exact K.
  destruct (decrypt_eq peer w rest plain nonce mret (set_conns_ m s) K1 Hs Hp Hu Fw Fe Hl Hsl)
    as (s2 & E & _ & keys & n & ->).
  rewrite bind_ret_r in E. eexists _, _. cbv zeta.
  assert (tunnel_enc_ (set_conns_ m s) = true) as ->
    by (cbn [tunnel_enc_ set_conns_]; rewrite Te; by destruct (secret_ s)).
  split; [exact E|done].
Qed.

Lemma reads_clear s peer w : Z.land (wt_flags w) TF_ENC = 0 -> reads_as peer (tunnel_bytes w) w s.
Proof.
  intros Fe rest m. exists None, (set_conns_ m s). cbv zeta.
  assert (octet (tunnel_bytes w ++ rest) 7 = wt_flags w) as F7 by done.
  split; [|done]. destruct (tunnel_enc_ _); [|done]. unfold decrypt_tunnel_frame. rewrite F7, Fe.
  by rewrite orb_true_r.
Qed.

(** C4: a message sent through the relay arrives.  Take any two clients that can be
    reached by any history, that run with the same secret and different identifiers, the
    first connected to the second and on the relay path.  Sending an unreliable message
    of 1 to 1200 octets puts one packet on the wire, to the first configured relay; a
    relay at which the second client is registered forwards it unchanged to its address;
    and the second client, receiving it from whatever address, decrypts it and hands the
    very octets to its application, under the sender's identifier and the channel, and
    knows the sender to be reachable through the relay. *)
Theorem relayed_message (cbsA cbsB : callbacks) (csA csB : list call) (sA sB : t) (oA oB : list event)
    (eA : env) (c : Conn) (to : sockaddr_in) (ch : Z) (d : bytes)
    (HA : mapM_ perform csA (initial cbsA) = Done (tt, sA, oA) /\ running_ sA = true)
    (HB : mapM_ perform csB (initial cbsB) = Done (tt, sB, oB) /\ running_ sB = true)
    (Hsec : secret (cfg_ sA) = secret (cfg_ sB) /\ secret (cfg_ sA) <> [])
    (Hid : uuid_ok (uuid (cfg_ sA)) /\ uuid_ok (uuid (cfg_ sB)) /\ uuid (cfg_ sA) <> uuid (cfg_ sB))
    (Hconn : conns_ sA !! uuid (cfg_ sB) = Some c /\ peer_uuid c = uuid (cfg_ sB) /\ connected c = true)
    (Hpath : on_relay_path eA sA c to)
    (Hmsg : byte_ok ch /\ d <> [] /\ (length d <= MAX_TUNNEL_PAYLOAD)%nat) :
  exists pkt sA', send eA (uuid (cfg_ sB)) ch d false sA = Done (0, sA', [SendTo to pkt]) /\
    length pkt = (116 + length d)%nat /\
    (forall now P from entry, P2PProxy.fds_ P <> 0%nat -> P2PProxy.uuid2addr_ P !! uuid (cfg_ sB) = Some entry ->
       exists P', P2PProxy.handle now P pkt from = (P', [mkDg MainSock (P2PProxy.ue_addr entry) pkt])) /\
    (forall eB from rest, exists sB' up,
       handle_packet eB (pkt ++ rest) (length pkt) from sB =
         Done (tt, sB', (if on_message (cbs_ sB) then [OnMessage (uuid (cfg_ sA)) ch d] else []) ++ up) /\
       (up = [] \/ up = [OnConnected (uuid (cfg_ sA)) true]) /\
       exists c', conns_ sB' !! uuid (cfg_ sA) = Some c' /\ relay_ok (relay c') = true).
Proof.
  destruct HA as [RA Ra], HB as [RB Rb]. apply inv_reachable in RA as [IA _]. apply inv_reachable in RB as [IB _].
  pose proof IA as (_ & _ & _ & _ & KA & _). destruct (KA Ra) as (_ & SA & _).
  pose proof IB as (_ & _ & _ & _ & KB & _). destruct (KB Rb) as (_ & SB & _).
  destruct Hsec as [Hse Hs], Hid as (UA & UB & Hne), Hconn as (Ec & Eu & Eg), Hmsg as (Hch & Hd & Hl).
  assert (uuid (cfg_ sA) <> []) as NA by (destruct UA as (_ & _ & L & _); intros E; rewrite E in L; cbn in L; lia).
  assert (uuid (cfg_ sB) <> []) as NB by (destruct UB as (_ & _ & L & _); intros E; rewrite E in L; cbn in L; lia).
  assert (secret_ sA <> []) as NsA by (by rewrite SA). assert (secret_ sB <> []) as NsB by (by rewrite SB, <- Hse).
  destruct (send_relayed eA (uuid (cfg_ sB)) c to ch d sA IA Ra NsA NB (not_eq_sym Hne) Ec Eu Eg Hpath Hch Hd Hl)
    as (sid & nonce & body & sA' & Es & Hsid & Hsl).
  pose proof (sealed_length _ _ _ _ Hsl) as Lb. set (w := with_payload TF_ENC body _) in *.
  pose proof (datagram_fields sid ch d Hsid Hch Hl) as Fd. unfold MAX_TUNNEL_PAYLOAD in Hl.
  assert (fields_ok w) as Fw.
  { unfold fields_ok, w, with_payload. destruct Fd as (? & ? & ? & _ & ? & ? & _).
    cbn [wt_type wt_session_id wt_channel_id wt_flags wt_seq wt_ack wt_payload] in *.
    unfold byte_ok, len in *. split_and!; try done; try lia. }
  assert (length (tunnel_bytes w) = 42 + length d)%nat as Lt by (rewrite length_tunnel_bytes; unfold w; cbn [wt_payload with_payload]; lia).
  eexists _, sA'. split; [exact Es|]. split; [rewrite frame_length, P2PProxy.length_relay_payload; lia|]. split.
  - intros now P from entry Hf He. rewrite P2PProxy.handle_relay by (done || lia). rewrite He. by eexists.
  - intros eB from rest.
    assert (sealed (tunnel_key (secret_ sB) (uuid (cfg_ sB)) (uuid (cfg_ sA))) nonce d (wt_payload w)) as HslB.
    { rewrite SB, <- Hse, <- SA, tunnel_key_sym. exact Hsl. }
    pose proof (reads_sealed sB (uuid (cfg_ sA)) w nonce d IB Rb NsB NA Hne Fw) as Hr.
    specialize (Hr ltac:(done) Hl HslB).
    apply (relay_packet_arrives eB (uuid (cfg_ sA)) (uuid (cfg_ sB)) (tunnel_bytes w) (datagram_frame sid ch d)
             ch d rest from sB IB UA UB eq_refl); [lia|exact Hr|].
    unfold carries. split_and!; done.
Qed.

(** Alice is registered with the relay and has heard from Bob through it. *)
Definition alice_run : list call :=
  let ping := tunnel_bytes (mkWireTunnel (tunnel_type TT_PING) 1 0 0 0 0 []) in
  let pkt := frame (msg_id MSG_PROXY_RELAY_DATA) (P2PProxy.relay_payload (bs "bob") (bs "alice") ping) in
  [Start (env_at 1000) (demo_config (bs "alice")) true;
   Packet (env_at 1100) (frame (msg_id MSG_PROXY_REGISTER_RSP) [0]) 9 addr_zero;
   Packet (env_at 1200) pkt 88 addr_zero].

Definition bob_run : list call := [Start (env_at 1000) (demo_config (bs "bob")) true].

Definition relay_at : sockaddr_in := (sockaddr_from (bs "10.0.0.2") 9000).1.

Lemma relayed_message_witness :
  exists sA oA sB oB pkt sA' sB' up,
    mapM_ perform alice_run (initial all_callbacks) = Done (tt, sA, oA) /\
    mapM_ perform bob_run (initial all_callbacks) = Done (tt, sB, oB) /\
    send (env_at 1300) (bs "bob") 3 [104; 105] false sA = Done (0, sA', [SendTo relay_at pkt]) /\
    handle_packet (env_at 1400) (pkt ++ [0; 0]) (length pkt) relay_at sB =
      Done (tt, sB', OnMessage (bs "alice") 3 [104; 105] :: up).
Proof.
  let ra := eval vm_compute in (mapM_ perform alice_run (initial all_callbacks)) in
  match ra with Done (tt, ?sA, ?oA) =>
    let rb := eval vm_compute in (mapM_ perform bob_run (initial all_callbacks)) in
    match rb with Done (tt, ?sB, ?oB) =>
      let c := eval vm_compute in (default new_conn (conns_ sA !! bs "bob")) in
      exists sA, oA, sB, oB;
      assert (A : mapM_ perform alice_run (initial all_callbacks) = Done (tt, sA, oA)) by (vm_compute; reflexivity);
      assert (B : mapM_ perform bob_run (initial all_callbacks) = Done (tt, sB, oB)) by (vm_compute; reflexivity);
      destruct (relayed_message all_callbacks all_callbacks alice_run bob_run sA sB oA oB (env_at 1300) c relay_at 3
                  [104; 105] (conj A eq_refl) (conj B eq_refl)) as (pkt & sA' & Es & _ & _ & Hrecv)
    end end.
  - split; [reflexivity|discriminate].
  - split; [|split; [|discriminate]]; (split; [repeat constructor; discriminate|]); (split; [|cbn; lia]);
      repeat constructor; cbn; discriminate.
  - split; [vm_compute; reflexivity|]. split; reflexivity.
  - split; [reflexivity|]. split; [reflexivity|]. split; [left; reflexivity|].
    eexists _, _. split; [reflexivity|vm_compute; reflexivity].
  - split; [unfold byte_ok; lia|]. split; [discriminate|cbn; unfold MAX_TUNNEL_PAYLOAD; lia].
  - destruct (Hrecv (env_at 1400) relay_at [0; 0]) as (sB' & up & Er & _).
    exists pkt, sA', sB', up. split; [exact A|]. split; [exact B|]. split; [exact Es|exact Er].
Defined.

(** Encryption is the sender's choice.  Any running client, whatever its history
    and even if it encrypts everything it sends, accepts from any address a relay
    packet that was never encrypted: it hands the forged octets to its application under
    the claimed identifier and takes that identifier for reachable through the relay. *)
Theorem clear_message_accepted (cbs : callbacks) (cs : list call) (s : t) (o : list event) (e : env)
    (src : bytes) (w : WireTunnel) (ch : Z) (d rest : bytes) (from : sockaddr_in)
    (Hrun : mapM_ perform cs (initial cbs) = Done (tt, s, o) /\ running_ s = true)
    (Hid : uuid_ok src /\ uuid_ok (uuid (cfg_ s))) (Hmsg : carries w ch d /\ (length d <= MAX_TUNNEL_PAYLOAD)%nat)
    (Hclear : Z.land (wt_flags w) TF_ENC = 0) :
  let pkt := frame (msg_id MSG_PROXY_RELAY_DATA) (P2PProxy.relay_payload src (uuid (cfg_ s)) (tunnel_bytes w)) in
  exists s' up,
    handle_packet e (pkt ++ rest) (length pkt) from s =
      Done (tt, s', (if on_message (cbs_ s) then [OnMessage src ch d] else []) ++ up) /\
    (up = [] \/ up = [OnConnected src true]) /\
    exists c, conns_ s' !! src = Some c /\ relay_ok (relay c) = true.
Proof.
  destruct Hrun as [Hr Hrn], Hid as [Us Uo], Hmsg as [Hw Hl]. apply inv_reachable in Hr as [I _].
  pose proof Hw as (_ & _ & _ & _ & Pl & _). unfold MAX_TUNNEL_PAYLOAD in Hl.
  apply (relay_packet_arrives e src (uuid (cfg_ s)) (tunnel_bytes w) w ch d rest from s I Us Uo eq_refl);
    [rewrite length_tunnel_bytes, Pl; lia|by apply reads_clear|exact Hw].
Qed.

(** Mallory, without the secret, speaks to Bob as Alice. *)
Lemma clear_message_accepted_witness :
  exists s o pkt s' up,
    mapM_ perform bob_run (initial all_callbacks) = Done (tt, s, o) /\ tunnel_enc_ s = true /\
    handle_packet (env_at 1400) pkt (length pkt) addr_zero s = Done (tt, s', OnMessage (bs "alice") 3 [104; 105] :: up).
Proof.
  let rb := eval vm_compute in (mapM_ perform bob_run (initial all_callbacks)) in
  match rb with Done (tt, ?s, ?o) =>
    exists s, o;
    assert (B : mapM_ perform bob_run (initial all_callbacks) = Done (tt, s, o)) by (vm_compute; reflexivity);
    destruct (clear_message_accepted all_callbacks bob_run s o (env_at 1400) (bs "alice") (datagram_frame 9 3 [104; 105])
                3 [104; 105] [] addr_zero (conj B eq_refl)) as (s' & up & E & _)
  end.
  - split; (split; [repeat constructor; discriminate|]); (split; [|cbn; lia]); repeat constructor; cbn; discriminate.
  - split; [|cbn; unfold MAX_TUNNEL_PAYLOAD; lia].
    split; [|split; [reflexivity|split; [reflexivity|split; [reflexivity|split; [reflexivity|discriminate]]]]].
    apply datagram_fields; [unfold u16_ok; lia|unfold byte_ok; lia|cbn; unfold MAX_TUNNEL_PAYLOAD; lia].
  - reflexivity.
  - rewrite app_nil_r in E. eexists _, s', up. split; [exact B|]. split; [reflexivity|exact E].
Defined.

End ClientRelay.
