(* ===== verification/ClientServer.v ===== *)
(** * The client and the rendezvous server

    The client's handlers and the server's put together: the login. *)

From S2P Require Import Prelude.
From S2P Require Import Bytes.
From S2P Require Import Wire.
From S2P Require Import ProtoDef.
From S2P Require Import NetUtil.
From S2P Require Import Sha256.
From S2P Require Import Hmac.
From S2P Require Import Packet.
From S2P Require Import Handler.
From S2P Require Import PeerManage.
From S2P Require Import AntiAbuse.
From S2P Require Import LicenseMgr.
From S2P Require Import CfgFile.
From S2P Require Import NatServer.
From S2P Require Import RecvProcess.
From S2P Require Import ServerSafety.
From S2P Require Import ServerAuth.
From S2P Require Import ServerLogin.
From S2P Require Import TunnelCodec.
From S2P Require Import ClientState.
From S2P Require Import ClientTunnel.
From S2P Require Import P2PClient.
From S2P Require Import ClientCrypto.
From S2P Require Import ClientInvariant.
From S2P Require Import ClientFaults.
From S2P Require Import ClientRelay.

#[local] Open Scope Z_scope.

Module ClientServer.
Import ClientState ClientTunnel P2PClient ClientCrypto ClientInvariant ClientFaults ClientRelay.

(** ** The server's side *)

(** The server knows nothing against the identifier. *)
Definition admits (n : Z) (srv : NatServer.t) (u : bytes) : Prop :=
  ServerSafety.server_inv srv /\ CfgFile.auth_enabled (NatServer.cfg_ srv) = true /\
  ~ AntiAbuse.uuid_blocked n u (NatServer.abuse_ srv) /\ ServerLogin.licensed srv u.

Lemma server_login e1 e2 from u srv :
  uuid_ok u -> admits (NatServer.now e1) srv u -> NatServer.now e1 <= NatServer.now e2 ->
  exists nonce srv1,
    RecvProcess.handle_packet e1 (ServerLogin.challenge_packet u) from srv =
      Done (tt, srv1, [ServerLogin.challenge_answer from 0 nonce]) /\ length nonce = 16%nat /\ bytes_ok nonce /\
    forall mac, length mac = 32%nat -> bytes_ok mac -> exists srv2,
      let ok := (NatServer.now e2 <=? NatServer.now e1 + 30) &&
                bool_decide (NatServer.login_mac (CfgFile.auth_secret (NatServer.cfg_ srv)) u nonce = mac) in
      RecvProcess.handle_packet e2 (ServerAuth.login_packet u nonce mac) from srv1 =
        Done (tt, srv2, [ServerLogin.login_answer from (if ok then AUTH_OK else AUTH_BAD_MAC)]) /\
      (ok = true -> forall tm, PeerManager.authed tm (NatServer.peers_ srv2) u = (tm <? NatServer.now e2 + 3600)) /\
      (ok = false -> NatServer.peers_ srv2 = NatServer.peers_ srv).
Proof.
  intros U ([_ L] & A & F & W) H12.
  destruct (ServerLogin.on_challenge_eq e1 from u srv U L F W) as (nonce & seed & E1 & N1 & N2).
  set (srv1 := NatServer.set_auth_nonces_ _ _) in E1. exists nonce, srv1. split.
  { unfold ServerLogin.challenge_packet. rewrite ServerLogin.handle_frame; [exact E1|].
    rewrite (cenc_len _ _ (ServerLogin.challenge_cok _ U)). reflexivity. }
  split; [done|]. split; [done|]. intros mac M1 M2.
  assert (~ AntiAbuse.uuid_blocked (NatServer.now e2) u (NatServer.abuse_ srv1)) as F1.
  { apply (ServerLogin.queried_unblocked e1); [lia|]. by apply (ServerLogin.blocked_later (NatServer.now e1)). }
  set (q := ServerLogin.queried e2 u srv1).
  assert (NatServer.auth_nonces_ q !! u = Some (nonce, NatServer.now e1 + 30)) as K1 by (cbn; by rewrite lookup_insert_eq).
  assert (forall ok srv2, NatServer.verify_auth_login e2 u nonce mac q = Done (ok, srv2, []) ->
    RecvProcess.handle_packet e2 (ServerAuth.login_packet u nonce mac) from srv1 =
      Done (tt, srv2, [ServerLogin.login_answer from (if ok then AUTH_OK else AUTH_BAD_MAC)])) as G.
  { intros ok srv2 V. unfold ServerAuth.login_packet. rewrite ServerLogin.handle_frame.
    - exact (ServerLogin.on_login_eq e2 from u nonce mac srv1 ok srv2 U L F1 W N1 N2 M1 M2 V).
    - rewrite (cenc_len _ _ (ServerLogin.login_cok _ _ _ U N1 N2 M1 M2)). reflexivity. }
  destruct (Z.leb_spec (NatServer.now e2) (NatServer.now e1 + 30)) as [Ht|Ht]; cbn [andb].
  - pose proof (ServerLogin.verify_issued e2 u nonce mac _ q A K1 Ht) as V. cbv zeta in V.
    change (NatServer.cfg_ q) with (NatServer.cfg_ srv) in V. set (ok := bool_decide _) in *.
    eexists. split; [by apply G|]. split; intros Hok; rewrite Hok; [|done]. intros tm.
    cbn [NatServer.peers_ NatServer.set_peers_]. unfold PeerManager.authed. cbn.
    rewrite lookup_insert_eq, lookup_alter_eq. destruct (tm <? _) eqn:T; [done|].
    by destruct (PeerManager.peers_ (NatServer.peers_ srv) !! u).
  - exists (ServerLogin.spent u q). split; [|done]. apply (G false). unfold NatServer.verify_auth_login.
    rewrite gets_eq. change (NatServer.cfg_ q) with (NatServer.cfg_ srv). rewrite A. cbn [negb].
    rewrite gets_eq, K1, modify_eq. by rewrite (proj2 (Z.ltb_lt _ _)) by lia.
Qed.

(** ** The client's side *)

Lemma challenge_sent s :
  do_auth_challenge s =
  Done (tt, set_auth_inflight_ true s, [SendTo (nat_sock_ s) (ServerLogin.challenge_packet (uuid (cfg_ s)))]).
Proof.
  unfold do_auth_challenge. rewrite gets_eq. apply (bind_eq _ _ s tt s [_] tt _ []); [apply send_proto_eq|reflexivity].
  change (length (uuid_field (uuid (cfg_ s))) + 8 <= MAX_PKT)%nat. rewrite length_uuid_field. unfold MAX_PKT. lia.
Qed.

Definition challenge_rsp (nonce : bytes) : bytes := cenc AuthChallengeRsp_codec (mkAuthChallengeRsp 0 nonce (htons 30)).

Lemma challenge_answered e nonce rest from s :
  length nonce = 16%nat ->
  let pkt := frame (msg_id MSG_AUTH_CHALLENGE_RSP) (challenge_rsp nonce) in
  handle_packet e (pkt ++ rest) (length pkt) from s =
  Done (tt, set_auth_nonce_ nonce s,
    [SendTo (nat_sock_ s) (ServerAuth.login_packet (uuid (cfg_ s)) nonce
       (NatServer.login_mac (secret_ s) (uuid (cfg_ s)) nonce))]).
Proof.
  intros N pkt. assert (challenge_rsp nonce = 0 :: nonce ++ le_enc 2 (htons 30)) as Ep by done.
  assert (length (challenge_rsp nonce) = 19%nat) as Lp by (rewrite Ep; cbn [length]; rewrite length_app, N; done).
  unfold pkt. rewrite packet_frame by (unfold len; lia). unfold handle_proto. rewrite msg_of_id, Lp.
  rewrite take_app_exact by done. unfold on_auth_challenge_rsp. rewrite Lp. cbn [Nat.ltb Nat.leb]. rewrite Ep.
  change (octet (0 :: nonce ++ le_enc 2 (htons 30)) 0) with 0. cbn [Z.eqb negb]. change (slice 1 16 (0 :: nonce ++ le_enc 2 (htons 30))) with (take 16 (nonce ++ le_enc 2 (htons 30))).
  rewrite take_app_exact by done. rewrite modify_eq. unfold do_auth_login. rewrite gets_eq. unfold id. cbv zeta.
  rewrite send_proto_eq; [done|]. unfold NatServer.login_mac.
  change (length (uuid_field (uuid (cfg_ s)) ++ nonce ++ hmac_sha256 (secret_ s) (pad_to 33 (uuid (cfg_ s)) ++ nonce)) + 8
    <= MAX_PKT)%nat.
  rewrite !length_app, length_uuid_field, N, length_hmac. unfold MAX_PKT, SHA256_DIGEST_LEN. lia.
Qed.

(** The requests that waited for the login go out again. *)
Lemma waiting_resent l s :
  (forall peer, peer ∈ l -> is_Some (conns_ s !! peer)) ->
  exists m o, mapM_ resend_connect l s = Done (tt, set_conns_ m s, o).
Proof.
  revert s. induction l as [|peer l IH]; intros s Hl.
  - exists (conns_ s), []. cbn [mapM_]. by destruct s.
  - cbn [mapM_]. destruct (Hl peer) as [c Ec]; [by left|].
    assert (exists m o, resend_connect peer s = Done (tt, set_conns_ m s, o) /\
      (forall q, is_Some (conns_ s !! q) -> is_Some (m !! q))) as (m & o & E & Hm).
    { unfold resend_connect. rewrite (get_conn_eq _ _ _ _ Ec). destruct (_ && _).
      - rewrite gets_eq. destruct (send_proto_state MSG_CONNECT_REQ (connect_req (uuid (cfg_ s)) (peer_uuid c)) s) as [o Eo].
        eexists _, _. split; [eapply bind_eq; [exact Eo|reflexivity]|]. intros q Hq. apply lookup_insert_is_Some'. by right.
      - exists (conns_ s), []. split; [by destruct s|done]. }
    destruct (IH (set_conns_ m s)) as (m' & o' & E').
    { intros q Hq. apply Hm, Hl. by right. }
    exists m', (o ++ o'). eapply bind_eq; [exact E|exact E'].
Qed.

Definition login_rsp (r : Z) : bytes := cenc AuthLoginRsp_codec (mkAuthLoginRsp r (htons 3600)).

Lemma login_accepted e rest from s :
  (forall X peer, peer ∈ table_order e X -> peer ∈ X) ->
  let pkt := frame (msg_id MSG_AUTH_LOGIN_RSP) (login_rsp AUTH_OK) in
  exists s' o, handle_packet e (pkt ++ rest) (length pkt) from s = Done (tt, s', o) /\
    authed_ s' = true /\ heartbeat_enc_ s' = true /\ auth_inflight_ s' = false /\ auth_denied_ s' = auth_denied_ s /\
    next_heartbeat_ms_ s' = u64 (now e + 100).
Proof.
  intros Ht pkt. unfold pkt. rewrite packet_frame by reflexivity. unfold handle_proto. rewrite msg_of_id.
  rewrite take_app_exact by done. unfold on_auth_login_rsp. rewrite modify_eq.
  change (login_rsp AUTH_OK) with (AUTH_OK :: le_enc 2 (htons 3600)). cbv iota. rewrite Z.eqb_refl, modify_eq.
  unfold for_conns. rewrite gets_eq. set (s1 := set_next_heartbeat_ms_ _ _).
  destruct (waiting_resent (table_order e (dom (conns_ s1))) s1) as (m & o & E).
  { intros peer Hp. by apply elem_of_dom, Ht. }
  exists (set_conns_ m s1), o. split; [exact E|done].
Qed.

Lemma login_refused e rest from s :
  let pkt := frame (msg_id MSG_AUTH_LOGIN_RSP) (login_rsp AUTH_BAD_MAC) in
  exists s' o, handle_packet e (pkt ++ rest) (length pkt) from s = Done (tt, s', o) /\
    authed_ s' = authed_ s /\ auth_denied_ s' = true.
Proof.
  intros pkt. unfold pkt. rewrite packet_frame by reflexivity. unfold handle_proto. rewrite msg_of_id.
  rewrite take_app_exact by done. unfold on_auth_login_rsp. rewrite modify_eq.
  change (login_rsp AUTH_BAD_MAC) with (AUTH_BAD_MAC :: le_enc 2 (htons 3600)).
  cbn [Z.eqb Pos.eqb AUTH_OK AUTH_BAD_MAC AUTH_BAD_NONCE AUTH_WHITELIST_REJ AUTH_BLACKLIST negb].
  destruct (error_eq (bs "auth login failed (bad secret?)") (set_auth_inflight_ false s)) as [o E].
  eexists _, _. split; [eapply bind_eq; [exact E|reflexivity]|done].
Qed.

(** C3: client and server carry out a login together.  A client asks for a challenge;
    the server, which has nothing against its identifier, answers with a nonce; the
    client signs it; and the server's verdict is right exactly when the answer comes
    within 30 seconds and the server's secret gives the same code: then the server
    holds the identifier for logged in for 3600 seconds from the login, and the client
    knows, encrypts its heartbeats from now on and sends the next one in 100 ms.
    Otherwise nothing is registered and the client gives up for good - also when its
    secret is right and only its answer was late.  Octets that follow a packet in the
    receive buffer, and the address it came from, make no difference to the client. *)
Theorem client_logs_in (c : t) (srv : NatServer.t) (e1 e2 : NatServer.env) (ce1 ce2 : env)
    (from a1 a2 : sockaddr_in) (r1 r2 : bytes)
    (Hid : uuid_ok (uuid (cfg_ c))) (Hadm : admits (NatServer.now e1) srv (uuid (cfg_ c)))
    (Htime : NatServer.now e1 <= NatServer.now e2)
    (Horder : forall X peer, peer ∈ table_order ce2 X -> peer ∈ X) :
  exists nonce c1 c2 c3 srv1 srv2 p1 p2 p3 p4 o,
    do_auth_challenge c = Done (tt, c1, [SendTo (nat_sock_ c) p1]) /\
    RecvProcess.handle_packet e1 p1 from srv = Done (tt, srv1, [NatServer.Send (mkDg MainSock from p2)]) /\
    handle_packet ce1 (p2 ++ r1) (length p2) a1 c1 = Done (tt, c2, [SendTo (nat_sock_ c) p3]) /\
    RecvProcess.handle_packet e2 p3 from srv1 = Done (tt, srv2, [NatServer.Send (mkDg MainSock from p4)]) /\
    handle_packet ce2 (p4 ++ r2) (length p4) a2 c2 = Done (tt, c3, o) /\
    let u := uuid (cfg_ c) in
    let ok := (NatServer.now e2 <=? NatServer.now e1 + 30) &&
              bool_decide (NatServer.login_mac (CfgFile.auth_secret (NatServer.cfg_ srv)) u nonce =
                           NatServer.login_mac (secret_ c) u nonce) in
    if ok then
      authed_ c3 = true /\ heartbeat_enc_ c3 = true /\ auth_inflight_ c3 = false /\
      auth_denied_ c3 = auth_denied_ c /\ next_heartbeat_ms_ c3 = u64 (now ce2 + 100) /\
      (forall tm, PeerManager.authed tm (NatServer.peers_ srv2) u = (tm <? NatServer.now e2 + 3600))
    else
      authed_ c3 = authed_ c /\ auth_denied_ c3 = true /\ NatServer.peers_ srv2 = NatServer.peers_ srv.
Proof.
  destruct (server_login e1 e2 from (uuid (cfg_ c)) srv Hid Hadm Htime) as (nonce & srv1 & E1 & N1 & N2 & Hlog).
  set (mac := NatServer.login_mac (secret_ c) (uuid (cfg_ c)) nonce).
  destruct (Hlog mac) as (srv2 & E2 & Hyes & Hno); [apply length_hmac|apply hmac_ok|].
  remember ((NatServer.now e2 <=? _) && _) as ok eqn:Eok in E2, Hyes, Hno.
  set (c1 := set_auth_inflight_ true c). set (c2 := set_auth_nonce_ nonce c1).
  assert (exists c3 o, handle_packet ce2 (frame (msg_id MSG_AUTH_LOGIN_RSP) (login_rsp (if ok then AUTH_OK else AUTH_BAD_MAC)) ++ r2)
      (length (frame (msg_id MSG_AUTH_LOGIN_RSP) (login_rsp (if ok then AUTH_OK else AUTH_BAD_MAC)))) a2 c2 = Done (tt, c3, o) /\
      if ok then authed_ c3 = true /\ heartbeat_enc_ c3 = true /\ auth_inflight_ c3 = false /\
        auth_denied_ c3 = auth_denied_ c /\ next_heartbeat_ms_ c3 = u64 (now ce2 + 100)
      else authed_ c3 = authed_ c /\ auth_denied_ c3 = true) as (c3 & o & E3 & Hc3).
  { destruct ok; [exact (login_accepted ce2 r2 a2 c2 Horder)|exact (login_refused ce2 r2 a2 c2)]. }
  exists nonce, c1, c2, c3, srv1, srv2. do 4 eexists. exists o.
  split; [exact (challenge_sent c)|]. split; [exact E1|].
  split; [exact (challenge_answered ce1 nonce r1 a1 c1 N1)|]. split; [exact E2|]. split; [exact E3|]. cbv zeta. fold mac.
  rewrite <- Eok. destruct ok.
  - destruct Hc3 as (A1 & A2 & A3 & A4 & A5).
    exact (conj A1 (conj A2 (conj A3 (conj A4 (conj A5 (Hyes eq_refl)))))).
  - destruct Hc3 as (A1 & A2). exact (conj A1 (conj A2 (Hno eq_refl))).
Qed.

Definition cam_config : Config := default_config (bs "cam") (bs "secret") [mkServer (bs "10.0.0.1") 8000] [].

Lemma client_logs_in_witness :
  exists c o0 c1 c2 c3 srv2 p1 p2 p3 p4 o,
    mapM_ perform [Start (env_at 1000) cam_config true] (initial all_callbacks) = Done (tt, c, o0) /\
    do_auth_challenge c = Done (tt, c1, [SendTo (nat_sock_ c) p1]) /\
    handle_packet (env_at 2000) p2 (length p2) addr_zero c1 = Done (tt, c2, [SendTo (nat_sock_ c) p3]) /\
    handle_packet (env_at 7000) p4 (length p4) addr_zero c2 = Done (tt, c3, o) /\
    authed_ c3 = true /\ heartbeat_enc_ c3 = true /\
    (forall tm, PeerManager.authed tm (NatServer.peers_ srv2) (bs "cam") = (tm <? 1005 + 3600)).
Proof.
  let r := eval vm_compute in (mapM_ perform [Start (env_at 1000) cam_config true] (initial all_callbacks)) in
  match r with Done (tt, ?c, ?o) =>
    exists c, o;
    assert (R : mapM_ perform [Start (env_at 1000) cam_config true] (initial all_callbacks) = Done (tt, c, o))
      by (vm_compute; reflexivity);
    destruct (client_logs_in c ServerAuth.challenged (NatServer.mkEnv 1000 (fun _ => true) [] [])
                (NatServer.mkEnv 1005 (fun _ => true) [] []) (env_at 2000) (env_at 7000) (mkAddr 16777343 5)
                addr_zero addr_zero [] [])
      as (nonce & c1 & c2 & c3 & srv1 & srv2 & p1 & p2 & p3 & p4 & o' & E1 & _ & E2 & _ & E3 & V)
  end.
  - split; [repeat constructor; discriminate|]. split; [|cbn; lia]. repeat constructor; cbn; discriminate.
  - split; [split; [apply PeerManager.wf_empty|exact eq_refl]|]. split; [exact eq_refl|].
    split; [intros (_ & ex & H & _); vm_compute in H; discriminate|intros H; vm_compute in H; discriminate].
  - cbn. lia.
  - intros X peer H. cbn [table_order env_at] in H. apply elem_of_elements, H.
  - rewrite app_nil_r in E2, E3. cbv zeta in V.
    change (CfgFile.auth_secret (NatServer.cfg_ ServerAuth.challenged)) with (bs "secret") in V.
    rewrite bool_decide_true in V by reflexivity. cbn [NatServer.now] in V.
    change ((1005 <=? 1000 + 30) && true) with true in V. destruct V as (V1 & V2 & _ & _ & _ & V3).
    exists c1, c2, c3, srv2, p1, p2, p3, p4, o'.
    split; [exact R|]. split; [exact E1|]. split; [exact E2|]. split; [exact E3|].
    split; [exact V1|]. split; [exact V2|exact V3].
Defined.

End ClientServer.
