(* ===== verification/ClientHeartbeat.v ===== *)
(** * Heartbeats between client and server

    The encrypted heartbeat from the client to the server and back: what both know
    afterwards, and what somebody who only listens knows. *)

From S2P Require Import Prelude.
From S2P Require Import Bytes.
From S2P Require Import Wire.
From S2P Require Import ProtoDef.
From S2P Require Import NetUtil.
From S2P Require Import Sha256.
From S2P Require Import Hmac.
From S2P Require Import Packet.
From S2P Require Import Handler.
From S2P Require Import PeerManage.
From S2P Require Import AntiAbuse.
From S2P Require Import LicenseMgr.
From S2P Require Import CfgFile.
From S2P Require Import NatTypeCheck.
From S2P Require Import NatServer.
From S2P Require Import RecvProcess.
From S2P Require Import ServerSafety.
From S2P Require Import ServerAuth.
From S2P Require Import ServerLogin.
From S2P Require Import ServerQueries.
From S2P Require Import TunnelCodec.
From S2P Require Import NatDetect.
From S2P Require Import ClientState.
From S2P Require Import ClientTunnel.
From S2P Require Import P2PClient.
From S2P Require Import ClientCrypto.
From S2P Require Import ClientInvariant.
From S2P Require Import ClientFaults.
From S2P Require Import ClientRelay.
From S2P Require Import ClientServer.

#[local] Open Scope Z_scope.

Module ClientHeartbeat.
Import ClientState ClientTunnel P2PClient ClientCrypto ClientInvariant ClientFaults ClientRelay ClientServer.

(** ** On the wire *)

(** Identifier and vector in the clear, the body under the keystream they give. *)
Definition veiled (sec u iv body : bytes) : bytes :=
  uuid_field u ++ iv ++ p2p_stream_xor sec (uuid_field u) iv body.

Lemma length_veiled sec u iv body : length (veiled sec u iv body) = (33 + length iv + length body)%nat.
Proof. unfold veiled. rewrite !length_app, length_uuid_field, length_stream_xor. lia. Qed.

Lemma veiled_parts sec u iv body :
  length iv = 8%nat ->
  take 33 (veiled sec u iv body) = uuid_field u /\ slice 33 8 (veiled sec u iv body) = iv /\
  drop 41 (veiled sec u iv body) = p2p_stream_xor sec (uuid_field u) iv body.
Proof.
  intros L. unfold veiled, slice. rewrite take_app_exact by apply length_uuid_field.
  rewrite drop_app_exact by apply length_uuid_field. rewrite take_app_exact by done. split; [done|]. split; [done|].
  change 41%nat with (33 + 8)%nat. by rewrite <- drop_drop, !drop_app_exact by (apply length_uuid_field || done).
Qed.

Lemma pad_field u : uuid_ok u -> pad_to 33 u = uuid_field u.
Proof. intros U. rewrite uuid_field_eq by done. destruct U as (_ & _ & _ & L). by rewrite pad_to_short by lia. Qed.

(** What the server answers to a heartbeat it accepts. *)
Definition accepted (from : sockaddr_in) (lp : Z) (srv : NatServer.t) : ExtInfoRsp :=
  mkExtInfoRsp 0 (ip_field (s_addr from)) (sin_port from) (ip_field (s_addr from)) lp
    (htons (NatTypeCheck.alt_port_ (NatServer.natcheck_ srv))).

(** ** The server's side *)

Abbreviation same_config := (fun s s' : NatServer.t => NatServer.cfg_ s = NatServer.cfg_ s').

#[local] Existing Instance ServerAuth.registry_frame.

#[export] Instance config_frame : ServerAuth.Frame same_config.
Proof. split; try by intros. split; [by intros s|]. intros s1 s2 s3 H1 H2. by etrans. Qed.

(** The server shares the secret with the client and accepts its heartbeats. *)
Definition accepts (e : NatServer.env) (srv : NatServer.t) (sec u : bytes) : Prop :=
  ServerSafety.server_inv srv /\ CfgFile.auth_secret (NatServer.cfg_ srv) = sec /\ sec <> [] /\
  ServerQueries.heartbeat_code e srv u = 0.

Lemma cenc_request_length r : cok UuidReq_codec r -> length (cenc UuidReq_codec r) = 43%nat.
Proof. intros K. rewrite (codec_size _ K). reflexivity. Qed.

Lemma server_heartbeat e from u iv r sec srv :
  uuid_ok u -> length iv = 8%nat -> accepts e srv sec u -> u16_ok (sin_port from) ->
  cok UuidReq_codec r -> ur_uuid r = uuid_field u ->
  exists srv' o, RecvProcess.handle_packet e
      (frame (msg_id MSG_HEARTBEAT_REQ_ENC) (veiled sec u iv (cenc UuidReq_codec r))) from srv =
    Done (tt, srv', o ++ [NatServer.Send (mkDg MainSock from (frame (msg_id MSG_HEARTBEAT_RSP_ENC)
       (veiled sec u iv (cenc ExtInfoRsp_codec (accepted from (ur_lan_port r) srv)))))]) /\
    exists p, PeerManager.get (NatServer.peers_ srv') u = Some p /\ p_pub_addr p = from /\
      p_lan_addr p = mkAddr (s_addr from) (ur_lan_port r) /\ p_dev_type p = ur_dev_type r /\
      p_nattype p = ur_nattype r /\ p_last_heartbeat p = NatServer.now e.
Proof.
  intros U Liv ([W L] & Hsec & Hne & Hcode) Hf K Hu. pose proof (cenc_request_length r K) as Lr.
  destruct (veiled_parts sec u iv (cenc UuidReq_codec r) Liv) as (P1 & P2 & P3).
  pose proof (length_veiled sec u iv (cenc UuidReq_codec r)) as Lv.
  rewrite ServerLogin.handle_frame by (unfold len; lia). cbn [RecvProcess.dispatch]. unfold RecvProcess.on_heartbeat_enc.
  rewrite (proj2 (Nat.ltb_ge _ _)) by (rewrite Lv, Lr, Liv; change (csize UuidReq_codec) with 43%nat; lia).
  rewrite gets_eq, P1, P2, P3, Hsec. cbv zeta.
  assert ((length sec =? 0)%nat = false) as E0 by (by destruct sec). rewrite E0.
  rewrite ServerLogin.terminate_uuid_field by done. rewrite stream_xor_involutive, (cdec_alone _ _ K).
  rewrite ServerLogin.terminate_uuid_field by done.
  assert (drop (csize UuidReq_codec) (cenc UuidReq_codec r) = []) as -> by (apply drop_ge; rewrite Lr; done).
  cbn [length Nat.leb]. rewrite <- Hu. replace (mkUuidReq _ _ _ _ _ _) with r by (by destruct r).
  unfold NatServer.handle_heartbeat. rewrite !gets_eq. cbv zeta.
  assert (c_str (ur_uuid r) = u) as -> by (rewrite Hu; apply c_str_uuid_field; apply U).
  unfold ServerQueries.heartbeat_code in Hcode. destruct (_ && _); [done|].
  rewrite (step_eq _ _ _ _ _ (ServerQueries.abuse_query e u srv)).
  rewrite (step_eq _ _ _ _ _ (ServerQueries.refusal_eq e u srv L)). destruct (ServerQueries.refusal e srv u); [done|].
  set (up := PeerManager.upsert (NatServer.now e) (NatServer.peers_ srv) u from (mkAddr (s_addr from) (ur_lan_port r))
    (ur_dev_type r) (ur_nattype r) []). set (s1 := NatServer.set_peers_ up.2 (ServerLogin.queried e u srv)).
  rewrite (step_eq _ _ _ tt s1) by done.
  assert (ServerSafety.server_inv s1) as I1 by (split; [by apply PeerManager.upsert_wf|done]).
  destruct (ServerSafety.broadcast_peer_entry_safe e r [] from s1 I1) as ([] & s2 & o & Eb & _ & _).
  pose proof (ServerAuth.keeps_broadcast_entry (ServerAuth.on_registry eq) _ _ _ _ _ _ _ _ Eb) as Ep.
  pose proof (ServerAuth.keeps_broadcast_entry same_config _ _ _ _ _ _ _ _ Eb) as Ec. cbn beta in Ec.
  exists s2, o. split.
  - eapply bind_eq; [exact Eb|]. unfold NatServer.send_heartbeat_rsp. rewrite gets_eq. cbn [negb]. cbv zeta.
    rewrite <- Ec. change (NatServer.cfg_ s1) with (NatServer.cfg_ srv). rewrite Hsec, E0, Hu.
    rewrite take_ge by (rewrite length_uuid_field; lia). rewrite take_ge by lia.
    assert (cok ExtInfoRsp_codec (accepted from (ur_lan_port r) srv)) as Ka.
    { apply ServerQueries.rsp_cok; [done|done|]. by destruct K as (_ & _ & _ & P & _). }
    apply ServerLogin.send_msg_eq.
    change (length (veiled sec u iv (cenc ExtInfoRsp_codec (accepted from (ur_lan_port r) srv))) <= MAX_PKT - 8)%nat.
    rewrite length_veiled, Liv, (codec_size _ Ka). vm_compute. lia.
  - rewrite <- Ep. apply PeerManager.get_upsert_eq. destruct U as (_ & _ & U1 & U2).
    unfold PeerManager.uuid_valid, MAX_UUID_LEN.
    destruct (Nat.eqb_spec (length u) 0), (Nat.leb_spec (length u) 32); simpl; done || lia.
Qed.

(** ** The client's side *)

Lemma heartbeat_req_cok e s : uuid_ok (uuid (cfg_ s)) -> cok UuidReq_codec (heartbeat_req e s).
Proof.
  intros U. repeat split; try apply (uuid_field_cok _ U); try apply htons_range; try done.
  all: try (by vm_compute). all: unfold heartbeat_req; cbn [fst snd ur_nattype]; destruct (nat_type_ s); by vm_compute.
Qed.

Lemma heartbeat_sent e s :
  uuid_ok (uuid (cfg_ s)) -> heartbeat_enc_ s = true ->
  exists iv d c, length iv = 8%nat /\
    do_heartbeat e s = Done (tt, set_rand_counter_ c (set_draws_ d s),
      [SendTo (nat_sock_ s) (frame (msg_id MSG_HEARTBEAT_REQ_ENC)
         (veiled (secret_ s) (uuid (cfg_ s)) iv (cenc UuidReq_codec (heartbeat_req e s))))]).
Proof.
  intros U He. destruct (plat_rand_eq e 8 s) as (iv & c & E & L). exists iv, (S (draws_ s)), c. split; [done|].
  unfold do_heartbeat. rewrite gets_eq. unfold id. cbv zeta. rewrite He, (step_eq _ _ _ _ _ E).
  rewrite pad_field by done.
  refine (send_proto_eq _ _ (set_rand_counter_ c (set_draws_ (S (draws_ s)) s)) _).
  change (length (veiled (secret_ s) (uuid (cfg_ s)) iv (cenc UuidReq_codec (heartbeat_req e s))) + 8 <= MAX_PKT)%nat.
  rewrite length_veiled, L, cenc_request_length by (by apply heartbeat_req_cok). unfold MAX_PKT. lia.
Qed.

Lemma be16_le x : u16_ok x -> be16 (le_enc 2 x) 0 = ntohs x.
Proof.
  intros H. unfold be16, octet. cbn [le_enc nth Nat.add].
  rewrite lor_octets by (rewrite land255; apply Z.mod_pos_bound; lia). rewrite !land255, shiftr8.
  rewrite htons_swap by done. unfold u16_ok in H. rewrite u16_small by (unfold u16_ok; zdiv). zdiv.
Qed.

(** The answer as the client picks it apart. *)
Lemma accepted_fields from lp srv :
  u16_ok (sin_port from) -> u16_ok lp ->
  let p := cenc ExtInfoRsp_codec (accepted from lp srv) in
  length p = 39%nat /\ octet p 0 = 0 /\ slice 1 16 p = ip_field (s_addr from) /\
  be16 p 17 = ntohs (sin_port from) /\ be16 p 37 = ntohs (htons (NatTypeCheck.alt_port_ (NatServer.natcheck_ srv))).
Proof.
  intros Hf Hl p. pose proof (be16_le _ Hf) as B1.
  pose proof (be16_le _ (htons_range (NatTypeCheck.alt_port_ (NatServer.natcheck_ srv)))) as B2.
  assert (p = 0 :: ip_field (s_addr from) ++ le_enc 2 (sin_port from) ++ ip_field (s_addr from) ++ le_enc 2 lp ++
              le_enc 2 (htons (NatTypeCheck.alt_port_ (NatServer.natcheck_ srv)))) as -> by done.
  pose proof (length_ip_field (s_addr from)) as L.
  destruct (ip_field (s_addr from)) as [|x0 [|x1 [|x2 [|x3 [|x4 [|x5 [|x6 [|x7 [|x8 [|x9 [|x10 [|x11 [|x12 [|x13 [|x14
    [|x15 []]]]]]]]]]]]]]]]]; try done.
Qed.

(** What an accepted heartbeat leaves in the client. *)
Lemma heartbeat_received e from lp srv rest addr iv s :
  uuid_ok (uuid (cfg_ s)) -> length iv = 8%nat -> authed_ s = true -> u16_ok (sin_port from) -> u16_ok lp ->
  cok ExtInfoRsp_codec (accepted from lp srv) ->
  let pkt := frame (msg_id MSG_HEARTBEAT_RSP_ENC)
    (veiled (secret_ s) (uuid (cfg_ s)) iv (cenc ExtInfoRsp_codec (accepted from lp srv))) in
  exists s' o, handle_packet e (pkt ++ rest) (length pkt) addr s = Done (tt, s', o) /\
    c_str (pub_ip_ s') = inet_ntop (s_addr from) /\ pub_port_ s' = ntohs (sin_port from) /\
    alt_port_ s' = ntohs (htons (NatTypeCheck.alt_port_ (NatServer.natcheck_ srv))) /\
    NatDetect.phase_ (nat_detect_ s') <> NatDetect.Idle /\
    (on_ready (cbs_ s) = true -> ready_fired_ s' = true /\
       (ready_fired_ s = false -> OnReady (ip_field (s_addr from)) (ntohs (sin_port from)) (nat_type_ s) ∈ o)).
Proof.
  intros U Liv Ha Hf Hl K pkt. destruct (accepted_fields from lp srv Hf Hl) as (L & O0 & S1 & B1 & B2).
  set (body := cenc ExtInfoRsp_codec _) in *. destruct (veiled_parts (secret_ s) (uuid (cfg_ s)) iv body Liv) as (P1 & P2 & P3).
  pose proof (length_veiled (secret_ s) (uuid (cfg_ s)) iv body) as Lv. rewrite L, Liv in Lv.
  unfold pkt. rewrite packet_frame by (unfold len; lia). unfold handle_proto. rewrite msg_of_id.
  rewrite take_app_exact by done. unfold on_heartbeat_rsp_enc. rewrite Lv. change (csize ExtInfoRsp_codec) with 39%nat.
  cbn [Nat.ltb Nat.leb Nat.add Nat.sub orb]. rewrite gets_eq, P1, P2, P3, stream_xor_involutive.
  unfold on_heartbeat_rsp. rewrite L. cbn [Nat.ltb Nat.leb]. rewrite gets_eq. unfold id. cbv zeta. rewrite O0. change (csize ExtInfoRsp_codec) with 39%nat.
  cbn [Nat.ltb Nat.leb Z.eqb Pos.eqb]. rewrite modify_eq, Ha, S1, B1, B2. cbn [negb andb].
  set (s1 := set_alt_port_ _ _). set (alt := ntohs (htons _)) in *.
  assert (exists d o1, ((if NatDetect.done (nat_detect_ s) then skip
      else let '(d, out) := NatDetect.start (sv_ip (nat_server_ s)) (sv_port (nat_server_ s)) (now e) (nat_detect_ s) in
           modify (set_nat_detect_ d);; send_all out) : M unit) s1 = Done (tt, set_nat_detect_ d s1, o1) /\
      NatDetect.phase_ d <> NatDetect.Idle) as (d & o1 & E1 & Hd).
  { destruct (NatDetect.done (nat_detect_ s)) eqn:Ed.
    - exists (nat_detect_ s1), []. split; [by destruct s1|]. unfold NatDetect.done in Ed.
      apply bool_decide_eq_true_1 in Ed. change (nat_detect_ s1) with (nat_detect_ s). by rewrite Ed.
    - unfold NatDetect.start, NatDetect.send_req. destruct (inet_pton _); eexists _, _; (split; [reflexivity|done]). }
  set (s2 := set_nat_detect_ d s1) in *. destruct (on_ready (cbs_ s)) eqn:Er.
  - destruct (ready_fired_ s) eqn:Ef.
    + exists s2, (o1 ++ []). split; [eapply bind_eq; [exact E1|]; rewrite gets_eq; unfold id;
        change (cbs_ s2) with (cbs_ s); change (ready_fired_ s2) with (ready_fired_ s); by rewrite Er, Ef|].
      split; [apply c_str_ip_field|]. split; [done|]. split; [done|]. split; [done|]. intros _. by split.
    + exists (set_ready_fired_ true s2), (o1 ++ [OnReady (ip_field (s_addr from)) (ntohs (sin_port from)) (nat_type_ s)]).
      split; [eapply bind_eq; [exact E1|]; rewrite gets_eq; unfold id;
        change (cbs_ s2) with (cbs_ s); change (ready_fired_ s2) with (ready_fired_ s); rewrite Er, Ef; done|].
      split; [apply c_str_ip_field|]. split; [done|]. split; [done|]. split; [done|]. intros _. split; [done|].
      intros _. apply elem_of_app. right. by left.
  - exists s2, (o1 ++ []). split; [eapply bind_eq; [exact E1|]; rewrite gets_eq; unfold id;
      change (cbs_ s2) with (cbs_ s); by rewrite Er|].
    split; [apply c_str_ip_field|]. split; [done|]. split; [done|]. by split.
Qed.

(** C8: an encrypted heartbeat registers the client.  A logged-in client's heartbeat,
    taken from the wire by a server with the same secret that accepts the identifier,
    files the client under its observed address, its local port, its type and its NAT
    type, seen now; and the server's answer, encrypted in turn and whatever follows it in
    the buffer, tells the client that very address and the server's second port, starts
    its NAT detection, and reports it ready to the application, once. *)
Theorem heartbeat_registers (c : t) (srv : NatServer.t) (e : NatServer.env) (ce1 ce2 : env)
    (from addr : sockaddr_in) (rest : bytes)
    (Hid : uuid_ok (uuid (cfg_ c))) (Hlogin : heartbeat_enc_ c = true /\ authed_ c = true)
    (Hacc : accepts e srv (secret_ c) (uuid (cfg_ c))) (Hf : u16_ok (sin_port from))
    (Halt : u16_ok (NatTypeCheck.alt_port_ (NatServer.natcheck_ srv))) :
  exists c1 c2 srv' p1 p2 o o',
    do_heartbeat ce1 c = Done (tt, c1, [SendTo (nat_sock_ c) p1]) /\
    RecvProcess.handle_packet e p1 from srv = Done (tt, srv', o ++ [NatServer.Send (mkDg MainSock from p2)]) /\
    handle_packet ce2 (p2 ++ rest) (length p2) addr c1 = Done (tt, c2, o') /\
    (exists p, PeerManager.get (NatServer.peers_ srv') (uuid (cfg_ c)) = Some p /\ p_pub_addr p = from /\
       p_lan_addr p = mkAddr (s_addr from) (htons (local_port ce1)) /\ p_dev_type p = 2 /\
       p_nattype p = nat_type (nat_type_ c) /\ p_last_heartbeat p = NatServer.now e) /\
    c_str (pub_ip_ c2) = inet_ntop (s_addr from) /\ pub_port_ c2 = ntohs (sin_port from) /\
    alt_port_ c2 = NatTypeCheck.alt_port_ (NatServer.natcheck_ srv) /\
    NatDetect.phase_ (nat_detect_ c2) <> NatDetect.Idle /\
    (on_ready (cbs_ c) = true -> ready_fired_ c2 = true /\
       (ready_fired_ c = false -> OnReady (ip_field (s_addr from)) (ntohs (sin_port from)) (nat_type_ c) ∈ o')).
Proof.
  destruct Hlogin as [He Ha]. destruct (heartbeat_sent ce1 c Hid He) as (iv & d & k & Liv & E1).
  set (c1 := set_rand_counter_ k (set_draws_ d c)) in *. pose proof (heartbeat_req_cok ce1 c Hid) as K.
  destruct (server_heartbeat e from (uuid (cfg_ c)) iv (heartbeat_req ce1 c) (secret_ c) srv Hid Liv Hacc Hf K eq_refl)
    as (srv' & o & E2 & Hp).
  pose proof (htons_range (local_port ce1)) as Hl.
  assert (cok ExtInfoRsp_codec (accepted from (htons (local_port ce1)) srv)) as Ka by (by apply ServerQueries.rsp_cok).
  destruct (heartbeat_received ce2 from (htons (local_port ce1)) srv rest addr iv c1 Hid Liv Ha Hf Hl Ka)
    as (c2 & o' & E3 & F1 & F2 & F3 & F4 & F5).
  exists c1, c2, srv'. do 2 eexists. exists o, o'. split; [exact E1|]. split; [exact E2|]. split; [exact E3|].
  split; [exact Hp|]. split; [exact F1|]. split; [exact F2|].
  split; [by rewrite F3, htons_involutive|]. split; [exact F4|exact F5].
Qed.

Definition logged_in : list call :=
  [Start (env_at 1000) cam_config true; Packet (env_at 1500) (frame (msg_id MSG_AUTH_LOGIN_RSP) [AUTH_OK]) 9 addr_zero].

Definition secret_server : NatServer.t := NatServer.set_cfg_ (CfgFile.set_auth_secret (bs "secret") CfgFile.cfg_default) NatServer.initial.

Lemma cam_uuid_ok : uuid_ok (bs "cam").
Proof. split; [repeat constructor; discriminate|]. split; [|cbn; lia]. repeat constructor; cbn; discriminate. Qed.

Lemma secret_server_accepts e : accepts e secret_server (bs "secret") (bs "cam").
Proof. split; [split; [apply PeerManager.wf_empty|reflexivity]|]. split; [reflexivity|]. split; [discriminate|reflexivity]. Qed.

Lemma heartbeat_registers_witness :
  exists c o0 c1 c2 srv' p1 p2 o o',
    mapM_ perform logged_in (initial all_callbacks) = Done (tt, c, o0) /\
    do_heartbeat (env_at 2000) c = Done (tt, c1, [SendTo (nat_sock_ c) p1]) /\
    RecvProcess.handle_packet ServerSafety.quiet_env p1 (mkAddr 16777343 5) secret_server =
      Done (tt, srv', o ++ [NatServer.Send (mkDg MainSock (mkAddr 16777343 5) p2)]) /\
    handle_packet (env_at 2100) p2 (length p2) addr_zero c1 = Done (tt, c2, o') /\
    c_str (pub_ip_ c2) = bs "127.0.0.1" /\ pub_port_ c2 = 1280 /\ ready_fired_ c2 = true.
Proof.
  let r := eval vm_compute in (mapM_ perform logged_in (initial all_callbacks)) in
  match r with Done (tt, ?c, ?o) =>
    exists c, o;
    assert (R : mapM_ perform logged_in (initial all_callbacks) = Done (tt, c, o)) by (vm_compute; reflexivity);
    destruct (heartbeat_registers c secret_server ServerSafety.quiet_env (env_at 2000) (env_at 2100)
                (mkAddr 16777343 5) addr_zero [] cam_uuid_ok (conj eq_refl eq_refl) (secret_server_accepts _))
      as (c1 & c2 & srv' & p1 & p2 & o1 & o2 & E1 & E2 & E3 & _ & F1 & F2 & _ & _ & F5)
  end.
  - vm_compute. split; [discriminate|reflexivity].
  - vm_compute. split; [discriminate|reflexivity].
  - rewrite app_nil_r in E3. exists c1, c2, srv', p1, p2, o1, o2.
    split; [exact R|]. split; [exact E1|]. split; [exact E2|]. split; [exact E3|].
    split; [exact F1|]. split; [exact F2|apply F5; reflexivity].
Defined.

(** ** Listening *)

Lemma lxor_reuse a b k : Z.lxor a (Z.lxor (Z.lxor a k) (Z.lxor b k)) = b.
Proof.
  apply Z.bits_inj'. intros n _. rewrite !Z.lxor_spec. by destruct (Z.testbit a n), (Z.testbit b n), (Z.testbit k n).
Qed.

Lemma xor_reuse a b k :
  length a = length k -> length b = length k -> xor_bytes a (xor_bytes (xor_bytes a k) (xor_bytes b k)) = b.
Proof.
  unfold xor_bytes. revert a b. induction k as [|x k IH]; intros [|y a] [|z b]; try done.
  cbn [zip_with length]. intros [= La] [= Lb]. by rewrite lxor_reuse, IH.
Qed.

Lemma take_stream sec u iv n data :
  (n <= length data)%nat ->
  take n (p2p_stream_xor sec u iv data) = xor_bytes (take n data) (keystream_from sec (take 33 u ++ take 8 iv) 0 n).
Proof.
  intros H. rewrite stream_xor_keystream. unfold xor_bytes.
  rewrite <- (take_drop n data) at 1 2. rewrite length_app, length_take, Nat.min_l by done.
  rewrite keystream_from_app, zip_with_app by (rewrite length_take, length_keystream_from; lia).
  rewrite take_app_exact; [done|]. rewrite length_zip_with, length_take, length_keystream_from. lia.
Qed.

(** The answer to an encrypted heartbeat is readable without the secret.  The
    server encrypts its answer with the identifier and the vector of the request, so
    with the same keystream; and the request begins with the identifier, which the packet
    also carries in the clear.  From the two packets alone, the first 33 octets of the
    answer - the verdict, the client's public address and port and most of its private
    address - are the exclusive or of three slices. *)
Theorem heartbeat_answer_readable (e : NatServer.env) (from : sockaddr_in) (u iv : bytes) (r : UuidReq)
    (sec : bytes) (srv : NatServer.t)
    (Hid : uuid_ok u) (Hiv : length iv = 8%nat) (Hacc : accepts e srv sec u) (Hf : u16_ok (sin_port from))
    (Hreq : cok UuidReq_codec r /\ ur_uuid r = uuid_field u) :
  let p1 := veiled sec u iv (cenc UuidReq_codec r) in
  exists srv' o p2,
    RecvProcess.handle_packet e (frame (msg_id MSG_HEARTBEAT_REQ_ENC) p1) from srv =
      Done (tt, srv', o ++ [NatServer.Send (mkDg MainSock from (frame (msg_id MSG_HEARTBEAT_RSP_ENC) p2))]) /\
    xor_bytes (take 33 p1) (xor_bytes (slice 41 33 p1) (slice 41 33 p2)) =
      take 33 (cenc ExtInfoRsp_codec (accepted from (ur_lan_port r) srv)).
Proof.
  destruct Hreq as [K Hu]. intros p1.
  destruct (server_heartbeat e from u iv r sec srv Hid Hiv Hacc Hf K Hu) as (srv' & o & E & _).
  exists srv', o. eexists. split; [exact E|].
  destruct (veiled_parts sec u iv (cenc UuidReq_codec r) Hiv) as (P1 & _ & P3).
  set (body := cenc ExtInfoRsp_codec _). destruct (veiled_parts sec u iv body Hiv) as (_ & _ & Q3).
  unfold slice, p1. rewrite P1, P3, Q3. pose proof (cenc_request_length r K) as Lr.
  assert (length body = 39%nat) as Lb.
  { apply accepted_fields; [done|]. by destruct K as (_ & _ & _ & P & _). }
  rewrite !take_stream by lia.
  assert (take 33 (cenc UuidReq_codec r) = uuid_field u) as ->.
  { rewrite <- Hu. cbn [cenc UuidReq_codec c_iso c_pair c_bytes fst snd]. rewrite take_app_exact; [done|]. rewrite Hu. apply length_uuid_field. }
  apply xor_reuse; rewrite length_keystream_from; [apply length_uuid_field|]. rewrite length_take. lia.
Qed.

Lemma heartbeat_answer_readable_witness :
  let p1 := veiled (bs "secret") (bs "cam") (replicate 8 9) (cenc UuidReq_codec (ServerQueries.request (bs "cam") 2 0 7)) in
  exists srv' o p2,
    RecvProcess.handle_packet ServerSafety.quiet_env (frame (msg_id MSG_HEARTBEAT_REQ_ENC) p1) (mkAddr 16777343 5)
      secret_server = Done (tt, srv', o ++ [NatServer.Send (mkDg MainSock (mkAddr 16777343 5)
        (frame (msg_id MSG_HEARTBEAT_RSP_ENC) p2))]) /\
    take 10 (xor_bytes (take 33 p1) (xor_bytes (slice 41 33 p1) (slice 41 33 p2))) = 0 :: bs "127.0.0.1".
Proof.
  destruct (heartbeat_answer_readable ServerSafety.quiet_env (mkAddr 16777343 5) (bs "cam") (replicate 8 9)
              (ServerQueries.request (bs "cam") 2 0 7) (bs "secret") secret_server cam_uuid_ok eq_refl (secret_server_accepts _))
    as (srv' & o & p2 & E & X).
  - vm_compute. split; [discriminate|reflexivity].
  - split; [|reflexivity]. apply ServerQueries.request_cok. split; [exact cam_uuid_ok|].
    vm_compute. repeat split; discriminate.
  - exists srv', o, p2. split; [exact E|]. rewrite X. reflexivity.
Defined.

End ClientHeartbeat.
