(* ===== verification/ClientIntroduce.v ===== *)
(** * Two clients introduced by the server

    A connection request from one client through the server: what both clients expect
    of each other afterwards. *)

From S2P Require Import Prelude.
From S2P Require Import Bytes.
From S2P Require Import Wire.
From S2P Require Import ProtoDef.
From S2P Require Import NetUtil.
From S2P Require Import Packet.
From S2P Require Import Handler.
From S2P Require Import PeerManage.
From S2P Require Import CfgFile.
From S2P Require Import NatServer.
From S2P Require Import RecvProcess.
From S2P Require Import ServerSafety.
From S2P Require Import ServerLogin.
From S2P Require Import ServerConnect.
From S2P Require Import TunnelCodec.
From S2P Require Import ClientState.
From S2P Require Import ClientTunnel.
From S2P Require Import P2PClient.
From S2P Require Import ClientCrypto.
From S2P Require Import ClientInvariant.
From S2P Require Import ClientFaults.
From S2P Require Import ClientRelay.

#[local] Open Scope Z_scope.

Module ClientIntroduce.
Import ClientState ClientTunnel P2PClient ClientCrypto ClientInvariant ClientFaults ClientRelay.

(** ** Addresses in notices *)

Definition addr_ok (a : sockaddr_in) : Prop := u32_ok (s_addr a) /\ u16_ok (sin_port a).

Lemma sockaddr_of_text a : addr_ok a -> sockaddr_from (inet_ntop (s_addr a)) (ntohs (sin_port a)) = (a, true).
Proof. intros [Ha Hp]. unfold sockaddr_from. rewrite inet_pton_ntop, htons_involutive by done. by destruct a. Qed.

(** ** What a notice leaves *)

(** The connection [c] is to be opened towards [a]. *)
Definition aims (w : Z) (peer : bytes) (a : sockaddr_in) (cfg : Config) (c : Conn) : Prop :=
  peer_uuid c = peer /\ connecting c = true /\ have_direct (punch c) = true /\ direct (punch c) = a /\
  punch_deadline (punch c) = u64 (w + connect_timeout_ms cfg).

Lemma route_eq {B} a peer (k : unit -> M B) s :
  (route_to a peer ≫= k) s = k tt (set_addr_to_peer_ (<[addr_key a := peer]> (addr_to_peer_ s)) s).
Proof. unfold route_to. by rewrite modify_eq. Qed.

Lemma adopt_eq e cands s :
  exists s', adopt_proxies e cands s = Done (tt, s', []) /\ conns_ s' = conns_ s /\ addr_to_peer_ s' = addr_to_peer_ s.
Proof. unfold adopt_proxies, modify. eexists. split; [reflexivity|]. by repeat case_match. Qed.

(** Adding the private address changes neither the public target nor its route. *)
Lemma learn_lan_eq {B} peer a obj ack lan c (k : unit -> M B) s :
  conns_ s !! peer = Some c -> cstr_in 52 obj = Done lan -> addr_to_peer_ s !! addr_key a = Some peer ->
  peer_uuid c = peer /\ connecting c = true /\ have_direct (punch c) = true /\ direct (punch c) = a ->
  exists m r c', (learn_lan peer obj ack ≫= k) s = k tt (set_addr_to_peer_ r (set_conns_ m s)) /\
    m !! peer = Some c' /\ r !! addr_key a = Some peer /\
    (peer_uuid c' = peer /\ connecting c' = true /\ have_direct (punch c') = true /\ direct (punch c') = a).
Proof.
  intros E El Er Hc. unfold learn_lan. rewrite bind_assoc, (update_conn_eq _ _ _ _ _ E).
  set (c1 := set_punch _ c). set (s1 := set_conns_ _ s).
  assert (conns_ s1 !! peer = Some c1) as E1 by (cbn; by rewrite lookup_insert_eq).
  rewrite El, bind_assoc, lift_eq. destruct (_ && _).
  - destruct (sockaddr_from lan _) as [b ok]. rewrite bind_assoc, (update_conn_eq _ _ _ _ _ E1).
    set (c2 := set_punch _ c1). set (s2 := set_conns_ _ s1).
    assert (conns_ s2 !! peer = Some c2) as E2 by (cbn; by rewrite lookup_insert_eq).
    destruct ok.
    + rewrite bind_assoc, (update_conn_eq _ _ _ _ _ E2), route_eq.
      eexists _, _, _. split; [reflexivity|]. cbn [conns_ set_conns_]. rewrite lookup_insert_eq. split; [done|].
      split; [|by split_and!; try apply Hc]. destruct (decide (addr_key b = addr_key a)) as [->|Hn].
      * by rewrite lookup_insert_eq.
      * by rewrite lookup_insert_ne.
    + rewrite skip_eq. exists (conns_ s2), (addr_to_peer_ s), c2. split; [done|]. split; [done|]. split; [done|].
      by split_and!; try apply Hc.
  - rewrite skip_eq. exists (conns_ s1), (addr_to_peer_ s), c1. split; [done|]. split; [done|]. split; [done|].
    by split_and!; try apply Hc.
Qed.

(** The initiator, who has been waiting. *)
Lemma ack_followed e dst d out rest addr c s :
  uuid_ok dst -> addr_ok (p_pub_addr d) ->
  cok ConnectAck_codec (RecvProcess.connect_ack (RecvProcess.terminate (uuid_field dst)) d out) ->
  conns_ s !! dst = Some c -> peer_uuid c = dst -> connecting c = true -> force_relay (cfg_ s) = false ->
  let pkt := frame (msg_id MSG_CONNECT_ACK)
    (cenc ConnectAck_codec (RecvProcess.connect_ack (RecvProcess.terminate (uuid_field dst)) d out)) in
  exists s' c', handle_packet e (pkt ++ rest) (length pkt) addr s = Done (tt, s', []) /\
    conns_ s' !! dst = Some c' /\ aims (now e) dst (p_pub_addr d) (cfg_ s) c' /\
    addr_to_peer_ s' !! addr_key (p_pub_addr d) = Some dst.
Proof.
  intros U Ha K E Eu Eg Hf pkt. unfold pkt. clear pkt. set (a := RecvProcess.connect_ack _ d out) in *.
  assert (ca_dst_uuid a = uuid_field dst) as Ua by (apply ServerConnect.copy_uuid_terminated, U).
  set (p := cenc ConnectAck_codec a). pose proof (codec_size _ K) as Lp. fold p in Lp.
  rewrite packet_frame by (unfold len; rewrite Lp; reflexivity).
  unfold handle_proto. rewrite msg_of_id, take_app_exact by done. unfold on_connect_ack.
  rewrite (proj2 (Nat.ltb_ge _ _)) by (rewrite Lp; done). cbv zeta.
  assert (cdec ConnectAck_codec p = a) as -> by exact (cdec_alone _ _ K).
  rewrite take_ge by (rewrite Lp; done). rewrite Ua.
  pose proof (c_strn_field dst [] U) as Cu. rewrite app_nil_r in Cu. rewrite Cu, gets_eq. unfold id.
  change (ca_result a) with CONNECT_OK. cbn [CONNECT_OK Z.eqb Pos.eqb].
  unfold conn_at. rewrite bind_assoc, gets_eq, E, ret_eq, Eg, skip_eq, Hf. cbn [negb].
  assert (cstr_in 34 p = Done (inet_ntop (s_addr (p_pub_addr d)))) as E34.
  { assert (exists t, p = (CONNECT_OK :: ca_dst_uuid a) ++ ip_field (s_addr (p_pub_addr d)) ++ t) as [t ->]
      by (eexists; reflexivity).
    apply cstr_in_field. rewrite Ua. cbn [length]. f_equal. apply length_uuid_field. }
  assert (cstr_in 52 p = Done (inet_ntop (s_addr (p_lan_addr d)))) as E52.
  { assert (exists t, p = ((CONNECT_OK :: ca_dst_uuid a) ++ ip_field (s_addr (p_pub_addr d)) ++
        le_enc 2 (sin_port (p_pub_addr d))) ++ ip_field (s_addr (p_lan_addr d)) ++ t) as [t ->].
    { eexists. rewrite <- !app_assoc. reflexivity. }
    apply cstr_in_field. rewrite Ua, !length_app, length_ip_field. cbn [length]. by rewrite length_uuid_field. }
  rewrite bind_assoc, E34, lift_eq. rewrite bind_assoc, (update_conn_eq _ _ _ _ _ E).
  change (ca_dst_pub_port a) with (sin_port (p_pub_addr d)). rewrite (sockaddr_of_text _ Ha). cbn [fst].
  set (c1 := set_punch _ c). set (s1 := set_conns_ _ s). rewrite bind_assoc, route_eq.
  set (s2 := set_addr_to_peer_ _ s1).
  assert (conns_ s2 !! dst = Some c1) as E2 by (cbn; by rewrite lookup_insert_eq).
  rewrite bind_assoc.
  match goal with |- context [(learn_lan dst p a ≫= ?kk) s2] =>
    destruct (learn_lan_eq dst (p_pub_addr d) p a _ c1 kk s2 E2 E52) as (m & r & c2 & El & Em & Er & Hc2) end.
  { cbn. by rewrite lookup_insert_eq. }
  { by split_and!. }
  rewrite El. clear El. set (s3 := set_addr_to_peer_ r _).
  assert (conns_ s3 !! dst = Some c2) as E3 by exact Em. rewrite (update_conn_eq _ _ _ _ _ E3).
  set (c3 := set_punch _ c2). set (s4 := set_conns_ _ s3).
  destruct (adopt_eq e (parse_proxies (ca_proxy_count a) (ca_proxies a) []) s4) as (s5 & E5 & C5 & R5).
  exists s5, c3. split; [exact E5|]. rewrite C5, R5. split; [cbn; by rewrite lookup_insert_eq|]. split; [|exact Er].
  destruct Hc2 as (? & ? & ? & ?). by split_and!.
Qed.

Lemma with_agent_aims w peer a cfg c j l : aims w peer a cfg c -> aims w peer a cfg (with_agent j l c).
Proof. done. Qed.

(** The target, who is told. *)
Lemma invite_followed e src from q out rest addr s :
  uuid_ok src -> addr_ok from ->
  cok ConnectInvite_codec (RecvProcess.connect_invite (RecvProcess.terminate (uuid_field src)) from q out) ->
  force_relay (cfg_ s) = false ->
  let pkt := frame (msg_id MSG_CONNECT_INVITE)
    (cenc ConnectInvite_codec (RecvProcess.connect_invite (RecvProcess.terminate (uuid_field src)) from q out)) in
  exists s' c' o, handle_packet e (pkt ++ rest) (length pkt) addr s = Done (tt, s', o) /\
    conns_ s' !! src = Some c' /\ aims (now e) src from (cfg_ s) c' /\ direct_ok (punch c') = false /\
    addr_to_peer_ s' !! addr_key from = Some src.
Proof.
  intros U Ha K Hf pkt. unfold pkt. clear pkt. set (a := RecvProcess.connect_invite _ from q out) in *.
  assert (ci_src_uuid a = uuid_field src) as Ua by (apply ServerConnect.copy_uuid_terminated, U).
  set (p := cenc ConnectInvite_codec a). pose proof (codec_size _ K) as Lp. fold p in Lp.
  rewrite packet_frame by (unfold len; rewrite Lp; reflexivity).
  unfold handle_proto. rewrite msg_of_id, take_app_exact by done. unfold on_connect_invite.
  rewrite (proj2 (Nat.ltb_ge _ _)) by (rewrite Lp; done). cbv zeta.
  assert (cdec ConnectInvite_codec p = a) as -> by exact (cdec_alone _ _ K).
  rewrite take_ge by (rewrite Lp; done). rewrite Ua.
  pose proof (c_strn_field src [] U) as Cu. rewrite app_nil_r in Cu. rewrite Cu.
  assert ((length src =? 0)%nat = false) as -> by (destruct U as (_ & _ & L & _); destruct src; [cbn in L; lia|done]).
  rewrite gets_eq. unfold id.
  assert (exists c m, conn_at src s = Done (c, set_conns_ m s, [])) as (c & m & E0).
  { unfold conn_at. rewrite gets_eq. destruct (conns_ s !! src) as [c|].
    - exists c, (conns_ s). by destruct s.
    - rewrite modify_eq. by eexists _, _. }
  rewrite (step_eq _ _ _ _ _ E0), put_conn_eq, Hf. set (c1 := set_self true _). set (s1 := set_conns_ _ (set_conns_ m s)).
  assert (conns_ s1 !! src = Some c1) as E1 by (cbn; by rewrite lookup_insert_eq).
  assert (cstr_in 33 p = Done (inet_ntop (s_addr from))) as E33.
  { assert (exists t, p = ci_src_uuid a ++ ip_field (s_addr from) ++ t) as [t ->] by (eexists; reflexivity).
    apply cstr_in_field. rewrite Ua. apply length_uuid_field. }
  rewrite bind_assoc, E33, lift_eq, bind_assoc, (update_conn_eq _ _ _ _ _ E1).
  change (ci_src_pub_port a) with (sin_port from). rewrite (sockaddr_of_text _ Ha). cbn [fst].
  set (c2 := set_punch _ c1). set (s2 := set_conns_ _ s1). rewrite bind_assoc, route_eq. set (s3 := set_addr_to_peer_ _ s2).
  assert (conns_ s3 !! src = Some c2) as E3 by (cbn; by rewrite lookup_insert_eq).
  assert (aims (now e) src from (cfg_ s) c2 /\ direct_ok (punch c2) = false) as A2 by done.
  destruct (ensure_ice_done e src c2 s3 E3) as (j & l & o & Ei). set (c3 := with_agent j l c2) in *.
  set (s4 := set_conns_ _ s3) in *.
  assert (conns_ s4 !! src = Some c3) as E4 by (cbn; by rewrite lookup_insert_eq).
  assert (exists s5 c5 o5, ((sdp ← gets pending_remote_sdp_;
      if (length sdp =? 0)%nat then skip
      else apply_remote_ice_sdp src sdp;; modify (set_pending_remote_sdp_ [])) : M unit) s4 = Done (tt, s5, o5) /\
      conns_ s5 !! src = Some c5 /\ (aims (now e) src from (cfg_ s) c5 /\ direct_ok (punch c5) = false) /\
      addr_to_peer_ s5 = addr_to_peer_ s4) as (s5 & c5 & o5 & E5 & L5 & A5 & R5).
  { rewrite gets_eq. destruct (_ =? _)%nat; [by exists s4, c3, []|]. unfold apply_remote_ice_sdp.
    rewrite bind_assoc, (get_conn_eq _ _ _ _ E4). destruct (_ || _).
    - rewrite skip_eq. eexists _, c3, []. split; [reflexivity|done].
    - rewrite bind_assoc, put_conn_eq. eexists _, _, _. split; [reflexivity|]. split; [cbn; by rewrite lookup_insert_eq|done]. }
  destruct (adopt_eq e (parse_proxies (ci_proxy_count a) (ci_proxies a) []) s5) as (s6 & E6 & C6 & R6).
  exists s6, c5, (o ++ (o5 ++ [])). rewrite C6, R6, R5. split; [|].
  - rewrite bind_assoc. eapply bind_eq; [exact Ei|]. eapply bind_eq; [exact E5|exact E6].
  - split; [exact L5|]. split; [apply A5|]. split; [apply A5|]. cbn. by rewrite lookup_insert_eq.
Qed.

(** C9: two clients are introduced by the server, end to end.  An application asks a
    running client for a peer it has no connection to: the client sends the server one
    request.  The server, where the peer is registered and the request passes the
    gates, answers with two datagrams, one to where the request came from, one to the
    peer's registered address.  Once each client has handled its datagram - whatever
    follows it in the receive buffer, whoever it came from - each is opening a
    connection to the address the server observed of the other, within its own
    time-out, and takes what comes from that address to be from the other. *)
Theorem clients_introduced (e1 e2 e3 : env) (es : NatServer.env) (src dst : bytes) (A B : t) (srv : NatServer.t)
    (d : Peer) (from addr1 addr2 : sockaddr_in) (rest1 rest2 : bytes)
    (Hrun : running_ A = true) (Hu : uuid (cfg_ A) = src) (Hnone : conns_ A = ∅) (Hne : dst <> src)
    (Hs : uuid_ok src) (Hd : uuid_ok dst)
    (Hrelay : force_relay (cfg_ A) = false /\ force_relay (cfg_ B) = false)
    (Hinv : ServerSafety.server_inv srv) (Hget : PeerManager.get (NatServer.peers_ srv) dst = Some d)
    (Hcode : ServerConnect.connect_code es srv src dst = CONNECT_OK)
    (Hfits : map_Forall (fun _ p => ServerConnect.peer_fits p) (PeerManager.peers_ (NatServer.peers_ srv)))
    (Hip : Forall ServerConnect.ip_text (ServerConnect.relays es srv))
    (Hfrom : addr_ok from) (Hpub : addr_ok (p_pub_addr d)) :
  exists A1 A2 B1 srv1 o1 o3 ack invite ca cb,
    connect e1 dst A = Done (tt, A1, o1 ++ [SendTo (nat_sock_ A) (ServerConnect.connect_packet src dst)]) /\
    RecvProcess.handle_packet es (ServerConnect.connect_packet src dst) from srv =
      Done (tt, srv1, [NatServer.Send (mkDg MainSock from ack); NatServer.Send (mkDg MainSock (p_pub_addr d) invite)]) /\
    handle_packet e2 (ack ++ rest1) (length ack) addr1 A1 = Done (tt, A2, []) /\
    handle_packet e3 (invite ++ rest2) (length invite) addr2 B = Done (tt, B1, o3) /\
    conns_ A2 !! dst = Some ca /\ aims (now e2) dst (p_pub_addr d) (cfg_ A) ca /\
    addr_to_peer_ A2 !! addr_key (p_pub_addr d) = Some dst /\
    conns_ B1 !! src = Some cb /\ aims (now e3) src from (cfg_ B) cb /\
    addr_to_peer_ B1 !! addr_key from = Some src.
Proof.
  destruct Hrelay as [RA RB].
  assert (dst <> []) as Hne' by (destruct Hd as (_ & _ & L & _); intros ->; cbn in L; lia).
  destruct (connect_waits e1 dst A Hrun Hne' ltac:(by rewrite Hu) Hnone) as (A1 & o1 & c & E1 & Ecfg & _ & Ec & W).
  destruct (ServerConnect.connect_sends es src dst from srv d Hinv Hs Hd (proj2 Hfrom) Hget Hcode Hfits Hip)
    as (srv1 & out1 & out2 & E2 & K1 & K2 & _).
  destruct (ack_followed e2 dst d out1 rest1 addr1 c A1 Hd Hpub K1) as (A2 & ca & E3 & Ca & Aa & Ra).
  { by rewrite Ec, lookup_singleton_eq. }
  { apply W. }
  { apply W. }
  { by rewrite Ecfg. }
  destruct (invite_followed e3 src from _ out2 rest2 addr2 B Hs Hfrom K2 RB) as (B1 & cb & o3 & E4 & Cb & Ab & _ & Rb).
  exists A1, A2, B1, srv1, o1, o3. eexists _, _, ca, cb.
  split; [rewrite E1, Hu; reflexivity|]. split; [exact E2|]. split; [exact E3|]. split; [exact E4|].
  rewrite Ecfg in Aa. exact (conj Ca (conj Aa (conj Ra (conj Cb (conj Ab Rb))))).
Qed.

Lemma clients_introduced_witness :
  exists A B oA oB A2 B1 srv1 ack invite ca cb,
    mapM_ perform [Start (env_at 1000) (demo_config (bs "app")) true] (initial all_callbacks) = Done (tt, A, oA) /\
    mapM_ perform [Start (env_at 1000) (demo_config (bs "cam")) true] (initial all_callbacks) = Done (tt, B, oB) /\
    RecvProcess.handle_packet ServerSafety.quiet_env (ServerConnect.connect_packet (bs "app") (bs "cam"))
      (mkAddr 16777343 5) ServerConnect.ready =
      Done (tt, srv1, [NatServer.Send (mkDg MainSock (mkAddr 16777343 5) ack);
                       NatServer.Send (mkDg MainSock (p_pub_addr ServerConnect.cam) invite)]) /\
    conns_ A2 !! bs "cam" = Some ca /\ direct (punch ca) = p_pub_addr ServerConnect.cam /\
    conns_ B1 !! bs "app" = Some cb /\ direct (punch cb) = mkAddr 16777343 5.
Proof.
  let ra := eval vm_compute in
    (mapM_ perform [Start (env_at 1000) (demo_config (bs "app")) true] (initial all_callbacks)) in
  let rb := eval vm_compute in
    (mapM_ perform [Start (env_at 1000) (demo_config (bs "cam")) true] (initial all_callbacks)) in
  match ra with Done (tt, ?A, ?oA) => match rb with Done (tt, ?B, ?oB) =>
    exists A, B, oA, oB;
    destruct (clients_introduced (env_at 1200) (env_at 1300) (env_at 1300) ServerSafety.quiet_env (bs "app") (bs "cam")
      A B ServerConnect.ready ServerConnect.cam (mkAddr 16777343 5) addr_zero addr_zero [] [])
      as (A1 & A2 & B1 & srv1 & o1 & o3 & ack & invite & ca & cb & _ & E2 & _ & _ & Ca & Aa & _ & Cb & Ab & _)
  end end.
  - reflexivity.
  - reflexivity.
  - reflexivity.
  - discriminate.
  - apply ServerConnect.app_uuid_ok.
  - apply ServerConnect.app_uuid_ok.
  - split; reflexivity.
  - apply ServerConnect.ready_inv.
  - by vm_compute.
  - by vm_compute.
  - apply map_Forall_singleton. by vm_compute.
  - repeat constructor; try decide_now; vm_compute; lia.
  - split; by vm_compute.
  - split; by vm_compute.
  - exists A2, B1, srv1, ack, invite, ca, cb.
    split; [vm_compute; reflexivity|]. split; [vm_compute; reflexivity|]. split; [exact E2|].
    split; [exact Ca|]. split; [apply Aa|]. split; [exact Cb|apply Ab].
Defined.

End ClientIntroduce.
