(* ===== verification/ClientRegister.v ===== *)
(** * A client at the relay

    A client's registration at its first relay, and what becomes of it: the client asks
    once, the relay forgets after 120 seconds. *)

From S2P Require Import Prelude.
From S2P Require Import Bytes.
From S2P Require Import Wire.
From S2P Require Import ProtoDef.
From S2P Require Import NetUtil.
From S2P Require Import Hmac.
From S2P Require Import Packet.
From S2P Require Import Handler.
From S2P Require Import NatServer.
From S2P Require Import ServerLogin.
From S2P Require Import P2PProxy.
From S2P Require Import TunnelCodec.
From S2P Require Import ClientState.
From S2P Require Import ClientTunnel.
From S2P Require Import P2PClient.
From S2P Require Import ClientCrypto.
From S2P Require Import ClientInvariant.
From S2P Require Import ClientFaults.
From S2P Require Import ClientRelay.

#[local] Open Scope Z_scope.

Module ClientRegister.
Import ClientState ClientTunnel P2PClient ClientCrypto ClientInvariant ClientFaults ClientRelay.

(** ** Registering *)

(** The client wants to register and may: [to] is the address of its first relay. *)
Definition may_register (e : env) (s : t) (to : sockaddr_in) : Prop :=
  auto_relay (cfg_ s) = true /\ relay_registered_ s = false /\ next_relay_reg_ s <= now e /\
  exists px l, proxies_ s = px :: l /\ sockaddr_from (sv_ip px) (sv_port px) = (to, true).

Definition request_of (u : bytes) : bytes := P2PProxy.reg_packet u (P2PProxy.proxy_mac u).

Lemma register_asked e s to :
  uuid_ok (uuid (cfg_ s)) -> may_register e s to ->
  tick_relay e s = Done (tt, set_next_relay_reg_ (u64 (now e + relay_register_ms (cfg_ s))) s,
                         [SendTo to (request_of (uuid (cfg_ s)))]).
Proof.
  intros U (Ha & Hr & Hn & px & l & Hp & Hto). unfold tick_relay. rewrite gets_eq. unfold id.
  rewrite Ha, Hr, Hp, (proj2 (Z.leb_le _ _) Hn). cbn [length Nat.eqb negb andb].
  apply (bind_eq _ _ s tt s [_] tt _ []); [|reflexivity]. unfold relay_register. rewrite gets_eq. unfold id.
  rewrite Hp, Hto. cbv zeta iota.
  assert (length (hmac_sha256 kProxyAuthKey (uuid (cfg_ s))) = 32%nat) as L by apply length_hmac.
  apply send_proto_to_eq. rewrite (codec_size _ (P2PProxy.reg_req_cok _ _ U L (hmac_ok _ _))). vm_compute. lia.
Qed.

(** The relay's two answers. *)
Lemma relay_answers now P from u :
  uuid_ok u -> P2PProxy.fds_ P <> 0%nat -> u16_ok (sin_port from) ->
  exists P' r, P2PProxy.handle now P (request_of u) from =
      (P', [mkDg MainSock from (frame (msg_id MSG_PROXY_REGISTER_RSP) (cenc ProxyRegRsp_codec r))]) /\
    cok ProxyRegRsp_codec r /\ P2PProxy.fds_ P' = P2PProxy.fds_ P /\
    if P2PProxy.full_for P u then P' = P /\ prr_result r = 1
    else P2PProxy.uuid2addr_ P' !! u = Some (P2PProxy.mkEntry from now) /\ prr_result r = 0.
Proof.
  intros U F Hf. unfold request_of. rewrite P2PProxy.handle_reg by (done || apply length_hmac || apply hmac_ok).
  unfold P2PProxy.do_register. destruct (Nat.eqb_spec (length u) 0) as [Z0|_]; [destruct U as (_ & _ & ? & _); lia|].
  rewrite bool_decide_true by done. cbn [negb]. cbv zeta. destruct (P2PProxy.full_for P u).
  - assert (cok ProxyRegRsp_codec (P2PProxy.reg_rsp 1 None)) as K by (by apply P2PProxy.reg_rsp_cok).
    exists P, (P2PProxy.reg_rsp 1 None). rewrite (P2PProxy.send_rsp_eq P from MSG_PROXY_REGISTER_RSP _ F K).
    split; [done|]. split; [exact K|]. done.
  - assert (cok ProxyRegRsp_codec (P2PProxy.reg_rsp 0 (Some from))) as K
      by (apply P2PProxy.reg_rsp_cok; [done|by intros ? [= <-]]).
    set (P' := P2PProxy.with_tables _ _ _ P). exists P', (P2PProxy.reg_rsp 0 (Some from)).
    assert (P2PProxy.fds_ P' <> 0%nat) as F' by exact F.
    rewrite (P2PProxy.send_rsp_eq P' from MSG_PROXY_REGISTER_RSP _ F' K).
    split; [done|]. split; [exact K|]. split; [done|]. split; [|done]. unfold P'. cbn. by rewrite lookup_insert_eq.
Qed.

(** The answer at the client. *)
Lemma register_answered e r rest from s :
  cok ProxyRegRsp_codec r ->
  let p := frame (msg_id MSG_PROXY_REGISTER_RSP) (cenc ProxyRegRsp_codec r) in
  exists o, handle_packet e (p ++ rest) (length p) from s =
    Done (tt, if prr_result r =? 0 then set_conns_ (set_backoff_attempt 0 <$> conns_ s) (set_relay_registered_ true s)
              else s, o).
Proof.
  intros K. cbv zeta. rewrite packet_frame by (rewrite (cenc_len _ _ K); reflexivity).
  unfold handle_proto. rewrite msg_of_id, take_app_exact by done.
  assert ([prr_result r] ++ prr_pub_ip r ++ le_enc 2 (prr_pub_port r) = cenc ProxyRegRsp_codec r) as Eb.
  { destruct K as [K _]. change (0 <= prr_result r < 256) in K. change (cenc ProxyRegRsp_codec r) with
      (le_enc 1 (prr_result r) ++ prr_pub_ip r ++ le_enc 2 (prr_pub_port r)). f_equal. cbn [le_enc].
    f_equal. symmetry. by apply u8_small. }
  assert (exists l, cenc ProxyRegRsp_codec r = prr_result r :: l) as [l ->]
    by (exists (prr_pub_ip r ++ le_enc 2 (prr_pub_port r)); by rewrite <- Eb).
  unfold on_register_rsp. destruct (prr_result r =? 0); [eexists; reflexivity|].
  apply error_eq.
Qed.

(** ** How long it lasts *)

(** What a relay goes through. *)
Inductive input := Hear (now : Z) (data : bytes) (from : sockaddr_in) | Turn (now : Z).

Definition relay_step (P : P2PProxy.t) (i : input) : P2PProxy.t :=
  match i with
  | Hear now data from => (P2PProxy.handle now P data from).1
  | Turn now => P2PProxy.timer_step now P
  end.

(** A datagram that asks to register [u]. *)
Definition registers (u data : bytes) : Prop :=
  exists p, parse_frame data = Some (msg_id MSG_PROXY_REGISTER_REQ, p) /\
    c_str (take 32 (prq_uuid (cdec ProxyRegReq_codec p)) ++ [0]) = u.

Definition other (u : bytes) (i : input) : Prop :=
  match i with Hear _ data _ => ~ registers u data | Turn _ => True end.

Definition entry_or_none (m m' : gmap bytes P2PProxy.UuidEntry) (u : bytes) : Prop :=
  m' !! u = m !! u \/ m' !! u = None.

Lemma register_other now P v from h u :
  v <> u -> entry_or_none (P2PProxy.uuid2addr_ P) (P2PProxy.uuid2addr_ (P2PProxy.do_register now P v from true h).1) u.
Proof.
  intros N. unfold P2PProxy.do_register. destruct (_ =? _)%nat; [by left|]. destruct h as [h|]; [|by left].
  destruct (negb _); [by left|]. destruct (P2PProxy.full_for P v); [by left|]. cbv zeta. cbn [fst P2PProxy.uuid2addr_ P2PProxy.with_tables].
  unfold entry_or_none. rewrite lookup_insert_ne by done.
  destruct (P2PProxy.addr2uuid_ P !! _) as [old|]; [|by left]. destruct (negb _); [|by left].
  destruct (decide (old = u)) as [->|Ho]; [right; by rewrite lookup_delete_eq|left; by rewrite lookup_delete_ne].
Qed.

Lemma unregister_entry P v from u :
  entry_or_none (P2PProxy.uuid2addr_ P) (P2PProxy.uuid2addr_ (P2PProxy.unregister P v from)) u.
Proof.
  unfold P2PProxy.unregister. destruct (P2PProxy.uuid2addr_ P !! v); [|by left]. destruct (negb _); [by left|].
  cbv zeta. unfold entry_or_none. cbn [P2PProxy.uuid2addr_ P2PProxy.with_tables].
  destruct (decide (v = u)) as [->|Ho]; [right; by rewrite lookup_delete_eq|left; by rewrite lookup_delete_ne].
Qed.

Lemma relay_step_entry u P i :
  other u i -> entry_or_none (P2PProxy.uuid2addr_ P) (P2PProxy.uuid2addr_ (relay_step P i)) u.
Proof.
  destruct i as [now data from|now]; intros H; cbn [relay_step].
  - unfold P2PProxy.handle. destruct (parse_frame data) as [[id p]|] eqn:Ep; [|by left].
    destruct (msg_of id) as [m|] eqn:Em; [|by left]. apply msg_of_some in Em as <-. destruct m; try by left.
    + unfold P2PProxy.on_register. destruct (_ <? _)%nat; [by left|]. cbv zeta. apply register_other.
      intros E. apply H. by exists p.
    + apply unregister_entry.
    + unfold P2PProxy.on_relay. destruct (_ <? _)%nat; [by left|]. cbv zeta. destruct (_ !! _); by left.
    + unfold P2PProxy.on_punch_helper. destruct (_ <? _)%nat; by left.
  - unfold entry_or_none, P2PProxy.timer_step. cbn [P2PProxy.uuid2addr_ P2PProxy.with_tables].
    rewrite map_lookup_filter. destruct (P2PProxy.uuid2addr_ P !! u) as [x|]; [|by left].
    cbn [mbind option_bind]. case_guard; [by left|by right].
Qed.

Lemma relay_run_entry u P ins :
  Forall (other u) ins -> entry_or_none (P2PProxy.uuid2addr_ P) (P2PProxy.uuid2addr_ (foldl relay_step P ins)) u.
Proof.
  intros H. revert P. induction H as [|i ins Hi _ IH]; intros P; [by left|]. cbn [foldl].
  destruct (IH (relay_step P i)) as [E|E]; [|by right]. destruct (relay_step_entry u P i Hi) as [E'|E'].
  - left. by rewrite E, E'.
  - right. by rewrite E, E'.
Qed.

(** A turn of the timer after the time to live. *)
Lemma timer_forgets now P u x :
  P2PProxy.uuid2addr_ P !! u = Some x \/ P2PProxy.uuid2addr_ P !! u = None ->
  P2PProxy.REG_TTL < now - P2PProxy.ue_last_reg x -> P2PProxy.uuid2addr_ (P2PProxy.timer_step now P) !! u = None.
Proof.
  intros E H. unfold P2PProxy.timer_step. cbn [P2PProxy.uuid2addr_ P2PProxy.with_tables].
  rewrite map_lookup_filter. destruct E as [-> | ->]; [|done]. cbn [mbind option_bind].
  case_guard as G; [exfalso|done]. cbn [snd] in G.
  unfold P2PProxy.expired in G. rewrite (proj2 (Z.ltb_lt _ _) H) in G. done.
Qed.

(** C10: a client registers at its relay.  A client that may register sends its first
    relay one request.  A relay without room refuses it and stays as it was; the client
    stays unregistered, and asks again with the next turn after the interval.  A relay
    with room files the client under the address the request came from, and from then
    on forwards every relay frame for it to that address, unchanged; the client knows
    that it is registered, starts its relay back-off anew, and asks no more. *)
Theorem client_registers (e e2 : env) (c : t) (to from addr : sockaddr_in) (rest : bytes) (P : P2PProxy.t) (time : Z)
    (Hid : uuid_ok (uuid (cfg_ c))) (Hmay : may_register e c to)
    (HP : P2PProxy.fds_ P <> 0%nat) (Hf : u16_ok (sin_port from)) :
  let u := uuid (cfg_ c) in
  exists c1 P' p c2 o,
    tick_relay e c = Done (tt, c1, [SendTo to (request_of u)]) /\
    P2PProxy.handle time P (request_of u) from = (P', [mkDg MainSock from p]) /\
    handle_packet e2 (p ++ rest) (length p) addr c1 = Done (tt, c2, o) /\
    if P2PProxy.full_for P u then
      P' = P /\ relay_registered_ c2 = false /\
      (forall e3, u64 (now e + relay_register_ms (cfg_ c)) <= now e3 ->
         exists c3, tick_relay e3 c2 = Done (tt, c3, [SendTo to (request_of u)]))
    else
      relay_registered_ c2 = true /\ map_Forall (fun _ x => backoff_attempt x = 0) (conns_ c2) /\
      (forall e3, tick_relay e3 c2 = Done (tt, c2, [])) /\
      P2PProxy.uuid2addr_ P' !! u = Some (P2PProxy.mkEntry from time) /\
      forall time2 src d from2, uuid_ok src -> (length d <= 1974)%nat ->
        let pkt := frame (msg_id MSG_PROXY_RELAY_DATA) (P2PProxy.relay_payload src u d) in
        exists P2, P2PProxy.handle time2 P' pkt from2 = (P2, [mkDg MainSock from pkt]).
Proof.
  intros u. destruct (relay_answers time P from u Hid HP Hf) as (P' & r & Ea & K & Fd & Hr).
  set (c1 := set_next_relay_reg_ (u64 (now e + relay_register_ms (cfg_ c))) c).
  destruct (register_answered e2 r rest addr c1 K) as (o & Eo).
  exists c1, P'. eexists _, _, o. split; [by apply register_asked|]. split; [exact Ea|]. split; [exact Eo|].
  destruct (P2PProxy.full_for P u).
  - destruct Hr as [-> ->]. cbn [Z.eqb]. split; [done|]. split; [by destruct Hmay as (_ & ? & _)|]. intros e3 He.
    eexists. apply register_asked; [exact Hid|]. destruct Hmay as (? & ? & _ & ?). by split_and!.
  - destruct Hr as [Er ->]. cbn [Z.eqb]. split; [done|]. split.
    { intros peer x. cbn [conns_ set_conns_]. rewrite lookup_fmap. destruct (_ !! peer); [|done]. by intros [= <-]. }
    split.
    { intros e3. unfold tick_relay. rewrite gets_eq. unfold id. cbn [relay_registered_ set_conns_ set_relay_registered_].
      by rewrite andb_false_r. }
    split; [exact Er|]. intros time2 src d from2 Hs Hl.
    rewrite (P2PProxy.handle_relay time2 P' src u d from2 Hs Hid) by (rewrite ?Fd; done). rewrite Er. by eexists.
Qed.

Lemma client_registers_witness :
  exists c o c1 P' p c2 o2,
    mapM_ perform [Start (env_at 1000) (demo_config (bs "cam")) true] (initial all_callbacks) = Done (tt, c, o) /\
    tick_relay (env_at 1100) c = Done (tt, c1, [SendTo relay_at (request_of (bs "cam"))]) /\
    P2PProxy.handle 50 (P2PProxy.running 10) (request_of (bs "cam")) (mkAddr 1 1) = (P', [mkDg MainSock (mkAddr 1 1) p]) /\
    handle_packet (env_at 1200) (p ++ [0]) (length p) relay_at c1 = Done (tt, c2, o2) /\ relay_registered_ c2 = true.
Proof.
  let r := eval vm_compute in
    (mapM_ perform [Start (env_at 1000) (demo_config (bs "cam")) true] (initial all_callbacks)) in
  match r with Done (tt, ?c, ?o) =>
    exists c, o;
    destruct (client_registers (env_at 1100) (env_at 1200) c relay_at (mkAddr 1 1) relay_at [0] (P2PProxy.running 10) 50)
      as (c1 & P' & p & c2 & o2 & E1 & E2 & E3 & Hr)
  end.
  - apply P2PProxy.cam_ok.
  - split; [reflexivity|]. split; [reflexivity|]. split; [discriminate|].
    eexists _, _. split; [reflexivity|vm_compute; reflexivity].
  - discriminate.
  - by vm_compute.
  - exists c1, P', p, c2, o2. split; [vm_compute; reflexivity|]. split; [exact E1|]. split; [exact E2|].
    split; [exact E3|]. apply Hr.
Defined.

(** A registration lapses and nobody notices.  A client that knows it is registered
    never asks again, whatever happens short of a restart: no datagram it sends is a
    request.  The relay, where nobody else registers the identifier, forgets it with the
    first turn of its timer more than 120 seconds after the registration - relaying
    frames does not renew it - and from then on drops every frame for the client, which
    still takes itself for registered. *)
Theorem registration_lapses (cbs : callbacks) (cs later : list call) (s s' : t) (o o' : list event)
    (P : P2PProxy.t) (entry : P2PProxy.UuidEntry) (ins : list input) (time : Z)
    (Hrun : mapM_ perform cs (initial cbs) = Done (tt, s, o)) (Hreg : relay_registered_ s = true)
    (Hgo : Forall not_start later) (Hlater : mapM_ perform later s = Done (tt, s', o'))
    (Hentry : P2PProxy.uuid2addr_ P !! uuid (cfg_ s) = Some entry) (Hother : Forall (other (uuid (cfg_ s))) ins)
    (Httl : P2PProxy.REG_TTL < time - P2PProxy.ue_last_reg entry) :
  let P' := foldl relay_step P (ins ++ [Turn time]) in
  relay_registered_ s' = true /\ (forall to p, SendTo to p ∈ o' -> no_register p) /\
  (forall e, tick_relay e s' = Done (tt, s', [])) /\
  P2PProxy.uuid2addr_ P' !! uuid (cfg_ s) = None /\
  (forall time2 src d from, uuid_ok src -> uuid_ok (uuid (cfg_ s)) -> P2PProxy.fds_ P' <> 0%nat -> (length d <= 1974)%nat ->
     P2PProxy.handle time2 P' (frame (msg_id MSG_PROXY_RELAY_DATA) (P2PProxy.relay_payload src (uuid (cfg_ s)) d)) from =
       (P', [])).
Proof.
  intros P'. destruct (inv_reachable _ _ _ _ Hrun) as ((F & C & SS & En & R & _) & _).
  assert (inv Settled s) as I by exact (conj F (conj C (conj SS (conj En (conj R Hreg))))).
  destruct (keeps_run Settled later s s' o' Hgo I Hlater) as ((_ & _ & _ & _ & _ & Hr) & Q). cbn in Hr.
  assert (P2PProxy.uuid2addr_ P' !! uuid (cfg_ s) = None) as N.
  { unfold P'. rewrite foldl_app. cbn [foldl relay_step]. apply (timer_forgets time _ _ entry); [|exact Httl].
    destruct (relay_run_entry _ P ins Hother) as [-> | E]; [by left|by right]. }
  split; [exact Hr|]. split.
  { intros to p Hp. exact (proj1 (Forall_forall _ _) Q _ Hp eq_refl). }
  split.
  { intros e. unfold tick_relay. rewrite gets_eq. unfold id. by rewrite Hr, andb_false_r. }
  split; [exact N|]. intros time2 src d from Hs Hu Hf Hl. rewrite P2PProxy.handle_relay by done. by rewrite N.
Qed.

(** Registered, and then five minutes of turns. *)
Definition registered_run : list call :=
  [Start (env_at 1000) (demo_config (bs "cam")) true;
   Packet (env_at 1100) (frame (msg_id MSG_PROXY_REGISTER_RSP) [0]) 9 addr_zero].

Lemma registration_lapses_witness :
  let P := P2PProxy.with_tables {[ bs "cam" := P2PProxy.mkEntry (mkAddr 2 2) 90 ]} ∅ ∅ (P2PProxy.running 10) in
  let P' := foldl relay_step P ([Turn 100] ++ [Turn 211]) in
  exists s o s' o', mapM_ perform registered_run (initial all_callbacks) = Done (tt, s, o) /\
    mapM_ perform [Tick (env_at 2000); Tick (env_at 302000)] s = Done (tt, s', o') /\
    relay_registered_ s' = true /\ P2PProxy.uuid2addr_ P' !! bs "cam" = None.
Proof.
  intros P P'.
  let r := eval vm_compute in (mapM_ perform registered_run (initial all_callbacks)) in
  match r with Done (tt, ?s, ?o) =>
    let r' := eval vm_compute in (mapM_ perform [Tick (env_at 2000); Tick (env_at 302000)] s) in
    match r' with Done (tt, ?s', ?o') =>
      exists s, o, s', o';
      assert (H1 : mapM_ perform registered_run (initial all_callbacks) = Done (tt, s, o)) by (vm_compute; reflexivity);
      assert (H2 : mapM_ perform [Tick (env_at 2000); Tick (env_at 302000)] s = Done (tt, s', o'))
        by (vm_compute; reflexivity);
      destruct (registration_lapses all_callbacks registered_run [Tick (env_at 2000); Tick (env_at 302000)] s s' o o'
                  P (P2PProxy.mkEntry (mkAddr 2 2) 90) [Turn 100] 211 H1 eq_refl) as (Hr & _ & _ & Hn & _)
    end end.
  - repeat constructor.
  - exact H2.
  - reflexivity.
  - repeat constructor.
  - reflexivity.
  - split; [exact H1|]. split; [exact H2|]. split; [exact Hr|exact Hn].
Defined.

End ClientRegister.
