(* ===== verification/ClientIce.v ===== *)
(** * ICE descriptions between two clients

    The description of one client's ICE agent, from the client through the server to
    the other client, and which connection it ends up in. *)

From S2P Require Import Prelude.
From S2P Require Import Bytes.
From S2P Require Import Wire.
From S2P Require Import ProtoDef.
From S2P Require Import NetUtil.
From S2P Require Import Packet.
From S2P Require Import Handler.
From S2P Require Import PeerManage.
From S2P Require Import NatServer.
From S2P Require Import RecvProcess.
From S2P Require Import ServerSafety.
From S2P Require Import ServerLogin.
From S2P Require Import ServerConnect.
From S2P Require Import ServerQueries.
From S2P Require Import TunnelCodec.
From S2P Require Import ClientState.
From S2P Require Import ClientTunnel.
From S2P Require Import P2PClient.
From S2P Require Import ClientCrypto.
From S2P Require Import ClientInvariant.
From S2P Require Import ClientFaults.
From S2P Require Import ClientRelay.

#[local] Open Scope Z_scope.

Module ClientIce.
Import ClientState ClientTunnel P2PClient ClientCrypto ClientInvariant ClientFaults ClientRelay.

(** The datagram that carries a description to [u]. *)
Definition ice_packet (u sdp : bytes) : bytes := frame (msg_id MSG_ICE_SDP) (ServerQueries.ice_payload u sdp).

(** The octets the client writes are the server's structure. *)
Lemma ice_written u sdp :
  u16_ok (len sdp) ->
  cenc IceSdpMsg_codec (mkIceSdpMsg (uuid_field u) 0 (htons (len sdp))) ++ sdp ++ [0] = ServerQueries.ice_payload u sdp.
Proof.
  intros L. unfold ServerQueries.ice_payload. rewrite <- le_enc_htons by done.
  change (cenc IceSdpMsg_codec (mkIceSdpMsg (uuid_field u) 0 (htons (len sdp))))
    with (uuid_field u ++ [0] ++ le_enc 2 (htons (len sdp))). by rewrite <- !app_assoc.
Qed.

Lemma description_sent u sdp s :
  u <> [] -> sdp <> [] ->
  send_ice_sdp u sdp s =
    Done (tt, s, if (length sdp <=? 2003)%nat then [SendTo (nat_sock_ s) (ice_packet u sdp)] else []).
Proof.
  intros Hu Hs. unfold send_ice_sdp. destruct u as [|x u]; [done|]. destruct sdp as [|y sdp]; [done|].
  cbn [length Nat.eqb orb]. set (v := x :: u). set (d := y :: sdp). change (S (length sdp)) with (length d). cbv zeta.
  destruct (Nat.leb_spec (length d) 2003) as [L|L].
  - rewrite Nat.min_l by lia. assert (u16_ok (len d)) as U by (unfold u16_ok, len; lia).
    change (Z.of_nat (length d)) with (len d). rewrite u16_small, take_ge by done. rewrite (ice_written v d U).
    apply send_proto_eq. rewrite ServerQueries.length_ice. unfold MAX_PKT. lia.
  - unfold send_proto, send_proto_to. rewrite gets_eq.
    match goal with |- context [(_ <? ?n)%nat] => assert (MAX_PKT < n)%nat as G end; [|by rewrite (proj2 (Nat.ltb_lt _ _) G)].
    rewrite !length_app, length_take.
    assert (forall m, length (cenc IceSdpMsg_codec (mkIceSdpMsg (uuid_field v) 0 m)) = 36%nat) as G.
    { intros m. change (length (uuid_field v ++ [0] ++ le_enc 2 m) = 36%nat). by rewrite !length_app, length_uuid_field, length_le_enc. }
    rewrite G. unfold MAX_PKT. cbn [length]. lia.
Qed.

(** What the receiver reads. *)
Lemma description_read e u sdp rest addr s :
  uuid_ok u -> uuid (cfg_ s) = u -> (length sdp <= 2003)%nat ->
  handle_packet e (ice_packet u sdp ++ rest) (length (ice_packet u sdp)) addr s =
  match List.find (waits_for_sdp (conns_ s)) (table_order e (dom (conns_ s))) with
  | None => modify (set_pending_remote_sdp_ sdp) s
  | Some peer => apply_remote_ice_sdp peer sdp s
  end.
Proof.
  intros U Eu L. assert (u16_ok (len sdp)) as Ul by (unfold u16_ok, len; lia). unfold ice_packet.
  rewrite packet_frame by (unfold len; rewrite ServerQueries.length_ice; lia).
  unfold handle_proto. rewrite msg_of_id, take_app_exact by done. unfold on_ice_sdp.
  rewrite ServerQueries.length_ice. change (sizeof_IceSdpMsg - 1)%nat with 37%nat.
  rewrite (proj2 (Nat.ltb_ge _ _)) by lia. cbv zeta. rewrite ServerQueries.ice_length_field by done.
  unfold len. rewrite Nat2Z.id. rewrite (proj2 (Nat.ltb_ge _ _)) by lia.
  assert (c_strn 32 (ServerQueries.ice_payload u sdp) = u) as ->.
  { unfold ServerQueries.ice_payload. by apply c_strn_field. }
  assert (slice 36 (length sdp) (ServerQueries.ice_payload u sdp) = sdp) as ->.
  { unfold slice, ServerQueries.ice_payload. rewrite !app_assoc, <- (app_assoc _ sdp).
    rewrite drop_app_exact by (rewrite !length_app, length_uuid_field, length_be_enc; done). by apply take_app_exact. }
  rewrite gets_eq. unfold id. rewrite bool_decide_true by done.
  by destruct (List.find _ _).
Qed.

(** C11: a description reaches the other client, but not as the sender's.  The client
    sends the description of its agent for a connection to the server if it has at most
    2003 octets, and says nothing otherwise.  The server, where the target is
    registered, passes the very datagram on to the target's address.  The target gives
    it to the first of its connections that waits for a description, or keeps it for
    the next one: the datagram names the target only, and neither it nor what becomes
    of it depends on who sent it. *)
Theorem ice_description (e : env) (es : NatServer.env) (A B : t) (srv : NatServer.t) (d : Peer) (sdp rest : bytes)
    (from addr : sockaddr_in)
    (Hid : uuid_ok (uuid (cfg_ B))) (Hget : PeerManager.get (NatServer.peers_ srv) (uuid (cfg_ B)) = Some d)
    (Hsdp : sdp <> []) :
  let u := uuid (cfg_ B) in
  let p := ice_packet u sdp in
  if (length sdp <=? 2003)%nat then
    send_ice_sdp u sdp A = Done (tt, A, [SendTo (nat_sock_ A) p]) /\
    RecvProcess.handle_packet es p from srv = Done (tt, srv, [NatServer.Send (mkDg MainSock (p_pub_addr d) p)]) /\
    match List.find (waits_for_sdp (conns_ B)) (table_order e (dom (conns_ B))) with
    | None => handle_packet e (p ++ rest) (length p) addr B = Done (tt, set_pending_remote_sdp_ sdp B, [])
    | Some peer => exists c, conns_ B !! peer = Some c /\
        handle_packet e (p ++ rest) (length p) addr B =
          Done (tt, set_conns_ (<[peer := set_punch (set_remote_sdp sdp (punch c)) c]> (conns_ B)) B,
                [JuiceSetRemote peer (c_str sdp)])
    end
  else send_ice_sdp u sdp A = Done (tt, A, []).
Proof.
  intros u p. assert (u <> []) as Hu by (destruct Hid as (_ & _ & L & _); intros E; fold u in L; rewrite E in L; cbn in L; lia).
  rewrite (description_sent u sdp A Hu Hsdp). destruct (Nat.leb_spec (length sdp) 2003) as [L|L]; [|done].
  split; [done|]. split.
  { unfold p, ice_packet. rewrite ServerQueries.ice_relayed by done. fold u in Hget. by rewrite Hget. }
  unfold p. rewrite (description_read e u sdp rest addr B Hid eq_refl L).
  destruct (List.find _ _) as [peer|] eqn:F; [|done]. apply find_some in F as [_ F].
  unfold waits_for_sdp in F. destruct (conns_ B !! peer) as [c|] eqn:Ec; [|done].
  apply andb_prop in F as [F _]. apply andb_prop in F as [_ Hj].
  exists c. split; [done|]. unfold apply_remote_ice_sdp. rewrite (get_conn_eq _ _ _ _ Ec), Hj.
  destruct sdp; [done|]. cbn [negb orb length Nat.eqb]. by rewrite put_conn_eq.
Qed.

(** A client that waits for [zoe] gets the description of whoever sent one. *)
Definition waits_for_zoe : list call :=
  [Start (env_at 1000) (demo_config (bs "cam")) true; Connect (env_at 1100) (bs "zoe")].

Lemma ice_description_witness :
  exists A oA B oB c,
    mapM_ perform [Start (env_at 1000) (demo_config (bs "app")) true] (initial all_callbacks) = Done (tt, A, oA) /\
    mapM_ perform waits_for_zoe (initial all_callbacks) = Done (tt, B, oB) /\
    send_ice_sdp (bs "cam") (bs "v=1") A = Done (tt, A, [SendTo (nat_sock_ A) (ice_packet (bs "cam") (bs "v=1"))]) /\
    conns_ B !! bs "zoe" = Some c /\
    handle_packet (env_at 1200) (ice_packet (bs "cam") (bs "v=1") ++ []) (length (ice_packet (bs "cam") (bs "v=1"))) addr_zero B =
      Done (tt, set_conns_ (<[bs "zoe" := set_punch (set_remote_sdp (bs "v=1") (punch c)) c]> (conns_ B)) B,
            [JuiceSetRemote (bs "zoe") (bs "v=1")]).
Proof.
  let ra := eval vm_compute in
    (mapM_ perform [Start (env_at 1000) (demo_config (bs "app")) true] (initial all_callbacks)) in
  let rb := eval vm_compute in (mapM_ perform waits_for_zoe (initial all_callbacks)) in
  match ra with Done (tt, ?A, ?oA) => match rb with Done (tt, ?B, ?oB) =>
    let c := eval vm_compute in (default new_conn (conns_ B !! bs "zoe")) in
    exists A, oA, B, oB, c;
    assert (HA : mapM_ perform [Start (env_at 1000) (demo_config (bs "app")) true] (initial all_callbacks) =
      Done (tt, A, oA)) by (vm_compute; reflexivity);
    assert (HB : mapM_ perform waits_for_zoe (initial all_callbacks) = Done (tt, B, oB)) by (vm_compute; reflexivity);
    pose proof (ice_description (env_at 1200) ServerSafety.quiet_env A B ServerConnect.ready ServerConnect.cam (bs "v=1") []
      addr_zero addr_zero (proj2 ServerConnect.app_uuid_ok) eq_refl ltac:(discriminate)) as (H1 & _ & H3);
    assert (F : List.find (waits_for_sdp (conns_ B)) (table_order (env_at 1200) (dom (conns_ B))) = Some (bs "zoe"))
      by (vm_compute; reflexivity);
    rewrite F in H3; clear F;
    assert (Ez : conns_ B !! bs "zoe" = Some c) by (vm_compute; reflexivity)
  end end.
  split; [exact HA|]. split; [exact HB|]. split; [exact H1|].
  destruct H3 as (c' & Ec & H3). split; [exact Ez|].
  rewrite Ez in Ec. injection Ec as <-. exact H3.
Defined.

End ClientIce.
