(* ===== verification/ClientPunch.v ===== *)
(** * Two clients open a connection

    What follows the introduction ([ClientIntroduce]): the first turn of the loop that has an
    address to try sends one ping of the peer's session; whoever receives it, directly or
    through the relay, takes the connection for established, and so does the sender when the
    answer comes back. *)

From S2P Require Import Prelude.
From S2P Require Import Bytes.
From S2P Require Import Wire.
From S2P Require Import ProtoDef.
From S2P Require Import NetUtil.
From S2P Require Import Packet.
From S2P Require Import Handler.
From S2P Require Import P2PProxy.
From S2P Require ServerConnect.
From S2P Require Import TunnelCodec.
From S2P Require Import Session.
From S2P Require Import ClientState.
From S2P Require Import ClientTunnel.
From S2P Require Import P2PClient.
From S2P Require Import ClientCrypto.
From S2P Require Import ClientInvariant.
From S2P Require Import ClientFaults.
From S2P Require Import ClientRelay.
From S2P Require Import ClientIntroduce.

#[local] Open Scope Z_scope.

Module ClientPunch.
Import ClientState ClientTunnel P2PClient ClientCrypto ClientInvariant ClientFaults ClientRelay ClientIntroduce.

(** ** Frames without payload *)

Definition control (ty : TunnelType) (sid : Z) : WireTunnel := mkWireTunnel (tunnel_type ty) sid 0 0 0 0 [].

Lemma control_fields ty sid : u16_ok sid -> fields_ok (control ty sid).
Proof.
  intros H. unfold fields_ok, control. cbn [wt_type wt_session_id wt_channel_id wt_flags wt_seq wt_ack wt_payload].
  unfold byte_ok, u16_ok, len in *. destruct ty; cbn; split_and!; lia.
Qed.

(** They are not encrypted. *)
Lemma encrypt_control e peer ty sid s :
  u16_ok sid -> encrypt_tunnel_frame e peer (tunnel_bytes (control ty sid)) s = Done (None, s, []).
Proof.
  intros H. unfold encrypt_tunnel_frame.
  pose proof (frame_fields (control ty sid) [] (control_fields ty sid H)) as [_ L]. rewrite app_nil_r in L.
  rewrite L. by rewrite length_tunnel_bytes.
Qed.

Lemma decrypt_control peer ty sid rest n s :
  decrypt_tunnel_frame peer (tunnel_bytes (control ty sid) ++ rest) n s = Done (None, s, []).
Proof. unfold decrypt_tunnel_frame. change (octet _ 7) with 0. by rewrite orb_true_r. Qed.

(** ** The direct path *)

(** The relay is not, or not yet, what a frame to this connection takes. *)
Definition direct_first (e : env) (s : t) (c : Conn) : Prop :=
  juice (punch c) = false /\ have_direct (punch c) = true /\
  (direct_ok (punch c) = true \/
   (relay_ok (relay c) = false /\
    (relay_registered_ s = false \/ (force_relay (cfg_ s) = false /\ now e < punch_deadline (punch c))))).

(** The frame to the public address and, if there is one, to the private one. *)
Definition direct_out (c : Conn) (f : bytes) : list event :=
  SendTo (direct (punch c)) f :: (if have_lan (punch c) then [SendTo (direct_lan (punch c)) f] else []).

Lemma send_direct_eq e peer c ty sid s :
  conns_ s !! peer = Some c -> conn_ok peer c -> direct_first e s c -> u16_ok sid ->
  send_tunnel_via e peer (tunnel_bytes (control ty sid)) s = Done (tt, s, direct_out c (tunnel_bytes (control ty sid))).
Proof.
  intros E (P & I & _) (J & D & R) H. unfold send_tunnel_via. rewrite (get_conn_eq _ _ _ _ E), gets_eq. cbv zeta.
  unfold id. rewrite J, D, P, I. cbn [andb nth_error Z.to_nat].
  set (rdy := relay_ok (relay c) || _).
  assert ((direct_ok (punch c) && true) || (negb rdy && true) = true) as G.
  { destruct R as [->|[Ro R]]; [done|]. unfold rdy. rewrite Ro, !andb_true_r. cbn [orb].
    destruct R as [->|[-> L]]; [by rewrite orb_true_r|]. rewrite (proj2 (Z.leb_gt _ _) L), andb_false_r. by rewrite orb_true_r. }
  assert ((if tunnel_enc_ s then encrypt_tunnel_frame e (peer_uuid c) (tunnel_bytes (control ty sid)) else mret None) s =
    Done (None, s, [])) as Enc by (destruct (tunnel_enc_ s); [by apply encrypt_control|done]).
  rewrite (step_eq _ _ _ _ _ Enc). cbn [default option_rect from_option andb]. rewrite G. apply emit_eq.
  by destruct (have_lan (punch c)).
Qed.

(** ** Routes *)

(** The parts of the state that decide how a frame goes out. *)
Definition same_route (s s2 : t) : Prop :=
  conns_ s2 = conns_ s /\ cfg_ s2 = cfg_ s /\ relay_registered_ s2 = relay_registered_ s /\ proxies_ s2 = proxies_ s.

(** Control frames to [peer] leave as [out] says. *)
Definition routes (e : env) (peer : bytes) (s : t) (out : bytes -> list event) : Prop :=
  forall s2 ty sid, same_route s s2 -> u16_ok sid ->
    send_tunnel_via e peer (tunnel_bytes (control ty sid)) s2 = Done (tt, s2, out (tunnel_bytes (control ty sid))).

Lemma routes_direct e peer c s :
  conns_ s !! peer = Some c -> conn_ok peer c -> direct_first e s c -> routes e peer s (direct_out c).
Proof.
  intros E K (J & D & R) s2 ty sid (Ec & Ef & Er & _) H. apply send_direct_eq; [by rewrite Ec|done| |done].
  unfold direct_first. by rewrite Er, Ef.
Qed.

(** ** Turns in which one peer has something to do *)

(** A traversal in which only [x] does anything. *)
Lemma mapM_only {A} (f : A -> M unit) (P : t -> Prop) x l s s' o :
  NoDup l -> x ∈ l -> P s -> P s' -> (forall y u, y ∈ l -> y <> x -> P u -> f y u = Done (tt, u, [])) ->
  f x s = Done (tt, s', o) -> mapM_ f l s = Done (tt, s', o).
Proof.
  intros N Hx Ps Ps' Q E. apply list_elem_of_split in Hx as (l1 & l2 & ->).
  apply NoDup_app in N as (_ & N1 & (N2 & _)%NoDup_cons).
  assert (forall l' u, (forall y, y ∈ l' -> y ∈ l1 ++ x :: l2 /\ y <> x) -> P u -> mapM_ f l' u = Done (tt, u, [])) as Idle.
  { intros l'. induction l' as [|y l' IH]; intros u S Pu; [done|]. cbn [mapM_].
    destruct (S y ltac:(by left)) as [Y1 Y2]. rewrite (step_eq _ _ _ _ _ (Q y u Y1 Y2 Pu)). apply IH; [|done].
    intros z Hz. apply S. by right. }
  rewrite mapM_app_eq, (step_eq _ _ s tt s).
  - cbn [mapM_]. rewrite <- (app_nil_r o). eapply bind_eq; [exact E|]. apply Idle; [|done].
    intros y Hy. split; [set_solver|]. by intros ->.
  - apply Idle; [|done]. intros y Hy. split; [set_solver|]. intros ->. apply (N1 _ Hy). by left.
Qed.

(** The tables are traversed in some order. *)
Definition traverses (e : env) : Prop := forall X, table_order e X ≡ₚ elements X.

(** A connection on which the loop does nothing, a session that has nothing to send. *)
Definition settled (c : Conn) : Prop := connecting c = false \/ connected c = true.

Definition idle (e : env) (x : Session.t) : Prop :=
  Session.pending_ x = [] /\ u64 (now e - Session.last_ping_ms_ x) < 15000.

Definition others_settled (peer : bytes) (s : t) : Prop :=
  forall p c, p <> peer -> conns_ s !! p = Some c -> settled c.

Definition others_idle (e : env) (peer : bytes) (s : t) : Prop :=
  forall p x, p <> peer -> sessions_ s !! p = Some x -> idle e x.

Lemma traversed e X x : traverses e -> x ∈ X -> NoDup (table_order e X) /\ x ∈ table_order e X.
Proof. intros T H. rewrite (T X). split; [apply NoDup_elements|by apply elem_of_elements]. Qed.

Lemma in_order e X x : traverses e -> x ∈ table_order e X -> x ∈ X.
Proof. intros T H. rewrite (T X) in H. by apply elem_of_elements. Qed.

Lemma one_connection e peer c s s' o :
  traverses e -> conns_ s !! peer = Some c -> others_settled peer s -> others_settled peer s' ->
  dom (conns_ s') = dom (conns_ s) -> connecting c = true -> connected c = false ->
  (tick_conn_punch e peer;; tick_conn_relay e peer;; tick_conn_fsm peer) s = Done (tt, s', o) ->
  tick_connections e s = Done (tt, s', o).
Proof.
  intros T E S S' D Cg Cd H. unfold tick_connections, for_conns. rewrite gets_eq.
  assert (peer ∈ dom (conns_ s)) as Hd by (apply elem_of_dom; eauto). destruct (traversed e _ _ T Hd) as [N Hx].
  apply (mapM_only _ (fun u => others_settled peer u /\ dom (conns_ u) = dom (conns_ s)) peer); try done.
  - intros y u Hy Ne [Su Du]. apply in_order in Hy; [|done]. rewrite <- Du in Hy. apply elem_of_dom in Hy as [d Ed].
    rewrite (get_conn_eq _ _ _ _ Ed). destruct (Su _ _ Ne Ed) as [->| ->]; [done|]. by rewrite orb_true_r.
  - by rewrite (get_conn_eq _ _ _ _ E), Cg, Cd.
Qed.

(** The session of [peer], made if there is none. *)
Definition session_of (peer : bytes) (s : t) : Session.t :=
  default (Session.create (next_session_id_ s) true true) (sessions_ s !! peer).

Definition opened (peer : bytes) (s : t) : t :=
  match sessions_ s !! peer with
  | Some _ => s
  | None => set_next_session_id_ (u16 (next_session_id_ s + 1)) (set_sessions_ (<[peer := session_of peer s]> (sessions_ s)) s)
  end.

Lemma session_for_opened peer s : session_for peer s = Done (session_of peer s, opened peer s, []).
Proof.
  unfold session_for, opened, session_of. rewrite gets_eq. destruct (sessions_ s !! peer) as [x|]; [done|].
  rewrite gets_eq. cbv zeta. by rewrite modify_eq.
Qed.

Lemma session_of_ok peer s : inv Anything s -> session_ok (session_of peer s).
Proof. intros I. by destruct (gives_session_for Anything peer s _ _ _ I (session_for_opened peer s)) as (_ & X & _). Qed.

Lemma opened_same peer s :
  conns_ (opened peer s) = conns_ s /\ cfg_ (opened peer s) = cfg_ s /\ cbs_ (opened peer s) = cbs_ s /\
  addr_to_peer_ (opened peer s) = addr_to_peer_ s /\ relay_registered_ (opened peer s) = relay_registered_ s /\
  sessions_ (opened peer s) = <[peer := session_of peer s]> (sessions_ s).
Proof.
  unfold opened, session_of. destruct (sessions_ s !! peer) as [x|] eqn:E; [|done].
  split_and!; try done. cbn [default from_option]. by rewrite insert_id.
Qed.

(** ** The first turn *)

(** The ping of the session of [peer] is due, and it has nothing else to send. *)
Definition ping_due (e : env) (peer : bytes) (s : t) : Prop :=
  Session.pending_ (session_of peer s) = [] /\ 15000 <= u64 (now e - Session.last_ping_ms_ (session_of peer s)).

(** It is for a session that has still to be made, after 15 seconds of clock. *)
Lemma new_ping_due e peer s :
  sessions_ s !! peer = None -> 15000 <= now e < 18446744073709551616 -> ping_due e peer s.
Proof.
  intros E N. unfold ping_due, session_of. rewrite E. split; [done|]. cbn [default from_option].
  change (Session.last_ping_ms_ (Session.create _ _ _)) with 0. rewrite Z.sub_0_r, u64_small by (unfold u64_ok; lia). lia.
Qed.

Definition ping_frame (peer : bytes) (s : t) : bytes := tunnel_bytes (control TT_PING (Session.session_id_ (session_of peer s))).

Definition pong_frame (sid : Z) : bytes := tunnel_bytes (control TT_PONG sid).

(** [c] is to be opened and its address to be tried, now. *)
Definition punching (e : env) (peer : bytes) (cfg : Config) (c : Conn) : Prop :=
  peer_uuid c = peer /\ connecting c = true /\ connected c = false /\ have_direct (punch c) = true /\
  juice (punch c) = false /\ direct_ok (punch c) = false /\ relay_ok (relay c) = false /\
  force_relay cfg = false /\ next_punch (punch c) <= now e < punch_deadline (punch c).

Definition punched (e : env) (cfg : Config) (c : Conn) : Conn :=
  set_punch (set_next_punch (u64 (now e + punch_interval_ms cfg)) (punch c)) c.

Lemma conn_turn e peer c s :
  conns_ s !! peer = Some c -> conn_ok peer c -> punching e peer (cfg_ s) c ->
  (tick_conn_punch e peer;; tick_conn_relay e peer;; tick_conn_fsm peer) s =
    Done (tt, set_conns_ (<[peer := punched e (cfg_ s) c]> (conns_ s)) (opened peer s), []).
Proof.
  intros E (P & _ & _) (U & Hg & Hd & Hh & J & D & Ro & F & N1 & N2).
  unfold tick_conn_punch. rewrite !bind_assoc, gets_eq, !bind_assoc, (get_conn_eq _ _ _ _ E). cbv zeta.
  rewrite Hh. rewrite (proj2 (Z.ltb_lt _ _) N2), (proj2 (Z.leb_le _ _) N1). cbn [andb].
  unfold do_punch. rewrite !bind_assoc, (get_conn_eq _ _ _ _ E), J, U, P.
  destruct (opened_same peer s) as (Oc & Of & _). set (s1 := opened peer s) in *.
  rewrite !bind_assoc, (step_eq _ _ _ _ _ (session_for_opened peer s)). fold s1.
  unfold control_frame. rewrite Session.new_frame_empty, bind_assoc, lift_eq. cbn [mapM_]. rewrite skip_eq.
  assert (conns_ s1 !! peer = Some c) as E1 by (by rewrite Oc). rewrite (update_conn_eq _ _ _ _ _ E1), Oc.
  fold (punched e (cfg_ s) c). set (s2 := set_conns_ _ s1).
  assert (conns_ s2 !! peer = Some (punched e (cfg_ s) c)) as L2 by (cbn; by rewrite lookup_insert_eq).
  rewrite !bind_assoc, (get_conn_eq _ _ _ _ L2). cbv zeta.
  change (have_direct (punch (punched e (cfg_ s) c))) with (have_direct (punch c)). rewrite Hh, F. cbn [negb andb].
  rewrite skip_eq. unfold tick_conn_relay. rewrite !bind_assoc, gets_eq. cbv zeta. unfold id.
  assert (cfg_ s2 = cfg_ s) as -> by exact Of.
  rewrite !bind_assoc, (get_conn_eq _ _ _ _ L2), F. unfold punch_over.
  change (have_direct (punch (punched e (cfg_ s) c))) with (have_direct (punch c)).
  change (punch_deadline (punch (punched e (cfg_ s) c))) with (punch_deadline (punch c)).
  rewrite (proj2 (Z.leb_gt _ _) N2), andb_false_r. cbn [orb andb]. rewrite skip_eq.
  unfold tick_conn_fsm. rewrite (get_conn_eq _ _ _ _ L2).
  change (relay_ok (relay (punched e (cfg_ s) c))) with (relay_ok (relay c)). by rewrite Ro.
Qed.

(** A session with nothing to send changes nothing. *)
Lemma tick_idle e x : idle e x -> Session.tick (now e) x = Done (x, []).
Proof.
  intros [P L]. unfold Session.tick, Session.resend. cbv zeta. rewrite (proj2 (Z.leb_gt _ _) L), P.
  cbn. destruct x; cbn in *. by subst.
Qed.

Lemma tick_pings e x :
  Session.pending_ x = [] -> Session.on_tx x = true -> 15000 <= u64 (now e - Session.last_ping_ms_ x) ->
  exists y, Session.tick (now e) x = Done (y, [Session.Tx (tunnel_bytes (control TT_PING (Session.session_id_ x)))]).
Proof.
  intros P T L. unfold Session.tick, Session.resend. cbv zeta. rewrite (proj2 (Z.leb_le _ _) L), P, Session.new_frame_empty.
  unfold Session.tx. rewrite T. by eexists.
Qed.

Lemma set_same_sessions s : set_sessions_ (sessions_ s) s = s.
Proof. by destruct s. Qed.

(** Its keep-alive is due. *)
Lemma sessions_turn e peer c x s :
  traverses e -> conns_ s !! peer = Some c -> conn_ok peer c -> direct_first e s c -> session_ok x ->
  sessions_ s !! peer = Some x -> others_idle e peer s ->
  Session.pending_ x = [] -> 15000 <= u64 (now e - Session.last_ping_ms_ x) ->
  exists y, tick_sessions e s =
    Done (tt, set_sessions_ (<[peer := y]> (sessions_ s)) s,
          direct_out c (tunnel_bytes (control TT_PING (Session.session_id_ x)))).
Proof.
  intros T E K D (_ & Ht & Hi & _) Es Q P N. destruct (tick_pings e x P Ht N) as [y Ey]. exists y.
  unfold tick_sessions. rewrite gets_eq.
  assert (peer ∈ dom (sessions_ s)) as Hd by (apply elem_of_dom; eauto). destruct (traversed e _ _ T Hd) as [Nd Hx].
  apply (mapM_only _ (fun u => others_idle e peer u /\ dom (sessions_ u) = dom (sessions_ s)) peer); try done.
  - split; [|cbn; rewrite dom_insert_L; set_solver]. intros p z Ne. cbn. rewrite lookup_insert_ne by done. by apply Q.
  - intros p u Hp Ne [Qu Du]. apply in_order in Hp; [|done]. rewrite <- Du in Hp. apply elem_of_dom in Hp as [z Ez].
    rewrite gets_eq, Ez, (tick_idle _ _ (Qu _ _ Ne Ez)), lift_eq. cbn [fst snd]. unfold with_session.
    rewrite modify_eq. cbn [mapM_]. by rewrite insert_id, set_same_sessions.
  - rewrite gets_eq, Es, Ey, lift_eq. cbn [fst snd]. unfold with_session. rewrite modify_eq. cbn [mapM_].
    set (s1 := set_sessions_ _ s). unfold session_event. rewrite bind_assoc, gets_eq. change (conns_ s1) with (conns_ s).
    rewrite E. rewrite <- (app_nil_r (direct_out _ _)). eapply bind_eq; [by apply send_direct_eq|done].
Qed.

(** Nobody else has anything to do in this turn. *)
Definition alone (e : env) (peer : bytes) (s : t) : Prop := others_settled peer s /\ others_idle e peer s.

Lemma first_ping e peer c s :
  inv Anything s -> traverses e -> conns_ s !! peer = Some c -> alone e peer s -> punching e peer (cfg_ s) c ->
  ping_due e peer s ->
  exists s', (tick_connections e;; tick_sessions e) s = Done (tt, s', direct_out c (ping_frame peer s)) /\
    conns_ s' = <[peer := punched e (cfg_ s) c]> (conns_ s) /\ addr_to_peer_ s' = addr_to_peer_ s /\ cbs_ s' = cbs_ s /\
    cfg_ s' = cfg_ s /\ relay_registered_ s' = relay_registered_ s.
Proof.
  intros I T Ec [Oc Oq] P [Dp Dn]. pose proof I as (_ & Hc & _). specialize (Hc _ _ Ec).
  pose proof (session_of_ok peer s I) as Hx. destruct (opened_same peer s) as (Sc & Sf & Sb & Sa & Sr & Ss).
  pose proof P as (U & Cg & Cd & Hh & J & D & Ro & F & N1 & N2).
  assert (tick_connections e s = Done (tt, set_conns_ (<[peer := punched e (cfg_ s) c]> (conns_ s)) (opened peer s), [])) as E1.
  { apply (one_connection e peer c); try done.
    - intros p d Ne. cbn. rewrite lookup_insert_ne by done. by apply Oc.
    - cbn. rewrite dom_insert_L. apply elem_of_dom_2 in Ec. set_solver.
    - by apply conn_turn. }
  set (s1 := set_conns_ _ _) in *.
  destruct (sessions_turn e peer (punched e (cfg_ s) c) (session_of peer s) s1) as (y & E2); try done.
  - cbn. by rewrite lookup_insert_eq.
  - split; [exact J|]. split; [exact Hh|]. right. split; [exact Ro|]. right. split; [|exact N2].
    change (cfg_ s1) with (cfg_ (opened peer s)). by rewrite Sf.
  - change (sessions_ s1) with (sessions_ (opened peer s)). by rewrite Ss, lookup_insert_eq.
  - intros p z Ne. change (sessions_ s1) with (sessions_ (opened peer s)). rewrite Ss, lookup_insert_ne by done. by apply Oq.
  - eexists. split; [exact (bind_eq _ _ _ _ _ _ _ _ _ E1 E2)|]. cbn. by split_and!.
Qed.

(** ** A frame arrives *)

(** What the session of [peer] makes of a control frame: a ping is answered. *)
Lemma session_control e peer ty sid c out s :
  inv Anything s -> conns_ s !! peer = Some c -> routes e peer s out -> u16_ok sid -> ty = TT_PING \/ ty = TT_PONG ->
  exists s' o, (x ← session_for peer; r ← lift (Session.on_frame (tunnel_bytes (control ty sid)) x);
                with_session e peer r.1 r.2) s = Done (tt, s', o) /\
    (ty = TT_PING -> exists sid', u16_ok sid' /\ o = out (pong_frame sid')) /\ (ty = TT_PONG -> o = []) /\
    conns_ s' = conns_ s /\ cbs_ s' = cbs_ s.
Proof.
  intros I E D H Ty.
  match goal with |- context [(session_for peer ≫= ?kk) s] =>
    destruct (session_for_eq peer kk s I) as (x & n & m & Ex & X & I1) end.
  rewrite Ex. clear Ex. set (s1 := set_next_session_id_ _ _) in *.
  pose proof (read_tunnel_bytes _ [] (control_fields ty sid H)) as R. rewrite app_nil_r in R.
  destruct X as (_ & Xt & Xi & _). destruct Ty as [->| ->].
  - assert (Session.on_frame (tunnel_bytes (control TT_PING sid)) x =
      Done (x, [Session.Tx (pong_frame (Session.session_id_ x))])) as Ey.
    { unfold Session.on_frame. rewrite R. cbn [wt_type control]. change (tunnel_type_of (tunnel_type TT_PING)) with (Some TT_PING).
      unfold Session.reply_pong. rewrite Session.new_frame_empty. unfold Session.tx. by rewrite Xt. }
    rewrite Ey, lift_eq. cbn [fst snd]. unfold with_session. rewrite modify_eq. cbn [mapM_].
    set (s2 := set_sessions_ _ s1). unfold session_event. rewrite bind_assoc, gets_eq.
    change (conns_ s2) with (conns_ s). rewrite E.
    exists s2, (out (pong_frame (Session.session_id_ x)) ++ []). split; [|split; [|done]].
    + eapply bind_eq; [|reflexivity]. by apply D.
    + intros _. exists (Session.session_id_ x). by rewrite app_nil_r.
  - assert (Session.on_frame (tunnel_bytes (control TT_PONG sid)) x = Done (x, [])) as Ey.
    { unfold Session.on_frame. by rewrite R. }
    rewrite Ey, lift_eq. cbn [fst snd]. unfold with_session. rewrite modify_eq. cbn [mapM_].
    by eexists _, [].
Qed.

Lemma control_arrives e peer ty sid rest c out s :
  inv Anything s -> conns_ s !! peer = Some c -> routes e peer s out -> u16_ok sid -> ty = TT_PING \/ ty = TT_PONG ->
  exists s' o, on_tunnel_frame e (tunnel_bytes (control ty sid) ++ rest) 14 peer s = Done (tt, s', o) /\
    (ty = TT_PING -> exists sid', u16_ok sid' /\ o = out (pong_frame sid')) /\ (ty = TT_PONG -> o = []) /\
    conns_ s' = conns_ s /\ cbs_ s' = cbs_ s.
Proof.
  intros I E D H Ty. unfold on_tunnel_frame. rewrite gets_eq.
  assert ((if tunnel_enc_ s then decrypt_tunnel_frame peer (tunnel_bytes (control ty sid) ++ rest) 14 else mret None) s =
    Done (None, s, [])) as Dec by (destruct (tunnel_enc_ s); [by apply decrypt_control|done]).
  rewrite (step_eq _ _ _ _ _ Dec). cbn [default from_option].
  rewrite take_app_exact by apply length_tunnel_bytes. by apply (session_control e peer ty sid c).
Qed.

(** A frame that comes directly from the address of a peer. *)
Lemma direct_arrives e from peer ty sid rest c out s :
  inv Anything s -> addr_to_peer_ s !! addr_key from = Some peer -> conns_ s !! peer = Some c -> peer_uuid c = peer ->
  direct_ok (punch c) = false -> connected c = false -> on_connected (cbs_ s) = true ->
  routes e peer s out -> u16_ok sid -> ty = TT_PING \/ ty = TT_PONG ->
  exists s' o c', handle_packet e (tunnel_bytes (control ty sid) ++ rest) 14 from s =
      Done (tt, s', o ++ [OnConnected peer false]) /\
    (ty = TT_PING -> exists sid', u16_ok sid' /\ o = out (pong_frame sid')) /\ (ty = TT_PONG -> o = []) /\
    conns_ s' !! peer = Some c' /\ connected c' = true /\ direct_ok (punch c') = true.
Proof.
  intros I A E U Dk Cn Cb D H Ty. unfold handle_packet.
  rewrite take_app_exact by apply length_tunnel_bytes.
  assert (codec_read_head (tunnel_bytes (control ty sid)) = None) as ->.
  { pose proof (tunnelled_no_head (tunnel_bytes (control ty sid)) 14) as T.
    rewrite take_ge in T by (by rewrite length_tunnel_bytes). apply T. by unfold tunnelled. }
  change (octet (tunnel_bytes (control ty sid) ++ rest) 0) with 80. change (octet (tunnel_bytes (control ty sid) ++ rest) 1) with 84.
  change ((2 <=? 14)%nat && (80 =? u8 (Z.shiftr TUNNEL_MAGIC 8)) && (84 =? u8 (Z.land TUNNEL_MAGIC 255))) with true. cbv iota.
  unfold on_direct_frame. rewrite gets_eq. unfold id. rewrite A. unfold conn_at. rewrite bind_assoc, gets_eq, E, ret_eq.
  destruct (control_arrives e peer ty sid rest c out s I E D H Ty) as (s1 & o & E1 & H1 & H2 & C1 & B1).
  exists (set_conns_ (<[peer := set_connected true (set_punch (set_direct_ok true (punch c)) c)]> (conns_ s1)) s1), o.
  eexists. split; [|split; [exact H1|split; [exact H2|]]].
  - eapply bind_eq; [exact E1|]. rewrite (get_conn_eq _ c) by (by rewrite C1). rewrite Dk. cbv zeta. rewrite put_conn_eq.
    change (connected (set_punch (set_direct_ok true (punch c)) c)) with (connected c). rewrite Cn, Cb. cbn [negb andb].
    rewrite put_conn_eq. cbn [conns_ set_conns_]. rewrite insert_insert_eq.
    change (peer_uuid (set_punch (set_direct_ok true (punch c)) c)) with (peer_uuid c). by rewrite U.
  - cbn. rewrite lookup_insert_eq. by split_and!.
Qed.

(** ** Directly *)

(** The connection towards [peer] at [a], not yet established. *)
Definition opening (s : t) (peer : bytes) (a : sockaddr_in) (c : Conn) : Prop :=
  conns_ s !! peer = Some c /\ peer_uuid c = peer /\ addr_to_peer_ s !! addr_key a = Some peer /\
  direct (punch c) = a /\ direct_ok (punch c) = false /\ connected c = false /\ on_connected (cbs_ s) = true.

(** C5: two clients without ICE agents connect directly.  Take any two clients that can be
    reached by any history and that have each other's addresses, as the introduction leaves
    them ([clients_introduced]), neither with an ICE agent for the other - with one, libjuice
    tries the addresses and the client itself sends nothing - nor on the relay path.  Consider
    the turn of its loop in which the first is due to try, while its other connections are
    established or not being opened and their sessions have nothing to send, and its session
    with the second, if it has one already, waits for no acknowledgement and sent its last
    ping 15 seconds ago or earlier; a session made in this turn counts from the start of the
    clock, which must show 15 seconds or more.  In that turn one ping leaves for the other's
    address.  The other, receiving it from the first's address, reports the connection as
    direct and answers, and the first, receiving the answer before its time for a direct
    connection is over, does the same: one datagram each way. *)
Theorem clients_connect_directly (cbsA cbsB : callbacks) (csA csB : list call) (A B : t) (oA oB : list event)
    (uA uB : bytes) (a b : sockaddr_in) (ca cb : Conn) (eA eA2 eB : env)
    (HA : mapM_ perform csA (initial cbsA) = Done (tt, A, oA)) (HB : mapM_ perform csB (initial cbsB) = Done (tt, B, oB))
    (OA : opening A uB b ca) (OB : opening B uA a cb)
    (TO : traverses eA) (CA : alone eA uB A) (PA : punching eA uB (cfg_ A) ca) (TA : ping_due eA uB A)
    (TA2 : now eA2 < punch_deadline (punch ca)) (DB : direct_first eB B cb) :
  exists A1 ping lanA, (tick_connections eA;; tick_sessions eA) A = Done (tt, A1, SendTo b ping :: lanA) /\
    length ping = 14%nat /\
    forall rest, exists B1 pong lanB cb',
      handle_packet eB (ping ++ rest) 14 a B = Done (tt, B1, (SendTo a pong :: lanB) ++ [OnConnected uA false]) /\
      conns_ B1 !! uA = Some cb' /\ connected cb' = true /\ direct_ok (punch cb') = true /\ length pong = 14%nat /\
      forall rest2, exists A2 ca', handle_packet eA2 (pong ++ rest2) 14 b A1 = Done (tt, A2, [OnConnected uB false]) /\
        conns_ A2 !! uB = Some ca' /\ connected ca' = true /\ direct_ok (punch ca') = true.
Proof.
  destruct OA as (EA & UA & RA & DA & NA & GA & KA), OB as (EB & UB & RB & DbB & NB & GB & KB).
  pose proof HA as [IA _]%inv_reachable. pose proof HB as [IB _]%inv_reachable.
  pose proof (session_of_ok uB A IA) as (_ & _ & Hi & _). pose proof IB as (_ & CB & _). specialize (CB _ _ EB).
  destruct (first_ping eA uB ca A IA TO EA CA PA TA) as (A1 & E1 & S1 & R1 & B1' & F1 & G1).
  assert (inv Anything A1) as I1.
  { assert (gives Anything (fun _ => True) (tick_connections eA;; tick_sessions eA)) as G
      by (apply (gives_bind Anything (fun _ => True) _ _ _ (keeps_tick_connections Anything eA)); intros _ _;
          apply keeps_tick_sessions).
    by destruct (G _ _ _ _ IA E1). }
  pose proof E1 as E1'. unfold direct_out in E1'. rewrite DA in E1'.
  exists A1, (ping_frame uB A). eexists. split; [exact E1'|]. split; [apply length_tunnel_bytes|]. intros rest.
  destruct (direct_arrives eB a uA TT_PING _ rest cb (direct_out cb) B IB RB EB UB NB GB KB
    (routes_direct _ _ _ _ EB CB DB) Hi (or_introl eq_refl)) as (B2 & o & cb' & E2 & Ho & _ & L2 & C2 & D2).
  destruct (Ho eq_refl) as (sid & Hsid & ->). unfold direct_out in E2. rewrite DbB in E2.
  exists B2, (pong_frame sid). eexists _, cb'. split; [exact E2|]. split; [exact L2|]. split; [exact C2|]. split; [exact D2|].
  split; [apply length_tunnel_bytes|]. intros rest2.
  destruct PA as (_ & _ & _ & Hh & J & _ & Ro & Ff & _).
  set (c1 := punched eA (cfg_ A) ca) in *.
  assert (conns_ A1 !! uB = Some c1) as L1 by (by rewrite S1, lookup_insert_eq).
  pose proof I1 as (_ & C1 & _). specialize (C1 _ _ L1).
  destruct (direct_arrives eA2 b uB TT_PONG sid rest2 c1 (direct_out c1) A1 I1) as (A2 & o2 & ca' & E3 & _ & Ho2 & L3 & C3 & D3);
    try done.
  - by rewrite R1.
  - by rewrite B1'.
  - apply routes_direct; [done|done|]. split; [exact J|]. split; [exact Hh|]. right. split; [exact Ro|]. right.
    by rewrite F1.
  - by right.
  - rewrite (Ho2 eq_refl) in E3. by exists A2, ca'.
Qed.

(** ** Through the relay *)

Lemma routes_relay e peer c to s :
  conns_ s !! peer = Some c -> peer_uuid c = peer -> on_relay_path e s c to ->
  routes e peer s (fun f => [SendTo to (relay_packet (uuid (cfg_ s)) peer f)]).
Proof.
  intros E U (Dk & Rg & Up & px & rest & Hp & Ht) s2 ty sid (Ec & Ef & Er & Ep) H. unfold send_tunnel_via.
  rewrite (get_conn_eq _ c) by (by rewrite Ec). rewrite gets_eq. cbv zeta. unfold id.
  rewrite U, Dk, Er, Rg, Ep, Hp, Ef. rewrite !andb_false_r. cbn [andb orb negb length Nat.eqb].
  assert (relay_ok (relay c) || (force_relay (cfg_ s) || (punch_deadline (punch c) <=? now e)) = true) as ->.
  { destruct Up as [->|[->|Up]]; [done|by rewrite orb_true_r|]. rewrite (proj2 (Z.leb_le _ _) Up). by rewrite !orb_true_r. }
  assert ((if tunnel_enc_ s2 then encrypt_tunnel_frame e peer (tunnel_bytes (control ty sid)) else mret None) s2 =
    Done (None, s2, [])) as Enc by (destruct (tunnel_enc_ s2); [by apply encrypt_control|done]).
  rewrite (step_eq _ _ _ _ _ Enc). cbn [default from_option negb andb orb].
  rewrite (proj2 (Nat.ltb_ge _ _)) by (rewrite length_tunnel_bytes; cbn; unfold MAX_PKT; lia). by rewrite Ht.
Qed.

(** The time for a direct connection is over and the next attempt through the relay is due. *)
Definition falling_back (e : env) (peer : bytes) (s : t) (c : Conn) : Prop :=
  peer_uuid c = peer /\ connecting c = true /\ connected c = false /\ have_direct (punch c) = true /\
  relay_ok (relay c) = false /\ force_relay (cfg_ s) = false /\ auto_relay (cfg_ s) = true /\
  punch_deadline (punch c) <= now e /\ next_relay_ping (relay c) <= now e.

Lemma relay_ping_turn e peer c to s :
  inv Anything s -> traverses e -> conns_ s !! peer = Some c -> others_settled peer s ->
  falling_back e peer s c -> on_relay_path e s c to ->
  exists s' sid, u16_ok sid /\
    tick_connections e s =
      Done (tt, s', [SendTo to (relay_packet (uuid (cfg_ s)) peer (tunnel_bytes (control TT_PING sid)))]) /\
    conns_ s' = <[peer := set_relay (set_next_relay_ping (u64 (now e + punch_interval_ms (cfg_ s))) (relay c)) c]> (conns_ s) /\
    same_route s (set_conns_ (conns_ s) s') /\ cbs_ s' = cbs_ s.
Proof.
  intros I T E Oc (U & Hg & Hd & Hh & Ro & F & Au & N1 & N2) Path. pose proof Path as (Dk & Rg & _ & px & rest & Hp & _).
  set (c1 := set_relay (set_next_relay_ping (u64 (now e + punch_interval_ms (cfg_ s))) (relay c)) c).
  assert (exists s1 sid, u16_ok sid /\ same_route s s1 /\ cbs_ s1 = cbs_ s /\
    (tick_conn_punch e peer;; tick_conn_relay e peer;; tick_conn_fsm peer) s =
      Done (tt, set_conns_ (<[peer := c1]> (conns_ s1)) s1,
            [SendTo to (relay_packet (uuid (cfg_ s)) peer (tunnel_bytes (control TT_PING sid)))]))
    as (s1 & sid & Hs & R1 & B1 & E1).
  2:{ pose proof R1 as (C1 & _). exists (set_conns_ (<[peer := c1]> (conns_ s1)) s1), sid. split; [exact Hs|].
      split; [|split; [cbn; by rewrite C1|by destruct R1 as (_ & ? & ? & ?)]].
      apply (one_connection e peer c); try done; rewrite C1.
      - intros p d Ne. cbn. rewrite lookup_insert_ne by done. by apply Oc.
      - cbn. rewrite dom_insert_L. apply elem_of_dom_2 in E. set_solver. }
  unfold tick_conn_punch. rewrite !bind_assoc, gets_eq, !bind_assoc, (get_conn_eq _ _ _ _ E). cbv zeta.
  rewrite Hh. rewrite (proj2 (Z.ltb_ge _ _) N1). cbn [andb].
  rewrite !bind_assoc, skip_eq, !bind_assoc, (get_conn_eq _ _ _ _ E). cbv zeta.
  rewrite Hh, F. cbn [negb andb]. rewrite skip_eq.
  unfold tick_conn_relay. rewrite !bind_assoc, gets_eq. cbv zeta. unfold id.
  rewrite !bind_assoc, (get_conn_eq _ _ _ _ E), F. unfold punch_over. rewrite Hh, Dk, (proj2 (Z.leb_le _ _) N1), Au, Rg, Hp.
  cbn [andb orb negb length Nat.eqb].
  rewrite !bind_assoc, skip_eq, !bind_assoc, (get_conn_eq _ _ _ _ E), (proj2 (Z.leb_le _ _) N2).
  rewrite U, !bind_assoc.
  match goal with |- context [(session_for peer ≫= ?kk) s] =>
    destruct (session_for_eq peer kk s I) as (x & n & m & Ex & X & I1) end.
  rewrite Ex. clear Ex. set (s1 := set_next_session_id_ _ _) in *. destruct X as (_ & _ & Xi & _).
  unfold control_frame. rewrite Session.new_frame_empty, bind_assoc, lift_eq.
  pose proof (routes_relay e peer c to s E U Path s1 TT_PING (Session.session_id_ x) ltac:(by split_and!) Xi) as Es.
  exists s1, (Session.session_id_ x). split; [exact Xi|]. split; [by split_and!|]. split; [done|].
  rewrite bind_assoc. eapply (bind_eq _ _ _ _ _ [_] _ _ []); [exact Es|].
  rewrite (update_conn_eq _ _ c) by exact E. fold c1.
  unfold tick_conn_fsm. rewrite (get_conn_eq _ c1) by (cbn; by rewrite lookup_insert_eq).
  change (relay_ok (relay c1)) with (relay_ok (relay c)). by rewrite Ro.
Qed.

(** A control frame of [src] that comes through the relay. *)
Lemma relayed_arrives e from src dst ty sid rest c out s :
  inv Anything s -> uuid_ok src -> uuid_ok dst -> uuid (cfg_ s) = dst ->
  conns_ s !! src = Some c -> peer_uuid c = src -> relay_ok (relay c) = false -> connected c = false ->
  on_connected (cbs_ s) = true -> routes e src s out -> u16_ok sid -> ty = TT_PING \/ ty = TT_PONG ->
  let pkt := relay_packet src dst (tunnel_bytes (control ty sid)) in
  exists s' o c', handle_packet e (pkt ++ rest) (length pkt) from s = Done (tt, s', o ++ [OnConnected src true]) /\
    (ty = TT_PING -> exists sid', u16_ok sid' /\ o = out (pong_frame sid')) /\ (ty = TT_PONG -> o = []) /\
    conns_ s' !! src = Some c' /\ connected c' = true /\ relay_ok (relay c') = true.
Proof.
  intros I Us Ud Eid E U Ro Cn Cb R H Ty pkt. unfold pkt. clear pkt.
  set (tx := tunnel_bytes (control ty sid)). assert (length tx = 14%nat) as Lt by apply length_tunnel_bytes.
  rewrite relay_packet_eq by lia. pose proof (P2PProxy.length_relay_payload src dst tx) as Lp.
  rewrite packet_frame by (unfold len; lia). unfold handle_proto. rewrite msg_of_id, Lp, Lt.
  rewrite P2PProxy.relay_payload_eq, <- !app_assoc. unfold on_relay_data.
  change (csize RelayFrame_codec) with 66%nat. cbn [Nat.add Nat.ltb Nat.leb]. rewrite gets_eq. unfold id.
  rewrite drop_app_exact by apply length_uuid_field. unfold strn_eq.
  rewrite (c_strn_field dst), Eid, (c_strn_id dst), bool_decide_true by done. cbn [negb]. rewrite (c_strn_field src) by done.
  assert ((length src =? 0)%nat = false) as Ls by (destruct Us as (_ & _ & L & _); destruct src; [cbn in L; lia|done]).
  rewrite Ls.
  assert (drop 66 (uuid_field src ++ uuid_field dst ++ tx ++ rest) = tx ++ rest) as ->.
  { change 66%nat with (33 + 33)%nat. by rewrite <- drop_drop, !drop_app_exact by apply length_uuid_field. }
  unfold conn_at. rewrite bind_assoc, gets_eq, E, ret_eq, U, Ls, skip_eq. cbn [Nat.sub].
  destruct (control_arrives e src ty sid rest c out s I E R H Ty) as (s1 & o & E1 & H1 & H2 & C1 & B1).
  set (c1 := set_relay (set_relay_ok true (relay c)) c).
  exists (set_conns_ (<[src := set_connected true c1]> (conns_ s1)) s1), o, (set_connected true c1).
  split; [|split; [exact H1|split; [exact H2|]]].
  - eapply bind_eq; [exact E1|]. rewrite (get_conn_eq _ c) by (by rewrite C1). rewrite Ro. cbv zeta. fold c1. rewrite put_conn_eq.
    change (connected c1) with (connected c). rewrite Cn, Cb. cbn [negb andb]. rewrite put_conn_eq.
    cbn [conns_ set_conns_]. by rewrite insert_insert_eq.
  - cbn. rewrite lookup_insert_eq. by split_and!.
Qed.

(** Both are registered at the relay, by which each is reached. *)
Definition relays (P : P2PProxy.t) (uA uB : bytes) : Prop :=
  P2PProxy.fds_ P <> 0%nat /\ exists ra rb, P2PProxy.uuid2addr_ P !! uA = Some ra /\ P2PProxy.uuid2addr_ P !! uB = Some rb.

Lemma relay_carries now P src dst ty sid from r :
  uuid_ok src -> uuid_ok dst -> P2PProxy.fds_ P <> 0%nat -> P2PProxy.uuid2addr_ P !! dst = Some r ->
  let pkt := relay_packet src dst (tunnel_bytes (control ty sid)) in
  exists P', P2PProxy.handle now P pkt from = (P', [mkDg MainSock (P2PProxy.ue_addr r) pkt]) /\
    P2PProxy.uuid2addr_ P' = P2PProxy.uuid2addr_ P /\ P2PProxy.fds_ P' = P2PProxy.fds_ P.
Proof.
  intros Us Ud F L pkt. unfold pkt. assert (length (tunnel_bytes (control ty sid)) = 14%nat) as Lt by apply length_tunnel_bytes.
  rewrite relay_packet_eq by lia. rewrite P2PProxy.handle_relay by (done || lia). rewrite L. by eexists.
Qed.

(** C6: two clients connect through a relay.  Take any two clients that can be reached by any
    history, each waiting for the other after the time for a direct connection is over, both
    registered at one relay, and the first opening no other connection.  In the turn of its loop in which the next attempt is due the
    first sends one ping to the relay, which forwards it to the second; the second reports the
    connection as relayed and answers through the relay, which forwards the answer to the
    first, and it does the same. *)
Theorem clients_connect_by_relay (cbsA cbsB : callbacks) (csA csB : list call) (A B : t) (oA oB : list event)
    (uA uB restA restB : bytes) (ca cb : Conn) (eA eA2 eB : env) (toA toB fromA fromB : sockaddr_in) (P : P2PProxy.t)
    (HA : mapM_ perform csA (initial cbsA) = Done (tt, A, oA)) (HB : mapM_ perform csB (initial cbsB) = Done (tt, B, oB))
    (IDA : uuid (cfg_ A) = uA /\ uuid_ok uA) (IDB : uuid (cfg_ B) = uB /\ uuid_ok uB)
    (CA : conns_ A !! uB = Some ca) (OC : others_settled uB A) (TO : traverses eA)
    (FA : falling_back eA uB A ca) (PA : on_relay_path eA A ca toA) (TA : now eA <= now eA2)
    (EB : conns_ B !! uA = Some cb) (UB : peer_uuid cb = uA) (GB : relay_ok (relay cb) = false /\ connected cb = false)
    (PB : on_relay_path eB B cb toB) (KK : on_connected (cbs_ A) = true /\ on_connected (cbs_ B) = true)
    (RP : relays P uA uB) :
  exists A1 ping B1 pong A2 ca' cb',
    tick_connections eA A = Done (tt, A1, [SendTo toA ping]) /\
    handle_packet eB (ping ++ restB) (length ping) fromB B = Done (tt, B1, [SendTo toB pong; OnConnected uA true]) /\
    handle_packet eA2 (pong ++ restA) (length pong) fromA A1 = Done (tt, A2, [OnConnected uB true]) /\
    conns_ B1 !! uA = Some cb' /\ connected cb' = true /\ conns_ A2 !! uB = Some ca' /\ connected ca' = true /\
    forall now1 now2 from1 from2, exists P1 P2 ra rb,
      P2PProxy.handle now1 P ping from1 = (P1, [mkDg MainSock (P2PProxy.ue_addr rb) ping]) /\
      P2PProxy.uuid2addr_ P !! uB = Some rb /\
      P2PProxy.handle now2 P1 pong from2 = (P2, [mkDg MainSock (P2PProxy.ue_addr ra) pong]) /\
      P2PProxy.uuid2addr_ P !! uA = Some ra.
Proof.
  destruct IDA as [IA UA], IDB as [IB UB'], GB as [GB1 GB2], KK as [KA KB], RP as (Pf & ra & rb & La & Lb).
  pose proof HA as [InvA _]%inv_reachable. pose proof HB as [InvB _]%inv_reachable.
  destruct (relay_ping_turn eA uB ca toA A InvA TO CA OC FA PA) as (A1 & sid & Hsid & E1 & S1 & (_ & F1 & G1 & P1) & B1').
  assert (inv Anything A1) as I1 by (by destruct (keeps_tick_connections Anything eA _ _ _ _ InvA E1)).
  rewrite IA in E1. set (ping := relay_packet uA uB (tunnel_bytes (control TT_PING sid))) in *.
  pose proof (routes_relay eB uA cb toB B EB UB PB) as RB. rewrite IB in RB.
  destruct (relayed_arrives eB fromB uA uB TT_PING sid restB cb _ B InvB UA UB' IB EB UB GB1 GB2 KB RB Hsid
    (or_introl eq_refl)) as (B1 & o & cb' & E2 & Ho & _ & L2 & C2 & _).
  destruct (Ho eq_refl) as (sid' & Hsid' & ->). set (pong := relay_packet uB uA (pong_frame sid')) in *.
  set (c1 := set_relay _ ca) in *. assert (conns_ A1 !! uB = Some c1) as L1 by (by rewrite S1, lookup_insert_eq).
  pose proof FA as (Ua & _ & Cn & _ & Ro & _ & _ & Dl & _). destruct PA as (Dk & Rg & _ & px & rest & Hp & Ht).
  assert (on_relay_path eA2 A1 c1 toA) as PA1.
  { cbn in G1, P1. split; [exact Dk|]. split; [by rewrite G1|]. split; [right; right; cbn; lia|].
    exists px, rest. by rewrite P1. }
  pose proof (routes_relay eA2 uB c1 toA A1 L1 Ua PA1) as RA. cbn in F1.
  destruct (relayed_arrives eA2 fromA uB uA TT_PONG sid' restA c1 _ A1 I1 UB' UA ltac:(by rewrite F1) L1 Ua Ro Cn
    ltac:(by rewrite B1') RA Hsid' (or_intror eq_refl)) as (A2 & o2 & ca' & E3 & _ & Ho2 & L3 & C3 & _).
  rewrite (Ho2 eq_refl) in E3.
  exists A1, ping, B1, pong, A2, ca', cb'. split; [exact E1|]. split; [exact E2|]. split; [exact E3|].
  split; [exact L2|]. split; [exact C2|]. split; [exact L3|]. split; [exact C3|]. intros now1 now2 from1 from2.
  destruct (relay_carries now1 P uA uB TT_PING sid from1 rb UA UB' Pf Lb) as (P1' & X1 & X2 & X3).
  destruct (relay_carries now2 P1' uB uA TT_PONG sid' from2 ra UB' UA ltac:(by rewrite X3) ltac:(by rewrite X2))
    as (P2 & Y1 & _ & _).
  exists P1', P2, ra, rb. by split_and!.
Qed.

(** ** Two clients, introduced by hand *)

(** No ICE library. *)
Definition plain_env (ms : Z) : env := mkEnv ms 5000 (fun _ => Some (replicate 16%nat 7)) false None elements.

Definition app_at : sockaddr_in := mkAddr 16777343 5.
Definition cam_at : sockaddr_in := mkAddr 33554559 6.

Definition ack_for (u : bytes) (a : sockaddr_in) : bytes :=
  frame (msg_id MSG_CONNECT_ACK) (cenc ConnectAck_codec
    (mkConnectAck CONNECT_OK (uuid_field u) (ip_field (s_addr a)) (sin_port a) (ip_field 0) 0 0 0
       (replicate 3%nat (mkProxyCandidate (replicate 16%nat 0) 0)))).

Definition invite_for (u : bytes) (a : sockaddr_in) : bytes :=
  frame (msg_id MSG_CONNECT_INVITE) (cenc ConnectInvite_codec
    (mkConnectInvite (uuid_field u) (ip_field (s_addr a)) (sin_port a) (ip_field 0) 0 0 0
       (replicate 3%nat (mkProxyCandidate (replicate 16%nat 0) 0)))).

(** Registered at the relay, then introduced. *)
Definition app_run : list call :=
  [Start (plain_env 20000) (demo_config (bs "app")) true;
   Packet (plain_env 20100) (frame (msg_id MSG_PROXY_REGISTER_RSP) [0]) 9 addr_zero;
   Connect (plain_env 20200) (bs "cam");
   Packet (plain_env 20300) (ack_for (bs "cam") cam_at) (length (ack_for (bs "cam") cam_at)) addr_zero].

Definition cam_run : list call :=
  [Start (plain_env 20000) (demo_config (bs "cam")) true;
   Packet (plain_env 20100) (frame (msg_id MSG_PROXY_REGISTER_RSP) [0]) 9 addr_zero;
   Packet (plain_env 20300) (invite_for (bs "app") app_at) (length (invite_for (bs "app") app_at)) addr_zero].

Lemma settled_singleton peer c s : conns_ s = {[peer := c]} -> others_settled peer s.
Proof. intros E p d Ne. rewrite E. by intros [-> _]%lookup_singleton_Some. Qed.

Lemma idle_empty e peer s : sessions_ s = ∅ -> others_idle e peer s.
Proof. intros E p x _. by rewrite E, lookup_empty. Qed.

Lemma plain_traverses n : traverses (plain_env n).
Proof. by intros X. Qed.

Lemma clients_connect_directly_witness :
  exists A B oA oB A1 ping lanA B1 pong lanB A2,
    mapM_ perform app_run (initial all_callbacks) = Done (tt, A, oA) /\
    mapM_ perform cam_run (initial all_callbacks) = Done (tt, B, oB) /\
    (tick_connections (plain_env 20400);; tick_sessions (plain_env 20400)) A = Done (tt, A1, SendTo cam_at ping :: lanA) /\
    handle_packet (plain_env 20500) (ping ++ []) 14 app_at B =
      Done (tt, B1, (SendTo app_at pong :: lanB) ++ [OnConnected (bs "app") false]) /\
    handle_packet (plain_env 20600) (pong ++ [0]) 14 cam_at A1 = Done (tt, A2, [OnConnected (bs "cam") false]).
Proof.
  let ra := eval vm_compute in (mapM_ perform app_run (initial all_callbacks)) in
  match ra with Done (tt, ?A, ?oA) =>
    let rb := eval vm_compute in (mapM_ perform cam_run (initial all_callbacks)) in
    match rb with Done (tt, ?B, ?oB) =>
      let ca := eval vm_compute in (default new_conn (conns_ A !! bs "cam")) in
      let cb := eval vm_compute in (default new_conn (conns_ B !! bs "app")) in
      exists A, B, oA, oB;
      assert (EA : mapM_ perform app_run (initial all_callbacks) = Done (tt, A, oA)) by (vm_compute; reflexivity);
      assert (EB : mapM_ perform cam_run (initial all_callbacks) = Done (tt, B, oB)) by (vm_compute; reflexivity);
      destruct (clients_connect_directly all_callbacks all_callbacks app_run cam_run A B oA oB (bs "app") (bs "cam")
        app_at cam_at ca cb (plain_env 20400) (plain_env 20600) (plain_env 20500) EA EB)
        as (A1 & ping & lanA & E1 & _ & K)
    end end.
  - unfold opening. split_and!; vm_compute; reflexivity.
  - unfold opening. split_and!; vm_compute; reflexivity.
  - apply plain_traverses.
  - split; [eapply settled_singleton; vm_compute; reflexivity|apply idle_empty; vm_compute; reflexivity].
  - unfold punching. split_and!; vm_compute; congruence.
  - vm_compute. split; congruence.
  - vm_compute. reflexivity.
  - unfold direct_first. split; [vm_compute; reflexivity|]. split; [vm_compute; reflexivity|]. right.
    split; [vm_compute; reflexivity|]. right. split; vm_compute; reflexivity.
  - destruct (K []) as (B1 & pong & lanB & cb' & E2 & _ & _ & _ & _ & K2). destruct (K2 [0]) as (A2 & ca' & E3 & _).
    exists A1, ping, lanA, B1, pong, lanB, A2.
    split; [exact EA|]. split; [exact EB|]. split; [exact E1|]. split; [exact E2|exact E3].
Defined.

(** A relay with the two of them. *)
Definition relay_of_two : P2PProxy.t :=
  P2PProxy.with_tables (<[bs "app" := P2PProxy.mkEntry app_at 0]> {[bs "cam" := P2PProxy.mkEntry cam_at 0]}) ∅ ∅
    (P2PProxy.running 2).

Lemma clients_connect_by_relay_witness :
  exists A B oA oB A1 ping B1 pong A2,
    mapM_ perform app_run (initial all_callbacks) = Done (tt, A, oA) /\
    mapM_ perform cam_run (initial all_callbacks) = Done (tt, B, oB) /\
    tick_connections (plain_env 30000) A = Done (tt, A1, [SendTo relay_at ping]) /\
    handle_packet (plain_env 30100) (ping ++ []) (length ping) relay_at B =
      Done (tt, B1, [SendTo relay_at pong; OnConnected (bs "app") true]) /\
    handle_packet (plain_env 30200) (pong ++ [0]) (length pong) relay_at A1 =
      Done (tt, A2, [OnConnected (bs "cam") true]).
Proof.
  let ra := eval vm_compute in (mapM_ perform app_run (initial all_callbacks)) in
  match ra with Done (tt, ?A, ?oA) =>
    let rb := eval vm_compute in (mapM_ perform cam_run (initial all_callbacks)) in
    match rb with Done (tt, ?B, ?oB) =>
      let ca := eval vm_compute in (default new_conn (conns_ A !! bs "cam")) in
      let cb := eval vm_compute in (default new_conn (conns_ B !! bs "app")) in
      exists A, B, oA, oB;
      assert (EA : mapM_ perform app_run (initial all_callbacks) = Done (tt, A, oA)) by (vm_compute; reflexivity);
      assert (EB : mapM_ perform cam_run (initial all_callbacks) = Done (tt, B, oB)) by (vm_compute; reflexivity);
      destruct (clients_connect_by_relay all_callbacks all_callbacks app_run cam_run A B oA oB (bs "app") (bs "cam")
        [0] [] ca cb (plain_env 30000) (plain_env 30200) (plain_env 30100) relay_at relay_at relay_at relay_at relay_of_two EA EB)
        as (A1 & ping & B1 & pong & A2 & ca' & cb' & E1 & E2 & E3 & _)
    end end.
  - split; [vm_compute; reflexivity|apply ServerConnect.ServerConnect.app_uuid_ok].
  - split; [vm_compute; reflexivity|apply ServerConnect.ServerConnect.app_uuid_ok].
  - vm_compute. reflexivity.
  - eapply settled_singleton. vm_compute. reflexivity.
  - apply plain_traverses.
  - unfold falling_back. split_and!; vm_compute; congruence.
  - split; [vm_compute; reflexivity|]. split; [vm_compute; reflexivity|]. split; [right; right; vm_compute; congruence|].
    eexists _, _. split; vm_compute; reflexivity.
  - vm_compute. congruence.
  - vm_compute. reflexivity.
  - vm_compute. reflexivity.
  - split; vm_compute; reflexivity.
  - split; [vm_compute; reflexivity|]. split; [vm_compute; reflexivity|]. split; [right; right; vm_compute; congruence|].
    eexists _, _. split; vm_compute; reflexivity.
  - split; reflexivity.
  - split; [vm_compute; congruence|]. eexists _, _. split; vm_compute; reflexivity.
  - exists A1, ping, B1, pong, A2. split; [exact EA|]. split; [exact EB|]. split; [exact E1|]. split; [exact E2|exact E3].
Defined.

End ClientPunch.
