(* ===== verification/OldProto.v ===== *)
(** * The earlier wire protocol

    Models [server/common/ProtoDef.h], version 1 of the protocol, which [client/peer.cpp]
    is written against: its message numbers and packed structures, what they share with
    version 2 ([ProtoDef]) and what they do not. *)

From S2P Require Import Prelude.
From S2P Require Import Bytes.
From S2P Require Import Wire.
From S2P Require ProtoDef.

#[local] Open Scope Z_scope.

Module OldProto.

(** ** Constants and message numbers *)

Definition NAT_MAGIC : Z := 22606.
Definition PROTO_VER : Z := 1.
Definition MAX_UUID_LEN : nat := 32.
Definition MAX_IP_LEN : nat := 16.
Definition CONNECT_OK : Z := 0.
Definition CONNECT_OFFLINE : Z := 1.
Definition CONNECT_NOT_FOUND : Z := 2.

Inductive MsgId :=
| MSG_HEARTBEAT_REQ
| MSG_HEARTBEAT_RSP
| MSG_SND_EXTINFO_REQ
| MSG_ASK_EXTINFO_REQ
| MSG_ASK_EXTINFO_RSP
| MSG_CONNECT_REQ
| MSG_CONNECT_ACK
| MSG_CONNECT_INVITE
| MSG_GET_DEV_LIST_REQ
| MSG_GET_DEV_LIST_RSP
| MSG_GET_SERVER_LIST_REQ
| MSG_GET_SERVER_LIST_RSP
| MSG_ADD_UID_REQ
| MSG_DELETE_UID_REQ
| MSG_CHECK_UID_REQ
| MSG_CHECK_UID_RSP
| MSG_SP_ASK_EXTINFO_REQ
| MSG_SP_ASK_EXTINFO_RSP
| MSG_PROXY_REGISTER_REQ
| MSG_PROXY_REGISTER_RSP
| MSG_PROXY_UNREGISTER_REQ
| MSG_PROXY_RELAY_DATA
| MSG_PROXY_PUNCH_HELPER.

Definition msg_id (m : MsgId) : Z :=
  match m with
  | MSG_HEARTBEAT_REQ => 1
  | MSG_HEARTBEAT_RSP => 2
  | MSG_SND_EXTINFO_REQ => 3
  | MSG_ASK_EXTINFO_REQ => 4
  | MSG_ASK_EXTINFO_RSP => 5
  | MSG_CONNECT_REQ => 6
  | MSG_CONNECT_ACK => 7
  | MSG_CONNECT_INVITE => 8
  | MSG_GET_DEV_LIST_REQ => 9
  | MSG_GET_DEV_LIST_RSP => 10
  | MSG_GET_SERVER_LIST_REQ => 11
  | MSG_GET_SERVER_LIST_RSP => 12
  | MSG_ADD_UID_REQ => 13
  | MSG_DELETE_UID_REQ => 14
  | MSG_CHECK_UID_REQ => 15
  | MSG_CHECK_UID_RSP => 18
  | MSG_SP_ASK_EXTINFO_REQ => 16
  | MSG_SP_ASK_EXTINFO_RSP => 17
  | MSG_PROXY_REGISTER_REQ => 32
  | MSG_PROXY_REGISTER_RSP => 33
  | MSG_PROXY_UNREGISTER_REQ => 34
  | MSG_PROXY_RELAY_DATA => 35
  | MSG_PROXY_PUNCH_HELPER => 36
  end.

(** The case a [switch] on the octet takes; [None] is the default case. *)
Definition msg_of (x : Z) : option MsgId :=
  if x =? 1 then Some MSG_HEARTBEAT_REQ else
  if x =? 2 then Some MSG_HEARTBEAT_RSP else
  if x =? 3 then Some MSG_SND_EXTINFO_REQ else
  if x =? 4 then Some MSG_ASK_EXTINFO_REQ else
  if x =? 5 then Some MSG_ASK_EXTINFO_RSP else
  if x =? 6 then Some MSG_CONNECT_REQ else
  if x =? 7 then Some MSG_CONNECT_ACK else
  if x =? 8 then Some MSG_CONNECT_INVITE else
  if x =? 9 then Some MSG_GET_DEV_LIST_REQ else
  if x =? 10 then Some MSG_GET_DEV_LIST_RSP else
  if x =? 11 then Some MSG_GET_SERVER_LIST_REQ else
  if x =? 12 then Some MSG_GET_SERVER_LIST_RSP else
  if x =? 13 then Some MSG_ADD_UID_REQ else
  if x =? 14 then Some MSG_DELETE_UID_REQ else
  if x =? 15 then Some MSG_CHECK_UID_REQ else
  if x =? 18 then Some MSG_CHECK_UID_RSP else
  if x =? 16 then Some MSG_SP_ASK_EXTINFO_REQ else
  if x =? 17 then Some MSG_SP_ASK_EXTINFO_RSP else
  if x =? 32 then Some MSG_PROXY_REGISTER_REQ else
  if x =? 33 then Some MSG_PROXY_REGISTER_RSP else
  if x =? 34 then Some MSG_PROXY_UNREGISTER_REQ else
  if x =? 35 then Some MSG_PROXY_RELAY_DATA else
  if x =? 36 then Some MSG_PROXY_PUNCH_HELPER else
  None.

(** ** Structures *)

(** The 8-byte header of every datagram. *)
Record MsgHead := mkMsgHead {
  mh_magic : Z;
  mh_version : Z;
  mh_msg_id : Z;
  mh_length : Z
}.

Definition MsgHead_codec : codec MsgHead := c_iso
  (fun r => (mh_magic r, (mh_version r, (mh_msg_id r, mh_length r))))
  (fun '(x0, (x1, (x2, x3))) => mkMsgHead x0 x1 x2 x3)
  (c_u16 +:+ c_u8 +:+ c_u8 +:+ c_u32).

(** Heartbeat and registration. *)
Record UuidReq := mkUuidReq {
  ur_uuid : bytes;
  ur_dev_type : Z;
  ur_lan_port : Z
}.

Definition UuidReq_codec : codec UuidReq := c_iso
  (fun r => (ur_uuid r, (ur_dev_type r, ur_lan_port r)))
  (fun '(x0, (x1, x2)) => mkUuidReq x0 x1 x2)
  (c_bytes 33 +:+ c_u8 +:+ c_u16).

(** A request that names one uuid. *)
Record ExtInfoReq := mkExtInfoReq {
  eq_uuid : bytes
}.

Definition ExtInfoReq_codec : codec ExtInfoReq := c_iso
  (fun r => eq_uuid r)
  (fun x0 => mkExtInfoReq x0)
  (c_bytes 33).

(** Observed public address and recorded private address. *)
Record ExtInfoRsp := mkExtInfoRsp {
  er_pub_ip : bytes;
  er_pub_port : Z;
  er_lan_ip : bytes;
  er_lan_port : Z
}.

Definition ExtInfoRsp_codec : codec ExtInfoRsp := c_iso
  (fun r => (er_pub_ip r, (er_pub_port r, (er_lan_ip r, er_lan_port r))))
  (fun '(x0, (x1, (x2, x3))) => mkExtInfoRsp x0 x1 x2 x3)
  (c_bytes 16 +:+ c_u16 +:+ c_bytes 16 +:+ c_u16).

(** Request to be introduced to [dst_uuid]. *)
Record ConnectReq := mkConnectReq {
  cr_src_uuid : bytes;
  cr_dst_uuid : bytes
}.

Definition ConnectReq_codec : codec ConnectReq := c_iso
  (fun r => (cr_src_uuid r, cr_dst_uuid r))
  (fun '(x0, x1) => mkConnectReq x0 x1)
  (c_bytes 33 +:+ c_bytes 33).

(** Answer to the initiator, with one relay. *)
Record ConnectAck := mkConnectAck {
  ca_result : Z;
  ca_dst_uuid : bytes;
  ca_dst_pub_ip : bytes;
  ca_dst_pub_port : Z;
  ca_dst_lan_ip : bytes;
  ca_dst_lan_port : Z;
  ca_proxy_ip : bytes;
  ca_proxy_port : Z
}.

Definition ConnectAck_codec : codec ConnectAck := c_iso
  (fun r => (ca_result r, (ca_dst_uuid r, (ca_dst_pub_ip r, (ca_dst_pub_port r, (ca_dst_lan_ip r, (ca_dst_lan_port r, (ca_proxy_ip r, ca_proxy_port r))))))))
  (fun '(x0, (x1, (x2, (x3, (x4, (x5, (x6, x7))))))) => mkConnectAck x0 x1 x2 x3 x4 x5 x6 x7)
  (c_u8 +:+ c_bytes 33 +:+ c_bytes 16 +:+ c_u16 +:+ c_bytes 16 +:+ c_u16 +:+ c_bytes 16 +:+ c_u16).

(** Notice to the target, with one relay. *)
Record ConnectInvite := mkConnectInvite {
  ci_src_uuid : bytes;
  ci_src_pub_ip : bytes;
  ci_src_pub_port : Z;
  ci_src_lan_ip : bytes;
  ci_src_lan_port : Z;
  ci_proxy_ip : bytes;
  ci_proxy_port : Z
}.

Definition ConnectInvite_codec : codec ConnectInvite := c_iso
  (fun r => (ci_src_uuid r, (ci_src_pub_ip r, (ci_src_pub_port r, (ci_src_lan_ip r, (ci_src_lan_port r, (ci_proxy_ip r, ci_proxy_port r)))))))
  (fun '(x0, (x1, (x2, (x3, (x4, (x5, x6)))))) => mkConnectInvite x0 x1 x2 x3 x4 x5 x6)
  (c_bytes 33 +:+ c_bytes 16 +:+ c_u16 +:+ c_bytes 16 +:+ c_u16 +:+ c_bytes 16 +:+ c_u16).

(** Page of the device list. *)
Record DevListReq := mkDevListReq {
  dq_start_index : Z;
  dq_want_num : Z
}.

Definition DevListReq_codec : codec DevListReq := c_iso
  (fun r => (dq_start_index r, dq_want_num r))
  (fun '(x0, x1) => mkDevListReq x0 x1)
  (c_u16 +:+ c_u16).

(** Header of a device list answer. *)
Record DevListRsp := mkDevListRsp {
  dr_total : Z;
  dr_count : Z;
  dr_start_index : Z
}.

Definition DevListRsp_codec : codec DevListRsp := c_iso
  (fun r => (dr_total r, (dr_count r, dr_start_index r)))
  (fun '(x0, (x1, x2)) => mkDevListRsp x0 x1 x2)
  (c_u16 +:+ c_u16 +:+ c_u16).

(** One row of a device list answer. *)
Record DevListEntry := mkDevListEntry {
  de_uuid : bytes;
  de_ip : bytes;
  de_port : Z;
  de_dev_type : Z
}.

Definition DevListEntry_codec : codec DevListEntry := c_iso
  (fun r => (de_uuid r, (de_ip r, (de_port r, de_dev_type r))))
  (fun '(x0, (x1, (x2, x3))) => mkDevListEntry x0 x1 x2 x3)
  (c_bytes 33 +:+ c_bytes 16 +:+ c_u16 +:+ c_u8).

(** Header of a server list answer. *)
Record ServerListRsp := mkServerListRsp {
  sl_nat_count : Z;
  sl_proxy_count : Z
}.

Definition ServerListRsp_codec : codec ServerListRsp := c_iso
  (fun r => (sl_nat_count r, sl_proxy_count r))
  (fun '(x0, x1) => mkServerListRsp x0 x1)
  (c_u16 +:+ c_u16).

(** Availability query to a relay. *)
Record ProxyAvailReq := mkProxyAvailReq {
  paq_nat_ip : bytes;
  paq_nat_port : Z
}.

Definition ProxyAvailReq_codec : codec ProxyAvailReq := c_iso
  (fun r => (paq_nat_ip r, paq_nat_port r))
  (fun '(x0, x1) => mkProxyAvailReq x0 x1)
  (c_bytes 16 +:+ c_u16).

(** Availability of a relay. *)
Record ProxyAvailRsp := mkProxyAvailRsp {
  par_available : Z;
  par_used : Z;
  par_max_proxy : Z
}.

Definition ProxyAvailRsp_codec : codec ProxyAvailRsp := c_iso
  (fun r => (par_available r, (par_used r, par_max_proxy r)))
  (fun '(x0, (x1, x2)) => mkProxyAvailRsp x0 x1 x2)
  (c_u8 +:+ c_u16 +:+ c_u16).

(** Relay registration, without a tag. *)
Record ProxyRegReq := mkProxyRegReq {
  prq_uuid : bytes
}.

Definition ProxyRegReq_codec : codec ProxyRegReq := c_iso
  (fun r => prq_uuid r)
  (fun x0 => mkProxyRegReq x0)
  (c_bytes 33).

(** Answer to a relay registration. *)
Record ProxyRegRsp := mkProxyRegRsp {
  prr_result : Z;
  prr_pub_ip : bytes;
  prr_pub_port : Z
}.

Definition ProxyRegRsp_codec : codec ProxyRegRsp := c_iso
  (fun r => (prr_result r, (prr_pub_ip r, prr_pub_port r)))
  (fun '(x0, (x1, x2)) => mkProxyRegRsp x0 x1 x2)
  (c_u8 +:+ c_bytes 16 +:+ c_u16).

(** Head of relayed data. *)
Record RelayFrame := mkRelayFrame {
  rf_src_uuid : bytes;
  rf_dst_uuid : bytes
}.

Definition RelayFrame_codec : codec RelayFrame := c_iso
  (fun r => (rf_src_uuid r, rf_dst_uuid r))
  (fun '(x0, x1) => mkRelayFrame x0 x1)
  (c_bytes 33 +:+ c_bytes 33).

(** Data between peers, sent without a header once the way is open. *)
Record PeerData := mkPeerData {
  pd_magic : bytes;
  pd_type : Z;
  pd_seq : Z;
  pd_src_uuid : bytes;
  pd_msg : bytes
}.

Definition PeerData_codec : codec PeerData := c_iso
  (fun r => (pd_magic r, (pd_type r, (pd_seq r, (pd_src_uuid r, pd_msg r)))))
  (fun '(x0, (x1, (x2, (x3, x4)))) => mkPeerData x0 x1 x2 x3 x4)
  (c_bytes 4 +:+ c_u8 +:+ c_u8 +:+ c_bytes 33 +:+ c_bytes 64).

(** ** Laws *)

#[export] Instance MsgHead_laws : CodecLaws MsgHead_codec.
Proof. codec_laws. Qed.

#[export] Instance UuidReq_laws : CodecLaws UuidReq_codec.
Proof. codec_laws. Qed.

#[export] Instance ExtInfoReq_laws : CodecLaws ExtInfoReq_codec.
Proof. codec_laws. Qed.

#[export] Instance ExtInfoRsp_laws : CodecLaws ExtInfoRsp_codec.
Proof. codec_laws. Qed.

#[export] Instance ConnectReq_laws : CodecLaws ConnectReq_codec.
Proof. codec_laws. Qed.

#[export] Instance ConnectAck_laws : CodecLaws ConnectAck_codec.
Proof. codec_laws. Qed.

#[export] Instance ConnectInvite_laws : CodecLaws ConnectInvite_codec.
Proof. codec_laws. Qed.

#[export] Instance DevListReq_laws : CodecLaws DevListReq_codec.
Proof. codec_laws. Qed.

#[export] Instance DevListRsp_laws : CodecLaws DevListRsp_codec.
Proof. codec_laws. Qed.

#[export] Instance DevListEntry_laws : CodecLaws DevListEntry_codec.
Proof. codec_laws. Qed.

#[export] Instance ServerListRsp_laws : CodecLaws ServerListRsp_codec.
Proof. codec_laws. Qed.

#[export] Instance ProxyAvailReq_laws : CodecLaws ProxyAvailReq_codec.
Proof. codec_laws. Qed.

#[export] Instance ProxyAvailRsp_laws : CodecLaws ProxyAvailRsp_codec.
Proof. codec_laws. Qed.

#[export] Instance ProxyRegReq_laws : CodecLaws ProxyRegReq_codec.
Proof. codec_laws. Qed.

#[export] Instance ProxyRegRsp_laws : CodecLaws ProxyRegRsp_codec.
Proof. codec_laws. Qed.

#[export] Instance RelayFrame_laws : CodecLaws RelayFrame_codec.
Proof. codec_laws. Qed.

#[export] Instance PeerData_laws : CodecLaws PeerData_codec.
Proof. codec_laws. Qed.

(** ** What version 2 kept *)

(** The message of version 2 with the same name. *)
Definition upgrade (m : MsgId) : ProtoDef.MsgId :=
  match m with
  | MSG_HEARTBEAT_REQ => ProtoDef.MSG_HEARTBEAT_REQ
  | MSG_HEARTBEAT_RSP => ProtoDef.MSG_HEARTBEAT_RSP
  | MSG_SND_EXTINFO_REQ => ProtoDef.MSG_SND_EXTINFO_REQ
  | MSG_ASK_EXTINFO_REQ => ProtoDef.MSG_ASK_EXTINFO_REQ
  | MSG_ASK_EXTINFO_RSP => ProtoDef.MSG_ASK_EXTINFO_RSP
  | MSG_CONNECT_REQ => ProtoDef.MSG_CONNECT_REQ
  | MSG_CONNECT_ACK => ProtoDef.MSG_CONNECT_ACK
  | MSG_CONNECT_INVITE => ProtoDef.MSG_CONNECT_INVITE
  | MSG_GET_DEV_LIST_REQ => ProtoDef.MSG_GET_DEV_LIST_REQ
  | MSG_GET_DEV_LIST_RSP => ProtoDef.MSG_GET_DEV_LIST_RSP
  | MSG_GET_SERVER_LIST_REQ => ProtoDef.MSG_GET_SERVER_LIST_REQ
  | MSG_GET_SERVER_LIST_RSP => ProtoDef.MSG_GET_SERVER_LIST_RSP
  | MSG_ADD_UID_REQ => ProtoDef.MSG_ADD_UID_REQ
  | MSG_DELETE_UID_REQ => ProtoDef.MSG_DELETE_UID_REQ
  | MSG_CHECK_UID_REQ => ProtoDef.MSG_CHECK_UID_REQ
  | MSG_CHECK_UID_RSP => ProtoDef.MSG_CHECK_UID_RSP
  | MSG_SP_ASK_EXTINFO_REQ => ProtoDef.MSG_SP_ASK_EXTINFO_REQ
  | MSG_SP_ASK_EXTINFO_RSP => ProtoDef.MSG_SP_ASK_EXTINFO_RSP
  | MSG_PROXY_REGISTER_REQ => ProtoDef.MSG_PROXY_REGISTER_REQ
  | MSG_PROXY_REGISTER_RSP => ProtoDef.MSG_PROXY_REGISTER_RSP
  | MSG_PROXY_UNREGISTER_REQ => ProtoDef.MSG_PROXY_UNREGISTER_REQ
  | MSG_PROXY_RELAY_DATA => ProtoDef.MSG_PROXY_RELAY_DATA
  | MSG_PROXY_PUNCH_HELPER => ProtoDef.MSG_PROXY_PUNCH_HELPER
  end.

(** Two structures with one memory image, [f] taking the members of the one to the other's. *)
Definition same_layout {A B} (c : codec A) (d : codec B) (f : A -> B) : Prop :=
  csize c = csize d /\ (forall a, cenc d (f a) = cenc c a) /\ (forall l, cdec d l = f (cdec c l)).

Lemma old_msg_of_id m : msg_of (msg_id m) = Some m.
Proof. by destruct m. Qed.

Lemma old_msg_of_some x m : msg_of x = Some m -> msg_id m = x.
Proof.
  unfold msg_of. intros H. repeat (case_match; [simplify_eq; symmetry; by apply Z.eqb_eq|]). done.
Qed.

Lemma upgrade_id m : ProtoDef.msg_id (upgrade m) = msg_id m.
Proof. by destruct m. Qed.

(** Versions 1 and 2 of the protocol agree on eleven structures, octet by octet and member
    by member, and on the number of every message version 1 has.  The structures version 2
    extended keep their identifiers and public addresses where they were, so a version 1
    reader finds them, but are longer: the image of a version 1 heartbeat, relay registration,
    answer or notice is shorter than what version 2 requires. *)
Theorem versions_agree :
  same_layout MsgHead_codec ProtoDef.MsgHead_codec
    (fun r => ProtoDef.mkMsgHead (mh_magic r) (mh_version r) (mh_msg_id r) (mh_length r)) /\
  same_layout ExtInfoReq_codec ProtoDef.ExtInfoReq_codec
    (fun r => ProtoDef.mkExtInfoReq (eq_uuid r)) /\
  same_layout ConnectReq_codec ProtoDef.ConnectReq_codec
    (fun r => ProtoDef.mkConnectReq (cr_src_uuid r) (cr_dst_uuid r)) /\
  same_layout DevListReq_codec ProtoDef.DevListReq_codec
    (fun r => ProtoDef.mkDevListReq (dq_start_index r) (dq_want_num r)) /\
  same_layout DevListRsp_codec ProtoDef.DevListRsp_codec
    (fun r => ProtoDef.mkDevListRsp (dr_total r) (dr_count r) (dr_start_index r)) /\
  same_layout DevListEntry_codec ProtoDef.DevListEntry_codec
    (fun r => ProtoDef.mkDevListEntry (de_uuid r) (de_ip r) (de_port r) (de_dev_type r)) /\
  same_layout ServerListRsp_codec ProtoDef.ServerListRsp_codec
    (fun r => ProtoDef.mkServerListRsp (sl_nat_count r) (sl_proxy_count r)) /\
  same_layout ProxyAvailReq_codec ProtoDef.ProxyAvailReq_codec
    (fun r => ProtoDef.mkProxyAvailReq (paq_nat_ip r) (paq_nat_port r)) /\
  same_layout ProxyAvailRsp_codec ProtoDef.ProxyAvailRsp_codec
    (fun r => ProtoDef.mkProxyAvailRsp (par_available r) (par_used r) (par_max_proxy r)) /\
  same_layout ProxyRegRsp_codec ProtoDef.ProxyRegRsp_codec
    (fun r => ProtoDef.mkProxyRegRsp (prr_result r) (prr_pub_ip r) (prr_pub_port r)) /\
  same_layout RelayFrame_codec ProtoDef.RelayFrame_codec
    (fun r => ProtoDef.mkRelayFrame (rf_src_uuid r) (rf_dst_uuid r)) /\
  (forall x m, msg_of x = Some m -> ProtoDef.msg_of x = Some (upgrade m)) /\
  (forall l, ur_uuid (cdec UuidReq_codec l) = ProtoDef.ur_uuid (cdec ProtoDef.UuidReq_codec l) /\
     ur_dev_type (cdec UuidReq_codec l) = ProtoDef.ur_dev_type (cdec ProtoDef.UuidReq_codec l)) /\
  (forall l, let a := cdec ConnectAck_codec l in let b := cdec ProtoDef.ConnectAck_codec l in
     ca_result a = ProtoDef.ca_result b /\ ca_dst_uuid a = ProtoDef.ca_dst_uuid b /\
     ca_dst_pub_ip a = ProtoDef.ca_dst_pub_ip b /\ ca_dst_pub_port a = ProtoDef.ca_dst_pub_port b) /\
  (forall l, let a := cdec ConnectInvite_codec l in let b := cdec ProtoDef.ConnectInvite_codec l in
     ci_src_uuid a = ProtoDef.ci_src_uuid b /\
     ci_src_pub_ip a = ProtoDef.ci_src_pub_ip b /\ ci_src_pub_port a = ProtoDef.ci_src_pub_port b) /\
  (forall l, prq_uuid (cdec ProxyRegReq_codec l) = ProtoDef.prq_uuid (cdec ProtoDef.ProxyRegReq_codec l)) /\
  (csize UuidReq_codec < csize ProtoDef.UuidReq_codec)%nat /\
  (csize ConnectAck_codec < csize ProtoDef.ConnectAck_codec)%nat /\
  (csize ConnectInvite_codec < csize ProtoDef.ConnectInvite_codec)%nat /\
  (csize ProxyRegReq_codec < csize ProtoDef.ProxyRegReq_codec)%nat.
Proof.
  assert (forall x m, msg_of x = Some m -> ProtoDef.msg_of x = Some (upgrade m)) as M.
  { intros x m <-%old_msg_of_some. rewrite <- upgrade_id. apply ProtoDef.msg_of_id. }
  do 11 (split; [by repeat split|]). split; [exact M|].
  do 4 (split; [by repeat split|]). cbn. lia.
Qed.

End OldProto.
