(* ===== verification/OldPeer.v ===== *)
(** * The earlier client

    Models [client/peer.cpp]: a command line client of protocol version 1 ([OldProto]) that
    registers, asks for an introduction, punches towards its peer and falls back on a relay,
    until one datagram or frame has come back or 40 seconds are over.  A round of its loop is
    a [round]: what arrived, and what the clock said at each of the calls of [time]. *)

From S2P Require Import Prelude.
From S2P Require Import Bytes.
From S2P Require Import Wire.
From S2P Require ProtoDef.
From S2P Require Import NetUtil.
From S2P Require Import Packet.
From S2P Require Import Handler.
From S2P Require Import OldProto.

#[local] Open Scope Z_scope.

Module OldPeer.
Import OldProto.

(** ** State *)

(** [my_pub] is never written; the descriptor of the socket is left out. *)
Record PeerClient := mkPeerClient {
  my_uuid : bytes;
  peer_uuid : bytes;
  nat_addr : sockaddr_in;
  proxy : sockaddr_in;
  have_proxy : bool;
  my_pub : sockaddr_in;
  have_pub : bool;
  remote : sockaddr_in;
  have_remote : bool;
  direct_ok : bool;
  relay_ok : bool;
  relay_registered : bool;
  register_sent : bool;
  sent_connect : bool;
  ping_seq : Z;
  next_hb : Z;
  next_punch : Z;
  direct_deadline : Z;
  next_relay_ping : Z
}.

Definition fresh : PeerClient :=
  mkPeerClient [] [] addr_zero addr_zero false addr_zero false addr_zero false false false false false false 0 0 0 0 0.

Definition set_my_uuid (x : bytes) (c : PeerClient) : PeerClient :=
  mkPeerClient x (peer_uuid c) (nat_addr c) (proxy c) (have_proxy c) (my_pub c) (have_pub c) (remote c)
    (have_remote c) (direct_ok c) (relay_ok c) (relay_registered c) (register_sent c) (sent_connect c)
    (ping_seq c) (next_hb c) (next_punch c) (direct_deadline c) (next_relay_ping c).
Definition set_peer_uuid (x : bytes) (c : PeerClient) : PeerClient :=
  mkPeerClient (my_uuid c) x (nat_addr c) (proxy c) (have_proxy c) (my_pub c) (have_pub c) (remote c)
    (have_remote c) (direct_ok c) (relay_ok c) (relay_registered c) (register_sent c) (sent_connect c)
    (ping_seq c) (next_hb c) (next_punch c) (direct_deadline c) (next_relay_ping c).
Definition set_nat_addr (x : sockaddr_in) (c : PeerClient) : PeerClient :=
  mkPeerClient (my_uuid c) (peer_uuid c) x (proxy c) (have_proxy c) (my_pub c) (have_pub c) (remote c)
    (have_remote c) (direct_ok c) (relay_ok c) (relay_registered c) (register_sent c) (sent_connect c)
    (ping_seq c) (next_hb c) (next_punch c) (direct_deadline c) (next_relay_ping c).
Definition set_proxy (x : sockaddr_in) (c : PeerClient) : PeerClient :=
  mkPeerClient (my_uuid c) (peer_uuid c) (nat_addr c) x (have_proxy c) (my_pub c) (have_pub c) (remote c)
    (have_remote c) (direct_ok c) (relay_ok c) (relay_registered c) (register_sent c) (sent_connect c)
    (ping_seq c) (next_hb c) (next_punch c) (direct_deadline c) (next_relay_ping c).
Definition set_have_proxy (x : bool) (c : PeerClient) : PeerClient :=
  mkPeerClient (my_uuid c) (peer_uuid c) (nat_addr c) (proxy c) x (my_pub c) (have_pub c) (remote c)
    (have_remote c) (direct_ok c) (relay_ok c) (relay_registered c) (register_sent c) (sent_connect c)
    (ping_seq c) (next_hb c) (next_punch c) (direct_deadline c) (next_relay_ping c).
Definition set_have_pub (x : bool) (c : PeerClient) : PeerClient :=
  mkPeerClient (my_uuid c) (peer_uuid c) (nat_addr c) (proxy c) (have_proxy c) (my_pub c) x (remote c)
    (have_remote c) (direct_ok c) (relay_ok c) (relay_registered c) (register_sent c) (sent_connect c)
    (ping_seq c) (next_hb c) (next_punch c) (direct_deadline c) (next_relay_ping c).
Definition set_remote (x : sockaddr_in) (c : PeerClient) : PeerClient :=
  mkPeerClient (my_uuid c) (peer_uuid c) (nat_addr c) (proxy c) (have_proxy c) (my_pub c) (have_pub c) x
    (have_remote c) (direct_ok c) (relay_ok c) (relay_registered c) (register_sent c) (sent_connect c)
    (ping_seq c) (next_hb c) (next_punch c) (direct_deadline c) (next_relay_ping c).
Definition set_have_remote (x : bool) (c : PeerClient) : PeerClient :=
  mkPeerClient (my_uuid c) (peer_uuid c) (nat_addr c) (proxy c) (have_proxy c) (my_pub c) (have_pub c)
    (remote c) x (direct_ok c) (relay_ok c) (relay_registered c) (register_sent c) (sent_connect c)
    (ping_seq c) (next_hb c) (next_punch c) (direct_deadline c) (next_relay_ping c).
Definition set_direct_ok (x : bool) (c : PeerClient) : PeerClient :=
  mkPeerClient (my_uuid c) (peer_uuid c) (nat_addr c) (proxy c) (have_proxy c) (my_pub c) (have_pub c)
    (remote c) (have_remote c) x (relay_ok c) (relay_registered c) (register_sent c) (sent_connect c)
    (ping_seq c) (next_hb c) (next_punch c) (direct_deadline c) (next_relay_ping c).
Definition set_relay_ok (x : bool) (c : PeerClient) : PeerClient :=
  mkPeerClient (my_uuid c) (peer_uuid c) (nat_addr c) (proxy c) (have_proxy c) (my_pub c) (have_pub c)
    (remote c) (have_remote c) (direct_ok c) x (relay_registered c) (register_sent c) (sent_connect c)
    (ping_seq c) (next_hb c) (next_punch c) (direct_deadline c) (next_relay_ping c).
Definition set_relay_registered (x : bool) (c : PeerClient) : PeerClient :=
  mkPeerClient (my_uuid c) (peer_uuid c) (nat_addr c) (proxy c) (have_proxy c) (my_pub c) (have_pub c)
    (remote c) (have_remote c) (direct_ok c) (relay_ok c) x (register_sent c) (sent_connect c) (ping_seq
    c) (next_hb c) (next_punch c) (direct_deadline c) (next_relay_ping c).
Definition set_register_sent (x : bool) (c : PeerClient) : PeerClient :=
  mkPeerClient (my_uuid c) (peer_uuid c) (nat_addr c) (proxy c) (have_proxy c) (my_pub c) (have_pub c)
    (remote c) (have_remote c) (direct_ok c) (relay_ok c) (relay_registered c) x (sent_connect c)
    (ping_seq c) (next_hb c) (next_punch c) (direct_deadline c) (next_relay_ping c).
Definition set_sent_connect (x : bool) (c : PeerClient) : PeerClient :=
  mkPeerClient (my_uuid c) (peer_uuid c) (nat_addr c) (proxy c) (have_proxy c) (my_pub c) (have_pub c)
    (remote c) (have_remote c) (direct_ok c) (relay_ok c) (relay_registered c) (register_sent c) x
    (ping_seq c) (next_hb c) (next_punch c) (direct_deadline c) (next_relay_ping c).
Definition set_ping_seq (x : Z) (c : PeerClient) : PeerClient :=
  mkPeerClient (my_uuid c) (peer_uuid c) (nat_addr c) (proxy c) (have_proxy c) (my_pub c) (have_pub c)
    (remote c) (have_remote c) (direct_ok c) (relay_ok c) (relay_registered c) (register_sent c)
    (sent_connect c) x (next_hb c) (next_punch c) (direct_deadline c) (next_relay_ping c).
Definition set_next_hb (x : Z) (c : PeerClient) : PeerClient :=
  mkPeerClient (my_uuid c) (peer_uuid c) (nat_addr c) (proxy c) (have_proxy c) (my_pub c) (have_pub c)
    (remote c) (have_remote c) (direct_ok c) (relay_ok c) (relay_registered c) (register_sent c)
    (sent_connect c) (ping_seq c) x (next_punch c) (direct_deadline c) (next_relay_ping c).
Definition set_next_punch (x : Z) (c : PeerClient) : PeerClient :=
  mkPeerClient (my_uuid c) (peer_uuid c) (nat_addr c) (proxy c) (have_proxy c) (my_pub c) (have_pub c)
    (remote c) (have_remote c) (direct_ok c) (relay_ok c) (relay_registered c) (register_sent c)
    (sent_connect c) (ping_seq c) (next_hb c) x (direct_deadline c) (next_relay_ping c).
Definition set_direct_deadline (x : Z) (c : PeerClient) : PeerClient :=
  mkPeerClient (my_uuid c) (peer_uuid c) (nat_addr c) (proxy c) (have_proxy c) (my_pub c) (have_pub c)
    (remote c) (have_remote c) (direct_ok c) (relay_ok c) (relay_registered c) (register_sent c)
    (sent_connect c) (ping_seq c) (next_hb c) (next_punch c) x (next_relay_ping c).
Definition set_next_relay_ping (x : Z) (c : PeerClient) : PeerClient :=
  mkPeerClient (my_uuid c) (peer_uuid c) (nat_addr c) (proxy c) (have_proxy c) (my_pub c) (have_pub c)
    (remote c) (have_remote c) (direct_ok c) (relay_ok c) (relay_registered c) (register_sent c)
    (sent_connect c) (ping_seq c) (next_hb c) (next_punch c) (direct_deadline c) x.

Inductive event := SendTo (to : sockaddr_in) (data : bytes).

Abbreviation M := (handler PeerClient event).

(** ** Sending *)

Definition head (id : MsgId) (plen : nat) : bytes :=
  cenc MsgHead_codec (mkMsgHead (htons NAT_MAGIC) PROTO_VER (msg_id id) (htonl (u32 (Z.of_nat plen)))).

Definition send_msg (to : sockaddr_in) (id : MsgId) (payload : bytes) : M unit :=
  if (2048 - 8 <? length payload)%nat then skip
  else emit (SendTo to (head id (length payload) ++ payload)).

Definition uuid_field (uuid : bytes) : bytes := strncpy_z (MAX_UUID_LEN + 1) MAX_UUID_LEN uuid.

(** [self] is the port of [getsockname], when it succeeds; [t] the time it is done. *)
Definition send_heartbeat (t : Z) (self : option Z) : M unit :=
  c ← gets id;
  send_msg (nat_addr c) MSG_HEARTBEAT_REQ
    (cenc UuidReq_codec (mkUuidReq (uuid_field (my_uuid c)) 2 (default 0 self)));;
  modify (set_next_hb (t + 5)).

Definition send_connect : M unit :=
  c ← gets id;
  send_msg (nat_addr c) MSG_CONNECT_REQ
    (cenc ConnectReq_codec (mkConnectReq (uuid_field (my_uuid c)) (uuid_field (peer_uuid c))));;
  modify (set_sent_connect true).

Definition PDAT : bytes := bs "PDAT".

(** A [PeerData] of this client. *)
Definition peer_data (type seq : Z) (uuid msg : bytes) : PeerData :=
  mkPeerData PDAT type seq (uuid_field uuid) (strncpy_z 64 63 msg).

Definition send_direct (type : Z) (msg : bytes) : M unit :=
  c ← gets id;
  if negb (have_remote c) then skip
  else
    modify (set_ping_seq (ping_seq c + 1));;
    emit (SendTo (remote c) (cenc PeerData_codec (peer_data type (u8 (ping_seq c)) (my_uuid c) msg))).

Definition register_proxy : M unit :=
  c ← gets id;
  send_msg (proxy c) MSG_PROXY_REGISTER_REQ (cenc ProxyRegReq_codec (mkProxyRegReq (uuid_field (my_uuid c)))).

(** Head, relay frame and peer data in one buffer. *)
Definition relay_frame (c : PeerClient) (type seq : Z) (msg : bytes) : bytes :=
  head MSG_PROXY_RELAY_DATA (csize RelayFrame_codec + csize PeerData_codec) ++
  cenc RelayFrame_codec (mkRelayFrame (uuid_field (my_uuid c)) (uuid_field (peer_uuid c))) ++
  cenc PeerData_codec (peer_data type seq (my_uuid c) msg).

Definition send_relay (type : Z) (msg : bytes) : M unit :=
  c ← gets id;
  if negb (have_proxy c) || negb (relay_registered c) then skip
  else
    modify (set_ping_seq (ping_seq c + 1));;
    emit (SendTo (proxy c) (relay_frame c type (u8 (ping_seq c)) msg)).

(** ** Receiving *)

(** [inet_pton] into the address of [a]: a text that is no address leaves it. *)
Definition pton_into (text : bytes) (a : sockaddr_in) : Z := default (s_addr a) (inet_pton text).

(** Peer data: a datagram that begins with "PD", missing octets being zero. *)
Definition on_peer_data (data : bytes) (from : sockaddr_in) : M unit :=
  let d := cdec PeerData_codec (pad_to (csize PeerData_codec) data) in
  modify (fun c => if have_remote c then c else set_have_remote true (set_remote from c));;
  if pd_type d =? 2 then skip
  else if pd_type d =? 0 then
    modify (set_direct_ok true);;
    send_direct 1 (bs "pong(direct)")
  else if pd_type d =? 1 then modify (set_direct_ok true)
  else skip.

Definition on_heartbeat_rsp (p : bytes) : M unit :=
  _ ← lift (cstr_in 0 (take (csize ExtInfoRsp_codec) p));
  modify (set_have_pub true).

(** The relay of an answer or notice, unless one is known. *)
Definition adopt_proxy (ip : bytes) (port : Z) (c : PeerClient) : PeerClient :=
  if (0 <? length ip)%nat && negb (have_proxy c) then
    set_have_proxy true (set_proxy (mkAddr (pton_into ip (proxy c)) port) c)
  else c.

Definition aim (ip : bytes) (port : Z) (c : PeerClient) : PeerClient :=
  set_have_remote true (set_remote (mkAddr (pton_into ip (remote c)) port) c).

Definition on_connect_ack (t : Z) (p : bytes) : M unit :=
  let obj := take (csize ConnectAck_codec) p in
  let ack := cdec ConnectAck_codec p in
  if negb (ca_result ack =? 0) then skip
  else
    dst ← lift (cstr_in 34 obj);
    modify (aim dst (ca_dst_pub_port ack));;
    modify (set_direct_deadline (t + 6));;
    pip ← lift (cstr_in 70 obj);
    modify (adopt_proxy pip (ca_proxy_port ack)).

Definition on_connect_invite (t : Z) (p : bytes) : M unit :=
  let obj := take (csize ConnectInvite_codec) p in
  let inv := cdec ConnectInvite_codec p in
  src ← lift (cstr_in 0 obj);
  modify (set_peer_uuid src);;
  pub ← lift (cstr_in 33 obj);
  modify (aim pub (ci_src_pub_port inv));;
  pip ← lift (cstr_in 69 obj);
  modify (adopt_proxy pip (ci_proxy_port inv));;
  modify (set_next_punch t).

Definition on_register_rsp (p : bytes) : M unit :=
  if prr_result (cdec ProxyRegRsp_codec p) =? 0 then
    modify (set_relay_registered true);;
    _ ← lift (cstr_in 1 (take (csize ProxyRegRsp_codec) p));
    skip
  else skip.

(** The type of the relayed data is read behind the relay frame, wherever the payload ends. *)
Definition on_relay_data (p : bytes) : M unit :=
  c ← gets id;
  if negb (bool_decide (c_strn MAX_UUID_LEN (rf_dst_uuid (cdec RelayFrame_codec p)) = c_strn MAX_UUID_LEN (my_uuid c)))
  then skip
  else
    modify (set_relay_ok true);;
    obj ← lift (read_obj 5 (drop (csize RelayFrame_codec) p));
    if nth 4 obj 0 =? 0 then emit (SendTo (proxy c) (relay_frame c 1 0 (bs "pong(relay)"))) else skip.

(** A message: [mem] is the receive buffer, [n] octets of which were received. *)
Definition on_message (t : Z) (mem : bytes) (n : nat) : M unit :=
  let h := cdec MsgHead_codec mem in
  if (n <? csize MsgHead_codec)%nat then skip
  else if negb (ntohs (mh_magic h) =? NAT_MAGIC) then skip
  else
    let plen := ntohl (mh_length h) in
    if Z.of_nat n - 8 <? plen then skip
    else
      let p := drop (csize MsgHead_codec) mem in
      let holds {A} (c : codec A) := negb (plen <? Z.of_nat (csize c)) in
      match msg_of (mh_msg_id h) with
      | Some MSG_HEARTBEAT_RSP => if holds ExtInfoRsp_codec then on_heartbeat_rsp p else skip
      | Some MSG_CONNECT_ACK => if holds ConnectAck_codec then on_connect_ack t p else skip
      | Some MSG_CONNECT_INVITE => if holds ConnectInvite_codec then on_connect_invite t p else skip
      | Some MSG_PROXY_REGISTER_RSP => if holds ProxyRegRsp_codec then on_register_rsp p else skip
      | Some MSG_PROXY_RELAY_DATA => if holds RelayFrame_codec then on_relay_data p else skip
      | _ => skip
      end.

Definition handle_recv (t : Z) (mem : bytes) (n : nat) (from : sockaddr_in) : M unit :=
  if (n <? 2)%nat then skip
  else if bool_decide (take 2 mem = bs "PD") then on_peer_data (take n mem) from
  else on_message t mem n.

(** ** The loop *)

(** One round: the clock in milliseconds at the condition of the loop, in [handle_recv], at
    [now] and in [send_heartbeat]; what [recvfrom] left in the buffer, if anything; the local
    port. *)
Record round := mkRound {
  r_check : Z;
  r_input : option (bytes * nat * sockaddr_in);
  r_recv : Z;
  r_now : Z;
  r_hb : Z;
  r_self : option Z
}.

(** [time(nullptr)]. *)
Definition sec (ms : Z) : Z := ms / 1000.

Definition punch_turn (now : Z) : M unit :=
  c ← gets id;
  if next_punch c <=? now then
    modify (set_next_punch (now + 1));;
    send_direct 2 (bs "punch");;
    send_direct 0 (bs "hello p2p")
  else skip.

Definition relay_turn (now : Z) : M unit :=
  c ← gets id;
  (if negb (relay_registered c) && negb (register_sent c) then
     modify (set_register_sent true);;
     (if have_proxy c then register_proxy else skip)
   else skip);;
  c ← gets id;
  if relay_registered c && (next_relay_ping c <=? now) then
    modify (set_next_relay_ping (now + 1));;
    send_relay 0 (bs "hello via proxy")
  else skip.

Definition initiator_turn (now : Z) : M unit :=
  c ← gets id;
  (if have_pub c && negb (sent_connect c) then send_connect else skip);;
  c ← gets id;
  if negb (have_remote c) then skip
  else if now <? direct_deadline c then punch_turn now
  else relay_turn now.

Definition waiter_turn (now : Z) : M unit :=
  c ← gets id;
  (if have_proxy c && negb (relay_registered c) && negb (register_sent c) && have_remote c then
     modify (set_register_sent true);; register_proxy
   else skip);;
  c ← gets id;
  if have_remote c && (next_punch c <=? now) then
    modify (set_next_punch (now + 1));;
    send_direct 2 (bs "punch-back")
  else skip.

(** The part of a round after what arrived is handled. *)
Definition timer_turn (is_initiator : bool) (r : round) : M unit :=
  c ← gets id;
  (if next_hb c <=? sec (r_now r) then send_heartbeat (sec (r_hb r)) (r_self r) else skip);;
  if is_initiator then initiator_turn (sec (r_now r)) else waiter_turn (sec (r_now r)).

Definition turn (is_initiator : bool) (r : round) : M unit :=
  (match r_input r with
   | Some (mem, n, from) => if (0 <? n)%nat then handle_recv (sec (r_recv r)) mem n from else skip
   | None => skip
   end);;
  timer_turn is_initiator r.

(** Whether the loop was left within the given rounds. *)
Fixpoint loop (is_initiator : bool) (deadline : Z) (rounds : list round) : M bool :=
  match rounds with
  | [] => mret false
  | r :: rounds =>
      c ← gets id;
      if (sec (r_check r) <? deadline) && negb (direct_ok c || relay_ok c) then
        turn is_initiator r;;
        loop is_initiator deadline rounds
      else mret true
  end.

(** ** The program *)

Inductive result := DIRECT | RELAY | FAILED.

(** How it ends: with status 1 for want of arguments or of a socket, with a result, or not
    within the rounds that are given. *)
Inductive ending := Usage | NoSocket | Ended (r : result) | Running.

Definition result_of (c : PeerClient) : result :=
  if direct_ok c then DIRECT else if relay_ok c then RELAY else FAILED.

(** A host address and port from text. *)
Definition text_addr (ip port : bytes) : sockaddr_in :=
  mkAddr (pton_into ip addr_zero) (htons (u16 (atoi port))).

(** The client the arguments describe: server address and port, identifier, and, optional,
    the peer's identifier, relay address and relay port. *)
Definition configure (args : list bytes) : option PeerClient :=
  match args with
  | ip :: port :: uuid :: rest =>
      let c := set_nat_addr (text_addr ip port) (set_my_uuid uuid (set_peer_uuid (nth 0 rest []) fresh)) in
      Some (match rest with
            | _ :: pip :: pport :: _ => set_have_proxy true (set_proxy (text_addr pip pport) c)
            | _ => c
            end)
  | _ => None
  end.

Definition main (args : list bytes) (socket bound : bool) (self : option Z) (t0 t1 : Z) (rounds : list round) : M ending :=
  match configure args with
  | None => mret Usage
  | Some c =>
      if negb (socket && bound) then mret NoSocket
      else
        let is_initiator := negb (length (peer_uuid c) =? 0)%nat in
        modify (fun _ => c);;
        send_heartbeat (sec t0) self;;
        left ← loop is_initiator (sec t1 + 40) rounds;
        c ← gets id;
        mret (if (left : bool) then Ended (result_of c) else Running)
  end.

(** ** Its datagrams *)

Lemma head_eq id n : head id n = [88; 78; 1; msg_id id] ++ le_enc 4 (htonl (u32 (Z.of_nat n))).
Proof. by destruct id. Qed.

Lemma peer_data_eq type seq uuid msg :
  cenc PeerData_codec (peer_data type seq uuid msg) =
  [80; 68; 65; 84; Z.land type 255; Z.land seq 255] ++ uuid_field uuid ++ strncpy_z 64 63 msg.
Proof. done. Qed.

(** Whether an effect is a message of the given number. *)
Definition is_msg (m : MsgId) (e : event) : bool :=
  let 'SendTo _ data := e in bool_decide (take 4 data = [88; 78; 1; msg_id m]).

Definition sent (m : MsgId) (o : list event) : Z := len (List.filter (is_msg m) o).

(** The head is not one of version 2 of the protocol. *)
Definition foreign (e : event) : Prop :=
  let 'SendTo _ data := e in
  let h := cdec ProtoDef.MsgHead_codec data in
  ntohs (ProtoDef.mh_magic h) <> ProtoDef.NAT_MAGIC \/ ProtoDef.mh_version h <> ProtoDef.PROTO_VER.

Lemma head_old to id n p : foreign (SendTo to (head id n ++ p)).
Proof. right. rewrite head_eq, <- app_assoc. cbn. done. Qed.

Lemma peer_data_old to type seq uuid msg : foreign (SendTo to (cenc PeerData_codec (peer_data type seq uuid msg))).
Proof. left. rewrite peer_data_eq. by vm_compute. Qed.

Lemma sent_app m o1 o2 : sent m (o1 ++ o2) = sent m o1 + sent m o2.
Proof. unfold sent, len. rewrite List.filter_app, length_app. lia. Qed.

Lemma is_msg_head m id to n p : is_msg m (SendTo to (head id n ++ p)) = (msg_id id =? msg_id m).
Proof.
  unfold is_msg. rewrite head_eq, <- app_assoc. cbn [take app]. rewrite firstn_O.
  destruct (Z.eqb_spec (msg_id id) (msg_id m)) as [->|N]; [by apply bool_decide_true|].
  apply bool_decide_false. congruence.
Qed.

(** ** What a run costs *)

Definition once (flag : bool) : Z := if flag then 0 else 1.

(** Nothing a current server understands; a connection request and a relay registration at
    most once, a heartbeat every five seconds, the next one not due after [B]. *)
Definition frugal (B : Z) (c c' : PeerClient) (o : list event) : Prop :=
  Forall foreign o /\
  sent MSG_CONNECT_REQ o + once (sent_connect c') <= once (sent_connect c) /\
  sent MSG_PROXY_REGISTER_REQ o + once (register_sent c') <= once (register_sent c) /\
  5 * sent MSG_HEARTBEAT_REQ o <= next_hb c' - next_hb c /\
  next_hb c' <= Z.max (next_hb c) B.

#[export] Instance frugal_trace B : Trace (frugal B).
Proof.
  split.
  - intros c. unfold frugal, sent, len. cbn. split; [constructor|lia].
  - intros c1 c2 c3 o1 o2 (F1 & H1) (F2 & H2). unfold frugal. rewrite !sent_app.
    split; [by apply Forall_app_2|lia].
Qed.

Abbreviation frugally B := (obeys (frugal B)).

Lemma old_length_uuid_field u : length (uuid_field u) = 33%nat.
Proof. apply length_strncpy_z. Qed.

Lemma old_send_msg_eq to id p c :
  (length p <= 2040)%nat -> send_msg to id p c = Done (tt, c, [SendTo to (head id (length p) ++ p)]).
Proof. intros H. unfold send_msg. by destruct (Nat.ltb_spec (2048 - 8) (length p)); [lia|]. Qed.

Definition heartbeat (c : PeerClient) (self : option Z) : bytes :=
  head MSG_HEARTBEAT_REQ 36 ++ cenc UuidReq_codec (mkUuidReq (uuid_field (my_uuid c)) 2 (default 0 self)).

Lemma send_heartbeat_eq t self c :
  send_heartbeat t self c = Done (tt, set_next_hb (t + 5) c, [SendTo (nat_addr c) (heartbeat c self)]).
Proof.
  unfold send_heartbeat. rewrite gets_eq. change (id c) with c. eapply (bind_eq _ _ _ _ _ [_] _ _ []); [|done].
  assert (length (cenc UuidReq_codec (mkUuidReq (uuid_field (my_uuid c)) 2 (default 0 self))) = 36%nat) as L
    by (cbn -[uuid_field]; rewrite !length_app, old_length_uuid_field; done).
  rewrite old_send_msg_eq by (rewrite L; lia). by rewrite L.
Qed.

Definition connect_request (c : PeerClient) : bytes :=
  head MSG_CONNECT_REQ 66 ++ cenc ConnectReq_codec (mkConnectReq (uuid_field (my_uuid c)) (uuid_field (peer_uuid c))).

Lemma send_connect_eq c :
  send_connect c = Done (tt, set_sent_connect true c, [SendTo (nat_addr c) (connect_request c)]).
Proof.
  unfold send_connect. rewrite gets_eq. change (id c) with c. eapply (bind_eq _ _ _ _ _ [_] _ _ []); [|done].
  assert (length (cenc ConnectReq_codec (mkConnectReq (uuid_field (my_uuid c)) (uuid_field (peer_uuid c)))) = 66%nat) as L
    by (cbn -[uuid_field]; rewrite length_app, !old_length_uuid_field; done).
  rewrite old_send_msg_eq by (rewrite L; lia). by rewrite L.
Qed.

Definition register_request (c : PeerClient) : bytes :=
  head MSG_PROXY_REGISTER_REQ 33 ++ uuid_field (my_uuid c).

Lemma register_proxy_eq c : register_proxy c = Done (tt, c, [SendTo (proxy c) (register_request c)]).
Proof.
  unfold register_proxy. rewrite gets_eq. change (id c) with c. rewrite old_send_msg_eq by (cbn -[uuid_field]; rewrite old_length_uuid_field; lia).
  cbn [cenc ProxyRegReq_codec c_iso c_bytes prq_uuid]. by rewrite old_length_uuid_field.
Qed.

Section Frugal.
Context (B : Z).

(** An update that leaves the three counters, or spends one. *)
Lemma frugal_same c c' :
  sent_connect c' = sent_connect c -> register_sent c' = register_sent c -> next_hb c' = next_hb c ->
  frugal B c c' [].
Proof. intros E1 E2 E3. unfold frugal, sent, len. rewrite E1, E2, E3. cbn. split; [constructor|lia]. Qed.

Lemma frugal_modify f :
  (forall c, sent_connect (f c) = sent_connect c /\ register_sent (f c) = register_sent c /\ next_hb (f c) = next_hb c) ->
  frugally B (modify f).
Proof. intros H. apply obeys_modify. intros c. by apply frugal_same; apply (H c). Qed.

Lemma frugal_emit to data :
  foreign (SendTo to data) ->
  Forall (fun m => is_msg m (SendTo to data) = false) [MSG_CONNECT_REQ; MSG_PROXY_REGISTER_REQ; MSG_HEARTBEAT_REQ] ->
  frugally B (emit (SendTo to data)).
Proof.
  intros P N. repeat match goal with H : Forall _ (_ :: _) |- _ => apply Forall_cons in H as [? H] end.
  apply obeys_emit. intros c. unfold frugal, sent, len. cbn [List.filter].
  repeat match goal with H : is_msg _ _ = false |- _ => rewrite H; clear H end. cbn.
  split; [by constructor|lia].
Qed.

Lemma frugal_peer_data to type seq uuid msg :
  frugally B (emit (SendTo to (cenc PeerData_codec (peer_data type seq uuid msg)))).
Proof. apply frugal_emit; [apply peer_data_old|by repeat constructor]. Qed.

Lemma frugal_relay_frame to c type seq msg : frugally B (emit (SendTo to (relay_frame c type seq msg))).
Proof. apply frugal_emit; [apply head_old|]. unfold relay_frame. repeat constructor; by rewrite is_msg_head. Qed.

(** Walks through a handler that asks for nothing and registers nowhere. *)
Ltac walk_frugal :=
  repeat first
    [ apply obeys_skip; exact _ | apply obeys_ret; exact _ | apply obeys_get; exact _ | apply obeys_lift; exact _
    | apply frugal_peer_data | apply frugal_relay_frame
    | apply frugal_modify; intros c0; by repeat case_match
    | apply obeys_if | apply obeys_bind; [exact _| |intros ?] ].

Lemma frugal_send_direct type msg : frugally B (send_direct type msg).
Proof. unfold send_direct. walk_frugal. Qed.

Lemma frugal_send_relay type msg : frugally B (send_relay type msg).
Proof. unfold send_relay. walk_frugal. Qed.

Lemma frugal_on_message t mem n : frugally B (on_message t mem n).
Proof.
  unfold on_message, on_heartbeat_rsp, on_connect_ack, on_connect_invite, on_register_rsp, on_relay_data.
  cbv zeta. repeat (apply obeys_if; [by apply obeys_skip; exact _|]).
  repeat case_match; walk_frugal; unfold adopt_proxy; by walk_frugal.
Qed.

Lemma frugal_handle_recv t mem n from : frugally B (handle_recv t mem n from).
Proof.
  unfold handle_recv, on_peer_data. cbv zeta. pose proof (frugal_send_direct 1 (bs "pong(direct)")).
  apply obeys_if; [by apply obeys_skip; exact _|]. apply obeys_if; [|apply frugal_on_message]. walk_frugal; done.
Qed.

(** One message of a given number. *)
Lemma sent_head m id to n p : sent m [SendTo to (head id n ++ p)] = if msg_id id =? msg_id m then 1 else 0.
Proof. unfold sent, len. cbn [List.filter]. rewrite is_msg_head. by destruct (_ =? _). Qed.

Lemma foreign_head to id n p : Forall foreign [SendTo to (head id n ++ p)].
Proof. constructor; [apply head_old|done]. Qed.

Lemma frugal_heartbeat t self c :
  next_hb c <= t -> t + 5 <= B -> frugal B c (set_next_hb (t + 5) c) [SendTo (nat_addr c) (heartbeat c self)].
Proof.
  intros H1 H2. unfold frugal, heartbeat. rewrite !sent_head. split; [apply foreign_head|cbn; lia].
Qed.

Lemma frugal_connect c :
  sent_connect c = false -> frugal B c (set_sent_connect true c) [SendTo (nat_addr c) (connect_request c)].
Proof.
  intros H. unfold frugal, connect_request. rewrite !sent_head, H. split; [apply foreign_head|cbn; lia].
Qed.

Lemma frugal_register c :
  register_sent c = false -> frugal B c (set_register_sent true c) [SendTo (proxy c) (register_request c)].
Proof.
  intros H. unfold frugal, register_request. rewrite !sent_head, H. split; [apply foreign_head|cbn; lia].
Qed.

Lemma frugal_flag c : frugal B c (set_register_sent true c) [].
Proof. unfold frugal, sent, len. cbn. split; [constructor|]. destruct (register_sent c); cbn; lia. Qed.

(** The registration of either side, guarded by the flag. *)
Lemma frugal_register_once (known : bool) c :
  register_sent c = false ->
  forall a s' o,
  (modify (set_register_sent true);; (if known then register_proxy else skip)) c = Done (a, s', o) -> frugal B c s' o.
Proof.
  intros H a s' o. rewrite modify_eq. destruct known.
  - rewrite register_proxy_eq. intros [= _ <- <-]. exact (frugal_register c H).
  - intros [= _ <- <-]. apply frugal_flag.
Qed.

Lemma frugal_punch_turn now : frugally B (punch_turn now).
Proof.
  unfold punch_turn. pose proof frugal_send_direct. walk_frugal; auto.
Qed.

(** A guarded step, then the rest. *)
Lemma frugal_then {A C} (m : M A) (k : A -> M C) c a s' o :
  (forall a s1 o1, m c = Done (a, s1, o1) -> frugal B c s1 o1) -> (forall a, frugally B (k a)) ->
  (m ≫= k) c = Done (a, s', o) -> frugal B c s' o.
Proof.
  intros Hm Hk (b & s1 & o1 & o2 & H1 & H2 & ->)%bind_done.
  eapply trace_app; [by eapply Hm|by eapply Hk].
Qed.

Lemma frugal_relay_turn now : frugally B (relay_turn now).
Proof.
  unfold relay_turn. apply obeys_gets. intros c a s' o. change (id c) with c. apply frugal_then.
  - intros b s1 o1. destruct (negb (relay_registered c) && negb (register_sent c)) eqn:G.
    + apply frugal_register_once. apply andb_true_iff in G as [_ G]. by apply negb_true_iff.
    + by apply obeys_skip; exact _.
  - intros _. pose proof frugal_send_relay. by walk_frugal.
Qed.

Lemma frugal_initiator_turn now : frugally B (initiator_turn now).
Proof.
  unfold initiator_turn. apply obeys_gets. intros c a s' o. change (id c) with c. apply frugal_then.
  - intros b s1 o1. destruct (have_pub c && negb (sent_connect c)) eqn:G.
    + rewrite send_connect_eq. intros [= _ <- <-]. apply frugal_connect.
      apply andb_true_iff in G as [_ G]. by apply negb_true_iff.
    + by apply obeys_skip; exact _.
  - intros _. apply obeys_bind; [exact _|by apply obeys_get; exact _|]. intros c1.
    apply obeys_if; [by apply obeys_skip; exact _|]. apply obeys_if; [apply frugal_punch_turn|apply frugal_relay_turn].
Qed.

Lemma frugal_waiter_turn now : frugally B (waiter_turn now).
Proof.
  unfold waiter_turn. apply obeys_gets. intros c a s' o. change (id c) with c. apply frugal_then.
  - intros b s1 o1. destruct (_ && have_remote c) eqn:G; [|by apply obeys_skip; exact _].
    apply (frugal_register_once true). rewrite !andb_true_iff, !negb_true_iff in G. apply G.
  - intros _. pose proof frugal_send_direct. by walk_frugal.
Qed.

Lemma frugal_turn init r :
  r_now r <= r_hb r -> sec (r_hb r) + 5 <= B -> frugally B (turn init r).
Proof.
  intros H1 H2. unfold turn, timer_turn. apply obeys_bind; [exact _| |intros _].
  { destruct (r_input r) as [[[mem n] from]|]; [|by apply obeys_skip; exact _].
    apply obeys_if; [apply frugal_handle_recv|by apply obeys_skip; exact _]. }
  apply obeys_gets. intros c a s' o. change (id c) with c. apply frugal_then.
  - intros b s1 o1. destruct (Z.leb_spec (next_hb c) (sec (r_now r))); [|by apply obeys_skip; exact _].
    rewrite send_heartbeat_eq. intros [= _ <- <-]. apply frugal_heartbeat; [|done].
    etrans; [done|]. by apply Z.div_le_mono.
  - intros _. apply obeys_if; [apply frugal_initiator_turn|apply frugal_waiter_turn].
Qed.

End Frugal.

End OldPeer.
