(* ===== verification/OldPeerRuns.v ===== *)
(** * Runs of the earlier client

    Theorems about [OldPeer]: which input it can read, that its loop ends whatever arrives,
    what a run sends at most, and that neither current server answers it. *)

From S2P Require Import Prelude.
From S2P Require Import Bytes.
From S2P Require Import Wire.
From S2P Require ProtoDef.
From S2P Require Import NetUtil.
From S2P Require Import Packet.
From S2P Require Import Handler.
From S2P Require Import NatTypeCheck.
From S2P Require Import NatServer.
From S2P Require Import RecvProcess.
From S2P Require Import P2PProxy.
From S2P Require Import OldProto.
From S2P Require Import OldPeer.

#[local] Open Scope Z_scope.

Module OldPeerRuns.
Import OldProto OldPeer.

(** ** The clock *)

(** The clock does not go back, and [select] waits 300 ms when nothing arrives. *)
Fixpoint clock_ok (t : Z) (rounds : list round) : Prop :=
  match rounds with
  | [] => True
  | r :: rounds =>
      t <= r_check r <= r_now r /\ r_now r <= r_hb r /\
      (r_input r = None -> r_check r + 300 <= r_now r) /\
      clock_ok (r_hb r) rounds
  end.

(** Rounds in which something arrived. *)
Definition arrivals (rounds : list round) : nat :=
  length (List.filter (fun r => bool_decide (r_input r <> None)) rounds).

Lemma sec_mono a b : a <= b -> sec a <= sec b.
Proof. intros H. by apply Z.div_le_mono. Qed.

(** Rounds that begin before [d] are at most the arrivals and one per 300 ms. *)
Lemma rounds_before d t rounds :
  clock_ok t rounds -> Forall (fun r => r_check r < d) rounds ->
  300 * (len rounds - Z.of_nat (arrivals rounds)) <= Z.max 0 (d - t + 299).
Proof.
  unfold len, arrivals. revert t. induction rounds as [|r rounds IH]; intros t C F; [cbn; lia|].
  destruct C as (C1 & C2 & C3 & C4). apply Forall_cons in F as [F1 F2]. specialize (IH _ C4 F2).
  cbn [List.filter length]. destruct (r_input r); cbn [length].
  - rewrite bool_decide_true by done. cbn [length]. lia.
  - rewrite bool_decide_false by (intros N; by apply N). specialize (C3 eq_refl). lia.
Qed.

(** A loop that was not left had time in every round. *)
Lemma loop_running init deadline rounds c c' o :
  loop init deadline rounds c = Done (false, c', o) -> Forall (fun r => sec (r_check r) < deadline) rounds.
Proof.
  revert c c' o. induction rounds as [|r rounds IH]; intros c c' o; [constructor|].
  cbn [loop]. rewrite gets_eq. destruct (Z.ltb_spec (sec (r_check r)) deadline); [|done].
  destruct (negb _); [|done]. intros (u & c1 & o1 & o2 & _ & H1 & _)%bind_done. constructor; [done|]. by eapply IH.
Qed.

(** Not many rounds pass in which the loop is not left. *)
Lemma loop_bound init t rounds c c' o :
  clock_ok t rounds -> loop init (sec t + 40) rounds c = Done (false, c', o) ->
  (length rounds <= arrivals rounds + 134)%nat.
Proof.
  intros C L. apply loop_running in L. pose proof (rounds_before ((sec t + 40) * 1000) t rounds C) as B.
  assert (sec t * 1000 <= t) by (unfold sec; zdiv). unfold len in B.
  enough (Forall (fun r => r_check r < (sec t + 40) * 1000) rounds) by (specialize (B ltac:(done)); lia).
  eapply Forall_impl; [exact L|]. cbn. intros r. unfold sec. intros. zdiv.
Qed.

(** The loop is left before its rounds are used up, if there are enough of them. *)
Lemma loop_left init t rounds c left c' o :
  clock_ok t rounds -> (arrivals rounds + 134 < length rounds)%nat ->
  loop init (sec t + 40) rounds c = Done (left, c', o) -> left = true.
Proof. intros C N L. destruct left; [done|]. apply loop_bound in L; [lia|done]. Qed.

Lemma clock_ok_take n t rounds : clock_ok t rounds -> clock_ok t (take n rounds).
Proof.
  revert n t. induction rounds as [|r rounds IH]; intros [|n] t; try done. cbn [take clock_ok].
  intros (? & ? & ? & ?). by auto.
Qed.

(** The round at which it is left, and why; the rounds before it, and that none after it
    matters. *)
Lemma loop_cut init deadline rounds c c' o :
  loop init deadline rounds c = Done (true, c', o) ->
  exists n r, rounds !! n = Some r /\
    (deadline <= sec (r_check r) \/ direct_ok c' = true \/ relay_ok c' = true) /\
    loop init deadline (take n rounds) c = Done (false, c', o) /\
    forall later, loop init deadline (take n rounds ++ r :: later) c = Done (true, c', o).
Proof.
  revert c o. induction rounds as [|r rounds IH]; intros c o; [done|]. cbn [loop]. rewrite gets_eq. change (id c) with c.
  destruct ((sec (r_check r) <? deadline) && negb (direct_ok c || relay_ok c)) eqn:G.
  - intros (u & c1 & o1 & o2 & H1 & H2 & ->)%bind_done. destruct (IH _ _ H2) as (n & r' & L & W & B & A).
    exists (S n), r'. split; [done|]. split; [done|]. cbn [take app loop]. split.
    + rewrite gets_eq. change (id c) with c. rewrite G. by eapply bind_eq.
    + intros later. rewrite gets_eq. change (id c) with c. rewrite G. eapply bind_eq; [exact H1|apply A].
  - intros [= <- <-]. exists 0%nat, r. split; [done|]. split; [|split; [done|]].
    + destruct (Z.ltb_spec (sec (r_check r)) deadline); [|by left]. cbn [andb] in G. apply negb_false_iff, orb_true_iff in G. by right.
    + intros later. cbn [take app loop]. rewrite gets_eq. change (id c) with c. by rewrite G.
Qed.

(** ** What a run sends *)

(** A handler that is frugal for every bound sends no heartbeat. *)
Lemma frugal_none c c' o : (forall B, frugal B c c' o) -> sent MSG_HEARTBEAT_REQ o = 0.
Proof.
  intros H. destruct (H (next_hb c)) as (_ & _ & _ & H1 & H2).
  pose proof (Zle_0_nat (length (List.filter (is_msg MSG_HEARTBEAT_REQ) o))). unfold sent, len in *. lia.
Qed.

Lemma turn_heartbeats init r c u c' o : turn init r c = Done (u, c', o) -> sent MSG_HEARTBEAT_REQ o <= 1.
Proof.
  intros (x1 & c1 & o1 & o2 & H1 & H2 & ->)%bind_done. unfold timer_turn in H2. rewrite gets_eq in H2. change (id c1) with c1 in H2.
  apply bind_done in H2 as (x2 & c2 & o3 & o4 & H2 & H3 & ->). rewrite !sent_app.
  rewrite (frugal_none c c1 o1), (frugal_none c2 c' o4).
  - destruct (_ <=? _); [|by injection H2 as _ <- <-].
    rewrite send_heartbeat_eq in H2. injection H2 as _ <- <-. unfold heartbeat. by rewrite sent_head.
  - intros B. revert H3. destruct init; [by apply frugal_initiator_turn|by apply frugal_waiter_turn].
  - intros B. revert H1. destruct (r_input r) as [[[mem n] from]|]; [|by apply obeys_skip; exact _].
    destruct (_ <? _)%nat; [by apply frugal_handle_recv|by apply obeys_skip; exact _].
Qed.

Lemma loop_frugal init deadline rounds t c left c' o :
  clock_ok t rounds -> next_hb c <= sec t + 5 -> loop init deadline rounds c = Done (left, c', o) ->
  Forall foreign o /\
  sent MSG_CONNECT_REQ o <= once (sent_connect c) /\
  sent MSG_PROXY_REGISTER_REQ o <= once (register_sent c) /\
  5 * sent MSG_HEARTBEAT_REQ o <= Z.max 0 (deadline + 9 - next_hb c).
Proof.
  revert t c o. induction rounds as [|r rounds IH]; intros t c o C N.
  { intros [= _ <- <-]. unfold sent, len. cbn. split; [constructor|]. unfold once. repeat case_match; lia. }
  cbn [loop]. rewrite gets_eq. change (id c) with c. destruct C as (C1 & C2 & _ & C4).
  destruct (Z.ltb_spec (sec (r_check r)) deadline); cbn [andb].
  2:{ intros [= _ <- <-]. unfold sent, len. cbn. split; [constructor|]. unfold once. repeat case_match; lia. }
  destruct (negb _).
  2:{ intros [= _ <- <-]. unfold sent, len. cbn. split; [constructor|]. unfold once. repeat case_match; lia. }
  intros (u & c1 & o1 & o2 & H1 & H2 & ->)%bind_done.
  pose proof (turn_heartbeats _ _ _ _ _ _ H1) as T.
  apply (frugal_turn (sec (r_hb r) + 5)) in H1 as (F1 & A1 & A2 & A3 & A4); [|done|done].
  pose proof (sec_mono t (r_check r) ltac:(lia)) as M1. pose proof (sec_mono (r_check r) (r_hb r) ltac:(lia)) as M2.
  destruct (IH (r_hb r) c1 o2 C4 ltac:(lia) H2) as (F2 & B1 & B2 & B3).
  rewrite !sent_app. split; [by apply Forall_app_2|]. lia.
Qed.

(** ** What it can read *)

(** The texts that a message of an older server ends with a zero octet do end. *)
Definition strings_end (mem : bytes) : Prop :=
  let p := drop 8 mem in
  match msg_of (mh_msg_id (cdec MsgHead_codec mem)) with
  | Some MSG_HEARTBEAT_RSP => 0 ∈ take 36 p
  | Some MSG_CONNECT_ACK => 0 ∈ drop 70 (take 88 p)
  | Some MSG_CONNECT_INVITE => 0 ∈ drop 69 (take 87 p)
  | Some MSG_PROXY_REGISTER_RSP => 0 ∈ drop 1 (take 19 p)
  | _ => True
  end.

(** The buffer of 2048 octets, and texts that end. *)
Definition readable (r : round) : Prop :=
  match r_input r with
  | Some (mem, n, from) => length mem = 2048%nat /\ strings_end mem
  | None => True
  end.

Lemma cstr_in_done off obj : 0 ∈ drop off obj -> is_done (cstr_in off obj) = true.
Proof. intros H. unfold cstr_in. by rewrite bool_decide_true. Qed.

Lemma elem_of_drop_less {A} (x : A) a b l : (a <= b)%nat -> x ∈ drop b l -> x ∈ drop a l.
Proof.
  intros L H. rewrite <- (take_drop (b - a) (drop a l)), drop_drop, elem_of_app.
  right. by replace (a + (b - a))%nat with b by lia.
Qed.

Lemma total_send_msg to id p : total (send_msg to id p).
Proof. unfold send_msg. walk_total. Qed.

Lemma total_send_direct type msg : total (send_direct type msg).
Proof. unfold send_direct. walk_total. Qed.

Lemma total_send_relay type msg : total (send_relay type msg).
Proof. unfold send_relay. walk_total. Qed.

Lemma total_register_proxy : total register_proxy.
Proof. unfold register_proxy. apply total_bind; [done|]. intros c. apply total_send_msg. Qed.

#[local] Hint Resolve total_send_msg total_send_direct total_send_relay total_register_proxy cstr_in_done : p2p.

Lemma total_on_relay_data p : (71 <= length p)%nat -> total (on_relay_data p).
Proof.
  intros L. unfold on_relay_data. apply total_bind; [done|]. intros c. apply total_if; [done|].
  apply total_bind; [done|]. intros _. apply total_bind; [|intros obj; walk_total].
  apply total_lift. unfold read_obj. change (csize RelayFrame_codec) with 66%nat. rewrite length_drop.
  by destruct (Nat.ltb_spec (length p - 66) 5); [lia|].
Qed.

Lemma total_on_message t mem n : length mem = 2048%nat -> strings_end mem -> total (on_message t mem n).
Proof.
  intros L. unfold strings_end, on_message. cbv zeta. change (csize MsgHead_codec) with 8%nat.
  set (p := drop 8 mem). assert (length p = 2040%nat) as Lp by (unfold p; rewrite length_drop; lia).
  intros H. do 3 (apply total_if; [done|]). destruct (msg_of _) as [[]|]; try done; apply total_if; try done.
  - unfold on_heartbeat_rsp. walk_total.
  - unfold on_connect_ack. cbv zeta. assert (0 ∈ drop 34 (take 88 p)) by (by apply (elem_of_drop_less _ _ 70); [lia|]).
    walk_total.
  - unfold on_connect_invite. cbv zeta.
    assert (0 ∈ drop 33 (take 87 p)) by (by apply (elem_of_drop_less _ _ 69); [lia|]).
    assert (0 ∈ drop 0 (take 87 p)) by (by apply (elem_of_drop_less _ _ 69); [lia|]). walk_total.
  - unfold on_register_rsp. walk_total.
  - apply total_on_relay_data. lia.
Qed.

Lemma total_handle_recv t mem n from : length mem = 2048%nat -> strings_end mem -> total (handle_recv t mem n from).
Proof.
  intros L H. unfold handle_recv, on_peer_data. cbv zeta. pose proof (total_on_message t mem n L H). walk_total.
Qed.

Lemma total_turn init r : readable r -> total (turn init r).
Proof.
  unfold readable, turn, timer_turn. intros R. apply total_bind; [|intros _].
  { destruct (r_input r) as [[[mem n] from]|]; [|done]. destruct R. apply total_if; [by apply total_handle_recv|done]. }
  unfold send_heartbeat, initiator_turn, waiter_turn, send_connect, punch_turn, relay_turn. walk_total.
Qed.

Lemma total_loop init deadline rounds : Forall readable rounds -> total (loop init deadline rounds).
Proof.
  induction 1 as [|r rounds R _ IH]; [done|]. cbn [loop]. apply total_bind; [done|]. intros c.
  apply total_if; [|done]. apply total_bind; [by apply total_turn|by intros _].
Qed.

(** ** The program *)

(** A client that has received nothing. *)
Definition deaf (c : PeerClient) : Prop :=
  have_pub c = false /\ have_remote c = false /\ direct_ok c = false /\ relay_ok c = false.

Lemma configure_fresh args c :
  configure args = Some c -> deaf c /\ sent_connect c = false /\ register_sent c = false.
Proof.
  unfold configure, deaf. destruct args as [|ip [|port [|uuid rest]]]; try done.
  intros [= <-]. by destruct rest as [|? [|? [|]]].
Qed.

Definition initiates (c : PeerClient) : bool := negb (length (peer_uuid c) =? 0)%nat.

(** A program that gets its arguments and socket runs its loop. *)
Lemma main_eq args self t0 t1 rounds c left c' o :
  configure args = Some c ->
  loop (initiates c) (sec t1 + 40) rounds (set_next_hb (sec t0 + 5) c) = Done (left, c', o) ->
  main args true true self t0 t1 rounds fresh =
    Done (if left then Ended (result_of c') else Running, c', SendTo (nat_addr c) (heartbeat c self) :: o).
Proof.
  intros E L. unfold main. rewrite E. cbn [andb negb]. rewrite modify_eq.
  eapply (bind_eq _ _ _ _ _ [_]); [apply send_heartbeat_eq|].
  rewrite <- (app_nil_r o). eapply bind_eq; [exact L|]. by rewrite gets_eq.
Qed.

Lemma main_runs args self t0 t1 rounds c :
  configure args = Some c -> Forall readable rounds ->
  exists left c' o,
    loop (initiates c) (sec t1 + 40) rounds (set_next_hb (sec t0 + 5) c) = Done (left, c', o) /\
    main args true true self t0 t1 rounds fresh =
      Done (if left then Ended (result_of c') else Running, c', SendTo (nat_addr c) (heartbeat c self) :: o).
Proof.
  intros E R. destruct (total_done _ (set_next_hb (sec t0 + 5) c) (total_loop (initiates c) (sec t1 + 40) rounds R))
    as (left & c' & o & L). exists left, c', o. split; [done|]. by apply main_eq.
Qed.

(** C39: the earlier client ends within 40 seconds.  Whatever arrives, in whatever order and
    number, as long as the texts in the messages end in a zero octet: there is a round,
    preceded by at most 134 besides those in which something arrives, at whose beginning the
    client ends, with the result of its flags and whatever would come later, because a
    connection has been made or because 40 seconds have passed on its clock since it entered
    the loop; until then it was running, and no round before began after these 40 seconds.
    By then it has asked for at most one introduction and at most one relay registration, and
    has sent at most one heartbeat every five seconds, nine when the clock shows the same
    second at both calls before the loop. *)
Theorem older_client_ends (args : list bytes) (c : PeerClient) (self : option Z) (t0 t1 : Z) (rounds : list round)
    (HA : configure args = Some c) (HT : t0 <= t1) (HC : clock_ok t1 rounds) (HR : Forall readable rounds)
    (HL : (arrivals rounds + 134 < length rounds)%nat) :
  exists n r c' o, rounds !! n = Some r /\ (n <= arrivals (take n rounds) + 134)%nat /\
    main args true true self t0 t1 (take n rounds) fresh = Done (Running, c', o) /\
    Forall (fun r' => sec (r_check r') < sec t1 + 40) (take n rounds) /\
    (sec t1 + 40 <= sec (r_check r) \/ direct_ok c' = true \/ relay_ok c' = true) /\
    (forall later, main args true true self t0 t1 (take n rounds ++ r :: later) fresh = Done (Ended (result_of c'), c', o)) /\
    sent MSG_CONNECT_REQ o <= 1 /\ sent MSG_PROXY_REGISTER_REQ o <= 1 /\
    5 * sent MSG_HEARTBEAT_REQ o <= 49 + (sec t1 - sec t0).
Proof.
  destruct (main_runs args self t0 t1 rounds c HA HR) as (left & c' & o & L & _). pose proof (sec_mono _ _ HT) as S.
  rewrite (loop_left _ _ _ _ _ _ _ HC HL L) in L. destruct (loop_cut _ _ _ _ _ _ L) as (n & r & E & W & B & A).
  pose proof (clock_ok_take n _ _ HC) as HC'. exists n, r, c', (SendTo (nat_addr c) (heartbeat c self) :: o).
  split; [done|]. split.
  { pose proof (loop_bound _ _ _ _ _ _ HC' B) as K. rewrite length_take_le in K; [done|]. apply lookup_lt_Some in E. lia. }
  split; [exact (main_eq _ _ _ _ _ _ _ _ _ HA B)|]. split; [by eapply loop_running|]. split; [done|].
  split; [intros later; exact (main_eq _ _ _ _ _ _ _ _ _ HA (A later))|].
  apply configure_fresh in HA as (_ & Sc & Sr).
  apply (loop_frugal _ _ _ t1) in B as (_ & L1 & L2 & L3); [|done|cbn; lia].
  change (SendTo (nat_addr c) (heartbeat c self) :: o) with ([SendTo (nat_addr c) (heartbeat c self)] ++ o).
  rewrite !sent_app. unfold heartbeat. rewrite !sent_head. cbn in L1, L2, L3 |- *. rewrite Sc in L1. rewrite Sr in L2.
  cbn in L1, L2. lia.
Qed.

(** 135 rounds in which nothing arrives, of 300 ms each. *)
Definition demo_args : list bytes := [bs "127.0.0.1"; bs "7000"; bs "app"; bs "cam"].

Fixpoint idle_rounds (n : nat) (t : Z) : list round :=
  match n with O => [] | S n => mkRound t None t (t + 300) (t + 300) None :: idle_rounds n (t + 300) end.

Lemma idle_rounds_ok n t :
  clock_ok t (idle_rounds n t) /\ Forall (fun r => r_input r = None) (idle_rounds n t) /\
  arrivals (idle_rounds n t) = 0%nat /\ length (idle_rounds n t) = n.
Proof.
  revert t. induction n as [|n IH]; intros t; [done|]. destruct (IH (t + 300)) as (C & F & A & L).
  cbn [idle_rounds clock_ok length r_check r_now r_hb r_input]. split; [|split; [by constructor|split; [done|by f_equal]]].
  split; [lia|]. split; [lia|]. split; [lia|done].
Qed.

Lemma older_client_ends_witness :
  exists n r c' o, idle_rounds 135 0 !! n = Some r /\
    main demo_args true true None 0 0 (take n (idle_rounds 135 0) ++ [r]) fresh = Done (Ended (result_of c'), c', o) /\
    sent MSG_HEARTBEAT_REQ o <= 9.
Proof.
  destruct (configure demo_args) as [c|] eqn:E; [|done]. destruct (idle_rounds_ok 135 0) as (C & F & A & L).
  destruct (older_client_ends demo_args c None 0 0 (idle_rounds 135 0) E) as (n & r & c' & o & R & _ & _ & _ & _ & M & _ & _ & H).
  - done.
  - exact C.
  - apply (Forall_impl _ _ _ F). unfold readable. by intros r ->.
  - rewrite A, L. lia.
  - exists n, r, c', o. split; [exact R|]. split; [apply M|]. change (sec 0 - sec 0) with 0 in H. lia.
Defined.

(** ** Against the current servers *)

(** The rendezvous server, its fast path and the relay do nothing with a datagram. *)
Definition ignored (data : bytes) : Prop :=
  forall e srv now relay names nc from,
    RecvProcess.RecvProcess.handle_packet e data from srv = Done (tt, srv, []) /\
    NatTypeCheck.NatTypeCheck.try_fast_handle names nc data from = (false, []) /\
    P2PProxy.P2PProxy.handle now relay data from = (relay, []).

Lemma foreign_unparsed to data : foreign (SendTo to data) -> parse_frame data = None.
Proof.
  unfold foreign, parse_frame. cbv zeta. intros H. destruct (_ <? _)%nat; [done|].
  destruct (Z.eqb_spec (ntohs (ProtoDef.mh_magic (cdec ProtoDef.MsgHead_codec data))) ProtoDef.NAT_MAGIC); [|done].
  destruct (Z.eqb_spec (ProtoDef.mh_version (cdec ProtoDef.MsgHead_codec data)) ProtoDef.PROTO_VER); [|done].
  naive_solver.
Qed.

Lemma foreign_ignored to data : foreign (SendTo to data) -> ignored data.
Proof.
  intros H e srv now relay names nc from. pose proof (foreign_unparsed to data H) as P. split_all.
  - unfold RecvProcess.RecvProcess.handle_packet. by rewrite P.
  - unfold NatTypeCheck.NatTypeCheck.try_fast_handle. cbv zeta. destruct (_ <? _)%nat; [done|].
    unfold foreign in H. cbv zeta in H. revert H.
    generalize (ntohs (ProtoDef.mh_magic (cdec ProtoDef.MsgHead_codec data))).
    generalize (ProtoDef.mh_version (cdec ProtoDef.MsgHead_codec data)). intros v m H.
    destruct (Z.eqb_spec m ProtoDef.NAT_MAGIC); [|done]. destruct (Z.eqb_spec v ProtoDef.PROTO_VER); [|done]. naive_solver.
  - unfold P2PProxy.P2PProxy.handle. by rewrite P.
Qed.

Definition heartbeat_to (a : sockaddr_in) (ev : event) : Prop :=
  let 'SendTo to data := ev in to = a /\ is_msg MSG_HEARTBEAT_REQ ev = true.

Lemma heartbeat_is c self : heartbeat_to (nat_addr c) (SendTo (nat_addr c) (heartbeat c self)).
Proof. split; [done|]. unfold heartbeat. by rewrite is_msg_head. Qed.

Lemma deaf_turn init r c u c' o :
  deaf c -> r_input r = None -> turn init r c = Done (u, c', o) ->
  deaf c' /\ nat_addr c' = nat_addr c /\ Forall (heartbeat_to (nat_addr c)) o.
Proof.
  intros (P & R & D & Y) E. unfold turn, timer_turn. rewrite E. change ((skip;; ?k) c) with ((mret tt ≫= fun _ : unit => k) c).
  rewrite (step_eq _ _ c tt c) by done. rewrite gets_eq. change (id c) with c.
  intros (x & c1 & o1 & o2 & H1 & H2 & ->)%bind_done.
  assert (deaf c1 /\ nat_addr c1 = nat_addr c /\ Forall (heartbeat_to (nat_addr c)) o1) as (D1 & N1 & F1).
  { destruct (_ <=? _); [|by injection H1 as _ <- <-].
    rewrite send_heartbeat_eq in H1. injection H1 as _ <- <-.
    split; [done|]. split; [done|]. constructor; [apply heartbeat_is|done]. }
  assert (c' = c1 /\ o2 = []) as [-> ->]; [|by rewrite app_nil_r].
  destruct D1 as (P1 & R1 & _). revert H2.
  destruct init; unfold initiator_turn, waiter_turn; rewrite gets_eq; change (id c1) with c1.
  - rewrite P1. cbn [andb]. rewrite (step_eq _ _ c1 tt c1) by done. rewrite gets_eq. change (id c1) with c1. rewrite R1.
    by intros [= <- <-].
  - rewrite R1, andb_false_r. rewrite (step_eq _ _ c1 tt c1) by done. rewrite gets_eq. change (id c1) with c1. rewrite R1.
    by intros [= <- <-].
Qed.

Lemma deaf_loop init deadline rounds c left c' o :
  deaf c -> Forall (fun r => r_input r = None) rounds -> loop init deadline rounds c = Done (left, c', o) ->
  deaf c' /\ Forall (heartbeat_to (nat_addr c)) o.
Proof.
  revert c o. induction rounds as [|r rounds IH]; intros c o D S; [by intros [= _ <- <-]|].
  apply Forall_cons in S as [S1 S2]. cbn [loop]. rewrite gets_eq. destruct (_ && _); [|by intros [= _ <- <-]].
  intros (u & c1 & o1 & o2 & H1 & H2 & ->)%bind_done.
  destruct (deaf_turn _ _ _ _ _ _ D S1 H1) as (D1 & N & F1). destruct (IH _ _ D1 S2 H2) as (D2 & F2).
  split; [done|]. rewrite N in F2. by apply Forall_app_2.
Qed.

(** The earlier client and the current servers do not understand each other: whatever it
    receives from elsewhere, every datagram it ever sends leaves the rendezvous server and the
    relay as they are and is answered by neither.  Hence it hears nothing, sends heartbeats to
    the server and nothing else, and reports failure when its 40 seconds are over. *)
Theorem older_client_unserved (args : list bytes) (c : PeerClient) (self : option Z) (t0 t1 : Z) (rounds : list round)
    (HA : configure args = Some c) (HT : t0 <= t1) (HC : clock_ok t1 rounds)
    (HS : Forall (fun r => r_input r = None) rounds) (HL : (134 < length rounds)%nat) :
  (forall rounds' e c' o, clock_ok t1 rounds' ->
     main args true true self t0 t1 rounds' fresh = Done (e, c', o) ->
     Forall (fun '(SendTo _ data) => ignored data) o) /\
  (exists c' o, main args true true self t0 t1 rounds fresh = Done (Ended FAILED, c', o) /\
     Forall (heartbeat_to (nat_addr c)) o).
Proof.
  pose proof (configure_fresh _ _ HA) as (D & _). split.
  - intros rounds' e c' o C. unfold main. rewrite HA. cbn [andb negb]. rewrite modify_eq.
    intros (x & c1 & o1 & o2 & H1 & H2 & ->)%bind_done. rewrite send_heartbeat_eq in H1. injection H1 as _ <- <-.
    apply bind_done in H2 as (left & c2 & o3 & o4 & L & H2 & ->). rewrite gets_eq in H2. injection H2 as _ _ <-.
    apply (loop_frugal _ _ _ t1) in L as (F & _); [|done|cbn; by apply Z.add_le_mono_r, sec_mono].
    rewrite app_nil_r. constructor; [eapply foreign_ignored; unfold heartbeat; apply (head_old (nat_addr c))|].
    eapply Forall_impl; [exact F|]. intros [to data]. apply foreign_ignored.
  - assert (Forall readable rounds) as R.
    { eapply Forall_impl; [exact HS|]. unfold readable. by intros r ->. }
    destruct (main_runs args self t0 t1 rounds c HA R) as (left & c' & o & L & M).
    assert (arrivals rounds = 0%nat) as A.
    { unfold arrivals. clear -HS. induction HS as [|r rounds E _ IH]; [done|]. cbn [List.filter]. by rewrite E. }
    pose proof L as L'. apply deaf_loop in L as (D' & F); [|done|done].
    exists c', (SendTo (nat_addr c) (heartbeat c self) :: o). split; [|by constructor; [apply heartbeat_is|]].
    rewrite (loop_left _ _ _ _ _ _ _ HC ltac:(rewrite A; lia) L') in M. rewrite M. unfold result_of.
    by destruct D' as (_ & _ & -> & ->).
Qed.

Lemma older_client_unserved_witness :
  exists c' o, main demo_args true true None 0 0 (idle_rounds 135 0) fresh = Done (Ended FAILED, c', o).
Proof.
  destruct (configure demo_args) as [c|] eqn:E; [|done]. destruct (idle_rounds_ok 135 0) as (C & F & A & L).
  destruct (older_client_unserved demo_args c None 0 0 (idle_rounds 135 0) E) as [_ (c' & o & M & _)].
  - done.
  - exact C.
  - exact F.
  - rewrite L. lia.
  - exists c', o. exact M.
Defined.

End OldPeerRuns.
