(* ===== verification/OldPeerMeet.v ===== *)
(** * Two earlier clients

    What [OldPeer] makes of the messages of a server of its own version, of the datagrams of
    another such client, and of anything else that begins with the same two octets. *)

From S2P Require Import Prelude.
From S2P Require Import Bytes.
From S2P Require Import Wire.
From S2P Require Import NetUtil.
From S2P Require Import Packet.
From S2P Require Import Handler.
From S2P Require Import OldProto.
From S2P Require Import OldPeer.
From S2P Require Import OldPeerRuns.

#[local] Open Scope Z_scope.

Module OldPeerMeet.
Import OldProto OldPeer OldPeerRuns.

(** ** Messages of a server of version 1 *)

Lemma head_dec id n rest :
  cdec MsgHead_codec (head id n ++ rest) =
  mkMsgHead (htons NAT_MAGIC) PROTO_VER (msg_id id) (htonl (u32 (Z.of_nat n))).
Proof.
  unfold head. apply codec_dec_enc. cbn [cok MsgHead_codec c_iso c_pair c_u16 c_u8 c_u32 c_uint mh_magic mh_version mh_msg_id mh_length fst snd].
  split; [apply htons_range|]. split; [done|]. split; [by destruct id|]. apply htonl_range.
Qed.

Lemma length_head id n : length (head id n) = 8%nat.
Proof. by rewrite head_eq. Qed.

(** The message as [handle_recv] sees it, with whatever follows it in the buffer. *)
Lemma recv_message t id p rest from c :
  len p < 4294967296 ->
  handle_recv t (head id (length p) ++ p ++ rest) (8 + length p) from c =
    (let holds {A} (k : codec A) := negb (len p <? Z.of_nat (csize k)) in
     match id with
     | MSG_HEARTBEAT_RSP => if holds ExtInfoRsp_codec then on_heartbeat_rsp (p ++ rest) else skip
     | MSG_CONNECT_ACK => if holds ConnectAck_codec then on_connect_ack t (p ++ rest) else skip
     | MSG_CONNECT_INVITE => if holds ConnectInvite_codec then on_connect_invite t (p ++ rest) else skip
     | MSG_PROXY_REGISTER_RSP => if holds ProxyRegRsp_codec then on_register_rsp (p ++ rest) else skip
     | MSG_PROXY_RELAY_DATA => if holds RelayFrame_codec then on_relay_data (p ++ rest) else skip
     | _ => skip
     end) c.
Proof.
  intros L. unfold handle_recv. cbn [Nat.add Nat.ltb Nat.leb].
  rewrite bool_decide_false by (rewrite head_eq; by vm_compute). unfold on_message. rewrite head_dec.
  change (csize MsgHead_codec) with 8%nat. cbn [mh_magic mh_length mh_msg_id].
  change (ntohs (htons NAT_MAGIC) =? NAT_MAGIC) with true.
  destruct (Nat.ltb_spec (S (S (S (S (S (S (S (S (length p))))))))) 8); [lia|]. cbn [negb].
  unfold len in *. rewrite u32_small, htonl_involutive by (unfold u32_ok; lia).
  match goal with |- context [Z.of_nat ?n - 8 <? ?m] => destruct (Z.ltb_spec (Z.of_nat n - 8) m); [lia|] end.
  rewrite old_msg_of_id, (drop_app_exact 8) by apply length_head. by destruct id.
Qed.

(** An answer for the peer at [b], and a notice of the peer at [a]; [relay] is offered. *)
Definition ack_of (result : Z) (u : bytes) (b lan relay : sockaddr_in) : ConnectAck :=
  mkConnectAck result (uuid_field u) (ip_field (s_addr b)) (sin_port b) (ip_field (s_addr lan)) (sin_port lan)
    (ip_field (s_addr relay)) (sin_port relay).

Definition invite_of (u : bytes) (a lan relay : sockaddr_in) : ConnectInvite :=
  mkConnectInvite (uuid_field u) (ip_field (s_addr a)) (sin_port a) (ip_field (s_addr lan)) (sin_port lan)
    (ip_field (s_addr relay)) (sin_port relay).

Definition ack_packet (u : bytes) (b lan relay : sockaddr_in) : bytes :=
  head MSG_CONNECT_ACK 88 ++ cenc ConnectAck_codec (ack_of 0 u b lan relay).

Definition invite_packet (u : bytes) (a lan relay : sockaddr_in) : bytes :=
  head MSG_CONNECT_INVITE 87 ++ cenc ConnectInvite_codec (invite_of u a lan relay).

Lemma old_uuid_field_ok u : bytes_ok u -> cok (c_bytes 33) (uuid_field u).
Proof. intros B. split; [apply old_length_uuid_field|by apply strncpy_z_ok]. Qed.

Lemma ack_ok u b lan relay :
  bytes_ok u -> addr_ok b -> addr_ok lan -> addr_ok relay -> cok ConnectAck_codec (ack_of 0 u b lan relay).
Proof.
  intros U [_ B] [_ L] [_ R]. unfold u16_ok in *.
  repeat (split; [first [apply ip_field_cok | by apply old_uuid_field_ok | done]|]). done.
Qed.

Lemma invite_ok u a lan relay :
  bytes_ok u -> addr_ok a -> addr_ok lan -> addr_ok relay -> cok ConnectInvite_codec (invite_of u a lan relay).
Proof.
  intros U [_ B] [_ L] [_ R]. unfold u16_ok in *.
  repeat (split; [first [apply ip_field_cok | by apply old_uuid_field_ok | done]|]). done.
Qed.

(** The client sends to [b] from now on. *)
Definition aims (c : PeerClient) (b : sockaddr_in) : Prop := have_remote c = true /\ remote c = b.

Lemma aim_at b c : addr_ok b -> aim (inet_ntop (s_addr b)) (sin_port b) c = set_have_remote true (set_remote b c).
Proof. intros [B _]. unfold aim, pton_into. rewrite inet_pton_ntop by done. cbn. by destruct b. Qed.

(** What [adopt_proxy] leaves alone. *)
Lemma adopt_same ip port c :
  let c' := adopt_proxy ip port c in
  aims c' (remote c) = aims c (remote c) /\ direct_deadline c' = direct_deadline c /\ next_punch c' = next_punch c /\
  have_pub c' = have_pub c /\ sent_connect c' = sent_connect c /\ my_uuid c' = my_uuid c /\
  ping_seq c' = ping_seq c /\ have_remote c' = have_remote c /\ remote c' = remote c.
Proof. unfold adopt_proxy. by case_match. Qed.

Lemma recv_ack t u b lan relay rest from c :
  bytes_ok u -> addr_ok b -> addr_ok lan -> addr_ok relay ->
  exists c', handle_recv t (ack_packet u b lan relay ++ rest) 96 from c = Done (tt, c', []) /\
    c' = adopt_proxy (inet_ntop (s_addr relay)) (sin_port relay)
           (set_direct_deadline (t + 6) (set_have_remote true (set_remote b c))).
Proof.
  intros U B L R. eexists. split; [|reflexivity]. unfold ack_packet. rewrite <- app_assoc.
  pose proof (ack_ok u b lan relay U B L R) as K. pose proof (codec_size _ K) as Len.
  pose proof (codec_dec_enc _ rest K) as D.
  set (p := cenc ConnectAck_codec (ack_of 0 u b lan relay)) in *.
  assert (p = (0 :: uuid_field u) ++ ip_field (s_addr b) ++
    (le_enc 2 (sin_port b) ++ ip_field (s_addr lan) ++ le_enc 2 (sin_port lan) ++ ip_field (s_addr relay) ++
     le_enc 2 (sin_port relay))) as E34 by done.
  assert (p = (0 :: uuid_field u ++ ip_field (s_addr b) ++ le_enc 2 (sin_port b) ++ ip_field (s_addr lan) ++
    le_enc 2 (sin_port lan)) ++ ip_field (s_addr relay) ++ le_enc 2 (sin_port relay)) as E70.
  { rewrite E34. cbn [app]. by rewrite <- !app_assoc. }
  change 88%nat with (csize ConnectAck_codec). change 96%nat with (8 + csize ConnectAck_codec)%nat. rewrite <- Len.
  rewrite recv_message by (unfold len; rewrite Len; done).
  unfold len at 1. rewrite Len, Z.ltb_irrefl. cbn [negb].
  unfold on_connect_ack. rewrite (take_app_exact (csize ConnectAck_codec)) by done.
  rewrite D. cbn [ca_result ack_of Z.eqb negb ca_dst_pub_port ca_proxy_port].
  rewrite E34 at 1. rewrite cstr_in_field by (cbn [length]; by rewrite old_length_uuid_field).
  rewrite lift_eq, modify_eq, modify_eq, E70.
  rewrite cstr_in_field.
  2:{ cbn [length]. rewrite !length_app, !length_ip_field, old_length_uuid_field. done. }
  rewrite lift_eq, aim_at by done. done.
Qed.

Lemma recv_invite t u a lan relay rest from c :
  bytes_ok u -> no_nul u -> (length u <= 32)%nat -> addr_ok a -> addr_ok lan -> addr_ok relay ->
  exists c', handle_recv t (invite_packet u a lan relay ++ rest) 95 from c = Done (tt, c', []) /\
    c' = set_next_punch t (adopt_proxy (inet_ntop (s_addr relay)) (sin_port relay)
           (set_have_remote true (set_remote a (set_peer_uuid u c)))).
Proof.
  intros U N Lu A L R. eexists. split; [|reflexivity]. unfold invite_packet. rewrite <- app_assoc.
  pose proof (invite_ok u a lan relay U A L R) as K. pose proof (codec_size _ K) as Len.
  pose proof (codec_dec_enc _ rest K) as D.
  set (p := cenc ConnectInvite_codec (invite_of u a lan relay)) in *.
  assert (p = uuid_field u ++ ip_field (s_addr a) ++
    (le_enc 2 (sin_port a) ++ ip_field (s_addr lan) ++ le_enc 2 (sin_port lan) ++ ip_field (s_addr relay) ++
     le_enc 2 (sin_port relay))) as E33 by done.
  assert (p = (uuid_field u ++ ip_field (s_addr a) ++ le_enc 2 (sin_port a) ++ ip_field (s_addr lan) ++
    le_enc 2 (sin_port lan)) ++ ip_field (s_addr relay) ++ le_enc 2 (sin_port relay)) as E69.
  { rewrite E33. by rewrite <- !app_assoc. }
  assert (cstr_in 0 p = Done u) as E0.
  { rewrite E33. unfold cstr_in, uuid_field, strncpy_z, MAX_UUID_LEN. rewrite drop_0, c_str_id, take_ge by (done || lia).
    rewrite pad_to_short by lia. destruct (32 + 1 - length u)%nat eqn:Z; [lia|]. cbn [replicate].
    rewrite <- app_assoc. cbn [app]. rewrite c_str_app_nul by done. rewrite bool_decide_true; [done|].
    apply elem_of_app. right. by left. }
  change 87%nat with (csize ConnectInvite_codec). change 95%nat with (8 + csize ConnectInvite_codec)%nat. rewrite <- Len.
  rewrite recv_message by (unfold len; rewrite Len; done).
  unfold len at 1. rewrite Len, Z.ltb_irrefl. cbn [negb].
  unfold on_connect_invite. rewrite (take_app_exact (csize ConnectInvite_codec)) by done.
  rewrite D. cbn [invite_of ci_src_pub_port ci_proxy_port].
  rewrite E0, lift_eq, modify_eq. rewrite E33 at 1. rewrite cstr_in_field by apply old_length_uuid_field.
  rewrite lift_eq, modify_eq, E69. rewrite cstr_in_field.
  2:{ rewrite !length_app, !length_ip_field, old_length_uuid_field. done. }
  rewrite lift_eq, modify_eq, aim_at by done. done.
Qed.

(** ** Data between two clients *)

Definition data (type : Z) (seq : Z) (u msg : bytes) : bytes := cenc PeerData_codec (peer_data type seq u msg).

Lemma length_data type seq u msg : length (data type seq u msg) = 103%nat.
Proof. unfold data. rewrite peer_data_eq, !length_app, old_length_uuid_field, length_strncpy_z. done. Qed.

Lemma recv_data t type seq u msg rest from c :
  byte_ok type ->
  handle_recv t (data type seq u msg ++ rest) 103 from c =
    (modify (fun c => if have_remote c then c else set_have_remote true (set_remote from c));;
     if type =? 2 then skip
     else if type =? 0 then modify (set_direct_ok true);; send_direct 1 (bs "pong(direct)")
     else if type =? 1 then modify (set_direct_ok true) else skip) c.
Proof.
  intros T. unfold handle_recv. cbn [Nat.ltb Nat.leb]. rewrite bool_decide_true by (unfold data; by rewrite peer_data_eq).
  rewrite take_app_exact by apply length_data. unfold on_peer_data. change (csize PeerData_codec) with 103%nat.
  unfold pad_to. rewrite take_app_exact by apply length_data. unfold data.
  assert (pd_type (cdec PeerData_codec (cenc PeerData_codec (peer_data type seq u msg))) = type) as ->; [|done].
  rewrite peer_data_eq. change (pd_type _) with (Z.land type 255 + 256 * 0). change (Z.land type 255) with (u8 type).
  rewrite u8_small by done. lia.
Qed.

(** A client that has an address of its peer keeps it. *)
Lemma data_aimed {A} from (k : unit -> M A) c b :
  aims c b -> (modify (fun c => if have_remote c then c else set_have_remote true (set_remote from c)) ≫= k) c = k tt c.
Proof. intros [H _]. rewrite modify_eq. by rewrite H. Qed.

Lemma old_send_direct_eq type msg c b :
  aims c b -> send_direct type msg c =
    Done (tt, set_ping_seq (ping_seq c + 1) c, [SendTo b (data type (u8 (ping_seq c)) (my_uuid c) msg)]).
Proof.
  intros [H <-]. unfold send_direct. rewrite gets_eq. change (id c) with c. rewrite H. cbn [negb]. by rewrite modify_eq.
Qed.

(** ** A round with one message *)

Lemma turn_eq (init : bool) r mem n from c c1 :
  r_input r = Some (mem, n, from) -> (0 < n)%nat -> handle_recv (sec (r_recv r)) mem n from c = Done (tt, c1, []) ->
  exists (hb : Z) (o : list event), forall (c2 : PeerClient) (o2 : list event),
    (if init then initiator_turn (sec (r_now r)) else waiter_turn (sec (r_now r))) (set_next_hb hb c1) = Done (tt, c2, o2) ->
    turn init r c = Done (tt, c2, o ++ o2).
Proof.
  intros E N H. unfold turn, timer_turn. rewrite E. destruct (Nat.ltb_spec 0 n); [|lia].
  destruct (Z.leb_spec (next_hb c1) (sec (r_now r))) as [G|G].
  - exists (sec (r_hb r) + 5), [SendTo (nat_addr c1) (heartbeat c1 (r_self r))]. intros c2 o2 T.
    rewrite (step_eq _ _ c tt c1) by done. rewrite gets_eq. change (id c1) with c1.
    destruct (Z.leb_spec (next_hb c1) (sec (r_now r))); [|lia].
    eapply (bind_eq _ _ _ _ _ [_]); [apply send_heartbeat_eq|done].
  - exists (next_hb c1), []. intros c2 o2 T. rewrite (step_eq _ _ c tt c1) by done. rewrite gets_eq. change (id c1) with c1.
    destruct (Z.leb_spec (next_hb c1) (sec (r_now r))); [lia|]. rewrite (step_eq _ _ c1 tt c1) by done.
    cbn [app]. rewrite <- T. by destruct c1.
Qed.

(** The initiator punches as soon as it knows where to. *)
Lemma initiator_punches now c b :
  aims c b -> sent_connect c = true -> now < direct_deadline c -> next_punch c <= now ->
  exists c' s, initiator_turn now c =
      Done (tt, c', [SendTo b (data 2 (u8 s) (my_uuid c) (bs "punch")); SendTo b (data 0 (u8 (s + 1)) (my_uuid c) (bs "hello p2p"))]) /\
    aims c' b /\ my_uuid c' = my_uuid c.
Proof.
  intros [R1 R2] S D P. unfold initiator_turn. rewrite gets_eq. change (id c) with c. rewrite S, andb_false_r.
  rewrite (step_eq _ _ c tt c) by done. rewrite gets_eq. change (id c) with c. rewrite R1. cbn [negb].
  destruct (Z.ltb_spec now (direct_deadline c)); [|lia]. unfold punch_turn. rewrite gets_eq. change (id c) with c.
  destruct (Z.leb_spec (next_punch c) now); [|lia]. rewrite modify_eq.
  eexists _, (ping_seq c). split; [|split].
  - eapply (bind_eq _ _ _ _ _ [_] _ _ [_]).
    + exact (old_send_direct_eq 2 _ (set_next_punch (now + 1) c) b (conj R1 R2)).
    + exact (old_send_direct_eq 0 _ (set_ping_seq (ping_seq c + 1) (set_next_punch (now + 1) c)) b (conj R1 R2)).
  - done.
  - done.
Qed.

(** The waiter answers a notice with a punch. *)
Lemma waiter_punches now c a :
  aims c a -> next_punch c <= now ->
  exists c' o s, waiter_turn now c = Done (tt, c', o ++ [SendTo a (data 2 s (my_uuid c) (bs "punch-back"))]) /\
    aims c' a /\ my_uuid c' = my_uuid c.
Proof.
  intros [R1 R2] P. unfold waiter_turn. rewrite gets_eq. change (id c) with c.
  assert (exists c1 o, (if have_proxy c && negb (relay_registered c) && negb (register_sent c) && have_remote c
      then modify (set_register_sent true);; register_proxy else skip) c = Done (tt, c1, o) /\
      aims c1 a /\ next_punch c1 = next_punch c /\ my_uuid c1 = my_uuid c) as (c1 & o & E & [A1 A2] & N & U).
  { destruct (_ && _); [|by eexists _, _]. eexists _, _. rewrite modify_eq, register_proxy_eq. done. }
  eexists _, o, (u8 (ping_seq c1)). split; [|split].
  - eapply bind_eq; [exact E|]. rewrite gets_eq. change (id c1) with c1. rewrite A1. cbn [andb].
    destruct (Z.leb_spec (next_punch c1) now); [|lia]. rewrite modify_eq, <- U.
    exact (old_send_direct_eq 2 _ (set_next_punch (now + 1) c1) a (conj A1 A2)).
  - done.
  - done.
Qed.

(** The loop is left once a direct datagram came. *)
Lemma loop_over init deadline r rounds c :
  direct_ok c = true -> loop init deadline (r :: rounds) c = Done (true, c, []) /\ result_of c = DIRECT.
Proof.
  intros H. cbn [loop]. rewrite gets_eq. change (id c) with c. unfold result_of. rewrite H, andb_false_r. done.
Qed.

(** ** Two clients meet *)

(** What a client does with the three kinds of data, once it has its peer's address. *)
Lemma recv_punch t seq u msg rest from c b :
  aims c b -> handle_recv t (data 2 seq u msg ++ rest) 103 from c = Done (tt, c, []).
Proof. intros H. rewrite recv_data by done. by rewrite (data_aimed _ _ _ _ H). Qed.

Lemma recv_ping t seq u msg rest from c b :
  aims c b -> handle_recv t (data 0 seq u msg ++ rest) 103 from c =
    Done (tt, set_ping_seq (ping_seq c + 1) (set_direct_ok true c),
      [SendTo b (data 1 (u8 (ping_seq c)) (my_uuid c) (bs "pong(direct)"))]).
Proof.
  intros H. rewrite recv_data by done. rewrite (data_aimed _ _ _ _ H). cbn [Z.eqb]. rewrite modify_eq.
  exact (old_send_direct_eq 1 _ (set_direct_ok true c) b H).
Qed.

Lemma recv_pong t seq u msg rest from c b :
  aims c b -> handle_recv t (data 1 seq u msg ++ rest) 103 from c = Done (tt, set_direct_ok true c, []).
Proof. intros H. rewrite recv_data by done. by rewrite (data_aimed _ _ _ _ H). Qed.

(** Two earlier clients meet.  [A], which asked for its peer, gets the server's answer and
    in the same round punches towards the address in it and pings it; [B], which waits, gets
    the notice and punches back.  Punches that arrive change nothing; the ping makes [B] answer
    and succeed, the answer makes [A] succeed, and the loops of both end with a direct
    connection, whatever else the receive buffers hold. *)
Theorem older_clients_meet (A B : PeerClient) (a b lanA lanB relay srv : sockaddr_in) (uA uB restA restB : bytes)
    (rA rB : round)
    (HuA : bytes_ok uA /\ no_nul uA /\ (length uA <= 32)%nat) (HuB : bytes_ok uB)
    (Ha : addr_ok a) (Hb : addr_ok b) (HlA : addr_ok lanA) (HlB : addr_ok lanB) (Hr : addr_ok relay)
    (HA : r_input rA = Some (ack_packet uB b lanB relay ++ restA, 96%nat, srv)) (HS : sent_connect A = true)
    (HP : next_punch A <= sec (r_now rA)) (HD : sec (r_now rA) < sec (r_recv rA) + 6)
    (HB : r_input rB = Some (invite_packet uA a lanA relay ++ restB, 95%nat, srv)) (HT : r_recv rB <= r_now rB) :
  exists A1 B1 oA oB punch ping back,
    turn true rA A = Done (tt, A1, oA ++ [SendTo b punch; SendTo b ping]) /\
    turn false rB B = Done (tt, B1, oB ++ [SendTo a back]) /\
    (forall t rest, handle_recv t (punch ++ rest) 103 a B1 = Done (tt, B1, [])) /\
    (forall t rest, handle_recv t (back ++ rest) 103 b A1 = Done (tt, A1, [])) /\
    exists A2 B2 pong,
      (forall t rest, handle_recv t (ping ++ rest) 103 a B1 = Done (tt, B2, [SendTo a pong])) /\
      (forall t rest, handle_recv t (pong ++ rest) 103 b A1 = Done (tt, A2, [])) /\
      (forall deadline r rounds,
         loop true deadline (r :: rounds) A2 = Done (true, A2, []) /\ result_of A2 = DIRECT /\
         loop false deadline (r :: rounds) B2 = Done (true, B2, []) /\ result_of B2 = DIRECT).
Proof.
  destruct HuA as (UA & NA & LA).
  destruct (recv_ack (sec (r_recv rA)) uB b lanB relay restA srv A HuB Hb HlB Hr) as (A0 & EA & FA).
  destruct (recv_invite (sec (r_recv rB)) uA a lanA relay restB srv B UA NA LA Ha HlA Hr) as (B0 & EB & FB).
  destruct (turn_eq true _ _ _ _ _ _ HA ltac:(lia) EA) as (hA & oA & TA).
  destruct (turn_eq false _ _ _ _ _ _ HB ltac:(lia) EB) as (hB & oB & TB).
  pose proof (adopt_same (inet_ntop (s_addr relay)) (sin_port relay)
    (set_direct_deadline (sec (r_recv rA) + 6) (set_have_remote true (set_remote b A)))) as SA. cbv zeta in SA.
  rewrite <- FA in SA. destruct SA as (_ & SA1 & SA2 & _ & SA3 & _ & _ & SA4 & SA5).
  pose proof (adopt_same (inet_ntop (s_addr relay)) (sin_port relay)
    (set_have_remote true (set_remote a (set_peer_uuid uA B)))) as SB. cbv zeta in SB.
  destruct SB as (_ & _ & _ & _ & _ & _ & _ & SB4 & SB5).
  destruct (initiator_punches (sec (r_now rA)) (set_next_hb hA A0) b) as (A1 & s & PA & AA & _).
  { split; cbn; by rewrite ?SA4, ?SA5. }
  { cbn. by rewrite SA3. } { cbn. by rewrite SA1. } { cbn. by rewrite SA2. }
  destruct (waiter_punches (sec (r_now rB)) (set_next_hb hB B0) a) as (B1 & oB' & s' & PB & AB & _).
  { rewrite FB. split; cbn; by rewrite ?SB4, ?SB5. } { rewrite FB. cbn. by apply sec_mono. }
  specialize (TA _ _ PA). specialize (TB _ _ PB). rewrite app_assoc in TB.
  eexists A1, B1, oA, (oB ++ oB'), _, _, _. split; [exact TA|]. split; [exact TB|].
  split; [intros t rest; by apply (recv_punch _ _ _ _ _ _ _ a)|].
  split; [intros t rest; by apply (recv_punch _ _ _ _ _ _ _ b)|].
  eexists _, _, _. split; [intros t rest; by apply recv_ping|].
  split; [intros t rest; by apply (recv_pong _ _ _ _ _ _ _ b)|].
  intros deadline r rounds. split; [by apply loop_over|]. split; [done|]. split; [by apply loop_over|done].
Qed.

Definition cam_addr : sockaddr_in := mkAddr 16777343 20480.
Definition app_addr : sockaddr_in := mkAddr 33554559 20480.

Definition asked : PeerClient :=
  set_sent_connect true (set_my_uuid (bs "app") (set_peer_uuid (bs "cam") fresh)).

Lemma older_clients_meet_witness :
  exists A1 B1 oA oB punch ping back,
    turn true (mkRound 1000 (Some (ack_packet (bs "cam") cam_addr cam_addr addr_zero ++ [7], 96%nat, addr_zero)) 1000 1000 1000 None)
      asked = Done (tt, A1, oA ++ [SendTo cam_addr punch; SendTo cam_addr ping]) /\
    turn false (mkRound 1000 (Some (invite_packet (bs "app") app_addr app_addr addr_zero ++ [], 95%nat, addr_zero)) 1000 1000 1000 None)
      (set_my_uuid (bs "cam") fresh) = Done (tt, B1, oB ++ [SendTo app_addr back]) /\
    exists A2, result_of A2 = DIRECT.
Proof.
  assert (addr_ok cam_addr /\ addr_ok app_addr /\ addr_ok addr_zero) as (K1 & K2 & K3)
    by (unfold addr_ok, u32_ok, u16_ok; cbn; lia).
  destruct (older_clients_meet asked (set_my_uuid (bs "cam") fresh) app_addr cam_addr app_addr cam_addr addr_zero addr_zero
    (bs "app") (bs "cam") [7] []
    (mkRound 1000 (Some (ack_packet (bs "cam") cam_addr cam_addr addr_zero ++ [7], 96%nat, addr_zero)) 1000 1000 1000 None)
    (mkRound 1000 (Some (invite_packet (bs "app") app_addr app_addr addr_zero ++ [], 95%nat, addr_zero)) 1000 1000 1000 None))
    as (A1 & B1 & oA & oB & punch & ping & back & T1 & T2 & _ & _ & A2 & B2 & pong & _ & _ & L);
    try done.
  - split; [decide_now|]. split; [decide_now|]. vm_compute. lia.
  - decide_now.
  - exists A1, B1, oA, oB, punch, ping, back. split; [exact T1|]. split; [exact T2|]. exists A2.
    apply (L 0 (mkRound 0 None 0 0 0 None) []).
Defined.

(** ** What else it takes for an answer *)

(** Once a direct connection is noted it stays noted. *)
Definition direct_stays (c c' : PeerClient) (o : list event) : Prop := direct_ok c = true -> direct_ok c' = true.

#[export] Instance direct_stays_trace : Trace direct_stays.
Proof. split; unfold direct_stays; auto. Qed.

Lemma direct_stays_modify f : (forall c, direct_ok (f c) = direct_ok c) -> obeys direct_stays (modify f).
Proof. intros H. apply obeys_modify. unfold direct_stays. intros c. by rewrite H. Qed.

Lemma direct_stays_timer init r : obeys direct_stays (timer_turn init r).
Proof.
  unfold timer_turn, send_heartbeat, initiator_turn, waiter_turn, send_connect, punch_turn, relay_turn, register_proxy,
    send_direct, send_relay, send_msg.
  repeat first
    [ apply obeys_skip; exact _ | apply obeys_get; exact _ | by apply direct_stays_modify
    | apply obeys_emit; by intros ? ? | apply obeys_if | apply obeys_bind; [exact _| |intros ?] ].
Qed.

Lemma total_timer_turn init r : total (timer_turn init r).
Proof.
  intros s. pose proof (total_turn init (mkRound 0 None 0 (r_now r) (r_hb r) (r_self r)) I s) as G.
  unfold turn in G. cbn [r_input] in G. by rewrite (step_eq _ _ s tt s) in G.
Qed.

(** Two octets from anyone end the earlier client with "DIRECT P2P OK": a datagram that
    consists of "PD" is completed with zeros to a ping, and is answered to whoever sent it if
    no peer is known yet. *)
Theorem older_client_fooled (args : list bytes) (c : PeerClient) (self : option Z) (t0 t1 : Z)
    (rest : bytes) (from : sockaddr_in) (r r' : round) (rounds : list round)
    (HA : configure args = Some c) (HR : r_input r = Some (bs "PD" ++ rest, 2%nat, from))
    (HT : sec (r_check r) < sec t1 + 40) :
  exists c' o, main args true true self t0 t1 (r :: r' :: rounds) fresh = Done (Ended DIRECT, c', o) /\
    exists d, SendTo from d ∈ o.
Proof.
  pose proof (configure_fresh _ _ HA) as ((P & R & D & Y) & _).
  set (c0 := set_next_hb (sec t0 + 5) c).
  assert (handle_recv (sec (r_recv r)) (bs "PD" ++ rest) 2 from c0 =
    (send_direct 1 (bs "pong(direct)")) (set_direct_ok true (set_have_remote true (set_remote from c0)))) as E.
  { unfold handle_recv. cbn [Nat.ltb Nat.leb]. rewrite bool_decide_true by done.
    change (take 2 (bs "PD" ++ rest)) with (bs "PD"). unfold on_peer_data. cbv zeta.
    change (pd_type _) with 0. cbn [Z.eqb]. rewrite modify_eq. unfold c0 at 1. cbn [have_remote set_next_hb]. rewrite R.
    by rewrite modify_eq. }
  set (c1 := set_direct_ok true (set_have_remote true (set_remote from c0))) in *.
  rewrite (old_send_direct_eq _ _ c1 from) in E by done. set (c2 := set_ping_seq (ping_seq c1 + 1) c1) in *.
  destruct (total_done (timer_turn (initiates c0) r) c2) as ([] & c3 & o3 & T); [apply total_timer_turn|].
  assert (turn (initiates c0) r c0 = Done (tt, c3,
    [SendTo from (data 1 (u8 (ping_seq c1)) (my_uuid c1) (bs "pong(direct)"))] ++ o3)) as TT.
  { unfold turn. rewrite HR. cbn [Nat.ltb Nat.leb]. by eapply (bind_eq _ _ _ _ _ [_]). }
  pose proof (direct_stays_timer _ _ _ _ _ _ T eq_refl) as D3.
  destruct (loop_over (initiates c0) (sec t1 + 40) r' rounds c3 D3) as [L3 R3].
  exists c3, (SendTo (nat_addr c) (heartbeat c self) ::
    ([SendTo from (data 1 (u8 (ping_seq c1)) (my_uuid c1) (bs "pong(direct)"))] ++ o3) ++ []). split.
  - rewrite <- R3. apply (main_eq args self t0 t1 (r :: r' :: rounds) c true); [done|].
    cbn [loop]. rewrite gets_eq. change (id (set_next_hb (sec t0 + 5) c)) with c0.
    destruct (Z.ltb_spec (sec (r_check r)) (sec t1 + 40)); [|lia].
    assert (direct_ok c0 || relay_ok c0 = false) as -> by (unfold c0; cbn; by rewrite D, Y). cbn [negb andb].
    eapply bind_eq; [exact TT|exact L3].
  - eexists. apply list_elem_of_In. right. left. reflexivity.
Qed.

Definition idle (t : Z) : round := mkRound t None t (t + 300) (t + 300) None.

Lemma older_client_fooled_witness :
  exists c' o, main demo_args true true None 0 0
    [mkRound 0 (Some (bs "PD" ++ [], 2%nat, addr_zero)) 0 0 0 None; idle 0] fresh = Done (Ended DIRECT, c', o).
Proof.
  destruct (configure demo_args) as [c|] eqn:E; [|done].
  destruct (older_client_fooled demo_args c None 0 0 [] addr_zero
    (mkRound 0 (Some (bs "PD" ++ [], 2%nat, addr_zero)) 0 0 0 None) (idle 0) [] E eq_refl) as (c' & o & H & _); [done|].
  exists c', o. exact H.
Defined.

(** A heartbeat answer whose public address does not end is printed past its structure. *)
Theorem older_client_overreads (t : Z) (rest : bytes) (from : sockaddr_in) (c : PeerClient) :
  handle_recv t (head MSG_HEARTBEAT_RSP (length (replicate 36 1)) ++ replicate 36 1 ++ rest) 44 from c = Fault OutOfBounds.
Proof.
  change 44%nat with (8 + length (replicate 36%nat 1))%nat. rewrite recv_message by done. cbv zeta.
  change (negb (len (replicate 36%nat 1) <? Z.of_nat (csize ExtInfoRsp_codec))) with true. cbv iota. unfold on_heartbeat_rsp.
  rewrite (take_app_exact (csize ExtInfoRsp_codec)) by done. done.
Qed.

End OldPeerMeet.
