(* ===== verification/DemoPeer.v ===== *)
(** * The demonstration client

    Models [client/demo/peer.cpp]: what its arguments mean, its callbacks, as calls of
    the client library ([P2PClient]), and what its main loop prints of the client.  The usage is that of the earlier client ([OldPeer]),
    with which it is compared. *)

From S2P Require Import Prelude.
From S2P Require Import Bytes.
From S2P Require Import ProtoDef.
From S2P Require Import NetUtil.
From S2P Require Import Packet.
From S2P Require Import Handler.
From S2P Require Import ClientState.
From S2P Require Import ClientTunnel.
From S2P Require Import P2PClient.
From S2P Require OldPeer.
From S2P Require OldPeerRuns.

#[local] Open Scope Z_scope.

Module DemoPeer.
Import ClientState ClientTunnel P2PClient.

Definition nattype_str (t : Z) : bytes :=
  if t =? nat_type NAT_FULL_CONE then bs "full-cone"
  else if t =? nat_type NAT_PORT_RESTRICTED then bs "port-restricted"
  else if t =? nat_type NAT_SYMMETRIC then bs "symmetric"
  else bs "unknown".

(** ** Arguments *)

(** Options and positional arguments, in one pass; [-s] as the last argument is positional. *)
Record parsed := mkParsed { pos : list bytes; secret_arg : bytes; force : bool }.

Fixpoint split_args (args : list bytes) (acc : parsed) : parsed :=
  match args with
  | [] => acc
  | a :: rest =>
      if bool_decide (a = bs "-s") then
        match rest with
        | s :: rest => split_args rest (mkParsed (pos acc) s (force acc))
        | [] => mkParsed (pos acc ++ [a]) (secret_arg acc) (force acc)
        end
      else if bool_decide (a = bs "-relay") then split_args rest (mkParsed (pos acc) (secret_arg acc) true)
      else split_args rest (mkParsed (pos acc ++ [a]) (secret_arg acc) (force acc))
  end.

(** [sscanf(s, "%u.%u.%u.%u%c", ...) == 4] and four numbers up to 255. *)
Definition looks_like_ipv4 (s : bytes) : bool :=
  match ('(a, l) ← scan_u s; l ← scan_dot l; '(b, l) ← scan_u l; l ← scan_dot l;
         '(c, l) ← scan_u l; l ← scan_dot l; '(d, l) ← scan_u l; Some (a, b, c, d, l)) with
  | Some (a, b, c, d, l) =>
      (length l =? 0)%nat && (a <=? 255) && (b <=? 255) && (c <=? 255) && (d <=? 255)
  | None => false
  end.

(** Pairs of address and port; an incomplete pair ends the list, an empty address or the
    port 0 drops the pair. *)
Fixpoint proxies_of (l : list bytes) : list ServerAddr :=
  match l with
  | ip :: port :: l =>
      let p := u16 (atoi port) in
      (if (length ip =? 0)%nat || (p =? 0) then [] else [mkServer ip p]) ++ proxies_of l
  | _ => []
  end.

(** The peer to connect to, if any, and the configuration of the client; [None] is the exit
    with status 1. *)
Definition demo_config (args : list bytes) : option (bytes * Config) :=
  if (length args <? 3)%nat then None
  else
    let a := split_args args (mkParsed [] [] false) in
    match pos a with
    | nat_ip :: nat_port :: uuid :: rest =>
        let peer_given := match rest with x :: _ => negb (looks_like_ipv4 x) | [] => false end in
        let d := default_config uuid (secret_arg a) [mkServer nat_ip (u16 (atoi nat_port))]
                   (proxies_of (if peer_given then tail rest else rest)) in
        Some (if peer_given then nth 0 rest [] else [],
              mkConfig (ClientState.uuid d) (secret d) (nat_servers d) (proxy_servers d) (heartbeat_ms d)
                (heartbeat_retry_ms d) (nat_detect_timeout_ms d) (connect_timeout_ms d) (punch_interval_ms d)
                (auth_timeout_ms d) (relay_register_ms d) (nat_detect_enabled d) (auto_relay d) (force a))
    | _ => None
    end.

(** ** Callbacks *)

Inductive call := Connect (peer : bytes) | Send (peer : bytes) (channel : Z) (data : bytes) (reliable : bool).

(** The hello of a new connection: [snprintf] into 64 octets. *)
Definition hello (uuid : bytes) : bytes := take 63 (bs "hello from " ++ c_str uuid).

Definition reply (uuid : bytes) : bytes := bs "reply from " ++ uuid.

(** What a callback asks of the client; the flag is [replied]. *)
Definition react (uuid peer : bytes) (replied : bool) (ev : event) : bool * list call :=
  match ev with
  | OnReady _ _ _ => (replied, if (length peer =? 0)%nat then [] else [Connect peer])
  | OnConnected p _ => (replied, [Send p 1 (hello uuid) true])
  | OnMessage p _ _ => (true, if replied then [] else [Send p 1 (reply uuid) true])
  | _ => (replied, [])
  end.

Fixpoint react_all (uuid peer : bytes) (replied : bool) (evs : list event) : bool * list call :=
  match evs with
  | [] => (replied, [])
  | ev :: evs =>
      let '(replied, c1) := react uuid peer replied ev in
      let '(replied, c2) := react_all uuid peer replied evs in
      (replied, c1 ++ c2)
  end.

(** The calls as the client carries them out. *)
Definition perform (e : env) (c : call) : M unit :=
  match c with
  | Connect peer => connect e peer
  | Send peer channel data reliable => _ ← send e peer channel data reliable; skip
  end.

(** ** The main loop *)

Inductive line := Nattype (name : bytes) | Tunnel_enc (tx rx : Z).

(** What the loop printed last. *)
Record shown := mkShown { last_nat : Z; last_etx : Z; last_erx : Z }.

Definition nothing_shown : shown := mkShown (nat_type NAT_UNKNOWN) 0 0.

(** One round: the client's values are read once, and printed when they changed. *)
Definition round (s : ClientState.t) (w : shown) : shown * list line :=
  let nt := nat_type (nat_type_ s) in
  let etx := tunnel_enc_tx_ s in
  let erx := tunnel_enc_rx_ s in
  let nat_changed := negb (nt =? last_nat w) in
  let enc_changed := negb (etx =? last_etx w) || negb (erx =? last_erx w) in
  (mkShown (if nat_changed then nt else last_nat w) (if enc_changed then etx else last_etx w)
     (if enc_changed then erx else last_erx w),
   (if nat_changed then [Nattype (nattype_str nt)] else []) ++ (if enc_changed then [Tunnel_enc etx erx] else [])).

(** The rounds, given the states they find the client in, until the signal to quit. *)
Fixpoint loop (states : list ClientState.t) (w : shown) : list line :=
  match states with
  | [] => []
  | s :: states => let '(w, lines) := round s w in lines ++ loop states w
  end.

(** ** What the arguments mean *)

(** Neither option. *)
Definition plain (a : bytes) : Prop := a <> bs "-s" /\ a <> bs "-relay".

Lemma digit_plain c l : is_digit c = true -> plain (c :: l).
Proof. intros D. split; intros E; injection E as -> _; by vm_compute in D. Qed.

Lemma split_plain args acc :
  Forall plain args -> split_args args acc = mkParsed (pos acc ++ args) (secret_arg acc) (force acc).
Proof.
  intros H. revert acc. induction H as [|a args [N1 N2] _ IH]; intros acc; cbn [split_args].
  - rewrite app_nil_r. by destruct acc.
  - rewrite !bool_decide_false by done. rewrite IH. cbn. by rewrite <- app_assoc.
Qed.

(** Options may stand before, between or after positional arguments. *)
Lemma split_options l1 l2 s acc :
  Forall plain l1 -> Forall plain l2 ->
  split_args (l1 ++ bs "-s" :: s :: bs "-relay" :: l2) acc = mkParsed (pos acc ++ l1 ++ l2) s true.
Proof.
  intros H1 H2. revert acc. induction H1 as [|a l1 [N1 N2] _ IH]; intros acc.
  - cbn [app split_args]. rewrite bool_decide_true by done. cbn [pos secret_arg force].
    rewrite bool_decide_false, bool_decide_true by done. by rewrite split_plain.
  - cbn [app split_args]. rewrite !bool_decide_false by done. rewrite IH. cbn [pos]. by rewrite <- app_assoc.
Qed.

Lemma drop_digits_app l r : Forall (fun c => is_digit c = true) l -> stops r -> drop_digits (l ++ r) = r.
Proof.
  intros H S. induction H as [|c l Hc _ IH]; cbn [app drop_digits].
  - destruct r as [|c r]; [done|]. cbn in S |- *. by rewrite S.
  - by rewrite Hc.
Qed.

(** [%u] reads a printed octet and stops at what follows. *)
Lemma scan_u_octet o r : byte_ok o -> stops r -> scan_u (dec_u o ++ r) = Some (o, r).
Proof.
  unfold byte_ok. intros H S. pose proof (dec_u_digits o ltac:(lia)) as D.
  destruct (dec_u_nonempty o ltac:(lia)) as (c & l & E & Hc). unfold scan_u.
  assert (skip_space (dec_u o ++ r) = dec_u o ++ r) as -> by (rewrite E; cbn; by rewrite digit_not_space).
  assert (match dec_u o ++ r with 45 :: q => (true, q) | 43 :: q => (false, q) | _ => (false, dec_u o ++ r) end =
          (false, dec_u o ++ r)) as ->.
  { rewrite E. cbn [app]. unfold is_digit in Hc. repeat (case_match; try done; try lia). }
  rewrite E at 1. cbn [app]. rewrite Hc. rewrite digits_val_app, digits_val_dec_u, digits_val_stops by (done || lia).
  rewrite drop_digits_app by done. destruct (Z.ltb_spec 18446744073709551615 o); [lia|].
  do 2 f_equal. apply u32_small. unfold u32_ok. lia.
Qed.

(** Printed addresses are recognised. *)
Lemma looks_like_ipv4_ntop a : looks_like_ipv4 (inet_ntop a) = true.
Proof.
  pose proof (bytes_ok_le_enc 4 a) as B. pose proof (length_le_enc 4 a) as L. unfold inet_ntop, looks_like_ipv4.
  destruct (le_enc 4 a) as [|o0 [|o1 [|o2 [|o3 [|? ?]]]]]; try done.
  repeat match goal with H : Forall _ (_ :: _) |- _ => apply Forall_cons in H as [? H] end.
  rewrite scan_u_octet by done. cbn [mbind option_bind scan_dot]. rewrite scan_u_octet by done.
  cbn [mbind option_bind scan_dot]. rewrite scan_u_octet by done. cbn [mbind option_bind scan_dot].
  rewrite <- (app_nil_r (dec_u o3)), scan_u_octet by done. cbn [mbind option_bind length Nat.eqb andb].
  unfold byte_ok in *. repeat match goal with |- context [?x <=? 255] => destruct (Z.leb_spec x 255); [|lia] end. done.
Qed.

Lemma u16_atoi_dec p : 0 <= p < 65536 -> u16 (atoi (dec_u p)) = p.
Proof.
  intros H. unfold atoi. pose proof (atoll_dec_s p [] ltac:(lia)) as A.
  unfold dec_s in A. destruct (Z.ltb_spec p 0); [lia|]. rewrite app_nil_r in A. rewrite A by constructor.
  unfold s32. rewrite u32_small by (unfold u32_ok; lia). destruct (Z.ltb_spec p 2147483648); [|lia].
  apply u16_small. unfold u16_ok. lia.
Qed.

(** The waiter's usage with a relay, [ip port uuid ProxyIP ProxyPort], means to the
    demonstration client what its header says, wherever the options stand: no peer, that
    relay, the secret, the forced relay.  The earlier client, whose header gives the same
    usage, takes the relay's address for the identifier of a peer to connect to, and knows
    of no relay. *)
Theorem waiter_usage (ip port uuid secret : bytes) (relay p : Z) (l1 l2 : list bytes)
    (HU : plain ip /\ plain port /\ plain uuid) (HP : 0 < p < 65536)
    (HL : l1 ++ l2 = [ip; port; uuid; inet_ntop relay; dec_u p]) :
  (exists cfg, demo_config (l1 ++ bs "-s" :: secret :: bs "-relay" :: l2) = Some ([], cfg) /\
     ClientState.uuid cfg = uuid /\ ClientState.secret cfg = secret /\
     nat_servers cfg = [mkServer ip (u16 (atoi port))] /\
     proxy_servers cfg = [mkServer (inet_ntop relay) p] /\ force_relay cfg = true) /\
  (exists c, OldPeer.OldPeer.configure (l1 ++ l2) = Some c /\ OldPeerRuns.OldPeerRuns.initiates c = true /\
     OldPeer.OldPeer.peer_uuid c = inet_ntop relay /\ OldPeer.OldPeer.have_proxy c = false).
Proof.
  destruct HU as (U1 & U2 & U3). pose proof (looks_like_ipv4_ntop relay) as V.
  assert (exists o r, inet_ntop relay = o :: r /\ is_digit o = true) as (o & r & Ei & Hd).
  { pose proof (bytes_ok_le_enc 4 relay) as B. pose proof (length_le_enc 4 relay) as L. unfold inet_ntop.
    destruct (le_enc 4 relay) as [|o0 [|o1 [|o2 [|o3 [|? ?]]]]]; try done. apply Forall_cons in B as [B _].
    unfold byte_ok in B. destruct (dec_u_nonempty o0 ltac:(lia)) as (c & l & -> & D). by eexists c, _. }
  assert (Forall plain (l1 ++ l2)) as F.
  { rewrite HL, Ei. destruct (dec_u_nonempty p ltac:(lia)) as (c & l & -> & D).
    repeat (apply Forall_cons_2; [first [done|by apply digit_plain]|]). constructor. }
  apply Forall_app in F as [F1 F2]. split.
  - unfold demo_config. rewrite length_app. cbn [length]. rewrite split_options by done. cbn [pos secret_arg force app].
    destruct (Nat.ltb_spec (length l1 + S (S (S (length l2)))) 3); [lia|]. rewrite HL, V. cbn [negb proxies_of].
    rewrite u16_atoi_dec by lia. rewrite Ei. cbn [length Nat.eqb orb]. destruct (Z.eqb_spec p 0); [lia|].
    eexists. split; [reflexivity|]. done.
  - rewrite HL, Ei. eexists. split; [reflexivity|done].
Qed.

Lemma waiter_usage_witness :
  exists cfg, demo_config [bs "10.0.0.1"; bs "-s"; bs "k"; bs "-relay"; bs "7000"; bs "cam"; bs "1.2.3.4"; bs "7001"] =
    Some ([], cfg) /\ proxy_servers cfg = [mkServer (bs "1.2.3.4") 7001].
Proof.
  destruct (waiter_usage (bs "10.0.0.1") (bs "7000") (bs "cam") (bs "k") 67305985 7001 [bs "10.0.0.1"]
    [bs "7000"; bs "cam"; bs "1.2.3.4"; bs "7001"]) as [(cfg & H & _ & _ & _ & P & _) _].
  - by vm_compute; repeat split.
  - lia.
  - by vm_compute.
  - exists cfg. split; [exact H|]. rewrite P. by vm_compute.
Defined.

(** ** Replies *)

Definition is_reply (uuid : bytes) (c : call) : bool :=
  match c with Send _ _ data _ => bool_decide (data = reply uuid) | Connect _ => false end.

Lemma hello_no_reply uuid : hello uuid <> reply uuid.
Proof. done. Qed.

(** However many messages arrive, at most one is replied to, so that two such clients do not
    answer each other for ever. *)
Theorem replies_once (uuid peer : bytes) (evs : list event) (replied : bool) :
  (length (List.filter (is_reply uuid) (react_all uuid peer replied evs).2) <= if replied then 0 else 1)%nat.
Proof.
  revert replied. induction evs as [|ev evs IH]; intros replied; [by destruct replied; cbn; lia|]. cbn [react_all].
  destruct (react uuid peer replied ev) as [r1 c1] eqn:E. specialize (IH r1).
  destruct (react_all uuid peer r1 evs) as [r2 c2]. cbn [snd] in *. rewrite List.filter_app, length_app.
  enough (length (List.filter (is_reply uuid) c1) + (if r1 then 0 else 1) <= if replied then 0 else 1)%nat by lia.
  destruct ev; cbn [react] in E; injection E as <- <-; try (destruct replied; cbn; lia).
  - destruct (_ =? 0)%nat, replied; cbn; lia.
  - cbn [List.filter is_reply]. rewrite bool_decide_false by apply hello_no_reply. destruct replied; cbn; lia.
  - destruct replied; cbn [List.filter is_reply length]; [lia|]. rewrite bool_decide_true by done. cbn. lia.
Qed.

(** ** Printing *)

Definition view (s : ClientState.t) : shown := mkShown (nat_type (nat_type_ s)) (tunnel_enc_tx_ s) (tunnel_enc_rx_ s).

Lemma round_shows s w : (round s w).1 = view s /\ (view s = w -> (round s w).2 = []).
Proof.
  unfold round, view. cbn [fst snd]. split.
  - destruct (Z.eqb_spec (nat_type (nat_type_ s)) (last_nat w)), (Z.eqb_spec (tunnel_enc_tx_ s) (last_etx w)),
      (Z.eqb_spec (tunnel_enc_rx_ s) (last_erx w)); cbn [negb orb]; congruence.
  - intros <-. cbn [last_nat last_etx last_erx]. by rewrite !Z.eqb_refl.
Qed.

(** However long the client stays in one state, it is printed in the first round only, so
    the output grows with the changes and not with the rounds: leaving out the rounds that
    find the client as the round before leaves the output as it is. *)
Theorem loop_prints_changes (states1 states2 : list ClientState.t) (s : ClientState.t) (n : nat) (w : shown) :
  loop (states1 ++ s :: replicate n s ++ states2) w = loop (states1 ++ s :: states2) w.
Proof.
  revert w. induction states1 as [|s1 states1 IH]; intros w; cbn [app loop].
  - destruct (round s w) as [w' lines] eqn:E. f_equal. pose proof (round_shows s w) as [V _]. rewrite E in V.
    cbn [fst] in V. subst w'. clear E. induction n as [|n IHn]; [done|]. cbn [replicate app loop].
    destruct (round s (view s)) as [w' lines'] eqn:E. pose proof (round_shows s (view s)) as [V Q]. rewrite E in V, Q.
    cbn [fst snd] in V, Q. rewrite V, (Q eq_refl). exact IHn.
  - destruct (round s1 w) as [w' lines1]. f_equal. apply IH.
Qed.

End DemoPeer.
